(** * A paged B+Tree (buzzdb [BTree]): shallow embedding and verification

    The development follows [src/include/index/btree.h].  The class template
    [BTree<KeyT, ValueT, ComparatorT, PageSize>] never uses [ComparatorT]
    (keys are compared with the built-in [==], [<], [>], [>=]), and
    [LeafNode::get_value_vector] together with [LeafNode::insert] only
    type-check when [KeyT = ValueT = uint64_t]; keys, values and page
    identifiers are therefore 64-bit unsigned integers, embedded in [Z].
    On them the code only compares and copies, so no wrap-around arises;
    wrap-around is written out for the 16-, 32- and 64-bit counters on which
    the code does arithmetic. *)

From Stdlib Require Import ZArith List Lia Bool Sorted.
Import ListNotations.
Open Scope Z_scope.

(** ** Outcomes of running the code *)

(** [Fault] is an access outside an array (undefined behaviour of the C++
    code); [OutOfFuel] is the model's loop budget running out. *)
Inductive outcome (A : Type) : Type :=
| Done (a : A)
| Fault
| OutOfFuel.
Arguments Done {A} a.
Arguments Fault {A}.
Arguments OutOfFuel {A}.

Definition bind {A B} (m : outcome A) (k : A -> outcome B) : outcome B :=
  match m with
  | Done a => k a
  | Fault => Fault
  | OutOfFuel => OutOfFuel
  end.

Notation "x <- m ;; k" := (bind m (fun x => k))
  (at level 61, m at next level, right associativity).
Notation "' pat <- m ;; k" := (bind m (fun x => match x with pat => k end))
  (at level 61, pat pattern, m at next level, right associativity).

(** ** Machine integers *)

Definition wrap16 (z : Z) : Z := z mod 2 ^ 16.
Definition wrap32 (z : Z) : Z := z mod 2 ^ 32.
Definition wrap64 (z : Z) : Z := z mod 2 ^ 64.

(** [static constexpr uint32_t kCapacity = 42] (both node kinds). *)
Definition kCapacity : Z := 42.

(** ** Arrays inside a page *)

(** What a read of the slot just past the end of an array yields.  The
    arrays [keys], [values] and [children] are members of a struct that lies
    inside a larger page buffer, so that slot exists in memory although it is
    not part of the array: [None] treats the read as a fault (checked
    indexing), [Some j] lets it yield the word [j] found there.  Reads
    further out, and every write outside the array, are faults under both. *)
Class Slack := past_end : option Z.

Definition strict : Slack := None.
Definition page_slack (j : Z) : Slack := Some j.

Definition in_bounds (a : list Z) (i : Z) : bool :=
  (0 <=? i) && (i <? Z.of_nat (length a)).

Definition rd {sl : Slack} (a : list Z) (i : Z) : outcome Z :=
  if in_bounds a i then Done (nth (Z.to_nat i) a 0)
  else if i =? Z.of_nat (length a) then
         match past_end with Some j => Done j | None => Fault end
       else Fault.

Fixpoint upd (a : list Z) (i : nat) (x : Z) : list Z :=
  match a, i with
  | [], _ => []
  | _ :: t, O => x :: t
  | h :: t, S j => h :: upd t j x
  end.

Definition wr (a : list Z) (i : Z) (x : Z) : outcome (list Z) :=
  if in_bounds a i then Done (upd a (Z.to_nat i) x) else Fault.

(** Reading [n] consecutive elements starting at index [from]: the source
    range of [std::copy], [memcpy], [memmove] and of the vector constructors
    [std::vector(first, last)]. *)
Fixpoint read_range {sl : Slack} (a : list Z) (from : Z) (n : nat)
  : outcome (list Z) :=
  match n with
  | O => Done []
  | S m =>
      x <- rd a from ;;
      xs <- read_range a (from + 1) m ;;
      Done (x :: xs)
  end.

(** Writing the elements [vs] to consecutive slots starting at [from]: the
    destination range of the same operations. *)
Fixpoint write_range (a : list Z) (from : Z) (vs : list Z)
  : outcome (list Z) :=
  match vs with
  | [] => Done a
  | v :: rest =>
      a' <- wr a from v ;;
      write_range a' (from + 1) rest
  end.

(** [memmove(a + dst, a + src, n * sizeof(elem))] inside one array: the
    source range is read as a whole, then written. *)
Definition memmove {sl : Slack} (a : list Z) (dst src : Z) (n : Z)
  : outcome (list Z) :=
  vs <- read_range a src (Z.to_nat n) ;;
  write_range a dst vs.

(** ** [std::vector] operations used by the node code *)

(** [v[i] = x]; indexing a vector outside its size is a fault. *)
Definition vec_set (v : list Z) (i : Z) (x : Z) : outcome (list Z) := wr v i x.

(** [v.insert(v.begin() + i, x)], defined for [0 <= i <= v.size()]. *)
Definition vec_insert (v : list Z) (i : Z) (x : Z) : outcome (list Z) :=
  if (0 <=? i) && (i <=? Z.of_nat (length v))
  then Done (firstn (Z.to_nat i) v ++ x :: skipn (Z.to_nat i) v)
  else Fault.

Definition push_back (v : list Z) (x : Z) : list Z := v ++ [x].

(** The first [n] elements [v[0] .. v[n-1]] of a vector, each read with
    [operator[]]. *)
Definition vec_prefix (v : list Z) (n : Z) : outcome (list Z) :=
  if n <=? Z.of_nat (length v) then Done (firstn (Z.to_nat n) v) else Fault.

(** ** Pages and node headers *)

(** One page, seen through [struct Node] and its two derived structs.
    [InnerNode] and [LeafNode] have the same layout (the two 16-bit header
    fields, [keys[42]], then 42 64-bit words called [children] in the one and
    [values] in the other); the code moves between the views with
    [reinterpret_cast], so one record with two names for the second array
    represents the page. *)
Record Node : Type := mkNode {
  level : Z;          (* uint16_t level *)
  count : Z;          (* uint16_t count *)
  keys : list Z;      (* KeyT keys[kCapacity] *)
  payload : list Z    (* uint64_t children[kCapacity] / ValueT values[kCapacity] *)
}.

Definition children (n : Node) : list Z := payload n.
Definition values (n : Node) : list Z := payload n.

Definition is_leaf (n : Node) : bool := level n =? 0.

(** [keys] is followed in the struct by [values] (or [children]), and both
    hold 64-bit words: the slot just past the end of [keys] is the first
    slot of that array.  The slot past the second array lies outside the
    node, and holds whatever [past_end] says.  Only the two [memmove]s over
    [keys] can read [keys[kCapacity]]; every other read of a key in a node
    with [count <= kCapacity] is inside the array. *)
Definition after_keys {sl : Slack} (n : Node) : Slack :=
  match past_end with
  | Some _ => Some (nth 0 (payload n) 0)
  | None => None
  end.

Definition set_level (n : Node) (l : Z) : Node :=
  mkNode l (count n) (keys n) (payload n).
Definition set_count (n : Node) (c : Z) : Node :=
  mkNode (level n) c (keys n) (payload n).
Definition set_keys (n : Node) (ks : list Z) : Node :=
  mkNode (level n) (count n) ks (payload n).
Definition set_payload (n : Node) (p : list Z) : Node :=
  mkNode (level n) (count n) (keys n) p.

(** A page that was never written: all bytes zero. *)
Definition zero_page : Node :=
  mkNode 0 0 (repeat 0 (Z.to_nat kCapacity)) (repeat 0 (Z.to_nat kCapacity)).

(** ** Binary search, shared verbatim by [InnerNode] and [LeafNode] *)

(** The [while (start <= end)] loop; [start], [end_], [center] are
    [uint32_t].  [center - 1] is only computed when [center <> 0]. *)
Fixpoint lower_bound_loop {sl : Slack} (fuel : nat) (n : Node) (key : Z)
  (start end_ : Z) : outcome (Z * bool) :=
  match fuel with
  | O => OutOfFuel
  | S f =>
      if start <=? end_ then
        let center := wrap32 (start + wrap32 (end_ - start) / 2) in
        kc <- rd (keys n) center ;;
        if kc =? key then Done (center, true)
        else if kc <? key then
               lower_bound_loop f n key (wrap32 (center + 1)) end_
        else if center =? 0 then Done (center, true)
        else
          kp <- rd (keys n) (center - 1) ;;
          if kp <? key then Done (center, true)
          else lower_bound_loop f n key start (center - 1)
      else Done (count n, false)
  end.

Definition lower_bound_search {sl : Slack} (n : Node) (key : Z)
  : outcome (Z * bool) :=
  if count n =? 0 then Done (0, false)
  else lower_bound_loop (S (Z.to_nat (count n))) n key 0 (count n - 1).

(** ** [struct InnerNode] *)

Module InnerNode.
Section WithSlack.
Context {sl : Slack}.

Definition lower_bound (n : Node) (key : Z) : outcome (Z * bool) :=
  lower_bound_search n key.

(** [get_key_vector]: the first [count - 1] keys ([count] when it is 0). *)
Definition get_key_vector (n : Node) : outcome (list Z) :=
  let keyCount := if 0 <? count n then wrap16 (count n - 1) else count n in
  read_range (keys n) 0 (Z.to_nat keyCount).

(** [get_child_vector]: the first [count] children. *)
Definition get_child_vector (n : Node) : outcome (list Z) :=
  read_range (children n) 0 (Z.to_nat (count n)).

(** [void insert(const KeyT& key, uint64_t split_page)]. *)
Definition insert (n : Node) (key split_page : Z) : outcome Node :=
  '(insertPos, keyExists) <- lower_bound n key ;;
  childVec <- get_child_vector n ;;
  keyVec <- get_key_vector n ;;
  '(childVec', keyVec') <-
    (if count n =? 1 then Done (push_back childVec split_page, keyVec)
     else if keyExists : bool then
       keyTemp <- rd (keys n) insertPos ;;
       let posTemp := count n in
       if (key >? keyTemp) && (insertPos <? posTemp) then
         cv <- vec_set childVec insertPos split_page ;;
         Done (cv, keyVec)
       else
         kv <- vec_insert keyVec insertPos key ;;
         cv <- vec_insert childVec (insertPos + 1) split_page ;;
         Done (cv, kv)
     else Done (push_back childVec split_page, push_back keyVec key)) ;;
  let n1 := set_count n (wrap16 (count n + 1)) in
  cs <- write_range (children n1) 0 childVec' ;;
  ks <- write_range (keys n1) 0 keyVec' ;;
  Done (set_keys (set_payload n1 cs) ks).

(** [KeyT split(std::byte* buffer)]: returns the separator, the node
    itself after the split and the node built in [buffer].  The
    placement-new [new (buffer) InnerNode()] runs the constructor
    [Node(0, 0)] and leaves the arrays of the buffer as they are. *)
Definition split (n : Node) (buffer : Node) : outcome (Z * Node * Node) :=
  let right0 := set_count (set_level buffer 0) 0 in
  let split_point := count n / 2 in
  split_key <- rd (keys n) (wrap32 (split_point - 1)) ;;
  let right1 := set_count (set_level right0 (level n)) split_point in
  let tempNum := wrap32 (count n - split_point) in
  cs <- read_range (children n) split_point (Z.to_nat tempNum) ;;
  rcs <- write_range (children right1) 0 cs ;;
  ks <- read_range (keys n) split_point (Z.to_nat tempNum) ;;
  rks <- write_range (keys right1) 0 ks ;;
  Done (split_key, set_count n split_point,
        set_keys (set_payload right1 rcs) rks).

End WithSlack.
End InnerNode.

(** ** [struct LeafNode] *)

Module LeafNode.
Section WithSlack.
Context {sl : Slack}.

Definition lower_bound (n : Node) (key : Z) : outcome (Z * bool) :=
  lower_bound_search n key.

Definition get_key_vector (n : Node) : outcome (list Z) :=
  read_range (keys n) 0 (Z.to_nat (count n)).

Definition get_value_vector (n : Node) : outcome (list Z) :=
  read_range (values n) 0 (Z.to_nat (count n)).

(** [syncArrays]: [keys[i] = keyVec[i]; values[i] = valueVec[i]] for
    [i < count]. *)
Definition syncArrays (n : Node) (keyVec valueVec : list Z) : outcome Node :=
  kv <- vec_prefix keyVec (count n) ;;
  vv <- vec_prefix valueVec (count n) ;;
  ks <- write_range (keys n) 0 kv ;;
  vs <- write_range (values n) 0 vv ;;
  Done (set_payload (set_keys n ks) vs).

(** [void insert(const KeyT &key, const ValueT &value)]. *)
Definition insert (n : Node) (key value : Z) : outcome Node :=
  '(insertPos, keyExists) <- lower_bound n key ;;
  valueVec <- get_value_vector n ;;
  keyVec <- get_key_vector n ;;
  overwrite <-
    (if keyExists : bool then
       k <- rd (keys n) insertPos ;; Done (key >=? k)
     else Done false) ;;
  if overwrite : bool then
    vv <- vec_set valueVec insertPos value ;;
    syncArrays n keyVec vv
  else
    '(kv, vv) <-
      (if keyExists then
         kv <- vec_insert keyVec insertPos key ;;
         vv <- vec_insert valueVec insertPos value ;;
         Done (kv, vv)
       else Done (push_back keyVec key, push_back valueVec value)) ;;
    syncArrays (set_count n (wrap16 (count n + 1))) kv vv.

(** [locateKeyPosition]: [position] is [this->count - 1] (converted to
    [uint32_t]) when the search fails; [keys[position]] is read only when
    the search succeeded. *)
Definition locateKeyPosition (n : Node) (keyToLocate : Z)
  : outcome (bool * Z) :=
  '(first, second) <- lower_bound n keyToLocate ;;
  let position := if second : bool then first else wrap32 (count n - 1) in
  if second then
    k <- rd (keys n) position ;;
    Done (k =? keyToLocate, position)
  else Done (false, position).

(** [moveDataToLeftFrom]: two [memmove]s of [count - startIndex]
    elements from [startIndex + 1] to [startIndex], then [--count]. *)
Definition moveDataToLeftFrom (n : Node) (startIndex : Z) : outcome Node :=
  let len := wrap32 (count n - startIndex) in
  ks <- memmove (sl := after_keys n) (keys n) startIndex (startIndex + 1)
          len ;;
  vs <- memmove (values n) startIndex (startIndex + 1) len ;;
  Done (set_count (set_payload (set_keys n ks) vs) (wrap16 (count n - 1))).

(** [void erase(const KeyT &key)]; the flag tells whether the node was
    written. *)
Definition erase (n : Node) (key : Z) : outcome (Node * bool) :=
  '(isKeyPresent, idx) <- locateKeyPosition n key ;;
  if isKeyPresent : bool then
    n' <- moveDataToLeftFrom n idx ;; Done (n', true)
  else Done (n, false).

(** [createAndInitializeLeaf]: the buffer is reinterpreted, not
    constructed, so only its [count] is written. *)
Definition createAndInitializeLeaf (n : Node) (buffer : Node) (half : Z)
  : Node * Node :=
  (set_count n (wrap16 (count n - half)), set_count buffer (wrap16 half)).

(** [transferDataToNewLeaf], called after [this->count] was lowered. *)
Definition transferDataToNewLeaf (n : Node) (startPoint : Z) (leaf : Node)
  : outcome Node :=
  vs <- read_range (values n) (count n) (Z.to_nat (startPoint + 1)) ;;
  lvs <- write_range (values leaf) 0 vs ;;
  ks <- read_range (keys n) (count n) (Z.to_nat startPoint) ;;
  lks <- write_range (keys leaf) 0 ks ;;
  Done (set_keys (set_payload leaf lvs) lks).

(** [KeyT split(std::byte* buffer)]: [halfPoint] is an [int], computed
    with C++'s truncating division; the separator is read after the
    counts were set and before the data is copied. *)
Definition split (n : Node) (buffer : Node) : outcome (Z * Node * Node) :=
  let halfPoint := Z.quot (count n - 1) 2 in
  let '(n1, newLeaf) := createAndInitializeLeaf n buffer halfPoint in
  separatorKey <- rd (keys n1) (halfPoint + 1) ;;
  newLeaf' <- transferDataToNewLeaf n1 halfPoint newLeaf ;;
  Done (separatorKey, n1, newLeaf').

End WithSlack.
End LeafNode.

(** ** The buffer manager, at its interface *)

(** What the tree asks of the buffer manager, in program order.  A
    [BufferFrame*] is identified with the identifier of the page it holds. *)
Inductive Event : Type :=
| FixPage (page_id : Z) (exclusive : bool)
| UnfixPage (page_id : Z) (is_dirty : bool)
| WritePage (page_id : Z).

(** ** [struct BTree] *)

Module BTree.

(** The tree object together with the pages behind its buffer manager.
    [frames] gives the content of every page ([BufferFrame::get_data]);
    [events] is the history of buffer-manager calls and page writes, most
    recent first. *)
Record t : Type := mk {
  frames : Z -> Node;
  root : option Z;          (* std::optional<uint64_t> root *)
  next_page_id : Z;         (* uint64_t next_page_id *)
  events : list Event
}.

Definition log (e : Event) (b : t) : t :=
  mk (frames b) (root b) (next_page_id b) (e :: events b).

Definition fix_page (b : t) (page_id : Z) (exclusive : bool) : t :=
  log (FixPage page_id exclusive) b.

Definition unfix_page (b : t) (frame : Z) (is_dirty : bool) : t :=
  log (UnfixPage frame is_dirty) b.

(** A write through a node pointer into the page held by [frame]. *)
Definition store (b : t) (frame : Z) (n : Node) : t :=
  mk (fun q => if q =? frame then n else frames b q)
     (root b) (next_page_id b) (WritePage frame :: events b).

Definition set_root (b : t) (r : Z) : t :=
  mk (frames b) (Some r) (next_page_id b) (events b).

(** [next_page_id++]: yields the old value. *)
Definition fresh_page_id (b : t) : Z * t :=
  (next_page_id b,
   mk (frames b) (root b) (wrap64 (next_page_id b + 1)) (events b)).

(** The constructor: [root] empty, [next_page_id = 1]; every page of the
    segment is zero-filled. *)
Definition create : t := mk (fun _ => zero_page) None 1 [].

Section WithSlack.
Context {sl : Slack}.

(** [std::optional<ValueT> lookup(const KeyT &key)]. *)
Fixpoint lookup_loop (fuel : nat) (b : t) (currentFrame : Z) (key : Z)
  : outcome (option Z * t) :=
  match fuel with
  | O => OutOfFuel
  | S f =>
      let currentNode := frames b currentFrame in
      if negb (is_leaf currentNode) then
        '(idx, exactMatch) <- InnerNode.lower_bound currentNode key ;;
        let idx := if exactMatch : bool then idx
                   else wrap32 (count currentNode - 1) in
        nextPageId <- rd (children currentNode) idx ;;
        let b1 := fix_page b nextPageId false in
        let b2 := unfix_page b1 currentFrame false in
        lookup_loop f b2 nextPageId key
      else
        '(valueIdx, found) <- LeafNode.lower_bound currentNode key ;;
        let b1 := unfix_page b currentFrame false in
        if found : bool then
          k <- rd (keys currentNode) valueIdx ;;
          if k =? key then
            v <- rd (values currentNode) valueIdx ;; Done (Some v, b1)
          else Done (None, b1)
        else Done (None, b1)
  end.

Definition lookup (fuel : nat) (b : t) (key : Z) : outcome (option Z * t) :=
  match root b with
  | None => Done (None, b)
  | Some r => lookup_loop fuel (fix_page b r false) r key
  end.

(** [get_initial_node] *)
Definition get_initial_node (b : t) (pageID : Z) : Z * t :=
  (pageID, fix_page b pageID false).

(** [navigate_to_child] *)
Definition navigate_to_child (b : t) (key : Z) (current : Z)
  : outcome (Z * t) :=
  let inner := frames b current in
  '(childIdx, exactMatch) <- InnerNode.lower_bound inner key ;;
  let childIdx := if exactMatch : bool then childIdx
                  else wrap32 (count inner - 1) in
  nextPage <- rd (children inner) childIdx ;;
  let b1 := unfix_page b current false in
  Done (get_initial_node b1 nextPage).

(** [remove_from_parent]; [temp] is an [unsigned int]. *)
Definition remove_from_parent (b : t) (key : Z) (parent : Z) : outcome t :=
  let parentNode := frames b parent in
  '(parentIdx, found) <- InnerNode.lower_bound parentNode key ;;
  matched <-
    (if found : bool then
       k <- rd (keys parentNode) parentIdx ;; Done (k =? key)
     else Done false) ;;
  if matched : bool then
    let temp := wrap32 (count parentNode - parentIdx) in
    ks <- memmove (sl := after_keys parentNode) (keys parentNode) parentIdx
            (parentIdx + 1) temp ;;
    cs <- memmove (children parentNode) parentIdx (parentIdx + 1) temp ;;
    Done (store b parent
            (set_count (set_payload (set_keys parentNode ks) cs)
               (wrap16 (count parentNode - 1))))
  else Done b.

(** The [while (!current->is_leaf())] loop of [erase]. *)
Fixpoint erase_descend (fuel : nat) (b : t) (current : Z) (parent : option Z)
  (key : Z) : outcome (Z * option Z * t) :=
  match fuel with
  | O => OutOfFuel
  | S f =>
      if negb (is_leaf (frames b current)) then
        '(child, b1) <- navigate_to_child b key current ;;
        erase_descend f b1 child (Some current) key
      else Done (current, parent, b)
  end.

(** [void erase(const KeyT &key)]. *)
Definition erase (fuel : nat) (b : t) (key : Z) : outcome t :=
  match root b with
  | None => Done b
  | Some r =>
      let '(current0, b0) := get_initial_node b r in
      '(current, parent, b1) <- erase_descend fuel b0 current0 None key ;;
      '(leaf', written) <- LeafNode.erase (frames b1 current) key ;;
      let b2 := if written : bool then store b1 current leaf' else b1 in
      b3 <-
        (match parent with
         | Some p =>
             if count (frames b2 current) <=? 0
             then remove_from_parent b2 key p
             else Done b2
         | None => Done b2
         end) ;;
      Done (unfix_page b3 current true)
  end.

(** The block shared by the two split branches of [insert] when there is
    no parent: a new root page is allocated and fixed, its level set, and
    the separator inserted twice, once per child. *)
Definition promote_root (b : t) (new_level : Z) (splitKey newID : Z)
  : outcome (Z * t) :=
  match root b with
  | None => Fault
  | Some oldID =>
      let '(r, b1) := fresh_page_id b in
      let b2 := set_root b1 r in
      let b3 := fix_page b2 r true in
      let rootAsInner := set_level (frames b3 r) new_level in
      n1 <- InnerNode.insert rootAsInner splitKey oldID ;;
      n2 <- InnerNode.insert n1 splitKey newID ;;
      Done (r, store b3 r n2)
  end.

(** One iteration of the [while (true)] loop of [insert].  The result is
    either the final state (the [return]) or the loop variables for the
    next iteration: [currentBuffer], [parentBuffer], [currentIsDirty],
    [parentIsDirty]. *)
Definition insert_iter (b : t) (key value : Z)
  (currentBuffer : Z) (parentBuffer : option Z)
  (currentIsDirty parentIsDirty : bool)
  : outcome (t + (t * Z * option Z * bool * bool)) :=
  let currentNode := frames b currentBuffer in
  if is_leaf currentNode then
    if count currentNode <? 42 then
      leaf' <- LeafNode.insert currentNode key value ;;
      let b1 := store b currentBuffer leaf' in
      let b2 := unfix_page b1 currentBuffer true in
      let b3 := match parentBuffer with
                | Some p => unfix_page b2 p parentIsDirty
                | None => b2
                end in
      Done (inl b3)
    else
      let '(newLeafID, b1) := fresh_page_id b in
      let b2 := fix_page b1 newLeafID true in
      '(splitKey, leaf', newLeaf) <-
        LeafNode.split currentNode (frames b2 newLeafID) ;;
      let b3 := store (store b2 newLeafID newLeaf) currentBuffer leaf' in
      '(parent', parentIsDirty', b4) <-
        (match parentBuffer with
         | None =>
             '(r, b') <- promote_root b3 1 splitKey newLeafID ;;
             Done (r, true, b')
         | Some p =>
             parentNode <- InnerNode.insert (frames b3 p) splitKey newLeafID ;;
             Done (p, true, store b3 p parentNode)
         end) ;;
      let b5 := unfix_page b4
                  (if key <? splitKey then newLeafID else currentBuffer)
                  true in
      let current' := if key >=? splitKey then newLeafID
                      else currentBuffer in
      Done (inr (b5, current', Some parent', true, parentIsDirty'))
  else
    if count currentNode =? 42 then
      let '(newInnerID, b1) := fresh_page_id b in
      let b2 := fix_page b1 newInnerID true in
      '(splitKey, inner', newInner) <-
        InnerNode.split currentNode (frames b2 newInnerID) ;;
      let b3 := store (store b2 newInnerID newInner) currentBuffer inner' in
      '(parent', parentIsDirty', b4) <-
        (match parentBuffer with
         | None =>
             '(r, b') <- promote_root b3 (wrap16 (level inner' + 1))
                           splitKey newInnerID ;;
             Done (r, parentIsDirty, b')
         | Some p =>
             parentNode <- InnerNode.insert (frames b3 p) splitKey newInnerID ;;
             Done (p, true, store b3 p parentNode)
         end) ;;
      let b5 := unfix_page b4
                  (if key <? splitKey then newInnerID else currentBuffer)
                  true in
      let current' := if key >=? splitKey then newInnerID
                      else currentBuffer in
      Done (inr (b5, current', Some parent', true, parentIsDirty'))
    else
      '(first, second) <- InnerNode.lower_bound currentNode key ;;
      childID <- rd (children currentNode)
                   (if second : bool then first else count currentNode - 1) ;;
      let b1 := match parentBuffer with
                | Some p => unfix_page b p parentIsDirty
                | None => b
                end in
      let b2 := fix_page b1 childID true in
      Done (inr (b2, childID, Some currentBuffer,
                 currentIsDirty, parentIsDirty)).

Fixpoint insert_loop (fuel : nat) (b : t) (key value : Z)
  (currentBuffer : Z) (parentBuffer : option Z)
  (currentIsDirty parentIsDirty : bool) : outcome t :=
  match fuel with
  | O => OutOfFuel
  | S f =>
      r <- insert_iter b key value currentBuffer parentBuffer
             currentIsDirty parentIsDirty ;;
      match r with
      | inl b' => Done b'
      | inr (b', c, p, cd, pd) => insert_loop f b' key value c p cd pd
      end
  end.

(** [void insert(const KeyT& key, const ValueT& value)]. *)
Definition insert (fuel : nat) (b : t) (key value : Z) : outcome t :=
  let b0 := match root b with
            | Some _ => b
            | None => mk (frames b) (Some 0) 1 (events b)
            end in
  match root b0 with
  | None => Fault
  | Some r =>
      insert_loop fuel (fix_page b0 r true) key value r None false false
  end.

End WithSlack.
End BTree.

(** ** Running sequences of operations, and observing a tree *)

Section Observers.
Context {sl : Slack}.

Definition insert_all (fuel : nat) (b : BTree.t) (kvs : list (Z * Z))
  : outcome BTree.t :=
  fold_left (fun acc kv => b' <- acc ;; BTree.insert fuel b' (fst kv) (snd kv))
    kvs (Done b).

Definition erase_all (fuel : nat) (b : BTree.t) (ks : list Z)
  : outcome BTree.t :=
  fold_left (fun acc k => b' <- acc ;; BTree.erase fuel b' k) ks (Done b).

(** The value [lookup] returns, without the state. *)
Definition lookup_value (fuel : nat) (b : BTree.t) (key : Z)
  : outcome (option Z) :=
  '(v, _) <- BTree.lookup fuel b key ;; Done v.

(** The (key, value) pairs of the leaves below a page, left to right. *)
Fixpoint entries_from (fuel : nat) (b : BTree.t) (page : Z)
  : outcome (list (Z * Z)) :=
  match fuel with
  | O => OutOfFuel
  | S f =>
      let n := BTree.frames b page in
      if is_leaf n then
        ks <- LeafNode.get_key_vector n ;;
        vs <- LeafNode.get_value_vector n ;;
        Done (combine ks vs)
      else
        cs <- InnerNode.get_child_vector n ;;
        fold_left (fun acc c =>
                     l <- acc ;; l' <- entries_from f b c ;; Done (l ++ l'))
          cs (Done [])
  end.

Definition entries (fuel : nat) (b : BTree.t) : outcome (list (Z * Z)) :=
  match BTree.root b with
  | None => Done []
  | Some r => entries_from fuel b r
  end.

End Observers.

Definition zrange (from : Z) (n : nat) : list Z :=
  map (fun i => from + Z.of_nat i) (seq 0 n).

(** The events an operation adds to the history of a state. *)
Definition forget_events (b : BTree.t) : BTree.t :=
  BTree.mk (BTree.frames b) (BTree.root b) (BTree.next_page_id b) [].

Definition history (b : BTree.t) : list Event := rev (BTree.events b).

(** ** The pin discipline, read off a history (oldest event first) *)

(** The dirty flag of the first [unfix_page] of [page] in [h], if any. *)
Fixpoint next_unfix (page : Z) (h : list Event) : option bool :=
  match h with
  | [] => None
  | UnfixPage p d :: r => if p =? page then Some d else next_unfix page r
  | _ :: r => next_unfix page r
  end.

(** Every write to a page is followed by an [unfix_page] of that page, and
    the first one after the write passes [is_dirty = true]. *)
Fixpoint writes_released_dirty (h : list Event) : bool :=
  match h with
  | [] => true
  | WritePage p :: r =>
      match next_unfix p r with
      | Some true => writes_released_dirty r
      | _ => false
      end
  | _ :: r => writes_released_dirty r
  end.

Fixpoint unpin (page : Z) (pinned : list Z) : list Z :=
  match pinned with
  | [] => []
  | p :: r => if p =? page then r else p :: unpin page r
  end.

(** Every write goes to a page that is fixed at that moment. *)
Fixpoint writes_while_pinned (pinned : list Z) (h : list Event) : bool :=
  match h with
  | [] => true
  | FixPage p _ :: r => writes_while_pinned (p :: pinned) r
  | UnfixPage p _ :: r => writes_while_pinned (unpin p pinned) r
  | WritePage p :: r =>
      existsb (Z.eqb p) pinned && writes_while_pinned pinned r
  end.

(** No write and no [unfix_page] with [is_dirty = true]. *)
Definition read_only (h : list Event) : bool :=
  forallb (fun e => match e with
                    | UnfixPage _ true => false
                    | WritePage _ => false
                    | _ => true
                    end) h.

(** No key occurs twice. *)
Fixpoint distinct (l : list Z) : bool :=
  match l with
  | [] => true
  | k :: r => negb (existsb (Z.eqb k) r) && distinct r
  end.

(** The state after [lookup] differs from the state before only by
    history entries, none of which is a write or a dirty release. *)
Definition only_reads (b b' : BTree.t) : Prop :=
  BTree.frames b' = BTree.frames b /\ BTree.root b' = BTree.root b /\
  BTree.next_page_id b' = BTree.next_page_id b /\
  exists new, BTree.events b' = new ++ BTree.events b /\
              read_only new = true.

(** ** Pins: the pages fixed and not yet released *)

(** The effect of one event on the pages that are fixed, each listed once
    per outstanding [fix_page]; nothing if a page is released that is not
    fixed. *)
Definition pin_step (pinned : list Z) (e : Event) : option (list Z) :=
  match e with
  | FixPage p _ => Some (p :: pinned)
  | UnfixPage p _ =>
      if existsb (Z.eqb p) pinned then Some (unpin p pinned) else None
  | WritePage _ => Some pinned
  end.

(** The pages fixed after the history [h] (oldest event first). *)
Fixpoint pins_after (pinned : list Z) (h : list Event) : option (list Z) :=
  match h with
  | [] => Some pinned
  | e :: r =>
      match pin_step pinned e with
      | Some pinned' => pins_after pinned' r
      | None => None
      end
  end.

(** The largest number of pages fixed at the same time during [h]. *)
Fixpoint peak_pins (pinned : list Z) (h : list Event) : nat :=
  match h with
  | [] => length pinned
  | e :: r =>
      match pin_step pinned e with
      | Some pinned' => Nat.max (length pinned) (peak_pins pinned' r)
      | None => length pinned
      end
  end.

(** Every [fix_page] of [h] passes [exclusive = mode]. *)
Definition fixes_with (mode : bool) (h : list Event) : bool :=
  forallb (fun e => match e with
                    | FixPage _ x => Bool.eqb x mode
                    | _ => true
                    end) h.

(** The pages written in [h]. *)
Definition written_pages (h : list Event) : list Z :=
  flat_map (fun e => match e with WritePage p => [p] | _ => [] end) h.

(** What an operation adds to the history, oldest event first. *)
Definition adds (b b' : BTree.t) (new : list Event) : Prop :=
  BTree.events b' = rev new ++ BTree.events b.

(** A stretch of history that starts with the pages [pinned] fixed and
    ends with [pinned'] fixed: no page is released that is not fixed, at
    most [n] pages are fixed at a time, every write goes to a fixed page,
    and every [fix_page] passes [exclusive = mode]. *)
Definition pinned_run (mode : bool) (n : nat) (pinned : list Z)
  (h : list Event) (pinned' : list Z) : Prop :=
  pins_after pinned h = Some pinned' /\
  (peak_pins pinned h <= n)%nat /\
  writes_while_pinned pinned h = true /\
  fixes_with mode h = true.

(** The pages the loop of [insert] holds between two iterations: the
    current page and the parent, if any. *)
Definition pins_of (pinned : list Z) (current : Z) (parent : option Z)
  : Prop :=
  match parent with
  | None => pinned = [current]
  | Some p => pinned = [current; p] \/ pinned = [p; current]
  end.

(** The number of [fix_page] calls in [h]. *)
Definition fix_count (h : list Event) : nat :=
  length (filter (fun e => match e with FixPage _ _ => true | _ => false end)
            h).

(** ** Node invariants and the contract of the binary search *)

Definition key_at (n : Node) (i : Z) : Z := nth (Z.to_nat i) (keys n) 0.
Definition payload_at (n : Node) (i : Z) : Z := nth (Z.to_nat i) (payload n) 0.

(** The arrays have their declared size [kCapacity]. *)
Definition array_shape (n : Node) : Prop :=
  length (keys n) = Z.to_nat kCapacity /\
  length (payload n) = Z.to_nat kCapacity.

(** Strictly increasing lists, as a test. *)
Fixpoint increasing (l : list Z) : bool :=
  match l with
  | a :: (b :: _) as t => (a <? b) && increasing t
  | _ => true
  end.

(** [keys[0..upto)] strictly increasing. *)
Definition keys_increasing (n : Node) (upto : Z) : Prop :=
  increasing (firstn (Z.to_nat upto) (keys n)) = true.

(** The same, by positions. *)
Definition keys_ordered (n : Node) (upto : Z) : Prop :=
  forall i j, 0 <= i < j -> j < upto -> key_at n i < key_at n j.

(** [i] is the first index in [[0, count)] whose key is [>= key], or
    [count] when every key is smaller. *)
Definition first_not_less (n : Node) (key i : Z) : Prop :=
  0 <= i <= count n /\
  (forall j, 0 <= j < i -> key_at n j < key) /\
  (i < count n -> key <= key_at n i).

(** The search result as the specification words it: the flag tells
    whether [key] itself sits at the returned position. *)
Definition lower_bound_as_stated (n : Node) (key : Z)
  (r : outcome (Z * bool)) : Prop :=
  exists i b, r = Done (i, b) /\ first_not_less n key i /\
              (b = true <-> (i < count n /\ key_at n i = key)).

(** The search result as the code computes it: the flag tells whether the
    returned position is inside the node. *)
Definition lower_bound_contract (n : Node) (key : Z)
  (r : outcome (Z * bool)) : Prop :=
  exists i b, r = Done (i, b) /\ first_not_less n key i /\
              (b = true <-> i < count n).

(** A leaf page holding the given pairs, the unused slots zero. *)
Definition pad (l : list Z) : list Z :=
  l ++ repeat 0 (Z.to_nat kCapacity - length l).

Definition leaf_of (kvs : list (Z * Z)) : Node :=
  mkNode 0 (Z.of_nat (length kvs)) (pad (map fst kvs)) (pad (map snd kvs)).

(** An inner page of the given level with the given separators and
    children, the unused slots zero. *)
Definition inner_of (lvl : Z) (seps cs : list Z) : Node :=
  mkNode lvl (Z.of_nat (length cs)) (pad seps) (pad cs).

(** ** What a node holds *)

(** The keys and values of a leaf: the first [count] slots. *)
Definition leaf_keys (n : Node) : list Z :=
  firstn (Z.to_nat (count n)) (keys n).
Definition leaf_values (n : Node) : list Z :=
  firstn (Z.to_nat (count n)) (values n).
Definition leaf_entries (n : Node) : list (Z * Z) :=
  combine (leaf_keys n) (leaf_values n).

(** The children of an inner node (the first [count] slots) and its
    separators (the first [count - 1] keys), as [get_child_vector] and
    [get_key_vector] return them. *)
Definition inner_children (n : Node) : list Z :=
  firstn (Z.to_nat (count n)) (children n).
Definition inner_keys (n : Node) : list Z :=
  firstn (Z.to_nat (count n - 1)) (keys n).

(** ** Splitting, as the specification words it *)

(** Each key of [before] is in exactly one of [l] and [r]. *)
Definition in_exactly_one (before l r : list Z) : Prop :=
  forall k, In k before ->
            (In k l /\ ~ In k r) \/ (~ In k l /\ In k r).

Definition leaf_split_as_stated (n : Node) (res : outcome (Z * Node * Node))
  : Prop :=
  exists sep l r,
    res = Done (sep, l, r) /\
    in_exactly_one (leaf_keys n) (leaf_keys l) (leaf_keys r) /\
    1 <= count l /\ 1 <= count r /\
    count l = (count n - 1) / 2 /\
    (forall k, In k (leaf_keys l) -> k < sep) /\
    (forall k, In k (leaf_keys r) -> sep <= k).

Definition inner_split_as_stated (n : Node) (res : outcome (Z * Node * Node))
  : Prop :=
  exists sep l r,
    res = Done (sep, l, r) /\
    in_exactly_one (inner_keys n) (inner_keys l) (inner_keys r) /\
    1 <= count l /\ 1 <= count r /\
    (forall k, In k (inner_keys l) -> k < sep) /\
    (forall k, In k (inner_keys r) -> sep <= k).

(** Splitting, as the code does it.  A leaf hands the upper
    [(count - 1) / 2] entries to the new page and keeps the rest; the
    separator is the largest key it keeps. *)
Definition leaf_split_contract (n : Node) (res : outcome (Z * Node * Node))
  : Prop :=
  exists sep l r,
    res = Done (sep, l, r) /\
    count r = (count n - 1) / 2 /\
    count l = count n - (count n - 1) / 2 /\
    1 <= count l /\ 1 <= count r /\
    leaf_keys l ++ leaf_keys r = leaf_keys n /\
    leaf_entries l ++ leaf_entries r = leaf_entries n /\
    in_exactly_one (leaf_keys n) (leaf_keys l) (leaf_keys r) /\
    In sep (leaf_keys l) /\
    (forall k, In k (leaf_keys l) -> k <= sep) /\
    (forall k, In k (leaf_keys r) -> sep < k).

(** An inner node hands the upper half of its children and the separators
    between them to the new page; the separator between the two halves is
    returned and is a separator of neither. *)
Definition inner_split_contract (n : Node) (res : outcome (Z * Node * Node))
  : Prop :=
  exists sep l r,
    res = Done (sep, l, r) /\
    count l = count n / 2 /\ count r = count n / 2 /\
    1 <= count l /\ 1 <= count r /\
    level l = level n /\ level r = level n /\
    inner_children l ++ inner_children r = inner_children n /\
    inner_keys l ++ sep :: inner_keys r = inner_keys n /\
    (forall k, In k (inner_keys l) -> k < sep) /\
    (forall k, In k (inner_keys r) -> sep < k).

(** [l] with [x] put in front of position [i]. *)
Definition list_insert_at (i : Z) (x : Z) (l : list Z) : list Z :=
  firstn (Z.to_nat i) l ++ x :: skipn (Z.to_nat i) l.

(** ** The shape of a tree in the page store *)

(** [c] is an allocated page one level below [lvl]. *)
Definition child_ok (b : BTree.t) (lvl c : Z) : Prop :=
  0 <= c < BTree.next_page_id b /\ level (BTree.frames b c) = lvl - 1.

(** Page [p] is a well-formed node of level at most [h]: the arrays have
    their size, the count is within the capacity, and an inner node has at
    least one child, all its children being pages of the level below. *)
Definition page_ok (b : BTree.t) (h p : Z) : Prop :=
  let n := BTree.frames b p in
  array_shape n /\ 0 <= level n <= h /\ 0 <= count n <= kCapacity /\
  (level n <> 0 ->
   1 <= count n /\
   forall i, 0 <= i < count n -> child_ok b (level n) (payload_at n i)).

(** Every allocated page is well formed; the pages not yet allocated are
    zero-filled. *)
Definition pages_ok (b : BTree.t) (h : Z) : Prop :=
  0 <= BTree.next_page_id b /\
  (forall p, 0 <= p < BTree.next_page_id b -> page_ok b h p) /\
  (forall p, BTree.next_page_id b <= p -> BTree.frames b p = zero_page).

(** A tree of height [h + 1]: the root is an allocated page of level [h]. *)
Definition structure_ok (b : BTree.t) (h : Z) : Prop :=
  pages_ok b h /\
  exists r, BTree.root b = Some r /\ 0 <= r < BTree.next_page_id b /\
            level (BTree.frames b r) = h.

(** The state between two iterations of the loop of [insert]: the parent,
    if any, is one level above the current node, and not both are full;
    without parent the current node is the root. *)
Definition loop_ok (b : BTree.t) (h : Z) (current : Z) (parent : option Z)
  : Prop :=
  structure_ok b h /\
  0 <= current < BTree.next_page_id b /\
  match parent with
  | None => BTree.root b = Some current
  | Some p =>
      0 <= p < BTree.next_page_id b /\
      level (BTree.frames b p) = level (BTree.frames b current) + 1 /\
      (count (BTree.frames b p) < kCapacity \/
       count (BTree.frames b current) < kCapacity)
  end.

(** An upper bound on the iterations the loop of [insert] still needs. *)
Definition steps_needed (n : Node) : Z :=
  2 * level n + (if count n <? kCapacity then 1 else 2).

(** Whether the next iteration creates a new root. *)
Definition promotes (n : Node) (parent : option Z) : bool :=
  match parent with
  | None => negb (count n <? kCapacity)
  | Some _ => false
  end.

(** What the shape argument needs of a split of [n] into [l] and [r]. *)
Definition split_ok (n l r : Node) : Prop :=
  array_shape l /\ array_shape r /\
  level l = level n /\ level r = level n /\
  1 <= count l < kCapacity /\ 1 <= count r < kCapacity /\
  (forall i, 0 <= i < count l ->
             exists i', 0 <= i' < count n /\
                        payload_at l i = payload_at n i') /\
  (forall i, 0 <= i < count r ->
             exists i', 0 <= i' < count n /\
                        payload_at r i = payload_at n i').

(** The cost of one insert in page identifiers, for trees of height below
    [2^16]. *)
Definition pages_per_insert : Z := 4 * 65536 + 4.


(** The child of an inner node that covers [key]: the first child whose
    separator is [>= key], or the last child. *)
Definition covering_child (n : Node) (key c : Z) : Prop :=
  0 <= c < count n /\
  (forall j, 0 <= j < c -> key_at n j < key) /\
  (c < count n - 1 -> key <= key_at n c).

(** ** The limits of the counters *)

(** The level of the root page; 0 for a tree without root. *)
Definition height (b : BTree.t) : Z :=
  match BTree.root b with
  | Some r => level (BTree.frames b r)
  | None => 0
  end.

(** The state has reached a limit of the machine: the root is at the
    highest level a [uint16_t] holds, or the 64-bit page counter is within
    [4 * height + 4] of wrapping around, or the loop budget is below the
    [2 * height + 2] iterations an [insert] may need. *)
Definition at_limit (fuel : nat) (b : BTree.t) : Prop :=
  Z.of_nat fuel < 2 * height b + 2 \/
  65535 <= height b \/
  18446744073709551616 <= BTree.next_page_id b + 4 * height b + 4.

(** ** The new root, as the specification words it *)


(** ** Key ranges and the content of a tree *)

(** A bound of a key range; [None] is "unbounded". *)
Definition bound : Type := option Z.

Definition above (lo : bound) (k : Z) : Prop :=
  match lo with None => True | Some a => a < k end.

Definition upto (hi : bound) (k : Z) : Prop :=
  match hi with None => True | Some c => k <= c end.

(** The range [(lo, hi]]: the code keeps the keys [<=] a separator to its
    left and the keys [>] it to its right. *)
Definition in_range (r : bound * bound) (k : Z) : Prop :=
  above (fst r) k /\ upto (snd r) k.

(** The range of child [i] of an inner node [n] whose own range is [r]. *)
Definition child_range (r : bound * bound) (n : Node) (i : Z)
  : bound * bound :=
  (if i =? 0 then fst r else Some (key_at n (i - 1)),
   if i =? count n - 1 then snd r else Some (key_at n i)).

(** A leaf within range [r]: strictly increasing keys, all in [r]. *)
Definition leaf_ranged (n : Node) (r : bound * bound) : Prop :=
  keys_ordered n (count n) /\
  forall i, 0 <= i < count n -> in_range r (key_at n i).

(** An inner page within its range: at least two children, strictly
    increasing separators inside the range, and every child has the range
    the separators around it give. *)
Definition inner_ranged (b : BTree.t) (rng : Z -> bound * bound) (p : Z)
  : Prop :=
  let n := BTree.frames b p in
  2 <= count n /\
  keys_ordered n (count n - 1) /\
  (forall i, 0 <= i < count n - 1 -> in_range (rng p) (key_at n i)) /\
  forall i, 0 <= i < count n ->
            rng (payload_at n i) = child_range (rng p) n i.

Definition ranges_ok (b : BTree.t) (rng : Z -> bound * bound) : Prop :=
  forall p, 0 <= p < BTree.next_page_id b ->
            (level (BTree.frames b p) = 0 ->
             leaf_ranged (BTree.frames b p) (rng p)) /\
            (level (BTree.frames b p) <> 0 -> inner_ranged b rng p).

(** Two pages of the same level share no key of their ranges. *)
Definition levels_disjoint (b : BTree.t) (rng : Z -> bound * bound) : Prop :=
  forall p q k,
    0 <= p < BTree.next_page_id b -> 0 <= q < BTree.next_page_id b ->
    level (BTree.frames b p) = level (BTree.frames b q) ->
    in_range (rng p) k -> in_range (rng q) k -> p = q.

(** The leaves hold exactly the map [m], each key in the leaf whose range
    contains it. *)
Definition content_ok (b : BTree.t) (rng : Z -> bound * bound)
  (m : Z -> option Z) : Prop :=
  forall p, 0 <= p < BTree.next_page_id b ->
            level (BTree.frames b p) = 0 ->
            forall k v, in_range (rng p) k ->
                        (m k = Some v <->
                         In (k, v) (leaf_entries (BTree.frames b p))).

(** Every separator is a key of the map. *)
Definition separators_known (b : BTree.t) (m : Z -> option Z) : Prop :=
  forall p, 0 <= p < BTree.next_page_id b ->
            level (BTree.frames b p) <> 0 ->
            forall i, 0 <= i < count (BTree.frames b p) - 1 ->
                      m (key_at (BTree.frames b p) i) <> None.

(** The tree in the store [b], of height [h + 1], is a search tree under
    the range assignment [rng] and represents the map [m]. *)
Definition tree_with_ranges (b : BTree.t) (h : Z) (m : Z -> option Z)
  (rng : Z -> bound * bound) : Prop :=
  structure_ok b h /\ ranges_ok b rng /\
  (forall r, BTree.root b = Some r -> rng r = (None, None)) /\
  levels_disjoint b rng /\ content_ok b rng m /\ separators_known b m.

Definition tree_ok (b : BTree.t) (h : Z) (m : Z -> option Z) : Prop :=
  exists rng, tree_with_ranges b h m rng.

(** The map [m] with [k] bound to [v]. *)
Definition bind_key (m : Z -> option Z) (k v : Z) : Z -> option Z :=
  fun x => if x =? k then Some v else m x.

(** The map built by a sequence of inserts. *)
Definition map_of (kvs : list (Z * Z)) : Z -> option Z :=
  fold_left (fun m kv => bind_key m (fst kv) (snd kv)) kvs (fun _ => None).

(** The parent recorded by the loop of [insert] holds the current page as
    one of its children. *)
Definition parent_link (b : BTree.t) (current : Z) (parent : option Z)
  : Prop :=
  match parent with
  | None => True
  | Some p => exists c, 0 <= c < count (BTree.frames b p) /\
                        payload_at (BTree.frames b p) c = current
  end.

(** The state between two iterations of the loop of [insert] on a search
    tree: the key, not yet in the map, belongs to the range of the current
    page. *)
Definition search_ok (b : BTree.t) (h : Z) (m : Z -> option Z)
  (rng : Z -> bound * bound) (key current : Z) (parent : option Z) : Prop :=
  tree_with_ranges b h m rng /\ loop_ok b h current parent /\
  in_range (rng current) key /\ m key = None /\
  parent_link b current parent.

(** A node [n] cut after its first [cl] slots: [l] keeps them, [r] gets the
    others, and the separator is the last key [l] keeps. *)
Definition halves (n l r : Node) (sep cl : Z) : Prop :=
  level l = level n /\ level r = level n /\
  count l = cl /\ count r = count n - cl /\
  2 <= cl /\ cl + 2 <= count n /\
  sep = key_at n (cl - 1) /\
  (forall i, 0 <= i < cl ->
             key_at l i = key_at n i /\ payload_at l i = payload_at n i) /\
  (forall i, 0 <= i < count n - cl ->
             key_at r i = key_at n (cl + i) /\
             payload_at r i = payload_at n (cl + i)).

(** The ranges after page [cur] was split at [sep] into itself and the new
    page [N]; a root created on top of them covers every key. *)
Definition split_ranges (rng : Z -> bound * bound) (cur N sep : Z)
  : Z -> bound * bound :=
  fun q => if q =? cur then (fst (rng cur), Some sep)
           else if q =? N then (Some sep, snd (rng cur))
           else if N <? q then (None, None)
           else rng q.

(** The map [m] extended by a sequence of inserts. *)
Definition extend (m : Z -> option Z) (kvs : list (Z * Z))
  : Z -> option Z :=
  fold_left (fun m kv => bind_key m (fst kv) (snd kv)) kvs m.

(** The store of a tree whose root leaf, page 0, is still empty: what
    [insert] makes of a fresh tree before it enters its loop. *)
Definition empty_root : BTree.t :=
  BTree.mk (fun _ => zero_page) (Some 0) 1 [].

(** ** Search trees whose separators need not be keys of the map *)

(** After an [erase] a separator may be a key the tree no longer holds;
    what [lookup] relies on is left. *)
Definition search_tree (b : BTree.t) (h : Z) (m : Z -> option Z)
  (rng : Z -> bound * bound) : Prop :=
  structure_ok b h /\ ranges_ok b rng /\
  (forall r, BTree.root b = Some r -> rng r = (None, None)) /\
  levels_disjoint b rng /\ content_ok b rng m.

(** The map [m] without [k]. *)
Definition unbind_key (m : Z -> option Z) (k : Z) : Z -> option Z :=
  fun x => if x =? k then None else m x.

(** Every leaf other than the root holds at least [c] entries. *)
Definition min_fill (b : BTree.t) (c : Z) : Prop :=
  forall p, 0 <= p < BTree.next_page_id b ->
            level (BTree.frames b p) = 0 ->
            BTree.root b = Some p \/ c <= count (BTree.frames b p).

(** The state between two iterations of a descent for [key]: the current
    page covers the key, and the recorded parent links to it. *)
Definition on_path (b : BTree.t) (h : Z) (m : Z -> option Z)
  (rng : Z -> bound * bound) (key current : Z) (parent : option Z) : Prop :=
  search_tree b h m rng /\ loop_ok b h current parent /\
  in_range (rng current) key /\ parent_link b current parent.

(** Whether [insert] of [key] finds room on its way down from [page]:
    no page on the search path is full, so that nothing is split. *)
Fixpoint room_on_path {sl : Slack} (fuel : nat) (b : BTree.t) (page : Z)
  (key : Z) : outcome bool :=
  match fuel with
  | O => OutOfFuel
  | S f =>
      let n := BTree.frames b page in
      if count n <? kCapacity then
        if is_leaf n then Done true
        else
          '(i, found) <- InnerNode.lower_bound n key ;;
          c <- rd (children n) (if found : bool then i else count n - 1) ;;
          room_on_path f b c key
      else Done false
  end.

(** The same from the root; a tree without root has room, its first
    [insert] takes page 0 as the root leaf. *)
Definition has_room {sl : Slack} (fuel : nat) (b : BTree.t) (key : Z)
  : outcome bool :=
  match BTree.root b with
  | Some r => room_on_path fuel b r key
  | None => Done true
  end.
(** ** Sequences of the public operations *)

(** A call of [insert] or of [erase]. *)
Inductive Op : Type :=
| Insert (key value : Z)
| Erase (key : Z).

Section RunOps.
Context {sl : Slack}.

Definition run_op (fuel : nat) (b : BTree.t) (op : Op) : outcome BTree.t :=
  match op with
  | Insert k v => BTree.insert fuel b k v
  | Erase k => BTree.erase fuel b k
  end.

Definition run_ops (fuel : nat) (b : BTree.t) (ops : list Op)
  : outcome BTree.t :=
  fold_left (fun acc op => b' <- acc ;; run_op fuel b' op) ops (Done b).

End RunOps.

(** The same calls on a finite map. *)
Definition apply_op (m : Z -> option Z) (op : Op) : Z -> option Z :=
  match op with
  | Insert k v => bind_key m k v
  | Erase k => unbind_key m k
  end.

Definition map_after (ops : list Op) : Z -> option Z :=
  fold_left apply_op ops (fun _ => None).

(** The keys a sequence of calls inserts. *)
Definition inserted_keys (ops : list Op) : list Z :=
  flat_map (fun op => match op with
                      | Insert k _ => [k]
                      | Erase _ => []
                      end) ops.

(** A tree that fits into one leaf: either still without root, all pages
    zero-filled, and empty; or a search tree whose root is the leaf in
    page 0, the only page in use. *)
Definition small_tree (b : BTree.t) (m : Z -> option Z) : Prop :=
  (BTree.root b = None /\ BTree.frames b = BTree.frames BTree.create /\
   forall k, m k = None) \/
  (BTree.root b = Some 0 /\ BTree.next_page_id b = 1 /\
   exists rng, search_tree b 0 m rng).

(** ** Concrete nodes and trees used below *)

(** A leaf holding the single pair (10, 7). *)
Definition one_key_leaf : Node := leaf_of [(10, 7)].

(** A leaf holding 10, 20, 30. *)
Definition three_key_leaf : Node := leaf_of [(10, 7); (20, 8); (30, 9)].

(** A tree object whose page 0 was used before: it still holds 10, 20, 30. *)
Definition stale_page_tree : BTree.t :=
  BTree.mk (fun p => if p =? 0 then three_key_leaf else zero_page) None 1 [].

(** A full leaf: the keys 0 .. 41, each with itself as value. *)
Definition full_leaf : Node := leaf_of (map (fun k => (k, k)) (zrange 0 42)).

(** A full inner node of level 1: children 100 .. 141, separators
    10, 20, .., 410. *)
Definition full_inner : Node :=
  inner_of 1 (map (fun k => 10 * k) (zrange 1 41)) (zrange 100 42).

(** A tree whose root, page 2, is [full_inner] and whose page 100 is an
    empty leaf. *)
Definition full_root_tree : BTree.t :=
  BTree.mk (fun p => if p =? 2 then full_inner else zero_page)
           (Some 2) 142 [].

(** The pairs [(k, k)] for [k] in [from, from + n). *)
Definition identity_pairs (from : Z) (n : nat) : list (Z * Z) :=
  map (fun k => (k, k)) (zrange from n).

(** The budget given to the loops of the tree operations in the scenarios
    below; the trees there have at most three levels. *)
Definition budget : nat := 8.

(** ** Scenarios: sequences of public operations on a fresh tree *)

Section Scenarios.
Context {sl : Slack}.

(** Keys 0 .. 41 are inserted with themselves as values, which fills the
    root leaf; then 21 is inserted again with value 100 and looked up. *)
Definition reinsert_scenario : outcome (option Z) :=
  b <- insert_all budget BTree.create (identity_pairs 0 42 ++ [(21, 100)]) ;;
  lookup_value budget b 21.

(** The 41 keys 0 .. 20 and 22 .. 41 are inserted with value 0; then
    [insert(21, 1)] and [insert(21, 2)].  Observed: [lookup(21)], the number
    of entries before and after the second insert, and the entries with key
    21 at the end. *)
Definition upsert_scenario
  : outcome (option Z * nat * nat * list (Z * Z)) :=
  b0 <- insert_all budget BTree.create
          (map (fun k => (k, 0)) (zrange 0 21 ++ zrange 22 20)) ;;
  b1 <- BTree.insert budget b0 21 1 ;;
  b2 <- BTree.insert budget b1 21 2 ;;
  v <- lookup_value budget b2 21 ;;
  e1 <- entries budget b1 ;;
  e2 <- entries budget b2 ;;
  Done (v, length e1, length e2, filter (fun kv => fst kv =? 21) e2).

(** The root leaf is filled with 0 .. 41, then [insert(21, 100)].
    Observed before and after that insert: whether the keys of each leaf
    increase strictly, whether all counts are within the capacity, and
    whether the keys of the tree are distinct; and the keys of the two
    leaves at the end. *)
Definition invariant_scenario
  : outcome (bool * bool * bool * (bool * bool * bool) * list Z * list Z) :=
  b0 <- insert_all budget BTree.create (identity_pairs 0 42) ;;
  e0 <- entries budget b0 ;;
  b1 <- BTree.insert budget b0 21 100 ;;
  e1 <- entries budget b1 ;;
  let leaves_ok b ps :=
    forallb (fun p => increasing (leaf_keys (BTree.frames b p))) ps in
  let counts_ok b ps :=
    forallb (fun p => count (BTree.frames b p) <=? kCapacity) ps in
  Done (leaves_ok b0 [0], counts_ok b0 [0], distinct (map fst e0),
        (leaves_ok b1 [0; 1], counts_ok b1 [0; 1; 2], distinct (map fst e1)),
        leaf_keys (BTree.frames b1 0), leaf_keys (BTree.frames b1 1)).

(** Keys 1 .. 43 are inserted and erased again in increasing order; 0 is
    never inserted.  Observed: [lookup(5)] before [erase(0)]. *)
Definition erase_absent_before : outcome (option Z) :=
  b <- insert_all budget BTree.create (identity_pairs 1 43) ;;
  b <- erase_all budget b (zrange 1 43) ;;
  lookup_value budget b 5.

(** The same, with [lookup(5)] after [erase(0)]. *)
Definition erase_absent_after : outcome (option Z) :=
  b <- insert_all budget BTree.create (identity_pairs 1 43) ;;
  b <- erase_all budget b (zrange 1 43) ;;
  b <- BTree.erase budget b 0 ;;
  lookup_value budget b 5.

(** The header of the root page after the same operations. *)
Definition erase_absent_root : outcome (Z * Z) :=
  b <- insert_all budget BTree.create (identity_pairs 1 43) ;;
  b <- erase_all budget b (zrange 1 43) ;;
  b <- BTree.erase budget b 0 ;;
  match BTree.root b with
  | Some r => Done (level (BTree.frames b r), count (BTree.frames b r))
  | None => Fault
  end.

(** Keys 0 .. 41, then 21 again with value 100, then [erase] of 0 .. 21;
    observed: [lookup(21)]. *)
Definition erase_duplicate_scenario : outcome (option Z) :=
  b <- insert_all budget BTree.create (identity_pairs 0 42 ++ [(21, 100)]) ;;
  b <- erase_all budget b (zrange 0 22) ;;
  lookup_value budget b 21.

(** The buffer-manager history of [lookup(21)] after inserting 0 .. 42. *)
Definition lookup_history : outcome (list Event) :=
  b <- insert_all budget BTree.create (identity_pairs 0 43) ;;
  '(_, b') <- BTree.lookup budget (forget_events b) 21 ;;
  Done (history b').

(** The history of [erase(21)] after inserting 0 .. 42 and erasing
    0 .. 20: the erase that empties the left leaf. *)
Definition erase_history : outcome (list Event) :=
  b <- insert_all budget BTree.create (identity_pairs 0 43) ;;
  b <- erase_all budget b (zrange 0 21) ;;
  b' <- BTree.erase budget (forget_events b) 21 ;;
  Done (history b').

(** The history of [insert(42, 42)] after inserting 0 .. 41: the root leaf
    is split. *)
Definition leaf_root_split_history : outcome (list Event) :=
  b <- insert_all budget BTree.create (identity_pairs 0 42) ;;
  b' <- BTree.insert budget (forget_events b) 42 42 ;;
  Done (history b').

(** The history of [insert(923, 923)] after inserting 0 .. 922, when the
    root is an inner node with 42 children: the root inner node is split. *)
Definition inner_root_split_history : outcome (Z * Z * list Event) :=
  b <- insert_all budget BTree.create (identity_pairs 0 923) ;;
  b' <- BTree.insert budget (forget_events b) 923 923 ;;
  match BTree.root b with
  | Some r =>
      Done (level (BTree.frames b r), count (BTree.frames b r), history b')
  | None => Fault
  end.

(** Keys 0 .. 99 are inserted in increasing order with value [k + 1000];
    observed: whether every one of them is found with its value, and
    [lookup(100)]. *)
Definition ascending_scenario : outcome (bool * option Z) :=
  b <- insert_all budget BTree.create
         (map (fun k => (k, k + 1000)) (zrange 0 100)) ;;
  found <- fold_left
             (fun acc k =>
                ok <- acc ;; v <- lookup_value budget b k ;;
                Done (ok && match v with
                            | Some x => x =? k + 1000
                            | None => false
                            end))
             (zrange 0 100) (Done true) ;;
  v100 <- lookup_value budget b 100 ;;
  Done (found, v100).

End Scenarios.

(** A tree whose root, page 0, is the full leaf with keys 0 .. 41; no other
    page has been allocated. *)
Definition full_leaf_tree : BTree.t :=
  BTree.mk (fun p => if p =? 0 then full_leaf else zero_page) (Some 0) 1 [].

(** ** A root split on pages that were used before *)

Section UsedPages.
Context {sl : Slack}.


End UsedPages.


(** * Proofs *)

(** ** The outcome monad *)

Lemma bind_Done {A B} (m : outcome A) (k : A -> outcome B) (b : B) :
  bind m k = Done b -> exists a, m = Done a /\ k a = Done b.
Proof.
  destruct m as [a | |]; simpl; intros H; try discriminate.
  exists a; split; [reflexivity | exact H].
Qed.

Ltac inv_bind H :=
  let x := fresh "x" in
  let Hx := fresh "Hx" in
  apply bind_Done in H; destruct H as [x [Hx H]].

(** ** Machine integers *)

Lemma wrap16_small z : 0 <= z < 65536 -> wrap16 z = z.
Proof. intros H; unfold wrap16; apply Z.mod_small; lia. Qed.

Lemma wrap32_small z : 0 <= z < 4294967296 -> wrap32 z = z.
Proof. intros H; unfold wrap32; apply Z.mod_small; lia. Qed.

Lemma wrap64_small z : 0 <= z < 18446744073709551616 -> wrap64 z = z.
Proof. intros H; unfold wrap64; apply Z.mod_small; lia. Qed.

(** ** Arrays *)

Section ArrayFacts.
Context {sl : Slack}.

Lemma in_bounds_true a i :
  0 <= i < Z.of_nat (length a) -> in_bounds a i = true.
Proof.
  intros [H1 H2]; unfold in_bounds.
  apply andb_true_intro; split; [apply Z.leb_le | apply Z.ltb_lt]; assumption.
Qed.

Lemma in_bounds_false a i :
  i < 0 \/ Z.of_nat (length a) <= i -> in_bounds a i = false.
Proof.
  intros H; unfold in_bounds; apply andb_false_iff.
  destruct H; [left; apply Z.leb_gt | right; apply Z.ltb_ge]; assumption.
Qed.

Lemma rd_in a i :
  0 <= i < Z.of_nat (length a) -> rd a i = Done (nth (Z.to_nat i) a 0).
Proof. intros H; unfold rd; rewrite in_bounds_true by exact H; reflexivity. Qed.

Lemma skipn_cons_nth (a : list Z) (i : nat) :
  (i < length a)%nat -> skipn i a = nth i a 0 :: skipn (S i) a.
Proof.
  revert i; induction a as [| h t IH]; intros i Hi; simpl in Hi; [lia |].
  destruct i as [| i]; [reflexivity |].
  change (skipn (S i) (h :: t)) with (skipn i t).
  change (nth (S i) (h :: t) 0) with (nth i t 0).
  change (skipn (S (S i)) (h :: t)) with (skipn (S i) t).
  apply IH; lia.
Qed.

Lemma read_range_in a n : forall from,
  0 <= from -> from + Z.of_nat n <= Z.of_nat (length a) ->
  read_range a from n = Done (firstn n (skipn (Z.to_nat from) a)).
Proof.
  induction n as [| n IH]; intros from H0 H1; [reflexivity |].
  cbn [read_range].
  rewrite rd_in by lia. cbn [bind].
  rewrite IH by lia. cbn [bind].
  rewrite (skipn_cons_nth a (Z.to_nat from)) by lia.
  replace (Z.to_nat (from + 1)) with (S (Z.to_nat from)) by lia.
  reflexivity.
Qed.

Lemma upd_length a : forall i x, length (upd a i x) = length a.
Proof.
  induction a as [| h t IH]; intros [| i] x; simpl; try reflexivity.
  now rewrite IH.
Qed.

Lemma upd_split a : forall i x, (i < length a)%nat ->
  upd a i x = firstn i a ++ x :: skipn (S i) a.
Proof.
  induction a as [| h t IH]; intros [| i] x Hi; simpl in *; try lia.
  - reflexivity.
  - f_equal; apply IH; lia.
Qed.

Lemma wr_in a i x :
  0 <= i < Z.of_nat (length a) -> wr a i x = Done (upd a (Z.to_nat i) x).
Proof. intros H; unfold wr; rewrite in_bounds_true by exact H; reflexivity. Qed.

Lemma firstn_app_exact (l1 l2 : list Z) n :
  length l1 = n -> firstn n (l1 ++ l2) = l1.
Proof.
  intros <-. rewrite firstn_app, Nat.sub_diag, firstn_all.
  cbn [firstn]. apply app_nil_r.
Qed.

Lemma skipn_app_exact (l1 l2 : list Z) n m :
  length l1 = n -> skipn (n + m) (l1 ++ l2) = skipn m l2.
Proof.
  intros <-. rewrite skipn_app, skipn_all2 by lia.
  cbn [app]. f_equal. lia.
Qed.

Lemma write_range_in vs : forall a from,
  0 <= from -> from + Z.of_nat (length vs) <= Z.of_nat (length a) ->
  write_range a from vs =
  Done (firstn (Z.to_nat from) a ++ vs
          ++ skipn (Z.to_nat from + length vs) a).
Proof.
  induction vs as [| v vs IH]; intros a from H0 H1.
  - simpl. rewrite Nat.add_0_r, firstn_skipn. reflexivity.
  - cbn [write_range length] in *.
    rewrite wr_in by lia. cbn [bind].
    rewrite IH by (try rewrite upd_length; lia).
    f_equal.
    rewrite upd_split by lia.
    replace (Z.to_nat (from + 1)) with (S (Z.to_nat from)) by lia.
    set (k := Z.to_nat from).
    assert (Hlen : length (firstn k a ++ [v]) = S k).
    { rewrite length_app, length_firstn. simpl. lia. }
    change (firstn k a ++ v :: skipn (S k) a)
      with (firstn k a ++ [v] ++ skipn (S k) a).
    rewrite (app_assoc (firstn k a) [v]).
    rewrite (firstn_app_exact _ _ (S k) Hlen).
    rewrite (skipn_app_exact _ _ (S k) (length vs) Hlen).
    rewrite skipn_skipn, <- app_assoc. cbn [app].
    replace (length vs + S k)%nat with (k + S (length vs))%nat by lia.
    reflexivity.
Qed.

Lemma write_range_length vs : forall a from a',
  write_range a from vs = Done a' -> length a' = length a.
Proof.
  induction vs as [| v vs IH]; intros a from a' H; cbn [write_range] in H.
  - now inversion H.
  - inv_bind H. unfold wr in Hx.
    destruct (in_bounds a from); [| discriminate].
    inversion Hx; subst x.
    rewrite (IH _ _ _ H). apply upd_length.
Qed.

End ArrayFacts.

(** Reading up to the slot just past the end, when the page has slack. *)
Lemma read_range_slack j a n : forall from,
  0 <= from -> from + Z.of_nat n <= Z.of_nat (length a) + 1 ->
  read_range (sl := page_slack j) a from n =
  Done (firstn n (skipn (Z.to_nat from) (a ++ [j]))).
Proof.
  induction n as [| n IH]; intros from H0 H1; [reflexivity |].
  cbn [read_range].
  assert (Hlen : length (a ++ [j]) = S (length a))
    by (rewrite length_app; simpl; lia).
  rewrite (skipn_cons_nth (a ++ [j]) (Z.to_nat from)) by lia.
  assert (Hs : Z.to_nat (from + 1) = S (Z.to_nat from)) by lia.
  destruct (Z.eq_dec from (Z.of_nat (length a))) as [E | E].
  - unfold rd. rewrite in_bounds_false by lia.
    rewrite (proj2 (Z.eqb_eq _ _) E). cbn [past_end page_slack bind].
    rewrite IH by lia. cbn [bind]. rewrite Hs.
    rewrite app_nth2 by lia.
    replace (Z.to_nat from - length a)%nat with 0%nat by lia.
    reflexivity.
  - rewrite rd_in by lia. cbn [bind].
    rewrite IH by lia. cbn [bind]. rewrite Hs.
    rewrite app_nth1 by lia. reflexivity.
Qed.

(** ** Binary search *)

Lemma midpoint_bounds start end_ :
  start <= end_ -> start <= start + (end_ - start) / 2 <= end_.
Proof.
  intros H.
  assert (0 <= (end_ - start) / 2) by (apply Z.div_pos; lia).
  assert ((end_ - start) / 2 <= end_ - start)
    by (apply Z.div_le_upper_bound; lia).
  lia.
Qed.

Lemma increasing_cons a l :
  increasing (a :: l) = true <->
  (match l with [] => True | b :: _ => a < b end) /\ increasing l = true.
Proof.
  destruct l as [| b t]; cbn [increasing].
  - tauto.
  - rewrite andb_true_iff, Z.ltb_lt. tauto.
Qed.

Lemma increasing_nth l :
  increasing l = true ->
  forall i j, (i < j < length l)%nat -> nth i l 0 < nth j l 0.
Proof.
  induction l as [| a t IH]; intros H i j Hij; [simpl in Hij; lia |].
  apply increasing_cons in H. destruct H as [Hhd Htl].
  assert (Hfirst : forall k, (k < length t)%nat -> a < nth k t 0).
  { intros k. revert Hhd. clear - IH Htl.
    induction k as [| k IHk]; intros Hhd Hk.
    - destruct t; [simpl in Hk; lia | exact Hhd].
    - specialize (IHk Hhd ltac:(lia)).
      assert (nth k t 0 < nth (S k) t 0) by (apply IH; [exact Htl | lia]).
      lia. }
  destruct j as [| j]; [lia |]. simpl in Hij.
  destruct i as [| i]; cbn [nth].
  - apply Hfirst; lia.
  - apply IH; [exact Htl | lia].
Qed.

Lemma nth_increasing l :
  (forall i j, (i < j < length l)%nat -> nth i l 0 < nth j l 0) ->
  increasing l = true.
Proof.
  induction l as [| a t IH]; intros H; [reflexivity |].
  apply increasing_cons. split.
  - destruct t as [| b t']; [exact I |].
    apply (H 0%nat 1%nat). simpl; lia.
  - apply IH. intros i j Hij. apply (H (S i) (S j)). simpl; lia.
Qed.

Lemma keys_increasing_ordered n upto :
  upto <= Z.of_nat (length (keys n)) ->
  keys_increasing n upto -> keys_ordered n upto.
Proof.
  intros Hlen H i j Hi Hj. unfold key_at.
  pose proof (increasing_nth _ H (Z.to_nat i) (Z.to_nat j)) as Hn.
  rewrite length_firstn in Hn.
  rewrite !nth_firstn in Hn.
  destruct (Nat.ltb_spec (Z.to_nat i) (Z.to_nat upto)); [| lia].
  destruct (Nat.ltb_spec (Z.to_nat j) (Z.to_nat upto)); [| lia].
  apply Hn. lia.
Qed.

Lemma keys_ordered_increasing n upto :
  upto <= Z.of_nat (length (keys n)) ->
  keys_ordered n upto -> keys_increasing n upto.
Proof.
  intros Hlen H. apply nth_increasing. intros i j Hij.
  rewrite length_firstn in Hij.
  rewrite !nth_firstn.
  destruct (Nat.ltb_spec i (Z.to_nat upto)); [| lia].
  destruct (Nat.ltb_spec j (Z.to_nat upto)); [| lia].
  specialize (H (Z.of_nat i) (Z.of_nat j)). unfold key_at in H.
  rewrite !Nat2Z.id in H. apply H; lia.
Qed.

Section LowerBound.
Context {sl : Slack}.

(** Whatever the keys are, the loop ends within [end - start + 2]
    iterations, and yields a position inside [[start, end]] with the flag
    set, or [count] with the flag cleared. *)
Lemma lower_bound_loop_shape n key : forall fuel start end_,
  0 <= start -> end_ < count n -> start <= end_ + 1 ->
  count n <= Z.of_nat (length (keys n)) -> count n < 4294967296 ->
  end_ - start + 1 < Z.of_nat fuel ->
  exists i b, lower_bound_loop fuel n key start end_ = Done (i, b) /\
              ((b = true /\ start <= i <= end_ /\ key <= key_at n i) \/
               (b = false /\ i = count n)).
Proof.
  induction fuel as [| fuel IH]; intros start end_ H0 H1 H2 Hlen Hc Hf;
    [lia |].
  cbn [lower_bound_loop].
  destruct (start <=? end_) eqn:E.
  2:{ exists (count n), false. split; [reflexivity | right; auto]. }
  apply Z.leb_le in E.
  pose proof (midpoint_bounds start end_ E) as Hcen.
  rewrite (wrap32_small (end_ - start)) by lia.
  rewrite (wrap32_small (start + (end_ - start) / 2)) by lia.
  set (center := start + (end_ - start) / 2) in *. clearbody center.
  rewrite rd_in by lia. cbn [bind]. fold (key_at n center).
  destruct (key_at n center =? key) eqn:Eeq.
  { apply Z.eqb_eq in Eeq. exists center, true.
    split; [reflexivity | left; repeat split; lia]. }
  destruct (key_at n center <? key) eqn:Elt.
  { rewrite wrap32_small by lia.
    destruct (IH (center + 1) end_) as (i & b & Hr & Hi); try lia.
    exists i, b. split; [exact Hr |].
    destruct Hi as [(Hb & Hi & Hkey) | [Hb Hi]]; [left | right];
      repeat split; (exact Hb || lia). }
  apply Z.ltb_ge in Elt.
  destruct (center =? 0) eqn:Ez.
  { exists center, true. split; [reflexivity | left; repeat split; lia]. }
  apply Z.eqb_neq in Ez.
  rewrite rd_in by lia. cbn [bind].
  destruct (_ <? key).
  { exists center, true. split; [reflexivity | left; repeat split; lia]. }
  destruct (IH start (center - 1)) as (i & b & Hr & Hi); try lia.
  exists i, b. split; [exact Hr |].
  destruct Hi as [(Hb & Hi & Hkey) | [Hb Hi]]; [left | right];
    repeat split; (exact Hb || lia).
Qed.

Lemma lower_bound_search_shape n key :
  0 <= count n <= Z.of_nat (length (keys n)) -> count n < 4294967296 ->
  exists i b, lower_bound_search n key = Done (i, b) /\
              ((b = true /\ 0 <= i < count n /\ key <= key_at n i) \/
               (b = false /\ i = count n)).
Proof.
  intros Hc Hw. unfold lower_bound_search.
  destruct (count n =? 0) eqn:E.
  - apply Z.eqb_eq in E. exists 0, false. split; [reflexivity | right; auto].
  - apply Z.eqb_neq in E.
    destruct (lower_bound_loop_shape n key (S (Z.to_nat (count n))) 0
                (count n - 1)) as (i & b & Hr & Hi); try lia.
    exists i, b. split; [exact Hr |].
    destruct Hi as [(Hb & Hi & Hkey) | [Hb Hi]]; [left | right];
      repeat split; (exact Hb || lia).
Qed.

(** On increasing keys the loop computes the first position whose key is
    not less than [key]. *)
Lemma lower_bound_loop_sorted n key : forall fuel start end_,
  0 <= start -> 0 <= end_ < count n -> start <= end_ + 1 ->
  count n <= Z.of_nat (length (keys n)) -> count n < 4294967296 ->
  end_ - start + 1 < Z.of_nat fuel ->
  keys_ordered n (count n) ->
  (forall j, 0 <= j < start -> key_at n j < key) ->
  (end_ < count n - 1 -> key <= key_at n end_) ->
  exists i, lower_bound_loop fuel n key start end_
            = Done (i, i <? count n) /\ first_not_less n key i.
Proof.
  induction fuel as [| fuel IH];
    intros start end_ H0 H1 H2 Hlen Hc Hf Hinc Hlo Hhi; [lia |].
  cbn [lower_bound_loop].
  destruct (start <=? end_) eqn:E.
  2:{ apply Z.leb_gt in E.
      assert (end_ = count n - 1).
      { destruct (Z.eq_dec end_ (count n - 1)) as [e | ne]; [exact e |].
        specialize (Hhi ltac:(lia)). specialize (Hlo end_ ltac:(lia)). lia. }
      exists (count n). rewrite Z.ltb_irrefl. split; [reflexivity |].
      repeat split; try lia. intros j Hj; apply Hlo; lia. }
  apply Z.leb_le in E.
  pose proof (midpoint_bounds start end_ E) as Hcen.
  rewrite (wrap32_small (end_ - start)) by lia.
  rewrite (wrap32_small (start + (end_ - start) / 2)) by lia.
  set (center := start + (end_ - start) / 2) in *. clearbody center.
  rewrite rd_in by lia. cbn [bind]. fold (key_at n center).
  assert (Hlt : (center <? count n) = true) by (apply Z.ltb_lt; lia).
  assert (Hbelow : forall j, 0 <= j < center ->
                             key_at n j < key_at n center).
  { intros j Hj. apply Hinc; lia. }
  destruct (key_at n center =? key) eqn:Eeq.
  { apply Z.eqb_eq in Eeq. exists center. rewrite Hlt.
    split; [reflexivity |]. repeat split; try lia.
    intros j Hj. specialize (Hbelow j Hj). lia. }
  apply Z.eqb_neq in Eeq.
  destruct (key_at n center <? key) eqn:Eless.
  { apply Z.ltb_lt in Eless. rewrite wrap32_small by lia.
    apply IH; try lia; try assumption.
    intros j Hj. destruct (Z.eq_dec j center) as [-> | ne]; [exact Eless |].
    specialize (Hbelow j ltac:(lia)). lia. }
  apply Z.ltb_ge in Eless.
  destruct (center =? 0) eqn:Ez.
  { apply Z.eqb_eq in Ez. exists center. rewrite Hlt.
    split; [reflexivity |]. repeat split; try lia. }
  apply Z.eqb_neq in Ez.
  rewrite rd_in by lia. cbn [bind]. fold (key_at n (center - 1)).
  destruct (key_at n (center - 1) <? key) eqn:Eprev.
  { apply Z.ltb_lt in Eprev. exists center. rewrite Hlt.
    split; [reflexivity |]. repeat split; try lia.
    intros j Hj. destruct (Z.eq_dec j (center - 1)) as [-> | ne];
      [exact Eprev |].
    assert (key_at n j < key_at n (center - 1)) by (apply Hinc; lia). lia. }
  apply Z.ltb_ge in Eprev.
  apply IH; try lia; try assumption.
Qed.

Lemma lower_bound_search_sorted n key :
  0 <= count n <= Z.of_nat (length (keys n)) -> count n < 4294967296 ->
  keys_ordered n (count n) ->
  exists i, lower_bound_search n key = Done (i, i <? count n) /\
            first_not_less n key i.
Proof.
  intros Hc Hw Hinc. unfold lower_bound_search.
  destruct (count n =? 0) eqn:E.
  - apply Z.eqb_eq in E. exists 0. rewrite E. split; [reflexivity |].
    repeat split; lia.
  - apply Z.eqb_neq in E.
    apply lower_bound_loop_sorted; try lia; try assumption.
Qed.

End LowerBound.

(** *** The search in an inner node *)

(** An inner node with [count] children has [count - 1] separators, but
    the search runs over [keys[0..count)].  Whatever the extra slot holds,
    the child the callers take from the result (the returned index when the
    flag is set, the last child otherwise) is the one that covers [key]. *)
Section InnerSearch.
Context {sl : Slack}.

Lemma lower_bound_loop_inner n key : forall fuel start end_,
  0 <= start -> 0 <= end_ < count n -> start <= end_ + 1 ->
  count n <= Z.of_nat (length (keys n)) -> count n < 4294967296 ->
  end_ - start + 1 < Z.of_nat fuel ->
  keys_ordered n (count n - 1) ->
  (forall j, 0 <= j < start -> j < count n - 1 -> key_at n j < key) ->
  (end_ < count n - 1 -> key <= key_at n end_) ->
  exists i f, lower_bound_loop fuel n key start end_ = Done (i, f) /\
              covering_child n key (if f then i else count n - 1).
Proof.
  induction fuel as [| fuel IH];
    intros start end_ H0 H1 H2 Hlen Hc Hf Hord Hlo Hhi; [lia |].
  cbn [lower_bound_loop].
  destruct (start <=? end_) eqn:E.
  2:{ apply Z.leb_gt in E.
      assert (end_ = count n - 1).
      { destruct (Z.eq_dec end_ (count n - 1)) as [e | ne]; [exact e |].
        specialize (Hhi ltac:(lia)).
        specialize (Hlo end_ ltac:(lia) ltac:(lia)). lia. }
      exists (count n), false. split; [reflexivity |].
      repeat split; try lia. intros j Hj. apply Hlo; lia. }
  apply Z.leb_le in E.
  pose proof (midpoint_bounds start end_ E) as Hcen.
  rewrite (wrap32_small (end_ - start)) by lia.
  rewrite (wrap32_small (start + (end_ - start) / 2)) by lia.
  assert (Hlast : start + (end_ - start) / 2 = count n - 1 ->
                  start = count n - 1).
  { intros Hce.
    assert (2 * ((end_ - start) / 2) <= end_ - start)
      by (apply Z.mul_div_le; lia).
    lia. }
  set (center := start + (end_ - start) / 2) in *. clearbody center.
  rewrite rd_in by lia. cbn [bind]. fold (key_at n center).
  assert (Hlow_all : center = count n - 1 ->
                     forall j, 0 <= j < center -> key_at n j < key).
  { intros Hce j Hj. apply Hlo; [| lia]. specialize (Hlast Hce). lia. }
  destruct (key_at n center =? key) eqn:Eeq.
  { apply Z.eqb_eq in Eeq. exists center, true. split; [reflexivity |].
    repeat split; try lia.
    intros j Hj. destruct (Z.eq_dec center (count n - 1)) as [e | ne].
    - apply Hlow_all; assumption.
    - rewrite <- Eeq. apply Hord; lia. }
  apply Z.eqb_neq in Eeq.
  destruct (key_at n center <? key) eqn:Eless.
  { apply Z.ltb_lt in Eless. rewrite wrap32_small by lia.
    apply IH; try lia; try assumption.
    intros j Hj Hj'. destruct (Z.eq_dec j center) as [-> | ne];
      [exact Eless |].
    destruct (Z.eq_dec center (count n - 1)) as [e | ne'].
    - apply Hlow_all; [exact e | lia].
    - assert (key_at n j < key_at n center) by (apply Hord; lia). lia. }
  apply Z.ltb_ge in Eless.
  destruct (center =? 0) eqn:Ez.
  { apply Z.eqb_eq in Ez. exists center, true. split; [reflexivity |].
    repeat split; try lia. }
  apply Z.eqb_neq in Ez.
  rewrite rd_in by lia. cbn [bind]. fold (key_at n (center - 1)).
  destruct (key_at n (center - 1) <? key) eqn:Eprev.
  { apply Z.ltb_lt in Eprev. exists center, true. split; [reflexivity |].
    repeat split; try lia.
    intros j Hj. destruct (Z.eq_dec j (center - 1)) as [-> | ne];
      [exact Eprev |].
    assert (key_at n j < key_at n (center - 1)) by (apply Hord; lia). lia. }
  apply Z.ltb_ge in Eprev.
  apply IH; try lia; try assumption.
Qed.

Lemma inner_search_covering_child n key :
  1 <= count n <= Z.of_nat (length (keys n)) -> count n < 4294967296 ->
  keys_ordered n (count n - 1) ->
  exists i f, InnerNode.lower_bound n key = Done (i, f) /\
              covering_child n key (if f then i else count n - 1).
Proof.
  intros Hc Hw Hord. unfold InnerNode.lower_bound, lower_bound_search.
  rewrite (proj2 (Z.eqb_neq (count n) 0)) by lia.
  apply lower_bound_loop_inner; try lia; try assumption.
Qed.

End InnerSearch.
(** *** The search when only the separators are sorted *)

(** In an inner node only [keys[0 .. count - 1)] are separators; the slot
    [keys[count - 1]] holds whatever was left there.  The search still runs
    over [keys[0 .. count)], and still returns the first position of that
    range whose key is not less than [key]: the loop looks at the last slot
    only after it has found every separator smaller than [key]. *)
Section SeparatorSearch.
Context {sl : Slack}.

Lemma lower_bound_loop_separators n key : forall fuel start end_,
  0 <= start -> 0 <= end_ < count n -> start <= end_ + 1 ->
  count n <= Z.of_nat (length (keys n)) -> count n < 4294967296 ->
  end_ - start + 1 < Z.of_nat fuel ->
  keys_ordered n (count n - 1) ->
  (forall j, 0 <= j < start -> key_at n j < key) ->
  (end_ < count n - 1 -> key <= key_at n end_) ->
  exists i, lower_bound_loop fuel n key start end_
            = Done (i, i <? count n) /\ first_not_less n key i.
Proof.
  induction fuel as [| fuel IH];
    intros start end_ H0 H1 H2 Hlen Hc Hf Hord Hlo Hhi; [lia |].
  cbn [lower_bound_loop].
  destruct (start <=? end_) eqn:E.
  2:{ apply Z.leb_gt in E.
      assert (end_ = count n - 1).
      { destruct (Z.eq_dec end_ (count n - 1)) as [e | ne]; [exact e |].
        specialize (Hhi ltac:(lia)). specialize (Hlo end_ ltac:(lia)). lia. }
      exists (count n). rewrite Z.ltb_irrefl. split; [reflexivity |].
      repeat split; try lia. intros j Hj; apply Hlo; lia. }
  apply Z.leb_le in E.
  pose proof (midpoint_bounds start end_ E) as Hcen.
  rewrite (wrap32_small (end_ - start)) by lia.
  rewrite (wrap32_small (start + (end_ - start) / 2)) by lia.
  assert (Hlast : start + (end_ - start) / 2 = count n - 1 ->
                  start = count n - 1).
  { intros Hce.
    assert (2 * ((end_ - start) / 2) <= end_ - start)
      by (apply Z.mul_div_le; lia).
    lia. }
  set (center := start + (end_ - start) / 2) in *. clearbody center.
  rewrite rd_in by lia. cbn [bind]. fold (key_at n center).
  assert (Hlt : (center <? count n) = true) by (apply Z.ltb_lt; lia).
  assert (Hbelow : forall j, 0 <= j < center -> key_at n center <= key ->
                             key_at n j < key).
  { intros j Hj Hle. destruct (Z.eq_dec center (count n - 1)) as [e | ne].
    - apply Hlo. specialize (Hlast e). lia.
    - assert (key_at n j < key_at n center) by (apply Hord; lia). lia. }
  destruct (key_at n center =? key) eqn:Eeq.
  { apply Z.eqb_eq in Eeq. exists center. rewrite Hlt.
    split; [reflexivity |]. repeat split; try lia.
    intros j Hj. apply Hbelow; lia. }
  apply Z.eqb_neq in Eeq.
  destruct (key_at n center <? key) eqn:Eless.
  { apply Z.ltb_lt in Eless. rewrite wrap32_small by lia.
    apply IH; try lia; try assumption.
    intros j Hj. destruct (Z.eq_dec j center) as [-> | ne]; [exact Eless |].
    apply Hbelow; lia. }
  apply Z.ltb_ge in Eless.
  destruct (center =? 0) eqn:Ez.
  { apply Z.eqb_eq in Ez. exists center. rewrite Hlt.
    split; [reflexivity |]. repeat split; try lia. }
  apply Z.eqb_neq in Ez.
  rewrite rd_in by lia. cbn [bind]. fold (key_at n (center - 1)).
  destruct (key_at n (center - 1) <? key) eqn:Eprev.
  { apply Z.ltb_lt in Eprev. exists center. rewrite Hlt.
    split; [reflexivity |]. repeat split; try lia.
    intros j Hj. destruct (Z.eq_dec j (center - 1)) as [-> | ne];
      [exact Eprev |].
    assert (key_at n j < key_at n (center - 1)) by (apply Hord; lia). lia. }
  apply Z.ltb_ge in Eprev.
  apply IH; try lia; try assumption.
Qed.

Lemma lower_bound_search_separators n key :
  0 <= count n <= Z.of_nat (length (keys n)) -> count n < 4294967296 ->
  keys_ordered n (count n - 1) ->
  exists i, lower_bound_search n key = Done (i, i <? count n) /\
            first_not_less n key i.
Proof.
  intros Hc Hw Hord. unfold lower_bound_search.
  destruct (count n =? 0) eqn:E.
  - apply Z.eqb_eq in E. exists 0. rewrite E. split; [reflexivity |].
    repeat split; lia.
  - apply Z.eqb_neq in E.
    apply lower_bound_loop_separators; try lia; try assumption.
Qed.

End SeparatorSearch.

(** ** Splitting full nodes *)

Lemma firstn_skipn_slack (a : list Z) (j : Z) (m k : nat) :
  (m <= length a)%nat -> (m + k = length a + 1)%nat ->
  firstn k (skipn m (a ++ [j])) = skipn m a ++ [j].
Proof.
  intros Hm Hk.
  rewrite skipn_app.
  replace (m - length a)%nat with 0%nat by lia. cbn [skipn].
  apply firstn_all2. rewrite length_app, length_skipn. simpl. lia.
Qed.

Lemma firstn_skipn_all (a : list Z) (m k : nat) :
  (m + k = length a)%nat -> firstn k (skipn m a) = skipn m a.
Proof. intros H. apply firstn_all2. rewrite length_skipn. lia. Qed.

(** The result of splitting a full leaf, in closed form. *)
Lemma leaf_split_full j n buffer :
  array_shape n -> array_shape buffer -> count n = kCapacity ->
  LeafNode.split (sl := page_slack j) n buffer
  = Done (key_at n 21, set_count n 22,
          mkNode (level buffer) 20
            (skipn 22 (keys n) ++ skipn 20 (keys buffer))
            (skipn 22 (payload n) ++ j :: skipn 21 (payload buffer))).
Proof.
  intros [Hk Hp] [Hbk Hbp] Hc.
  unfold LeafNode.split, LeafNode.createAndInitializeLeaf.
  rewrite Hc. change (Z.quot (kCapacity - 1) 2) with 20.
  change (wrap16 (kCapacity - 20)) with 22. change (wrap16 20) with 20.
  cbn [keys set_count].
  rewrite rd_in by (rewrite Hk; simpl; lia). cbn [bind].
  unfold LeafNode.transferDataToNewLeaf.
  cbn [count values payload keys set_count level].
  rewrite read_range_slack by (rewrite ?Hp; simpl; lia). cbn [bind].
  change (Z.to_nat (20 + 1)) with 21%nat. change (Z.to_nat 22) with 22%nat.
  rewrite firstn_skipn_slack by (rewrite Hp; simpl; lia).
  rewrite write_range_in
    by (rewrite ?length_app, ?length_skipn, ?Hp, ?Hbp; simpl; lia).
  cbn [bind].
  rewrite read_range_in by (rewrite ?Hk; simpl; lia). cbn [bind].
  change (Z.to_nat 20) with 20%nat. change (Z.to_nat 22) with 22%nat.
  rewrite firstn_skipn_all by (rewrite Hk; simpl; lia).
  rewrite write_range_in
    by (rewrite ?length_app, ?length_skipn, ?Hk, ?Hbk; simpl; lia).
  cbn [bind].
  unfold key_at, set_keys, set_payload, set_count.
  cbn [level count keys payload firstn app Z.to_nat Pos.to_nat].
  rewrite !length_app, !length_skipn, Hk, Hp.
  change (Z.to_nat 21) with 21%nat.
  change (0 + (Z.to_nat kCapacity - 22))%nat with 20%nat.
  change (0 + (Z.to_nat kCapacity - 22 + length [j]))%nat with 21%nat.
  rewrite <- app_assoc. reflexivity.
Qed.

Lemma in_exactly_one_by_separator (before l r : list Z) (sep : Z) :
  l ++ r = before ->
  (forall k, In k l -> k <= sep) -> (forall k, In k r -> sep < k) ->
  in_exactly_one before l r.
Proof.
  intros <- Hl Hr k Hk. apply in_app_or in Hk. destruct Hk as [Hk | Hk].
  - left. split; [exact Hk |]. intros Hk'.
    specialize (Hl k Hk). specialize (Hr k Hk'). lia.
  - right. split; [| exact Hk]. intros Hk'.
    specialize (Hl k Hk'). specialize (Hr k Hk). lia.
Qed.

Lemma combine_app_same {A B} (l1 l2 : list A) (m1 m2 : list B) :
  length l1 = length m1 ->
  combine (l1 ++ l2) (m1 ++ m2) = combine l1 m1 ++ combine l2 m2.
Proof.
  revert m1; induction l1 as [| a l1 IH]; intros [| b m1] H;
    simpl in *; try discriminate; [reflexivity |].
  f_equal. apply IH. lia.
Qed.

(** Positions below and above a cut of an ordered key array. *)
Lemma ordered_prefix_le n (upto cut : Z) k :
  keys_ordered n upto -> 0 <= cut < upto ->
  upto <= Z.of_nat (length (keys n)) ->
  In k (firstn (Z.to_nat (cut + 1)) (keys n)) -> k <= key_at n cut.
Proof.
  intros Hord Hcut Hlen Hin.
  apply (In_nth _ _ 0) in Hin. destruct Hin as (i & Hi & <-).
  rewrite length_firstn in Hi. rewrite nth_firstn.
  destruct (Nat.ltb_spec i (Z.to_nat (cut + 1))); [| lia].
  destruct (Z.eq_dec (Z.of_nat i) cut) as [E | E].
  - unfold key_at. rewrite <- E, Nat2Z.id. lia.
  - specialize (Hord (Z.of_nat i) cut). unfold key_at in *.
    rewrite Nat2Z.id in Hord. specialize (Hord ltac:(lia) ltac:(lia)). lia.
Qed.

Lemma ordered_prefix_lt n (upto cut : Z) k :
  keys_ordered n upto -> 0 <= cut < upto ->
  upto <= Z.of_nat (length (keys n)) ->
  In k (firstn (Z.to_nat cut) (keys n)) -> k < key_at n cut.
Proof.
  intros Hord Hcut Hlen Hin.
  apply (In_nth _ _ 0) in Hin. destruct Hin as (i & Hi & <-).
  rewrite length_firstn in Hi. rewrite nth_firstn.
  destruct (Nat.ltb_spec i (Z.to_nat cut)); [| lia].
  specialize (Hord (Z.of_nat i) cut). unfold key_at in *.
  rewrite Nat2Z.id in Hord. apply Hord; lia.
Qed.

Lemma ordered_suffix_gt n (upto cut : Z) k :
  keys_ordered n upto -> 0 <= cut ->
  upto <= Z.of_nat (length (keys n)) ->
  In k (firstn (Z.to_nat (upto - cut - 1))
          (skipn (Z.to_nat (cut + 1)) (keys n))) ->
  key_at n cut < k.
Proof.
  intros Hord Hcut Hlen Hin.
  apply (In_nth _ _ 0) in Hin. destruct Hin as (i & Hi & <-).
  rewrite length_firstn, length_skipn in Hi. rewrite nth_firstn.
  destruct (Nat.ltb_spec i (Z.to_nat (upto - cut - 1))); [| lia].
  rewrite nth_skipn.
  specialize (Hord cut (Z.of_nat (Z.to_nat (cut + 1) + i))).
  unfold key_at in *. rewrite Nat2Z.id in Hord. apply Hord; lia.
Qed.

Lemma leaf_split_contract_full j n buffer :
  array_shape n -> array_shape buffer -> count n = kCapacity ->
  keys_increasing n (count n) ->
  leaf_split_contract n (LeafNode.split (sl := page_slack j) n buffer).
Proof.
  intros Hs Hb Hc Hinc.
  rewrite (leaf_split_full j n buffer Hs Hb Hc).
  destruct Hs as [Hk Hp]. destruct Hb as [Hbk Hbp].
  assert (Hord : keys_ordered n 42).
  { rewrite Hc in Hinc. apply keys_increasing_ordered; [| exact Hinc].
    rewrite Hk. simpl. unfold kCapacity. lia. }
  assert (HL : leaf_keys (set_count n 22) = firstn 22 (keys n)) by reflexivity.
  assert (HR : leaf_keys
                 (mkNode (level buffer) 20
                    (skipn 22 (keys n) ++ skipn 20 (keys buffer))
                    (skipn 22 (payload n) ++ j :: skipn 21 (payload buffer)))
               = skipn 22 (keys n)).
  { unfold leaf_keys. cbn [count keys]. change (Z.to_nat 20) with 20%nat.
    apply firstn_app_exact. rewrite length_skipn, Hk. reflexivity. }
  assert (HN : leaf_keys n = keys n).
  { unfold leaf_keys. rewrite Hc. apply firstn_all2. rewrite Hk. lia. }
  assert (Hle : forall k, In k (firstn 22 (keys n)) -> k <= key_at n 21).
  { intros k Hin.
    apply (ordered_prefix_le n 42 21 k Hord); [lia | | exact Hin].
    rewrite Hk. simpl. lia. }
  assert (Hgt : forall k, In k (skipn 22 (keys n)) -> key_at n 21 < k).
  { intros k Hin.
    apply (ordered_suffix_gt n 42 21 k Hord); [lia | |].
    - rewrite Hk. simpl. lia.
    - change (Z.to_nat (42 - 21 - 1)) with 20%nat.
      change (Z.to_nat (21 + 1)) with 22%nat.
      rewrite firstn_skipn_all by (rewrite Hk; reflexivity). exact Hin. }
  exists (key_at n 21), (set_count n 22),
    (mkNode (level buffer) 20
       (skipn 22 (keys n) ++ skipn 20 (keys buffer))
       (skipn 22 (payload n) ++ j :: skipn 21 (payload buffer))).
  split; [reflexivity |].
  rewrite HL, HR, HN, Hc. cbn [count set_count].
  change ((kCapacity - 1) / 2) with 20.
  split; [reflexivity |]. split; [reflexivity |].
  split; [lia |]. split; [lia |].
  split; [apply firstn_skipn |].
  split.
  { unfold leaf_entries. rewrite HL, HR, HN.
    unfold leaf_values, values. rewrite Hc. cbn [count set_count payload].
    change (Z.to_nat 22) with 22%nat. change (Z.to_nat 20) with 20%nat.
    rewrite (firstn_app_exact (skipn 22 (payload n)))
      by (rewrite length_skipn, Hp; reflexivity).
    rewrite (firstn_all2 (n := Z.to_nat kCapacity) (payload n))
      by (rewrite Hp; lia).
    rewrite <- combine_app_same
      by (rewrite !length_firstn, Hk, Hp; reflexivity).
    rewrite !firstn_skipn. reflexivity. }
  split.
  { apply (in_exactly_one_by_separator _ _ _ (key_at n 21));
      [apply firstn_skipn | exact Hle | exact Hgt]. }
  split.
  { unfold key_at. change (Z.to_nat 21) with 21%nat.
    rewrite <- (nth_firstn 22 (keys n) 21 0) at 1. 
    apply nth_In. rewrite length_firstn, Hk. simpl. lia. }
  split; assumption.
Qed.

Lemma firstn_around (l : list Z) (a b : nat) :
  (a < length l)%nat ->
  firstn (a + S b) l = firstn a l ++ nth a l 0 :: firstn b (skipn (S a) l).
Proof.
  intros Ha.
  rewrite <- (firstn_skipn a l) at 1.
  rewrite firstn_app, length_firstn.
  replace (Nat.min a (length l)) with a by lia.
  replace (a + S b - a)%nat with (S b) by lia.
  rewrite firstn_all2 by (rewrite length_firstn; lia).
  rewrite (skipn_cons_nth l a Ha). reflexivity.
Qed.

(** The result of splitting a full inner node, in closed form. *)
Lemma inner_split_full {sl : Slack} n buffer :
  array_shape n -> array_shape buffer -> count n = kCapacity ->
  InnerNode.split n buffer
  = Done (key_at n 20, set_count n 21,
          mkNode (level n) 21
            (skipn 21 (keys n) ++ skipn 21 (keys buffer))
            (skipn 21 (payload n) ++ skipn 21 (payload buffer))).
Proof.
  intros [Hk Hp] [Hbk Hbp] Hc.
  unfold InnerNode.split. rewrite Hc.
  change (kCapacity / 2) with 21. change (wrap32 (21 - 1)) with 20.
  change (wrap32 (kCapacity - 21)) with 21.
  rewrite rd_in by (rewrite Hk; simpl; lia). cbn [bind].
  unfold children.
  rewrite read_range_in by (rewrite ?Hp; simpl; lia). cbn [bind].
  change (Z.to_nat 21) with 21%nat.
  rewrite firstn_skipn_all by (rewrite Hp; reflexivity).
  cbn [payload keys set_count set_level level count].
  rewrite write_range_in by (rewrite ?length_skipn, ?Hp, ?Hbp; simpl; lia).
  cbn [bind].
  rewrite read_range_in by (rewrite ?Hk; simpl; lia). cbn [bind].
  rewrite firstn_skipn_all by (rewrite Hk; reflexivity).
  rewrite write_range_in by (rewrite ?length_skipn, ?Hk, ?Hbk; simpl; lia).
  cbn [bind].
  unfold key_at, set_keys, set_payload, set_count.
  cbn [level count keys payload firstn app Z.to_nat Pos.to_nat].
  rewrite !length_skipn, Hk, Hp.
  change (Z.to_nat 20) with 20%nat.
  change (0 + (Z.to_nat kCapacity - 21))%nat with 21%nat.
  reflexivity.
Qed.

Lemma inner_split_contract_full {sl : Slack} n buffer :
  array_shape n -> array_shape buffer -> count n = kCapacity ->
  keys_increasing n (count n - 1) ->
  inner_split_contract n (InnerNode.split n buffer).
Proof.
  intros Hs Hb Hc Hinc.
  rewrite (inner_split_full n buffer Hs Hb Hc).
  destruct Hs as [Hk Hp]. destruct Hb as [Hbk Hbp].
  assert (Hord : keys_ordered n 41).
  { rewrite Hc in Hinc. apply keys_increasing_ordered; [| exact Hinc].
    rewrite Hk. simpl. lia. }
  exists (key_at n 20), (set_count n 21),
    (mkNode (level n) 21
       (skipn 21 (keys n) ++ skipn 21 (keys buffer))
       (skipn 21 (payload n) ++ skipn 21 (payload buffer))).
  split; [reflexivity |].
  unfold inner_children, inner_keys, children.
  rewrite Hc. cbn [count set_count level keys payload].
  change (kCapacity / 2) with 21.
  change (Z.to_nat 21) with 21%nat. change (Z.to_nat (21 - 1)) with 20%nat.
  change (Z.to_nat kCapacity) with 42%nat.
  change (Z.to_nat (kCapacity - 1)) with 41%nat.
  assert (Hrk : firstn 20 (skipn 21 (keys n) ++ skipn 21 (keys buffer))
                = firstn 20 (skipn 21 (keys n))).
  { rewrite firstn_app, length_skipn, Hk.
    change (20 - (Z.to_nat kCapacity - 21))%nat with 0%nat.
    cbn [firstn]. apply app_nil_r. }
  rewrite Hrk.
  rewrite (firstn_app_exact (skipn 21 (payload n)))
    by (rewrite length_skipn, Hp; reflexivity).
  split; [reflexivity |]. split; [reflexivity |].
  split; [lia |]. split; [lia |].
  split; [reflexivity |]. split; [reflexivity |].
  split.
  { rewrite (firstn_all2 (n := 42) (payload n)) by (rewrite Hp; simpl; lia).
    apply firstn_skipn. }
  split.
  { symmetry. apply (firstn_around (keys n) 20 20). rewrite Hk. simpl. lia. }
  split.
  - intros k Hin.
    apply (ordered_prefix_lt n 41 20 k Hord); [lia | | exact Hin].
    rewrite Hk. simpl. lia.
  - intros k Hin.
    apply (ordered_suffix_gt n 41 20 k Hord); [lia | | exact Hin].
    rewrite Hk. simpl. lia.
Qed.

Lemma not_In_by_test (k : Z) (l : list Z) :
  existsb (Z.eqb k) l = false -> ~ In k l.
Proof.
  intros H Hin.
  assert (existsb (Z.eqb k) l = true).
  { apply existsb_exists. exists k. split; [exact Hin | apply Z.eqb_refl]. }
  congruence.
Qed.

Lemma array_shape_zero_page : array_shape zero_page.
Proof. split; reflexivity. Qed.

Lemma leaf_split_ok j n :
  array_shape n -> count n = kCapacity -> level n = 0 ->
  exists sep l r,
    LeafNode.split (sl := page_slack j) n zero_page = Done (sep, l, r) /\
    split_ok n l r.
Proof.
  intros Hs Hc Hl.
  rewrite (leaf_split_full j n zero_page Hs array_shape_zero_page Hc).
  destruct Hs as [Hk Hp].
  do 3 eexists. split; [reflexivity |].
  unfold split_ok, array_shape, kCapacity in *.
  cbn [level count keys payload set_count].
  assert (Hz : forall m, length (skipn m (repeat 0 (Z.to_nat 42)))
                         = (42 - m)%nat).
  { intros m. rewrite length_skipn, repeat_length. reflexivity. }
  split; [split; assumption |].
  split.
  { split; cbn [zero_page keys payload length]; unfold kCapacity;
      rewrite length_app; cbn [length]; rewrite length_skipn, Hz; lia. }
  split; [reflexivity |]. split; [symmetry; exact Hl |].
  split; [lia |]. split; [lia |]. split.
  - intros i Hi. exists i. split; [lia | reflexivity].
  - intros i Hi. exists (22 + i). split; [lia |].
    unfold payload_at. cbn [payload].
    rewrite app_nth1 by (rewrite length_skipn; lia).
    rewrite nth_skipn. f_equal. lia.
Qed.

Lemma inner_split_ok {sl : Slack} n :
  array_shape n -> count n = kCapacity ->
  exists sep l r,
    InnerNode.split n zero_page = Done (sep, l, r) /\ split_ok n l r.
Proof.
  intros Hs Hc.
  rewrite (inner_split_full n zero_page Hs array_shape_zero_page Hc).
  destruct Hs as [Hk Hp].
  do 3 eexists. split; [reflexivity |].
  unfold split_ok, array_shape, kCapacity in *.
  cbn [level count keys payload set_count].
  assert (Hz : forall m, length (skipn m (repeat 0 (Z.to_nat 42)))
                         = (42 - m)%nat).
  { intros m. rewrite length_skipn, repeat_length. reflexivity. }
  split; [split; assumption |].
  split.
  { split; cbn [zero_page keys payload]; unfold kCapacity;
      rewrite length_app, length_skipn, Hz; lia. }
  split; [reflexivity |]. split; [reflexivity |].
  split; [lia |]. split; [lia |]. split.
  - intros i Hi. exists i. split; [lia | reflexivity].
  - intros i Hi. exists (21 + i). split; [lia |].
    unfold payload_at. cbn [payload].
    rewrite app_nth1 by (rewrite length_skipn; lia).
    rewrite nth_skipn. f_equal. lia.
Qed.

(** ** [lookup] only reads *)

Section LookupReadOnly.
Context {sl : Slack}.

Lemma only_reads_refl b : only_reads b b.
Proof. repeat split. exists []. split; reflexivity. Qed.

Lemma only_reads_trans b1 b2 b3 :
  only_reads b1 b2 -> only_reads b2 b3 -> only_reads b1 b3.
Proof.
  intros (Hf & Hr & Hn & new & He & Hro) (Hf' & Hr' & Hn' & new' & He' & Hro').
  repeat split; try congruence.
  exists (new' ++ new). split.
  - rewrite He', He. apply app_assoc.
  - unfold read_only in *. rewrite forallb_app, Hro, Hro'. reflexivity.
Qed.

Lemma only_reads_fix b p : only_reads b (BTree.fix_page b p false).
Proof. repeat split. exists [FixPage p false]. split; reflexivity. Qed.

Lemma only_reads_unfix b p : only_reads b (BTree.unfix_page b p false).
Proof. repeat split. exists [UnfixPage p false]. split; reflexivity. Qed.

Lemma lookup_loop_only_reads key : forall fuel b cur v b',
  BTree.lookup_loop fuel b cur key = Done (v, b') -> only_reads b b'.
Proof.
  induction fuel as [| fuel IH]; intros b cur v b' H; [discriminate |].
  cbn [BTree.lookup_loop] in H.
  destruct (negb (is_leaf (BTree.frames b cur))).
  - inv_bind H. destruct x as [idx exact]. inv_bind H.
    apply IH in H.
    eapply only_reads_trans; [| exact H].
    eapply only_reads_trans; [apply only_reads_fix | apply only_reads_unfix].
  - inv_bind H. destruct x as [idx found].
    assert (Hu : only_reads b (BTree.unfix_page b cur false))
      by apply only_reads_unfix.
    destruct found.
    + inv_bind H. destruct (x =? key).
      * inv_bind H. inversion H; subst. exact Hu.
      * inversion H; subst. exact Hu.
    + inversion H; subst. exact Hu.
Qed.

Lemma lookup_only_reads fuel b key v b' :
  BTree.lookup fuel b key = Done (v, b') -> only_reads b b'.
Proof.
  unfold BTree.lookup. destruct (BTree.root b) as [r |].
  - intros H. apply lookup_loop_only_reads in H.
    eapply only_reads_trans; [apply only_reads_fix | exact H].
  - intros H. inversion H; subst. apply only_reads_refl.
Qed.

End LookupReadOnly.

(** ** Inserting into a leaf with room *)

Section LeafInsert.
Context {sl : Slack}.

Lemma read_prefix (a : list Z) (c : Z) :
  0 <= c <= Z.of_nat (length a) ->
  read_range a 0 (Z.to_nat c) = Done (firstn (Z.to_nat c) a).
Proof.
  intros H. rewrite read_range_in by lia. reflexivity.
Qed.

Lemma write_prefix (a vs : list Z) :
  (length vs <= length a)%nat ->
  write_range a 0 vs = Done (vs ++ skipn (length vs) a).
Proof.
  intros H. rewrite write_range_in by lia. reflexivity.
Qed.

Lemma vec_prefix_all (v : list Z) (c : Z) :
  Z.to_nat c = length v -> 0 <= c -> vec_prefix v c = Done v.
Proof.
  intros H H0. unfold vec_prefix.
  rewrite (proj2 (Z.leb_le _ _)) by lia.
  rewrite H, firstn_all. reflexivity.
Qed.

Lemma syncArrays_closed n kv vv :
  array_shape n -> 0 <= count n <= kCapacity ->
  length kv = Z.to_nat (count n) -> length vv = Z.to_nat (count n) ->
  LeafNode.syncArrays n kv vv
  = Done (mkNode (level n) (count n)
            (kv ++ skipn (length kv) (keys n))
            (vv ++ skipn (length vv) (payload n))).
Proof.
  intros [Hk Hp] Hc Hkv Hvv. unfold LeafNode.syncArrays, values.
  rewrite !vec_prefix_all by lia. cbn [bind].
  rewrite !write_prefix by (unfold kCapacity in *; lia). cbn [bind].
  reflexivity.
Qed.

Lemma array_shape_prefix n c kv vv :
  array_shape n -> (length kv <= length (keys n))%nat ->
  (length vv <= length (payload n))%nat ->
  array_shape (mkNode (level n) c
                 (kv ++ skipn (length kv) (keys n))
                 (vv ++ skipn (length vv) (payload n))).
Proof.
  intros [Hk Hp] Hkv Hvv. split; cbn [keys payload];
    rewrite length_app, length_skipn; lia.
Qed.

Lemma leaf_keys_prefix lvl c kv vv rk rv :
  length kv = Z.to_nat c ->
  leaf_keys (mkNode lvl c (kv ++ rk) (vv ++ rv)) = kv.
Proof. intros H. unfold leaf_keys. cbn. apply firstn_app_exact. auto. Qed.

Lemma leaf_values_prefix lvl c kv vv rk rv :
  length vv = Z.to_nat c ->
  leaf_values (mkNode lvl c (kv ++ rk) (vv ++ rv)) = vv.
Proof. intros H. unfold leaf_values. cbn. apply firstn_app_exact. auto. Qed.

Lemma list_insert_at_length i x l :
  0 <= i <= Z.of_nat (length l) ->
  length (list_insert_at i x l) = S (length l).
Proof.
  intros H. unfold list_insert_at.
  rewrite length_app. cbn [length]. rewrite length_firstn, length_skipn. lia.
Qed.

Lemma vec_insert_in v i x :
  0 <= i <= Z.of_nat (length v) -> vec_insert v i x = Done (list_insert_at i x v).
Proof.
  intros H. unfold vec_insert.
  rewrite (proj2 (Z.leb_le _ _)) by lia.
  rewrite (proj2 (Z.leb_le _ _)) by lia. reflexivity.
Qed.

Lemma list_insert_at_end x l :
  list_insert_at (Z.of_nat (length l)) x l = push_back l x.
Proof.
  unfold list_insert_at, push_back.
  rewrite Nat2Z.id, firstn_all, skipn_all. reflexivity.
Qed.

(** What [LeafNode::insert] does, given the result of the search. *)
Lemma leaf_insert_closed n key value i b :
  array_shape n -> 0 <= count n < kCapacity ->
  lower_bound_search n key = Done (i, b) ->
  ((b = true /\ 0 <= i < count n /\ key <= key_at n i) \/
   (b = false /\ i = count n)) ->
  exists n',
    LeafNode.insert n key value = Done n' /\
    array_shape n' /\ level n' = level n /\
    if b && (key >=? key_at n i) then
      count n' = count n /\ leaf_keys n' = leaf_keys n /\
      leaf_values n' = upd (leaf_values n) (Z.to_nat i) value
    else
      count n' = count n + 1 /\
      leaf_keys n' = list_insert_at i key (leaf_keys n) /\
      leaf_values n' = list_insert_at i value (leaf_values n).
Proof.
  intros Hs Hc Hlb Hib. pose proof Hs as [Hk Hp].
  unfold kCapacity in *.
  unfold LeafNode.insert, LeafNode.lower_bound. rewrite Hlb. cbn [bind].
  unfold LeafNode.get_value_vector, LeafNode.get_key_vector, values.
  rewrite !read_prefix by lia. cbn [bind].
  fold (leaf_keys n). change (firstn (Z.to_nat (count n)) (payload n))
    with (leaf_values n).
  assert (Hlk : length (leaf_keys n) = Z.to_nat (count n))
    by (unfold leaf_keys; rewrite length_firstn; lia).
  assert (Hlv : length (leaf_values n) = Z.to_nat (count n))
    by (unfold leaf_values, values; rewrite length_firstn; lia).
  assert (Hw : wrap16 (count n + 1) = count n + 1)
    by (apply wrap16_small; lia).
  destruct Hib as [(-> & Hi & Hkey) | [-> ->]].
  - rewrite rd_in by lia. cbn [bind andb]. fold (key_at n i).
    destruct (key >=? key_at n i).
    + unfold vec_set. rewrite wr_in by lia. cbn [bind].
      rewrite syncArrays_closed;
        [| exact Hs | unfold kCapacity; lia | exact Hlk
         | rewrite upd_length; exact Hlv].
      eexists. split; [reflexivity |].
      split; [apply array_shape_prefix;
              [exact Hs | lia | rewrite upd_length; lia] |].
      split; [reflexivity |]. split; [reflexivity |].
      split; [apply leaf_keys_prefix; exact Hlk |].
      apply leaf_values_prefix. rewrite upd_length. exact Hlv.
    + rewrite !vec_insert_in by lia. cbn [bind].
      rewrite syncArrays_closed;
        [| apply Hs | cbn [count set_count]; unfold kCapacity; lia
         | cbn [count set_count]; rewrite list_insert_at_length by lia; lia
         | cbn [count set_count]; rewrite list_insert_at_length by lia; lia].
      cbn [level count keys payload set_count]. rewrite Hw.
      eexists. split; [reflexivity |].
      split; [apply (array_shape_prefix n); [exact Hs | |];
              rewrite list_insert_at_length by lia; lia |].
      split; [reflexivity |]. split; [reflexivity |].
      split; [apply leaf_keys_prefix | apply leaf_values_prefix];
        rewrite list_insert_at_length by lia; lia.
  - cbn [bind andb].
    rewrite syncArrays_closed;
      [| apply Hs | cbn [count set_count]; unfold kCapacity; lia
       | cbn [count set_count]; unfold push_back; rewrite length_app;
         simpl; lia
       | cbn [count set_count]; unfold push_back; rewrite length_app;
         simpl; lia].
    cbn [level count keys payload set_count]. rewrite Hw.
    assert (Hek : list_insert_at (count n) key (leaf_keys n)
                  = push_back (leaf_keys n) key).
    { rewrite <- list_insert_at_end. f_equal. lia. }
    assert (Hev : list_insert_at (count n) value (leaf_values n)
                  = push_back (leaf_values n) value).
    { rewrite <- list_insert_at_end. f_equal. lia. }
    rewrite Hek, Hev.
    eexists. split; [reflexivity |].
    split; [apply (array_shape_prefix n); [exact Hs | |];
            unfold push_back; rewrite length_app; simpl; lia |].
    split; [reflexivity |]. split; [reflexivity |].
    split; [apply leaf_keys_prefix | apply leaf_values_prefix];
      unfold push_back; rewrite length_app; simpl; lia.
Qed.

End LeafInsert.

(** ** Inserting into an inner node with room *)

Section InnerInsert.
Context {sl : Slack}.

(** What [InnerNode::insert] does, given the result of the search, for
    arbitrary key arrays.  The branch that overwrites a child is never
    taken: when the search sets its flag the key found is not below
    [key]. *)
Lemma inner_insert_closed n key split_page i b :
  array_shape n -> 0 <= count n < kCapacity ->
  lower_bound_search n key = Done (i, b) ->
  ((b = true /\ 0 <= i < count n /\ key <= key_at n i) \/
   (b = false /\ i = count n)) ->
  let kv := firstn (Z.to_nat (count n - 1)) (keys n) in
  let cv := inner_children n in
  let cv' := if count n =? 1 then push_back cv split_page
             else if b then list_insert_at (i + 1) split_page cv
                  else push_back cv split_page in
  let kv' := if count n =? 1 then kv
             else if b then list_insert_at i key kv
                  else push_back kv key in
  InnerNode.insert n key split_page
  = Done (mkNode (level n) (count n + 1)
            (kv' ++ skipn (length kv') (keys n))
            (cv' ++ skipn (length cv') (payload n))) /\
  length cv' = Z.to_nat (count n + 1) /\
  (length kv' <= Z.to_nat (count n + 1))%nat.
Proof.
  intros Hs Hc Hlb Hib kv cv cv' kv'. pose proof Hs as [Hk Hp].
  unfold kCapacity in *.
  assert (Hlc : length cv = Z.to_nat (count n))
    by (unfold cv, inner_children, children; rewrite length_firstn; lia).
  assert (Hlkv : length kv = Z.to_nat (count n - 1))
    by (unfold kv; rewrite length_firstn; lia).
  assert (Hw : wrap16 (count n + 1) = count n + 1)
    by (apply wrap16_small; lia).
  assert (Hkvec : InnerNode.get_key_vector n = Done kv).
  { unfold InnerNode.get_key_vector.
    destruct (0 <? count n) eqn:E.
    - apply Z.ltb_lt in E. rewrite wrap16_small by lia.
      apply read_prefix. lia.
    - apply Z.ltb_ge in E. unfold kv.
      replace (count n) with 0 by lia. reflexivity. }
  assert (Hcvec : InnerNode.get_child_vector n = Done cv).
  { unfold InnerNode.get_child_vector, children. apply read_prefix. lia. }
  assert (Hlens : length cv' = Z.to_nat (count n + 1) /\
                  (length kv' <= Z.to_nat (count n + 1))%nat).
  { unfold cv', kv'. destruct (count n =? 1) eqn:E1.
    - apply Z.eqb_eq in E1. unfold push_back. rewrite length_app. simpl. lia.
    - destruct Hib as [(-> & Hi & _) | [-> ->]].
      + rewrite !list_insert_at_length by lia. lia.
      + unfold push_back. rewrite !length_app. simpl. lia. }
  destruct Hlens as [Hlcv' Hlkv'].
  split; [| split; assumption].
  unfold InnerNode.insert, InnerNode.lower_bound.
  rewrite Hlb, Hcvec, Hkvec. cbn [bind].
  assert (Hfin : forall c k,
             c = cv' -> k = kv' ->
             bind (Done (c, k))
               (fun x => let '(childVec', keyVec') := x in
                  cs <- write_range
                          (children (set_count n (wrap16 (count n + 1))))
                          0 childVec' ;;
                  ks <- write_range
                          (keys (set_count n (wrap16 (count n + 1))))
                          0 keyVec' ;;
                  Done (set_keys
                          (set_payload (set_count n (wrap16 (count n + 1)))
                             cs) ks))
             = Done (mkNode (level n) (count n + 1)
                       (kv' ++ skipn (length kv') (keys n))
                       (cv' ++ skipn (length cv') (payload n)))).
  { intros c k -> ->. cbn [bind]. unfold children.
    cbn [payload keys set_count].
    rewrite !write_prefix by lia. cbn [bind]. rewrite Hw. reflexivity. }
  unfold cv', kv' in *. destruct (count n =? 1) eqn:E1.
  - apply Hfin; reflexivity.
  - destruct Hib as [(-> & Hi & Hkey) | [-> ->]].
    + rewrite rd_in by lia. cbn [bind]. fold (key_at n i).
      assert (Hgt : (key >? key_at n i) = false).
      { rewrite Z.gtb_ltb. apply Z.ltb_ge. exact Hkey. }
      rewrite Hgt. cbn [andb].
      rewrite !vec_insert_in by lia. cbn [bind].
      apply Hfin; reflexivity.
    + apply Hfin; reflexivity.
Qed.

End InnerInsert.

Lemma In_list_insert_at i x l y :
  In y (list_insert_at i x l) -> y = x \/ In y l.
Proof.
  unfold list_insert_at. intros H. apply in_app_or in H.
  destruct H as [H | [H | H]].
  - right. rewrite <- (firstn_skipn (Z.to_nat i) l).
    apply in_or_app. left. exact H.
  - left. symmetry. exact H.
  - right. rewrite <- (firstn_skipn (Z.to_nat i) l).
    apply in_or_app. right. exact H.
Qed.

Lemma In_push_back x l y : In y (push_back l x) -> y = x \/ In y l.
Proof.
  unfold push_back. intros H. apply in_app_or in H.
  destruct H as [H | [H | []]]; [right; exact H | left; symmetry; exact H].
Qed.

Lemma In_prefix_payload n c y :
  In y (firstn (Z.to_nat c) (payload n)) ->
  exists i, 0 <= i < c /\ y = payload_at n i.
Proof.
  intros H. apply (In_nth _ _ 0) in H. destruct H as (k & Hk & <-).
  rewrite length_firstn in Hk. exists (Z.of_nat k). split; [lia |].
  unfold payload_at. rewrite Nat2Z.id, nth_firstn.
  destruct (Nat.ltb_spec k (Z.to_nat c)); [reflexivity | lia].
Qed.

Section InnerInsertChildren.
Context {sl : Slack}.

(** [InnerNode::insert] into a node with room returns, raises the count by
    one, keeps the level, and every child afterwards is the new page or a
    child from before. *)
Lemma inner_insert_children n key split_page :
  array_shape n -> 0 <= count n < kCapacity ->
  exists n',
    InnerNode.insert n key split_page = Done n' /\
    array_shape n' /\ level n' = level n /\ count n' = count n + 1 /\
    forall i, 0 <= i < count n' ->
              payload_at n' i = split_page \/
              exists i', 0 <= i' < count n /\
                         payload_at n' i = payload_at n i'.
Proof.
  intros Hs Hc. pose proof Hs as [Hk Hp].
  destruct (lower_bound_search_shape n key) as (i & b & Hlb & Hib).
  { unfold kCapacity in *. rewrite Hk. simpl. lia. }
  { unfold kCapacity in *. lia. }
  destruct (inner_insert_closed n key split_page i b Hs Hc Hlb Hib)
    as (Hr & Hlc & Hlk).
  set (cv' := if count n =? 1
              then push_back (inner_children n) split_page
              else if b
                   then list_insert_at (i + 1) split_page (inner_children n)
                   else push_back (inner_children n) split_page) in *.
  eexists. split; [exact Hr |]. unfold array_shape, kCapacity in *.
  split.
  { split; cbn [keys payload]; rewrite length_app, length_skipn; lia. }
  split; [reflexivity |]. split; [reflexivity |].
  cbn [count]. intros k Hk0.
  match goal with
  | |- payload_at ?m k = _ \/ _ =>
      assert (Heq : payload_at m k = nth (Z.to_nat k) cv' 0)
        by (unfold payload_at; cbn [payload]; apply app_nth1; lia);
      rewrite Heq
  end.
  assert (Hin : In (nth (Z.to_nat k) cv' 0) cv') by (apply nth_In; lia).
  assert (Hcases : nth (Z.to_nat k) cv' 0 = split_page \/
                   In (nth (Z.to_nat k) cv' 0) (inner_children n)).
  { unfold cv' in Hin |- *. destruct (count n =? 1).
    - apply In_push_back. exact Hin.
    - destruct b; [apply In_list_insert_at in Hin | apply In_push_back in Hin];
        exact Hin. }
  destruct Hcases as [He | Hold]; [left; exact He | right].
  apply In_prefix_payload in Hold. exact Hold.
Qed.

End InnerInsertChildren.

(** ** Creating a new root *)

Section Promote.
Context {sl : Slack}.

Lemma search_single_separator lvl sep p :
  lower_bound_search (mkNode lvl 1 (pad [sep]) p) sep = Done (0, true).
Proof.
  destruct (lower_bound_search_sorted (mkNode lvl 1 (pad [sep]) p) sep)
    as (i & Hr & Hi0 & Hlo & Hhi).
  - cbn. lia.
  - cbn. lia.
  - intros i j Hi Hj. cbn [count] in Hj. lia.
  - cbn [count] in *.
    assert (i = 0).
    { destruct (Z.eq_dec i 0) as [e | ne]; [exact e |].
      specialize (Hlo 0 ltac:(lia)). cbn in Hlo. lia. }
    subst i. exact Hr.
Qed.

(** The page built by the two [insert] calls on a zero-filled page. *)
Lemma new_root_page lvl sep oldID newID :
  (n1 <- InnerNode.insert (set_level zero_page lvl) sep oldID ;;
   InnerNode.insert n1 sep newID)
  = Done (mkNode lvl 2 (pad [sep]) (pad [oldID; newID])).
Proof.
  assert (H1 : InnerNode.insert (set_level zero_page lvl) sep oldID
               = Done (mkNode lvl 1 (pad [sep]) (pad [oldID])))
    by reflexivity.
  rewrite H1. cbn [bind].
  destruct (inner_insert_closed (mkNode lvl 1 (pad [sep]) (pad [oldID]))
              sep newID 0 true) as [Hr _].
  - split; reflexivity.
  - cbn; unfold kCapacity; lia.
  - apply search_single_separator.
  - left. cbn. repeat split; lia.
  - rewrite Hr. reflexivity.
Qed.

Lemma promote_root_closed (b : BTree.t) lvl sep newID oldID :
  BTree.root b = Some oldID ->
  BTree.frames b (BTree.next_page_id b) = zero_page ->
  0 <= BTree.next_page_id b < 18446744073709551615 ->
  BTree.promote_root b lvl sep newID
  = Done (BTree.next_page_id b,
          BTree.store
            (BTree.fix_page
               (BTree.set_root (snd (BTree.fresh_page_id b))
                  (BTree.next_page_id b))
               (BTree.next_page_id b) true)
            (BTree.next_page_id b)
            (mkNode lvl 2 (pad [sep]) (pad [oldID; newID]))).
Proof.
  intros Hroot Hzero Hn. unfold BTree.promote_root. rewrite Hroot.
  cbn [BTree.fresh_page_id BTree.set_root BTree.fix_page BTree.log
       BTree.frames].
  rewrite Hzero.
  pose proof (new_root_page lvl sep oldID newID) as Hnew.
  destruct (InnerNode.insert (set_level zero_page lvl) sep oldID)
    as [n1 | |]; cbn [bind] in *; try discriminate.
  rewrite Hnew. reflexivity.
Qed.

End Promote.

(** ** The shape of the tree is kept by [insert] *)

Lemma child_ok_kept b b' lvl c :
  BTree.next_page_id b <= BTree.next_page_id b' ->
  (forall q, 0 <= q < BTree.next_page_id b ->
             level (BTree.frames b' q) = level (BTree.frames b q)) ->
  child_ok b lvl c -> child_ok b' lvl c.
Proof.
  intros Hn Hl [Hc Hlv]. split; [lia |]. rewrite Hl by exact Hc. exact Hlv.
Qed.

Lemma page_ok_kept b b' h h' p :
  BTree.next_page_id b <= BTree.next_page_id b' -> h <= h' ->
  (forall q, 0 <= q < BTree.next_page_id b ->
             level (BTree.frames b' q) = level (BTree.frames b q)) ->
  BTree.frames b' p = BTree.frames b p ->
  page_ok b h p -> page_ok b' h' p.
Proof.
  intros Hn Hh Hl Hp (Hs & Hlv & Hc & Hch). unfold page_ok. rewrite Hp.
  split; [exact Hs |]. split; [lia |]. split; [exact Hc |].
  intros Hne. destruct (Hch Hne) as [H1 Hall]. split; [exact H1 |].
  intros i Hi. eapply child_ok_kept; eauto.
Qed.

(** A step that rewrites the pages in [touched] and allocates only pages
    in [touched] keeps all pages well formed, provided the rewritten pages
    are well formed and no allocated page changes its level. *)
Lemma pages_ok_after b h b' h' (touched : list Z) :
  pages_ok b h ->
  BTree.next_page_id b <= BTree.next_page_id b' -> h <= h' ->
  (forall q, ~ In q touched -> BTree.frames b' q = BTree.frames b q) ->
  (forall q, In q touched ->
             0 <= q < BTree.next_page_id b' /\ page_ok b' h' q) ->
  (forall q, 0 <= q < BTree.next_page_id b ->
             level (BTree.frames b' q) = level (BTree.frames b q)) ->
  (forall q, BTree.next_page_id b <= q < BTree.next_page_id b' ->
             In q touched) ->
  pages_ok b' h'.
Proof.
  intros (H0 & Hok & Hzero) Hn Hh Hsame Htouched Hlev Hnew.
  split; [lia |]. split.
  - intros p Hp. destruct (in_dec Z.eq_dec p touched) as [Hin | Hnin].
    + apply Htouched. exact Hin.
    + assert (p < BTree.next_page_id b).
      { destruct (Z_lt_ge_dec p (BTree.next_page_id b)) as [l | g];
          [exact l |]. exfalso. apply Hnin. apply Hnew. lia. }
      apply (page_ok_kept b b' h h'); auto. apply Hok. lia.
  - intros p Hp.
    assert (Hnin : ~ In p touched).
    { intros Hin. destruct (Htouched p Hin) as [Hlt _]. lia. }
    rewrite (Hsame p Hnin). apply Hzero. lia.
Qed.

Ltac simpl_state :=
  cbn [BTree.frames BTree.store BTree.unfix_page BTree.fix_page BTree.log
       BTree.root BTree.next_page_id BTree.set_root BTree.fresh_page_id
       BTree.events fst snd] in *.

(** The children of a split half are valid children in any later state
    that keeps the levels of the allocated pages. *)
Lemma split_half_children b b' h cur half :
  page_ok b h cur ->
  BTree.next_page_id b <= BTree.next_page_id b' ->
  (forall q, 0 <= q < BTree.next_page_id b ->
             level (BTree.frames b' q) = level (BTree.frames b q)) ->
  level half = level (BTree.frames b cur) ->
  (forall i, 0 <= i < count half ->
             exists i', 0 <= i' < count (BTree.frames b cur) /\
                        payload_at half i
                        = payload_at (BTree.frames b cur) i') ->
  level half <> 0 ->
  forall i, 0 <= i < count half ->
            child_ok b' (level half) (payload_at half i).
Proof.
  intros (_ & _ & _ & Hch) Hn Hlev Hl Hfrom Hne i Hi.
  destruct (Hfrom i Hi) as (i' & Hi' & ->).
  rewrite Hl in Hne |- *. destruct (Hch Hne) as [_ Hall].
  eapply child_ok_kept; eauto.
Qed.

(** The state after a root was split and a new root created. *)
Lemma promoted_state_ok b h cur l r sep b5 cur' :
  loop_ok b h cur None ->
  count (BTree.frames b cur) = kCapacity ->
  split_ok (BTree.frames b cur) l r ->
  BTree.root b5 = Some (BTree.next_page_id b + 1) ->
  BTree.next_page_id b5 = BTree.next_page_id b + 2 ->
  (forall q, BTree.frames b5 q
             = if q =? BTree.next_page_id b + 1
               then mkNode (h + 1) 2 (pad [sep])
                      (pad [cur; BTree.next_page_id b])
               else if q =? cur then l
               else if q =? BTree.next_page_id b then r
               else BTree.frames b q) ->
  cur' = BTree.next_page_id b \/ cur' = cur ->
  loop_ok b5 (h + 1) cur' (Some (BTree.next_page_id b + 1)) /\
  steps_needed (BTree.frames b5 cur') < steps_needed (BTree.frames b cur).
Proof.
  intros (Hst & Hcur & Hroot) Hfull Hsplit Hroot5 Hnext5 Hframes Hcur'.
  pose proof Hst as (Hpages & r0 & Hr0 & _ & Hrl).
  rewrite Hroot in Hr0. inversion Hr0; subst r0. clear Hr0.
  pose proof Hpages as (Hn0 & Hok & Hzero).
  pose proof (Hok cur Hcur) as Hpcur.
  pose proof Hpcur as (Hs & Hlv & Hc & Hch).
  set (n := BTree.frames b cur) in *.
  set (N := BTree.next_page_id b) in *.
  destruct Hsplit as (Hsl & Hsr & Hll & Hlr & Hcl & Hcr & Hfl & Hfr).
  assert (Froot : BTree.frames b5 (N + 1)
                  = mkNode (h + 1) 2 (pad [sep]) (pad [cur; N])).
  { rewrite Hframes, Z.eqb_refl. reflexivity. }
  assert (Fcur : BTree.frames b5 cur = l).
  { rewrite Hframes, (proj2 (Z.eqb_neq cur (N + 1))) by lia.
    rewrite Z.eqb_refl. reflexivity. }
  assert (FN : BTree.frames b5 N = r).
  { rewrite Hframes, (proj2 (Z.eqb_neq N (N + 1))) by lia.
    rewrite (proj2 (Z.eqb_neq N cur)) by lia.
    rewrite Z.eqb_refl. reflexivity. }
  assert (Fother : forall q, q <> N + 1 -> q <> cur -> q <> N ->
                             BTree.frames b5 q = BTree.frames b q).
  { intros q H1 H2 H3. rewrite Hframes.
    rewrite (proj2 (Z.eqb_neq _ _) H1), (proj2 (Z.eqb_neq _ _) H2),
      (proj2 (Z.eqb_neq _ _) H3). reflexivity. }
  assert (Hlev : forall q, 0 <= q < N ->
                   level (BTree.frames b5 q) = level (BTree.frames b q)).
  { intros q Hq. destruct (Z.eq_dec q cur) as [-> | ne].
    - rewrite Fcur. exact Hll.
    - rewrite Fother by lia. reflexivity. }
  assert (Hle : N <= BTree.next_page_id b5) by lia.
  assert (Hpages5 : pages_ok b5 (h + 1)).
  { apply (pages_ok_after b h b5 (h + 1) [N + 1; cur; N]);
      try assumption; try lia.
    - intros q Hq. apply Fother; intros ->; apply Hq; simpl; auto.
    - intros q [<- | [<- | [<- | []]]]; (split; [lia |]); unfold page_ok.
      + rewrite Froot. cbn [level count].
        split; [split; reflexivity |]. split; [lia |].
        split; [unfold kCapacity; lia |]. intros _. split; [lia |].
        intros i Hi. assert (Hi' : i = 0 \/ i = 1) by lia.
        destruct Hi' as [-> | ->]; split;
          change (payload_at _ _) with cur || change (payload_at _ _) with N;
          try lia.
        * rewrite Fcur. fold n in Hll. lia.
        * rewrite FN. fold n in Hlr. lia.
      + rewrite Fcur. split; [exact Hsl |]. split; [lia |].
        split; [lia |]. intros Hne. split; [lia |].
        apply (split_half_children b b5 h cur l); assumption.
      + rewrite FN. split; [exact Hsr |]. split; [lia |].
        split; [lia |]. intros Hne. split; [lia |].
        apply (split_half_children b b5 h cur r); assumption.
    - intros q Hq. simpl. lia. }
  assert (Hlevel' : level (BTree.frames b5 cur') = h /\
                    count (BTree.frames b5 cur') < kCapacity).
  { destruct Hcur' as [-> | ->]; [rewrite FN | rewrite Fcur]; split; lia. }
  split.
  - split.
    + split; [exact Hpages5 |]. exists (N + 1).
      split; [exact Hroot5 |]. split; [lia |]. rewrite Froot. reflexivity.
    + split; [destruct Hcur'; lia |].
      split; [lia |]. rewrite Froot. cbn [level count].
      split; [lia |]. left. unfold kCapacity. lia.
  - unfold steps_needed. destruct Hlevel' as [-> Hc'].
    rewrite (proj2 (Z.ltb_lt _ _) Hc'), Hfull, Z.ltb_irrefl. lia.
Qed.

(** The state after a node with a parent was split and the separator
    inserted into the parent. *)
Lemma parent_updated_state_ok b h cur p l r pn' b5 cur' :
  loop_ok b h cur (Some p) ->
  count (BTree.frames b cur) = kCapacity ->
  split_ok (BTree.frames b cur) l r ->
  array_shape pn' -> level pn' = level (BTree.frames b p) ->
  count pn' = count (BTree.frames b p) + 1 ->
  (forall i, 0 <= i < count pn' ->
             payload_at pn' i = BTree.next_page_id b \/
             exists i', 0 <= i' < count (BTree.frames b p) /\
                        payload_at pn' i = payload_at (BTree.frames b p) i') ->
  BTree.root b5 = BTree.root b ->
  BTree.next_page_id b5 = BTree.next_page_id b + 1 ->
  (forall q, BTree.frames b5 q
             = if q =? p then pn'
               else if q =? cur then l
               else if q =? BTree.next_page_id b then r
               else BTree.frames b q) ->
  cur' = BTree.next_page_id b \/ cur' = cur ->
  loop_ok b5 h cur' (Some p) /\
  steps_needed (BTree.frames b5 cur') < steps_needed (BTree.frames b cur).
Proof.
  intros (Hst & Hcur & Hp & Hpl & Hpc) Hfull Hsplit Hspn Hlpn Hcpn Hchpn
    Hroot5 Hnext5 Hframes Hcur'.
  pose proof Hst as (Hpages & r0 & Hr0 & Hr0b & Hrl).
  pose proof Hpages as (Hn0 & Hok & Hzero).
  pose proof (Hok cur Hcur) as Hpcur.
  pose proof Hpcur as (Hs & Hlv & Hc & Hch).
  pose proof (Hok p Hp) as Hpp.
  pose proof Hpp as (Hsp & Hlvp & Hcp & Hchp).
  set (n := BTree.frames b cur) in *.
  set (pn := BTree.frames b p) in *.
  set (N := BTree.next_page_id b) in *.
  destruct Hsplit as (Hsl & Hsr & Hll & Hlr & Hcl & Hcr & Hfl & Hfr).
  assert (Hpcur_ne : p <> cur) by (intros ->; unfold pn, n in *; lia).
  assert (Fp : BTree.frames b5 p = pn').
  { rewrite Hframes, Z.eqb_refl. reflexivity. }
  assert (Fcur : BTree.frames b5 cur = l).
  { rewrite Hframes, (proj2 (Z.eqb_neq cur p)) by auto.
    rewrite Z.eqb_refl. reflexivity. }
  assert (FN : BTree.frames b5 N = r).
  { rewrite Hframes, (proj2 (Z.eqb_neq N p)) by lia.
    rewrite (proj2 (Z.eqb_neq N cur)) by lia.
    rewrite Z.eqb_refl. reflexivity. }
  assert (Fother : forall q, q <> p -> q <> cur -> q <> N ->
                             BTree.frames b5 q = BTree.frames b q).
  { intros q H1 H2 H3. rewrite Hframes.
    rewrite (proj2 (Z.eqb_neq _ _) H1), (proj2 (Z.eqb_neq _ _) H2),
      (proj2 (Z.eqb_neq _ _) H3). reflexivity. }
  assert (Hlev : forall q, 0 <= q < N ->
                   level (BTree.frames b5 q) = level (BTree.frames b q)).
  { intros q Hq. destruct (Z.eq_dec q cur) as [-> | ne].
    - rewrite Fcur. exact Hll.
    - destruct (Z.eq_dec q p) as [-> | ne'].
      + rewrite Fp. exact Hlpn.
      + rewrite Fother by lia. reflexivity. }
  assert (Hle : N <= BTree.next_page_id b5) by lia.
  assert (Hpfull : count pn < kCapacity) by lia.
  assert (Hpages5 : pages_ok b5 h).
  { apply (pages_ok_after b h b5 h [p; cur; N]);
      try assumption; try lia.
    - intros q Hq. apply Fother; intros ->; apply Hq; simpl; auto.
    - intros q [<- | [<- | [<- | []]]]; (split; [lia |]); unfold page_ok.
      + rewrite Fp. split; [exact Hspn |]. split; [lia |].
        split; [lia |]. intros Hne. split; [lia |].
        intros i Hi. destruct (Hchpn i Hi) as [-> | (i' & Hi' & ->)].
        * split; [lia |]. rewrite FN. lia.
        * rewrite Hlpn in Hne |- *. destruct (Hchp Hne) as [_ Hall].
          eapply child_ok_kept; eauto.
      + rewrite Fcur. split; [exact Hsl |]. split; [lia |].
        split; [lia |]. intros Hne. split; [lia |].
        apply (split_half_children b b5 h cur l); assumption.
      + rewrite FN. split; [exact Hsr |]. split; [lia |].
        split; [lia |]. intros Hne. split; [lia |].
        apply (split_half_children b b5 h cur r); assumption.
    - intros q Hq. simpl. lia. }
  assert (Hlevel' : level (BTree.frames b5 cur') = level n /\
                    count (BTree.frames b5 cur') < kCapacity).
  { destruct Hcur' as [-> | ->]; [rewrite FN | rewrite Fcur]; split; lia. }
  split.
  - split.
    + split; [exact Hpages5 |]. exists r0. rewrite Hroot5.
      split; [exact Hr0 |]. split; [lia |]. rewrite Hlev by lia. exact Hrl.
    + split; [destruct Hcur'; lia |].
      split; [lia |]. rewrite Fp.
      split; [destruct Hlevel'; lia |]. right. apply Hlevel'.
  - unfold steps_needed. destruct Hlevel' as [-> Hc'].
    rewrite (proj2 (Z.ltb_lt _ _) Hc'), Hfull, Z.ltb_irrefl. lia.
Qed.

Section InsertKeepsShape.
Context {sl : Slack}.

Lemma page_ok_arrays b h p :
  page_ok b h p -> array_shape (BTree.frames b p).
Proof. intros H; apply H. Qed.

Lemma search_any n key :
  array_shape n -> 0 <= count n <= kCapacity ->
  exists i b, lower_bound_search n key = Done (i, b) /\
              ((b = true /\ 0 <= i < count n /\ key <= key_at n i) \/
               (b = false /\ i = count n)).
Proof.
  intros [Hk _] Hc. unfold kCapacity in *.
  apply lower_bound_search_shape; rewrite ?Hk; simpl; lia.
Qed.

(** A leaf with room: the pair is stored and [insert] returns. *)
Lemma iter_leaf_room b h key value cur par cd pd :
  loop_ok b h cur par ->
  is_leaf (BTree.frames b cur) = true ->
  count (BTree.frames b cur) < kCapacity ->
  exists b',
    BTree.insert_iter b key value cur par cd pd = Done (inl b') /\
    structure_ok b' h /\
    BTree.next_page_id b' = BTree.next_page_id b.
Proof.
  intros ((Hpages & r & Hroot & Hr & Hrl) & Hcur & Hpar) Hleaf Hroom.
  pose proof Hpages as (Hn0 & Hok & Hzero).
  pose proof (Hok cur Hcur) as (Hs & Hlv & Hc & _).
  set (n := BTree.frames b cur) in *.
  destruct (search_any n key Hs Hc) as (i & f & Hlb & Hif).
  destruct (leaf_insert_closed n key value i f Hs ltac:(lia) Hlb Hif)
    as (n' & Hins & Hs' & Hl' & Hcnt).
  assert (Hc' : 0 <= count n' <= kCapacity).
  { destruct (f && (key >=? key_at n i)); lia. }
  unfold BTree.insert_iter. cbv zeta. fold n. rewrite Hleaf.
  change 42 with kCapacity.
  rewrite (proj2 (Z.ltb_lt _ _) Hroom), Hins. cbn [bind].
  eexists. split; [reflexivity |].
  assert (Hpages' : forall ev,
             pages_ok (BTree.mk (fun q => if q =? cur then n'
                                          else BTree.frames b q)
                         (BTree.root b) (BTree.next_page_id b) ev) h).
  { intros ev. apply (pages_ok_after b h _ h [cur]); simpl_state;
      try lia; try assumption.
    - intros q Hq. destruct (Z.eqb_spec q cur) as [-> | ne];
        [exfalso; apply Hq; left; reflexivity | reflexivity].
    - intros q [<- | []]. split; [lia |].
      unfold page_ok. simpl_state. rewrite Z.eqb_refl.
      split; [exact Hs' |]. split; [lia |]. split; [exact Hc' |].
      intros Hne. apply Z.eqb_eq in Hleaf. lia.
    - intros q Hq. destruct (Z.eqb_spec q cur) as [-> | ne];
        [fold n; lia | reflexivity]. }
  assert (Hrl' : level (if r =? cur then n' else BTree.frames b r) = h).
  { destruct (Z.eqb_spec r cur) as [-> | ne]; [fold n in Hrl; lia | exact Hrl]. }
  destruct par as [p |]; simpl_state.
  - split; [| reflexivity]. split; [apply Hpages' |].
    exists r. simpl_state. repeat split; try assumption; lia.
  - split; [| reflexivity]. split; [apply Hpages' |].
    exists r. simpl_state. repeat split; try assumption; lia.
Qed.

(** An inner node with room: the loop moves to the chosen child. *)
Lemma iter_descend b h key value cur par cd pd :
  loop_ok b h cur par ->
  is_leaf (BTree.frames b cur) = false ->
  count (BTree.frames b cur) <> kCapacity ->
  exists b' child,
    BTree.insert_iter b key value cur par cd pd
    = Done (inr (b', child, Some cur, cd, pd)) /\
    loop_ok b' h child (Some cur) /\
    steps_needed (BTree.frames b' child)
    < steps_needed (BTree.frames b cur) /\
    BTree.next_page_id b' = BTree.next_page_id b.
Proof.
  intros (Hst & Hcur & Hpar) Hleaf Hroom.
  pose proof Hst as ((Hn0 & Hok & Hzero) & r & Hroot & Hr & Hrl).
  pose proof (Hok cur Hcur) as (Hs & Hlv & Hc & Hch).
  set (n := BTree.frames b cur) in *.
  assert (Hne : level n <> 0).
  { unfold is_leaf in Hleaf. apply Z.eqb_neq in Hleaf. exact Hleaf. }
  destruct (Hch Hne) as [Hc1 Hchildren].
  destruct (search_any n key Hs Hc) as (i & f & Hlb & Hif).
  set (idx := if f then i else count n - 1).
  assert (Hidx : 0 <= idx < count n).
  { unfold idx. destruct Hif as [(-> & Hi & _) | [-> _]]; lia. }
  pose proof (Hchildren idx Hidx) as [Hchild Hclev].
  set (child := payload_at n idx) in *.
  assert (Hrd : rd (children n) idx = Done child).
  { unfold children. destruct Hs as [_ Hp]. unfold kCapacity in *.
    apply rd_in. rewrite Hp. simpl. lia. }
  assert (Hsteps : steps_needed (BTree.frames b child) < steps_needed n).
  { unfold steps_needed. rewrite Hclev.
    destruct (count (BTree.frames b child) <? kCapacity);
      destruct (count n <? kCapacity); lia. }
  unfold BTree.insert_iter. cbv zeta. fold n. rewrite Hleaf.
  change 42 with kCapacity.
  rewrite (proj2 (Z.eqb_neq _ _) Hroom).
  unfold InnerNode.lower_bound. rewrite Hlb. cbn [bind]. fold idx.
  rewrite Hrd. cbn [bind].
  assert (Hloop : forall b', BTree.frames b' = BTree.frames b ->
                             BTree.root b' = BTree.root b ->
                             BTree.next_page_id b' = BTree.next_page_id b ->
                             loop_ok b' h child (Some cur)).
  { intros b' Hf Hro Hnx. unfold loop_ok, structure_ok, pages_ok, page_ok,
      child_ok. rewrite Hf, Hro, Hnx. fold n.
    split; [exact Hst |]. split; [exact Hchild |].
    split; [exact Hcur |]. split; [lia |]. left. lia. }
  destruct par as [p |]; eexists; exists child;
    (split; [reflexivity |]); simpl_state;
    (split; [apply Hloop; reflexivity |]);
    (split; [exact Hsteps | reflexivity]).
Qed.

End InsertKeepsShape.

(** ** Iterations of [insert] that split *)

Section SplitIterations.
Variable j : Z.

(** A full leaf: it is split, the separator goes to the parent or to a new
    root, and the loop continues in one of the halves. *)
Lemma iter_leaf_split b h key value cur par cd pd :
  loop_ok b h cur par ->
  is_leaf (BTree.frames b cur) = true ->
  count (BTree.frames b cur) = kCapacity ->
  BTree.next_page_id b + 2 < 18446744073709551616 ->
  exists b' cur' par' cd' pd',
    BTree.insert_iter (sl := page_slack j) b key value cur par cd pd
    = Done (inr (b', cur', Some par', cd', pd')) /\
    loop_ok b' (match par with Some _ => h | None => h + 1 end) cur'
      (Some par') /\
    steps_needed (BTree.frames b' cur')
    < steps_needed (BTree.frames b cur) /\
    BTree.next_page_id b <= BTree.next_page_id b'
    <= BTree.next_page_id b + 2.
Proof.
  intros Hloop Hleaf Hfull Hbound.
  pose proof Hloop as (Hst & Hcur & Hpar).
  pose proof Hst as ((Hn0 & Hok & Hzero) & r0 & Hr0 & Hr0b & Hrl).
  pose proof (Hok cur Hcur) as (Hs & Hlv & Hc & _).
  assert (Hl0 : level (BTree.frames b cur) = 0)
    by (apply Z.eqb_eq; exact Hleaf).
  destruct (leaf_split_ok j _ Hs Hfull Hl0) as (sep & l & r & Hsplit & Hsok).
  assert (Hw1 : wrap64 (BTree.next_page_id b + 1) = BTree.next_page_id b + 1)
    by (apply wrap64_small; lia).
  assert (Hw2 : wrap64 (BTree.next_page_id b + 1 + 1)
                = BTree.next_page_id b + 2)
    by (rewrite wrap64_small; lia).
  unfold BTree.insert_iter. cbv zeta. rewrite Hleaf.
  change 42 with kCapacity. rewrite Hfull, Z.ltb_irrefl.
  simpl_state. rewrite Hw1.
  rewrite (Hzero (BTree.next_page_id b)) by lia.
  rewrite Hsplit. cbn [bind].
  destruct par as [p |].
  - destruct Hpar as (Hp & Hpl & Hpc).
    pose proof (Hok p Hp) as (Hsp & Hlvp & Hcp & _).
    assert (Hne1 : (p =? cur) = false)
      by (apply Z.eqb_neq; intros ->; lia).
    assert (Hne2 : (p =? BTree.next_page_id b) = false)
      by (apply Z.eqb_neq; lia).
    rewrite Hne1, Hne2.
    destruct (inner_insert_children (sl := page_slack j)
                (BTree.frames b p) sep (BTree.next_page_id b) Hsp
                ltac:(lia))
      as (pn' & Hins & Hspn & Hlpn & Hcpn & Hchpn).
    rewrite Hins. cbn [bind].
    do 5 eexists. split; [reflexivity |].
    assert (Hcur' : (if key >=? sep then BTree.next_page_id b else cur)
                    = BTree.next_page_id b \/
                    (if key >=? sep then BTree.next_page_id b else cur)
                    = cur)
      by (destruct (key >=? sep); auto).
    match goal with
    | |- loop_ok ?b5 _ ?c _ /\ _ =>
        destruct (parent_updated_state_ok b h cur p l r pn' b5 c)
          as [HA HB]; try assumption; try reflexivity
    end.
    split; [exact HA |]. split; [exact HB |]. simpl_state. lia.
  - assert (Hh : h = 0).
    { rewrite Hpar in Hr0. inversion Hr0; subst r0. lia. }
    rewrite promote_root_closed with (oldID := cur);
      [| simpl_state; exact Hpar
       | simpl_state;
         rewrite (proj2 (Z.eqb_neq _ cur)) by lia;
         rewrite (proj2 (Z.eqb_neq _ (BTree.next_page_id b))) by lia;
         apply Hzero; lia
       | simpl_state; lia].
    cbn [bind]. simpl_state. rewrite Hw2.
    do 5 eexists. split; [reflexivity |].
    assert (Hcur' : (if key >=? sep then BTree.next_page_id b else cur)
                    = BTree.next_page_id b \/
                    (if key >=? sep then BTree.next_page_id b else cur)
                    = cur)
      by (destruct (key >=? sep); auto).
    match goal with
    | |- loop_ok ?b5 _ ?c _ /\ _ =>
        destruct (promoted_state_ok b h cur l r sep b5 c)
          as [HA HB]; try assumption; try reflexivity;
        [intros q; rewrite Hh; reflexivity |]
    end.
    split; [exact HA |]. split; [exact HB |]. simpl_state. lia.
Qed.

(** A full inner node: likewise. *)
Lemma iter_inner_split b h key value cur par cd pd :
  loop_ok b h cur par ->
  is_leaf (BTree.frames b cur) = false ->
  count (BTree.frames b cur) = kCapacity ->
  BTree.next_page_id b + 2 < 18446744073709551616 ->
  (par = None -> h + 1 < 65536) ->
  exists b' cur' par' cd' pd',
    BTree.insert_iter (sl := page_slack j) b key value cur par cd pd
    = Done (inr (b', cur', Some par', cd', pd')) /\
    loop_ok b' (match par with Some _ => h | None => h + 1 end) cur'
      (Some par') /\
    steps_needed (BTree.frames b' cur')
    < steps_needed (BTree.frames b cur) /\
    BTree.next_page_id b <= BTree.next_page_id b'
    <= BTree.next_page_id b + 2.
Proof.
  intros Hloop Hleaf Hfull Hbound Hheight.
  pose proof Hloop as (Hst & Hcur & Hpar).
  pose proof Hst as ((Hn0 & Hok & Hzero) & r0 & Hr0 & Hr0b & Hrl).
  pose proof (Hok cur Hcur) as (Hs & Hlv & Hc & _).
  destruct (inner_split_ok (sl := page_slack j) _ Hs Hfull)
    as (sep & l & r & Hsplit & Hsok).
  assert (Hll : level l = level (BTree.frames b cur)) by apply Hsok.
  assert (Hw1 : wrap64 (BTree.next_page_id b + 1) = BTree.next_page_id b + 1)
    by (apply wrap64_small; lia).
  assert (Hw2 : wrap64 (BTree.next_page_id b + 1 + 1)
                = BTree.next_page_id b + 2)
    by (rewrite wrap64_small; lia).
  unfold BTree.insert_iter. cbv zeta. rewrite Hleaf.
  change 42 with kCapacity. rewrite Hfull, Z.eqb_refl.
  simpl_state. rewrite Hw1.
  rewrite (Hzero (BTree.next_page_id b)) by lia.
  rewrite Hsplit. cbn [bind].
  assert (Hcur' : (if key >=? sep then BTree.next_page_id b else cur)
                  = BTree.next_page_id b \/
                  (if key >=? sep then BTree.next_page_id b else cur)
                  = cur)
    by (destruct (key >=? sep); auto).
  destruct par as [p |].
  - destruct Hpar as (Hp & Hpl & Hpc).
    pose proof (Hok p Hp) as (Hsp & Hlvp & Hcp & _).
    assert (Hne1 : (p =? cur) = false)
      by (apply Z.eqb_neq; intros ->; lia).
    assert (Hne2 : (p =? BTree.next_page_id b) = false)
      by (apply Z.eqb_neq; lia).
    rewrite Hne1, Hne2.
    destruct (inner_insert_children (sl := page_slack j)
                (BTree.frames b p) sep (BTree.next_page_id b) Hsp
                ltac:(lia))
      as (pn' & Hins & Hspn & Hlpn & Hcpn & Hchpn).
    rewrite Hins. cbn [bind].
    do 5 eexists. split; [reflexivity |].
    match goal with
    | |- loop_ok ?b5 _ ?c _ /\ _ =>
        destruct (parent_updated_state_ok b h cur p l r pn' b5 c)
          as [HA HB]; try assumption; try reflexivity
    end.
    split; [exact HA |]. split; [exact HB |]. simpl_state. lia.
  - assert (Hh : level l = h).
    { rewrite Hpar in Hr0. inversion Hr0; subst r0. lia. }
    specialize (Hheight eq_refl).
    assert (Hw16 : wrap16 (level l + 1) = h + 1)
      by (rewrite Hh; apply wrap16_small; lia).
    rewrite Hw16.
    rewrite promote_root_closed with (oldID := cur);
      [| simpl_state; exact Hpar
       | simpl_state;
         rewrite (proj2 (Z.eqb_neq _ cur)) by lia;
         rewrite (proj2 (Z.eqb_neq _ (BTree.next_page_id b))) by lia;
         apply Hzero; lia
       | simpl_state; lia].
    cbn [bind]. simpl_state. rewrite Hw2.
    do 5 eexists. split; [reflexivity |].
    match goal with
    | |- loop_ok ?b5 _ ?c _ /\ _ =>
        destruct (promoted_state_ok b h cur l r sep b5 c)
          as [HA HB]; try assumption; try reflexivity
    end.
    split; [exact HA |]. split; [exact HB |]. simpl_state. lia.
Qed.

(** The loop of [insert] returns within [steps_needed] iterations and
    leaves a well-formed tree, one level higher exactly when the first
    iteration created a new root. *)
Lemma insert_loop_ok key value : forall fuel b h cur par cd pd,
  loop_ok b h cur par ->
  steps_needed (BTree.frames b cur) <= Z.of_nat fuel ->
  BTree.next_page_id b + 2 * steps_needed (BTree.frames b cur)
  < 18446744073709551616 ->
  (par = None -> h + 1 < 65536) ->
  exists b',
    BTree.insert_loop (sl := page_slack j) fuel b key value cur par cd pd
    = Done b' /\
    structure_ok b'
      (if promotes (BTree.frames b cur) par then h + 1 else h) /\
    BTree.next_page_id b <= BTree.next_page_id b'
    <= BTree.next_page_id b + 2 * steps_needed (BTree.frames b cur).
Proof.
  induction fuel as [| fuel IH]; intros b h cur par cd pd Hloop Hfuel Hnext Hh.
  - pose proof Hloop as (((_ & Hok & _) & _) & Hcur & _).
    destruct (Hok cur Hcur) as (_ & Hlv & _).
    unfold steps_needed in Hfuel.
    destruct (count (BTree.frames b cur) <? kCapacity); lia.
  - pose proof Hloop as (((_ & Hok & _) & _) & Hcur & _).
    destruct (Hok cur Hcur) as (_ & Hlv & Hc & _).
    cbn [BTree.insert_loop].
    assert (Hsplit_case :
              count (BTree.frames b cur) = kCapacity ->
              (exists b1 cur1 par1 cd1 pd1,
                  BTree.insert_iter (sl := page_slack j) b key value cur par
                    cd pd
                  = Done (inr (b1, cur1, Some par1, cd1, pd1)) /\
                  loop_ok b1 (match par with Some _ => h | None => h + 1 end)
                    cur1 (Some par1) /\
                  steps_needed (BTree.frames b1 cur1)
                  < steps_needed (BTree.frames b cur) /\
                  BTree.next_page_id b <= BTree.next_page_id b1
                  <= BTree.next_page_id b + 2) ->
              exists b',
                (r <- BTree.insert_iter (sl := page_slack j) b key value cur
                        par cd pd ;;
                 match r with
                 | inl b' => Done b'
                 | inr (b', c, p, cd0, pd0) =>
                     BTree.insert_loop (sl := page_slack j) fuel b' key value
                       c p cd0 pd0
                 end) = Done b' /\
                structure_ok b'
                  (if promotes (BTree.frames b cur) par then h + 1 else h) /\
                BTree.next_page_id b <= BTree.next_page_id b'
                <= BTree.next_page_id b
                   + 2 * steps_needed (BTree.frames b cur)).
    { intros Hfull (b1 & cur1 & par1 & cd1 & pd1 & Hit & Hl1 & Hs1 & Hn1).
      rewrite Hit. cbn [bind].
      destruct (IH b1 _ cur1 (Some par1) cd1 pd1 Hl1) as (b' & Hr & Hst & Hn');
        [lia | lia | discriminate |].
      exists b'. split; [exact Hr |].
      cbn [promotes] in Hst. split; [| lia].
      unfold promotes. destruct par; [exact Hst |].
      rewrite Hfull, Z.ltb_irrefl. exact Hst. }
    destruct (is_leaf (BTree.frames b cur)) eqn:Hleaf.
    + destruct (Z_lt_ge_dec (count (BTree.frames b cur)) kCapacity)
        as [Hroom | Hge].
      * destruct (iter_leaf_room (sl := page_slack j) b h key value cur par
                    cd pd Hloop Hleaf Hroom) as (b' & Hit & Hst & Hn').
        rewrite Hit. cbn [bind]. exists b'. split; [reflexivity |].
        split.
        { unfold promotes. rewrite (proj2 (Z.ltb_lt _ _) Hroom).
          destruct par; exact Hst. }
        { unfold steps_needed. rewrite (proj2 (Z.ltb_lt _ _) Hroom). lia. }
      * assert (Hfull : count (BTree.frames b cur) = kCapacity) by lia.
        apply (Hsplit_case Hfull).
        apply iter_leaf_split; try assumption.
        unfold steps_needed in Hnext. rewrite Hfull, Z.ltb_irrefl in Hnext.
        lia.
    + destruct (Z.eq_dec (count (BTree.frames b cur)) kCapacity)
        as [Hfull | Hroom].
      * apply (Hsplit_case Hfull).
        apply iter_inner_split; try assumption.
        unfold steps_needed in Hnext. rewrite Hfull, Z.ltb_irrefl in Hnext.
        lia.
      * destruct (iter_descend (sl := page_slack j) b h key value cur par
                    cd pd Hloop Hleaf Hroom)
          as (b1 & child & Hit & Hl1 & Hs1 & Hn1).
        rewrite Hit. cbn [bind].
        destruct (IH b1 h child (Some cur) cd pd Hl1)
          as (b' & Hr & Hst & Hn'); [lia | lia | discriminate |].
        exists b'. split; [exact Hr |].
        cbn [promotes] in Hst. split; [| lia].
        assert (Hlt : count (BTree.frames b cur) < kCapacity) by lia.
        unfold promotes. rewrite (proj2 (Z.ltb_lt _ _) Hlt).
        destruct par; exact Hst.
Qed.

End SplitIterations.

(** ** [insert] on a well-formed tree, and sequences of inserts *)

Section InsertSequences.
Variable j : Z.

Lemma insert_keeps_structure b h key value fuel :
  structure_ok b h ->
  2 * h + 2 <= Z.of_nat fuel ->
  BTree.next_page_id b + 4 * h + 4 < 18446744073709551616 ->
  h + 1 < 65536 ->
  exists b' h',
    BTree.insert (sl := page_slack j) fuel b key value = Done b' /\
    structure_ok b' h' /\ h <= h' <= h + 1 /\
    BTree.next_page_id b <= BTree.next_page_id b'
    <= BTree.next_page_id b + 4 * h + 4 /\
    (forall r, BTree.root b = Some r ->
               count (BTree.frames b r) = kCapacity -> h' = h + 1).
Proof.
  intros Hst Hfuel Hnext Hh.
  pose proof Hst as (Hpages & r & Hroot & Hr & Hrl).
  unfold BTree.insert. rewrite Hroot. cbn [BTree.root]. rewrite Hroot.
  assert (Hloop : loop_ok (BTree.fix_page b r true) h r None).
  { split; [exact Hst |]. split; [exact Hr | exact Hroot]. }
  assert (Hsteps : steps_needed (BTree.frames b r) <= 2 * h + 2).
  { unfold steps_needed. rewrite Hrl.
    destruct (count (BTree.frames b r) <? kCapacity); lia. }
  destruct (insert_loop_ok j key value fuel (BTree.fix_page b r true) h r
              None false false Hloop) as (b' & Hrun & Hst' & Hn');
    simpl_state; try lia.
  exists b'. eexists. split; [exact Hrun |]. split; [exact Hst' |].
  split; [destruct (promotes (BTree.frames b r) None); lia |].
  split; [lia |].
  intros r' Hr' Hfull. rewrite ?Hroot in Hr'. inversion Hr'; subst r'.
  unfold promotes. rewrite Hfull, Z.ltb_irrefl. reflexivity.
Qed.


End InsertSequences.

(** ** Filling the root leaf *)



Lemma key_at_leaf_keys n i :
  0 <= i < count n -> nth (Z.to_nat i) (leaf_keys n) 0 = key_at n i.
Proof.
  intros Hi. unfold leaf_keys, key_at. rewrite nth_firstn.
  destruct (Nat.ltb_spec (Z.to_nat i) (Z.to_nat (count n))); [reflexivity | lia].
Qed.

Section RootLeaf.
Context {sl : Slack}.


End RootLeaf.

Lemma distinct_NoDup l : distinct l = true -> NoDup l.
Proof.
  induction l as [| k r IH]; intros H; [constructor |].
  cbn [distinct] in H. apply andb_true_iff in H. destruct H as [Hk Hr].
  constructor; [| apply IH; exact Hr].
  apply not_In_by_test. apply negb_true_iff. exact Hk.
Qed.

Section FillRootLeaf.
Context {sl : Slack}.


End FillRootLeaf.



(** ** Growth: the root becomes an inner node *)

Section Growth.
Context {sl : Slack}.

Lemma insert_all_from_outcome fuel kvs : forall (acc : outcome BTree.t),
  fold_left (fun acc kv => b' <- acc ;; BTree.insert fuel b' (fst kv) (snd kv))
    kvs acc
  = (b <- acc ;; insert_all fuel b kvs).
Proof.
  unfold insert_all.
  induction kvs as [| kv kvs IH]; intros acc; cbn [fold_left].
  - destruct acc; reflexivity.
  - rewrite IH. destruct acc as [b | |]; cbn [bind]; [| reflexivity ..].
    rewrite IH. reflexivity.
Qed.


Lemma insert_all_cons fuel b kv l :
  insert_all fuel b (kv :: l)
  = (b' <- BTree.insert fuel b (fst kv) (snd kv) ;; insert_all fuel b' l).
Proof.
  unfold insert_all at 1. cbn [fold_left bind].
  apply insert_all_from_outcome.
Qed.

End Growth.

(** ** Inserts up to the limits of the counters *)

Lemma height_of_structure b h : structure_ok b h -> height b = h.
Proof.
  intros (_ & r & Hroot & _ & Hl). unfold height. rewrite Hroot. exact Hl.
Qed.

Lemma at_limit_dec fuel b : at_limit fuel b \/ ~ at_limit fuel b.
Proof.
  unfold at_limit.
  destruct (Z_lt_dec (Z.of_nat fuel) (2 * height b + 2)); [left; lia |].
  destruct (Z_le_dec 65535 (height b)); [left; lia |].
  destruct (Z_le_dec 18446744073709551616
              (BTree.next_page_id b + 4 * height b + 4)); [left; lia |].
  right. lia.
Qed.

(** A sequence of inserts of arbitrary keys into a well-formed tree either
    returns, the tree being well formed and no lower than before, or comes
    to a state that has reached a limit. *)
Lemma insert_all_or_limit j fuel : forall kvs b h,
  structure_ok b h ->
  (exists b' h',
      insert_all (sl := page_slack j) fuel b kvs = Done b' /\
      structure_ok b' h' /\ h <= h') \/
  (exists i b',
      (i < length kvs)%nat /\
      insert_all (sl := page_slack j) fuel b (firstn i kvs) = Done b' /\
      at_limit fuel b').
Proof.
  induction kvs as [| kv kvs IH]; intros b h Hst.
  - left. exists b, h. split; [reflexivity |]. split; [exact Hst | lia].
  - destruct (at_limit_dec fuel b) as [Hlim | Hok].
    + right. exists 0%nat, b. split; [cbn; lia |].
      split; [reflexivity | exact Hlim].
    + unfold at_limit in Hok. rewrite (height_of_structure b h Hst) in Hok.
      destruct (insert_keeps_structure j b h (fst kv) (snd kv) fuel Hst)
        as (b1 & h1 & Hrun & Hst1 & Hh1 & _); try lia.
      destruct (IH b1 h1 Hst1)
        as [(b' & h' & Hrun' & Hst' & Hh') | (i & b' & Hi & Hrun' & Hlim)].
      * left. exists b', h'. rewrite insert_all_cons, Hrun. cbn [bind].
        split; [exact Hrun' |]. split; [exact Hst' | lia].
      * right. exists (S i), b'. split; [cbn; lia |].
        cbn [firstn]. rewrite insert_all_cons, Hrun. cbn [bind].
        split; [exact Hrun' | exact Hlim].
Qed.


(** ** The iteration of [insert] that splits the root *)

Ltac promote_tail Hroot Hw1 Hw2 Hz2 cur N :=
  rewrite promote_root_closed with (oldID := cur);
    [| simpl_state; exact Hroot
     | simpl_state; fold N; rewrite ?Hw1;
       rewrite (proj2 (Z.eqb_neq _ cur)) by lia;
       rewrite (proj2 (Z.eqb_neq _ N)) by lia;
       exact Hz2
     | simpl_state; fold N; rewrite ?Hw1; lia];
  cbn [bind]; simpl_state; fold N; rewrite ?Hw1, ?Hw2;
  do 7 eexists; split; [reflexivity |]; simpl_state;
  split; [reflexivity |]; split; [reflexivity |]; split; [reflexivity |];
  rewrite Z.eqb_refl; split; [reflexivity |];
  rewrite (proj2 (Z.eqb_neq cur (N + 1))) by lia; rewrite Z.eqb_refl;
  split; [reflexivity |];
  rewrite (proj2 (Z.eqb_neq N (N + 1))) by lia;
  rewrite (proj2 (Z.eqb_neq N cur)) by lia; rewrite Z.eqb_refl;
  split; [reflexivity |]; split; [| reflexivity];
  let q := fresh "q" in
  let H1 := fresh "H" in
  let H2 := fresh "H" in
  let H3 := fresh "H" in
  intros q H1 H2 H3;
  rewrite (proj2 (Z.eqb_neq _ _) H3), (proj2 (Z.eqb_neq _ _) H1),
    (proj2 (Z.eqb_neq _ _) H2); reflexivity.

(** When the current node is the root (no parent) and full, one iteration
    splits it into itself and the fresh page [N = next_page_id], and builds
    the new root in the fresh page [N + 1].  Only these three pages
    change. *)
Lemma root_split_step j b key value cur cd pd :
  let n := BTree.frames b cur in
  let N := BTree.next_page_id b in
  BTree.root b = Some cur ->
  array_shape n -> count n = kCapacity -> 0 <= level n < 65535 ->
  0 <= N -> N + 2 < 18446744073709551616 ->
  cur <> N -> cur <> N + 1 ->
  BTree.frames b N = zero_page -> BTree.frames b (N + 1) = zero_page ->
  exists b' cur' cd' pd' sep l r,
    BTree.insert_iter (sl := page_slack j) b key value cur None cd pd
    = Done (inr (b', cur', Some (N + 1), cd', pd')) /\
    (if is_leaf n then LeafNode.split (sl := page_slack j) n zero_page
     else InnerNode.split (sl := page_slack j) n zero_page)
    = Done (sep, l, r) /\
    BTree.root b' = Some (N + 1) /\ BTree.next_page_id b' = N + 2 /\
    BTree.frames b' (N + 1)
    = mkNode (level n + 1) 2 (pad [sep]) (pad [cur; N]) /\
    BTree.frames b' cur = l /\ BTree.frames b' N = r /\
    (forall q, q <> cur -> q <> N -> q <> N + 1 ->
               BTree.frames b' q = BTree.frames b q) /\
    cur' = (if key >=? sep then N else cur).
Proof.
  intros n N Hroot Hs Hfull Hlv HN0 HN Hc1 Hc2 Hz1 Hz2.
  assert (Hw1 : wrap64 (N + 1) = N + 1) by (apply wrap64_small; lia).
  assert (Hw2 : wrap64 (N + 1 + 1) = N + 2) by (rewrite wrap64_small; lia).
  assert (Hsplit : exists sep l r,
             (if is_leaf n then LeafNode.split (sl := page_slack j) n zero_page
              else InnerNode.split (sl := page_slack j) n zero_page)
             = Done (sep, l, r) /\ level l = level n).
  { destruct (is_leaf n).
    - rewrite (leaf_split_full j n zero_page Hs array_shape_zero_page Hfull).
      do 3 eexists. split; reflexivity.
    - rewrite (inner_split_full n zero_page Hs array_shape_zero_page Hfull).
      do 3 eexists. split; reflexivity. }
  destruct Hsplit as (sep & l & r & Hsplit & Hll).
  unfold BTree.insert_iter. cbv zeta. fold n.
  change 42 with kCapacity. rewrite Hfull, Z.ltb_irrefl, Z.eqb_refl.
  destruct (is_leaf n) eqn:Hleaf;
    cbn [BTree.fresh_page_id BTree.fix_page BTree.log BTree.frames]; fold N;
    rewrite Hz1, Hsplit; cbn [bind].
  - assert (Hl0 : level n = 0) by (apply Z.eqb_eq; exact Hleaf).
    rewrite Hl0. change (0 + 1) with 1.
    promote_tail Hroot Hw1 Hw2 Hz2 cur N.
  - replace (wrap16 (level l + 1)) with (level n + 1)
      by (rewrite Hll; symmetry; apply wrap16_small; lia).
    promote_tail Hroot Hw1 Hw2 Hz2 cur N.
Qed.

(** ** [lookup] on a search tree *)

Lemma In_leaf_entries n k v :
  array_shape n -> 0 <= count n <= kCapacity ->
  (In (k, v) (leaf_entries n) <->
   exists i, 0 <= i < count n /\ key_at n i = k /\ payload_at n i = v).
Proof.
  intros [Hk Hp] Hc. unfold kCapacity in *.
  assert (Hlk : length (leaf_keys n) = Z.to_nat (count n))
    by (unfold leaf_keys; rewrite length_firstn; lia).
  assert (Hlv : length (leaf_values n) = Z.to_nat (count n))
    by (unfold leaf_values, values; rewrite length_firstn; lia).
  assert (Hnth : forall i, (i < Z.to_nat (count n))%nat ->
                   nth i (leaf_entries n) (0, 0)
                   = (key_at n (Z.of_nat i), payload_at n (Z.of_nat i))).
  { intros i Hi. unfold leaf_entries. rewrite combine_nth by lia.
    unfold leaf_keys, leaf_values, values, key_at, payload_at.
    rewrite !nth_firstn, Nat2Z.id.
    destruct (Nat.ltb_spec i (Z.to_nat (count n))); [reflexivity | lia]. }
  assert (Hle : length (leaf_entries n) = Z.to_nat (count n)).
  { unfold leaf_entries. rewrite length_combine. lia. }
  split.
  - intros Hin. apply (In_nth _ _ (0, 0)) in Hin.
    destruct Hin as (i & Hi & Heq). rewrite Hle in Hi.
    rewrite Hnth in Heq by exact Hi. inversion Heq; subst.
    exists (Z.of_nat i). repeat split; lia.
  - intros (i & Hi & <- & <-).
    replace i with (Z.of_nat (Z.to_nat i)) by lia.
    rewrite <- Hnth by lia. apply nth_In. lia.
Qed.

Section LookupCorrect.
Context {sl : Slack}.
Variables (b : BTree.t) (h : Z) (m : Z -> option Z)
  (rng : Z -> bound * bound).
Hypothesis Htree : tree_with_ranges b h m rng.

(** What the search in a leaf of the tree finds. *)
Lemma leaf_search_correct p k :
  0 <= p < BTree.next_page_id b -> level (BTree.frames b p) = 0 ->
  in_range (rng p) k ->
  exists i, LeafNode.lower_bound (BTree.frames b p) k
            = Done (i, i <? count (BTree.frames b p)) /\
            0 <= i <= count (BTree.frames b p) /\
            (forall j, 0 <= j < i -> key_at (BTree.frames b p) j < k) /\
            (i < count (BTree.frames b p) ->
             k <= key_at (BTree.frames b p) i) /\
            (m k = if (i <? count (BTree.frames b p))
                      && (key_at (BTree.frames b p) i =? k)
                   then Some (payload_at (BTree.frames b p) i)
                   else None).
Proof.
  intros Hp Hl Hk.
  destruct Htree as (((_ & Hok & _) & _) & Hrng & _ & _ & Hcont & _).
  destruct (Hok p Hp) as (Hs & _ & Hc & _).
  destruct (Hrng p Hp) as [Hleaf _]. destruct (Hleaf Hl) as [Hord Hin].
  set (n := BTree.frames b p) in *.
  destruct (lower_bound_search_sorted n k) as (i & Hr & Hi0 & Hlo & Hhi).
  { destruct Hs as [Hlen _]. rewrite Hlen. unfold kCapacity in *.
    simpl. lia. }
  { unfold kCapacity in *. lia. }
  { exact Hord. }
  exists i. split; [exact Hr |]. split; [exact Hi0 |].
  split; [exact Hlo |]. split; [exact Hhi |].
  assert (Hnone : (forall i', 0 <= i' < count n -> key_at n i' <> k) ->
                  m k = None).
  { intros Hno. destruct (m k) as [v |] eqn:Hm; [| reflexivity].
    apply (Hcont p Hp Hl k v Hk) in Hm.
    apply (proj1 (In_leaf_entries n k v Hs Hc)) in Hm.
    destruct Hm as (i' & Hi' & Hke & _). exfalso. exact (Hno i' Hi' Hke). }
  destruct (Z.ltb_spec i (count n)) as [Hlt | Hge]; cbn [andb].
  - destruct (Z.eqb_spec (key_at n i) k) as [He | Hne].
    + apply (Hcont p Hp Hl k _ Hk).
      apply (proj2 (In_leaf_entries n k _ Hs Hc)). exists i.
      split; [lia | split; [exact He | reflexivity]].
    + apply Hnone. intros i' Hi' He.
      specialize (Hhi Hlt).
      destruct (Z_lt_ge_dec i' i) as [l | g].
      * specialize (Hlo i' ltac:(lia)). lia.
      * destruct (Z.eq_dec i' i) as [-> | ne]; [contradiction |].
        assert (key_at n i < key_at n i') by (apply Hord; lia). lia.
  - apply Hnone. intros i' Hi' He. specialize (Hlo i' ltac:(lia)). lia.
Qed.


(** The child an inner page of the tree selects for [k] is an allocated
    page one level below whose range contains [k]. *)
Lemma inner_search_correct p k :
  0 <= p < BTree.next_page_id b -> level (BTree.frames b p) <> 0 ->
  in_range (rng p) k ->
  exists i f c,
    InnerNode.lower_bound (BTree.frames b p) k = Done (i, f) /\
    c = (if f then i else count (BTree.frames b p) - 1) /\
    covering_child (BTree.frames b p) k c /\
    rd (children (BTree.frames b p)) c
    = Done (payload_at (BTree.frames b p) c) /\
    child_ok b (level (BTree.frames b p)) (payload_at (BTree.frames b p) c) /\
    in_range (rng (payload_at (BTree.frames b p) c)) k.
Proof.
  intros Hp Hl Hk.
  destruct Htree as (((_ & Hok & _) & _) & Hrng & _).
  destruct (Hok p Hp) as (Hs & _ & Hc & Hch).
  destruct (Hch Hl) as [_ Hchild].
  destruct (Hrng p Hp) as [_ Hinner].
  destruct (Hinner Hl) as (H2 & Hord & Hsep & Hcr).
  set (n := BTree.frames b p) in *.
  destruct Hs as [Hlk Hlp]. unfold kCapacity in *.
  destruct (inner_search_covering_child n k) as (i & f & Hr & Hcov).
  { rewrite Hlk. simpl. lia. }
  { lia. }
  { exact Hord. }
  exists i, f, (if f then i else count n - 1).
  split; [exact Hr |]. split; [reflexivity |].
  set (c := if f then i else count n - 1) in *.
  split; [exact Hcov |].
  destruct Hcov as (Hc0 & Hlo & Hhi).
  split.
  { unfold children, payload_at. apply rd_in. rewrite Hlp. simpl. lia. }
  split; [apply Hchild; exact Hc0 |].
  rewrite (Hcr c Hc0). unfold child_range, in_range. cbn [fst snd].
  destruct Hk as [Ha Hu]. split.
  - destruct (Z.eqb_spec c 0); [exact Ha |]. cbn. apply Hlo. lia.
  - destruct (Z.eqb_spec c (count n - 1)); [exact Hu |]. cbn. apply Hhi. lia.
Qed.

(** [lookup] below a page whose range contains the key returns what the
    map holds for it. *)
Lemma lookup_loop_correct k : forall fuel s p,
  BTree.frames s = BTree.frames b ->
  0 <= p < BTree.next_page_id b -> in_range (rng p) k ->
  level (BTree.frames b p) < Z.of_nat fuel ->
  exists s', BTree.lookup_loop fuel s p k = Done (m k, s').
Proof.
  induction fuel as [| fuel IH]; intros s p Hfr Hp Hk Hfuel.
  - destruct Htree as (((_ & Hok & _) & _) & _).
    destruct (Hok p Hp) as (_ & Hlv & _). simpl in Hfuel. lia.
  - cbn [BTree.lookup_loop]. rewrite Hfr.
    unfold is_leaf.
    destruct (Z.eqb_spec (level (BTree.frames b p)) 0) as [Hl | Hl];
      cbn [negb].
    + destruct (leaf_search_correct p k Hp Hl Hk)
        as (i & Hr & Hi & _ & _ & Hm).
      rewrite Hr. cbn [bind].
      destruct Htree as (((_ & Hok & _) & _) & _).
      destruct (Hok p Hp) as ([Hlk Hlp] & _ & Hc & _).
      unfold kCapacity in *.
      destruct (Z.ltb_spec i (count (BTree.frames b p))) as [Hlt | Hge].
      * rewrite rd_in by (rewrite Hlk; simpl; lia). cbn [bind].
        cbn [andb] in Hm. fold (key_at (BTree.frames b p) i).
        destruct (key_at (BTree.frames b p) i =? k).
        -- unfold values. rewrite rd_in by (rewrite Hlp; simpl; lia).
           cbn [bind]. fold (payload_at (BTree.frames b p) i).
           rewrite Hm. eexists; reflexivity.
        -- rewrite Hm. eexists; reflexivity.
      * cbn [andb] in Hm. rewrite Hm. eexists; reflexivity.
    + destruct (inner_search_correct p k Hp Hl Hk)
        as (i & f & c & Hr & Hc & Hcov & Hrd & [Hca Hcl] & Hin).
      rewrite Hr. cbn [bind].
      destruct Htree as (((_ & Hok & _) & _) & _).
      destruct (Hok p Hp) as (_ & Hlv & Hcnt & _). unfold kCapacity in *.
      destruct Hcov as (Hc0 & _).
      rewrite wrap32_small by lia. rewrite <- Hc, Hrd. cbn [bind].
      apply IH; [exact Hfr | exact Hca | exact Hin | lia].
Qed.

(** [lookup] on a search tree returns what the map holds. *)
Lemma lookup_on_tree k fuel :
  h < Z.of_nat fuel -> lookup_value fuel b k = Done (m k).
Proof.
  intros Hfuel. unfold lookup_value, BTree.lookup.
  destruct Htree as ((_ & r & Hroot & Hr & Hlv) & _ & Hrr & _).
  rewrite Hroot.
  destruct (lookup_loop_correct k fuel (BTree.fix_page b r false) r)
    as [s' Hs'].
  - reflexivity.
  - exact Hr.
  - rewrite (Hrr r Hroot). split; exact I.
  - lia.
  - rewrite Hs'. reflexivity.
Qed.

End LookupCorrect.

(** ** The nodes after an insertion, by positions *)

Lemma nth_list_insert_at (i : Z) (x : Z) (l : list Z) (k : Z) :
  0 <= i <= Z.of_nat (length l) -> 0 <= k ->
  nth (Z.to_nat k) (list_insert_at i x l) 0
  = if k <? i then nth (Z.to_nat k) l 0
    else if k =? i then x else nth (Z.to_nat (k - 1)) l 0.
Proof.
  intros Hi Hk. unfold list_insert_at.
  destruct (Z.ltb_spec k i) as [Hlt | Hge].
  - rewrite app_nth1 by (rewrite length_firstn; lia).
    rewrite nth_firstn.
    destruct (Nat.ltb_spec (Z.to_nat k) (Z.to_nat i)); [reflexivity | lia].
  - rewrite app_nth2 by (rewrite length_firstn; lia).
    rewrite length_firstn.
    replace (Nat.min (Z.to_nat i) (length l)) with (Z.to_nat i) by lia.
    destruct (Z.eqb_spec k i) as [-> | Hne].
    + rewrite Nat.sub_diag. reflexivity.
    + replace (Z.to_nat k - Z.to_nat i)%nat
        with (S (Z.to_nat (k - 1) - Z.to_nat i)) by lia.
      cbn [nth]. rewrite nth_skipn. f_equal. lia.
Qed.

Lemma payload_at_leaf_values n i :
  0 <= i < count n -> nth (Z.to_nat i) (leaf_values n) 0 = payload_at n i.
Proof.
  intros Hi. unfold leaf_values, values, payload_at. rewrite nth_firstn.
  destruct (Nat.ltb_spec (Z.to_nat i) (Z.to_nat (count n)));
    [reflexivity | lia].
Qed.

Lemma payload_at_inner_children n i :
  0 <= i < count n -> nth (Z.to_nat i) (inner_children n) 0 = payload_at n i.
Proof.
  intros Hi. unfold inner_children, children, payload_at. rewrite nth_firstn.
  destruct (Nat.ltb_spec (Z.to_nat i) (Z.to_nat (count n)));
    [reflexivity | lia].
Qed.

Lemma key_at_inner_keys n i :
  0 <= i < count n - 1 -> nth (Z.to_nat i) (inner_keys n) 0 = key_at n i.
Proof.
  intros Hi. unfold inner_keys, key_at. rewrite nth_firstn.
  destruct (Nat.ltb_spec (Z.to_nat i) (Z.to_nat (count n - 1)));
    [reflexivity | lia].
Qed.

Section LeafInsertNew.
Context {sl : Slack}.

(** Inserting a key the leaf does not hold, while it has room, puts the
    entry at the position the search returns and shifts the rest. *)
Lemma leaf_insert_new n key value :
  array_shape n -> 0 <= count n < kCapacity ->
  keys_ordered n (count n) ->
  (forall i, 0 <= i < count n -> key_at n i <> key) ->
  exists n' pos,
    LeafNode.insert n key value = Done n' /\
    array_shape n' /\ level n' = level n /\ count n' = count n + 1 /\
    first_not_less n key pos /\
    forall k, 0 <= k < count n + 1 ->
      key_at n' k = (if k <? pos then key_at n k
                     else if k =? pos then key else key_at n (k - 1)) /\
      payload_at n' k = (if k <? pos then payload_at n k
                         else if k =? pos then value
                         else payload_at n (k - 1)).
Proof.
  intros Hs Hc Hord Hnew.
  assert (Hs' := Hs). destruct Hs' as [Hlk Hlp]. unfold kCapacity in *.
  destruct (lower_bound_search_sorted n key) as (pos & Hr & Hfirst);
    [rewrite Hlk; simpl; lia | lia | exact Hord |].
  assert (Hf := Hfirst). destruct Hf as (Hp0 & Hlo & Hhi).
  destruct (leaf_insert_closed n key value pos (pos <? count n) Hs)
    as (n' & Hins & Hs1 & Hl1 & Hres); [unfold kCapacity; lia | exact Hr | |].
  { destruct (Z.ltb_spec pos (count n)) as [Hlt | Hge].
    - left. split; [reflexivity |]. split; [lia | apply Hhi; exact Hlt].
    - right. split; [reflexivity | lia]. }
  assert (Hno : (pos <? count n) && (key >=? key_at n pos) = false).
  { destruct (Z.ltb_spec pos (count n)) as [Hlt | Hge]; [| reflexivity].
    cbn [andb]. specialize (Hhi Hlt). specialize (Hnew pos ltac:(lia)).
    rewrite Z.geb_leb. apply Z.leb_gt. lia. }
  rewrite Hno in Hres. destruct Hres as (Hc1 & Hk1 & Hv1).
  exists n', pos. split; [exact Hins |]. split; [exact Hs1 |].
  split; [exact Hl1 |]. split; [exact Hc1 |]. split; [exact Hfirst |].
  intros k Hk.
  assert (Hlen : Z.of_nat (length (leaf_keys n)) = count n)
    by (unfold leaf_keys; rewrite length_firstn; lia).
  assert (Hlenv : Z.of_nat (length (leaf_values n)) = count n)
    by (unfold leaf_values, values; rewrite length_firstn; lia).
  split.
  - rewrite <- (key_at_leaf_keys n' k) by lia.
    rewrite Hk1, nth_list_insert_at by lia.
    destruct (Z.ltb_spec k pos); [apply key_at_leaf_keys; lia |].
    destruct (Z.eqb_spec k pos); [reflexivity |].
    apply key_at_leaf_keys; lia.
  - rewrite <- (payload_at_leaf_values n' k) by lia.
    rewrite Hv1, nth_list_insert_at by lia.
    destruct (Z.ltb_spec k pos); [apply payload_at_leaf_values; lia |].
    destruct (Z.eqb_spec k pos); [reflexivity |].
    apply payload_at_leaf_values; lia.
Qed.

End LeafInsertNew.

(** What a leaf holds after the insertion of a new entry at [pos]. *)
Lemma leaf_entries_inserted n n' key value pos :
  array_shape n -> array_shape n' -> 0 <= count n < kCapacity ->
  count n' = count n + 1 -> 0 <= pos <= count n ->
  (forall k, 0 <= k < count n + 1 ->
     key_at n' k = (if k <? pos then key_at n k
                    else if k =? pos then key else key_at n (k - 1)) /\
     payload_at n' k = (if k <? pos then payload_at n k
                        else if k =? pos then value
                        else payload_at n (k - 1))) ->
  forall k v, In (k, v) (leaf_entries n') <->
              (k = key /\ v = value) \/ In (k, v) (leaf_entries n).
Proof.
  intros Hs Hs' Hc Hc' Hpos Hat k v. unfold kCapacity in *.
  rewrite (In_leaf_entries n' k v Hs') by (unfold kCapacity; lia).
  rewrite (In_leaf_entries n k v Hs) by (unfold kCapacity; lia).
  split.
  - intros (i & Hi & Hk & Hv). rewrite Hc' in Hi.
    destruct (Hat i Hi) as [Hka Hpa]. rewrite Hka in Hk. rewrite Hpa in Hv.
    destruct (Z.ltb_spec i pos).
    + right. exists i. repeat split; try lia; assumption.
    + destruct (Z.eqb_spec i pos).
      * left. split; congruence.
      * right. exists (i - 1). repeat split; try lia; assumption.
  - intros [[-> ->] | (i & Hi & Hk & Hv)].
    + exists pos. destruct (Hat pos ltac:(lia)) as [Hka Hpa].
      rewrite Z.ltb_irrefl, Z.eqb_refl in Hka, Hpa.
      repeat split; try lia; assumption.
    + destruct (Z_lt_ge_dec i pos) as [Hlt | Hge].
      * exists i. destruct (Hat i ltac:(lia)) as [Hka Hpa].
        rewrite (proj2 (Z.ltb_lt i pos) Hlt) in Hka, Hpa.
        repeat split; try lia; congruence.
      * exists (i + 1). destruct (Hat (i + 1) ltac:(lia)) as [Hka Hpa].
        rewrite (proj2 (Z.ltb_ge (i + 1) pos)) in Hka, Hpa by lia.
        rewrite (proj2 (Z.eqb_neq (i + 1) pos)) in Hka, Hpa by lia.
        replace (i + 1 - 1) with i in Hka, Hpa by lia.
        repeat split; try lia; congruence.
Qed.

(** The keys of a leaf stay ordered and within the range. *)
Lemma leaf_ranged_inserted n n' key pos r :
  leaf_ranged n r -> in_range r key -> count n' = count n + 1 ->
  first_not_less n key pos ->
  (forall i, 0 <= i < count n -> key_at n i <> key) ->
  (forall k, 0 <= k < count n + 1 ->
     key_at n' k = (if k <? pos then key_at n k
                    else if k =? pos then key else key_at n (k - 1))) ->
  leaf_ranged n' r.
Proof.
  intros [Hord Hin] Hkey Hc' (Hp0 & Hlo & Hhi) Hnew Hat.
  assert (Hgt : forall i, pos <= i < count n -> key < key_at n i).
  { intros i Hi. specialize (Hhi ltac:(lia)).
    specialize (Hnew pos ltac:(lia)).
    destruct (Z.eq_dec i pos) as [-> | Hne]; [lia |].
    assert (key_at n pos < key_at n i) by (apply Hord; lia). lia. }
  split.
  - intros i j Hij Hj. rewrite Hc' in Hj.
    rewrite (Hat i) by lia. rewrite (Hat j) by lia.
    destruct (Z.ltb_spec i pos); destruct (Z.ltb_spec j pos); try lia.
    + apply Hord; lia.
    + destruct (Z.eqb_spec j pos).
      * apply Hlo; lia.
      * specialize (Hlo i ltac:(lia)). specialize (Hgt (j - 1) ltac:(lia)).
        lia.
    + destruct (Z.eqb_spec i pos); destruct (Z.eqb_spec j pos); try lia.
      * apply Hgt; lia.
      * apply Hord; lia.
  - intros i Hi. rewrite Hc' in Hi. rewrite (Hat i) by lia.
    destruct (Z.ltb_spec i pos); [apply Hin; lia |].
    destruct (Z.eqb_spec i pos); [exact Hkey | apply Hin; lia].
Qed.

(** The child that covers a key is unique. *)
Lemma covering_child_unique n key c c' :
  keys_ordered n (count n - 1) ->
  covering_child n key c -> covering_child n key c' -> c = c'.
Proof.
  intros Hord (Hc & Hlo & Hhi) (Hc' & Hlo' & Hhi').
  destruct (Z.lt_trichotomy c c') as [Hlt | [Heq | Hgt]]; [| exact Heq |].
  - specialize (Hlo' c ltac:(lia)). specialize (Hhi ltac:(lia)). lia.
  - specialize (Hlo c' ltac:(lia)). specialize (Hhi' ltac:(lia)). lia.
Qed.

Section InnerInsertPositions.
Context {sl : Slack}.

(** [InnerNode::insert] of a separator whose covering child is [c]: the
    separator goes to position [c] of the keys, the page to position
    [c + 1] of the children. *)
Lemma inner_insert_positions n sep page c :
  array_shape n -> 2 <= count n < kCapacity ->
  keys_ordered n (count n - 1) -> covering_child n sep c ->
  exists n',
    InnerNode.insert n sep page = Done n' /\
    array_shape n' /\ level n' = level n /\ count n' = count n + 1 /\
    (forall k, 0 <= k < count n ->
       key_at n' k = (if k <? c then key_at n k
                      else if k =? c then sep else key_at n (k - 1))) /\
    (forall k, 0 <= k < count n + 1 ->
       payload_at n' k = (if k <? c + 1 then payload_at n k
                          else if k =? c + 1 then page
                          else payload_at n (k - 1))).
Proof.
  intros Hs Hc Hord Hcov.
  assert (Hs' := Hs). destruct Hs' as [Hlk Hlp]. unfold kCapacity in *.
  destruct (inner_search_covering_child n sep) as (i & f & Hr & Hcov');
    [rewrite Hlk; simpl; lia | lia | exact Hord |].
  assert (Hceq := covering_child_unique n sep _ _ Hord Hcov' Hcov).
  destruct (lower_bound_search_shape n sep) as (i' & f' & Hr' & Hshape);
    [rewrite Hlk; simpl; lia | lia |].
  unfold InnerNode.lower_bound in Hr. rewrite Hr in Hr'.
  injection Hr' as <- <-.
  destruct (inner_insert_closed n sep page i f Hs ltac:(unfold kCapacity; lia)
              Hr Hshape) as (Hins & Hlcv & Hlkv).
  cbv zeta in Hins, Hlcv, Hlkv.
  rewrite (proj2 (Z.eqb_neq (count n) 1)) in Hins, Hlcv, Hlkv by lia.
  assert (Hkvlen : length (firstn (Z.to_nat (count n - 1)) (keys n))
                   = Z.to_nat (count n - 1))
    by (rewrite length_firstn; lia).
  assert (Hcvlen : length (inner_children n) = Z.to_nat (count n))
    by (unfold inner_children, children; rewrite length_firstn; lia).
  assert (Hkv : (if f then list_insert_at i sep
                             (firstn (Z.to_nat (count n - 1)) (keys n))
                 else push_back (firstn (Z.to_nat (count n - 1)) (keys n)) sep)
                = list_insert_at c sep
                    (firstn (Z.to_nat (count n - 1)) (keys n))).
  { destruct f; [rewrite Hceq; reflexivity |].
    rewrite <- list_insert_at_end. f_equal. lia. }
  assert (Hcv : (if f then list_insert_at (i + 1) page (inner_children n)
                 else push_back (inner_children n) page)
                = list_insert_at (c + 1) page (inner_children n)).
  { destruct f; [rewrite Hceq; reflexivity |].
    rewrite <- list_insert_at_end. f_equal. lia. }
  rewrite Hkv, Hcv in Hins. rewrite Hcv in Hlcv. rewrite Hkv in Hlkv.
  destruct Hcov as (Hc0 & _).
  assert (Hkl : length (list_insert_at c sep
                          (firstn (Z.to_nat (count n - 1)) (keys n)))
                = Z.to_nat (count n))
    by (rewrite list_insert_at_length; lia).
  eexists. split; [exact Hins |]. split; [| split; [reflexivity |]].
  { apply array_shape_prefix; [exact Hs | lia | lia]. }
  split; [reflexivity |]. split.
  - intros k Hk. unfold key_at at 1. cbn [keys].
    rewrite app_nth1 by lia.
    rewrite nth_list_insert_at by lia.
    destruct (Z.ltb_spec k c).
    + rewrite nth_firstn.
      destruct (Nat.ltb_spec (Z.to_nat k) (Z.to_nat (count n - 1)));
        [reflexivity | lia].
    + destruct (Z.eqb_spec k c); [reflexivity |].
      rewrite nth_firstn.
      destruct (Nat.ltb_spec (Z.to_nat (k - 1)) (Z.to_nat (count n - 1)));
        [reflexivity | lia].
  - intros k Hk. unfold payload_at at 1. cbn [payload].
    rewrite app_nth1 by lia.
    rewrite nth_list_insert_at by lia.
    destruct (Z.ltb_spec k (c + 1)).
    + apply payload_at_inner_children. lia.
    + destruct (Z.eqb_spec k (c + 1)); [reflexivity |].
      apply payload_at_inner_children. lia.
Qed.

End InnerInsertPositions.

(** ** The iteration of [insert] that stores the entry *)

(** A key that the map does not hold is in no leaf whose range covers
    it. *)
Lemma absent_from_leaf b h m rng key p :
  tree_with_ranges b h m rng -> 0 <= p < BTree.next_page_id b ->
  level (BTree.frames b p) = 0 -> m key = None ->
  forall i, 0 <= i < count (BTree.frames b p) ->
            key_at (BTree.frames b p) i <> key.
Proof.
  intros (((_ & Hok & _) & _) & Hrng & _ & _ & Hcont & _) Hp Hl Hm i Hi He.
  destruct (Hok p Hp) as (Hs & _ & Hc & _).
  destruct (Hrng p Hp) as [Hleaf _]. destruct (Hleaf Hl) as [_ Hin].
  assert (Hsome : m key = Some (payload_at (BTree.frames b p) i)).
  { apply (Hcont p Hp Hl key _).
    - rewrite <- He. apply Hin. exact Hi.
    - apply (proj2 (In_leaf_entries _ key _ Hs Hc)). exists i.
      split; [exact Hi |]. split; [exact He | reflexivity]. }
  congruence.
Qed.

Lemma leaf_insert_state_ranges b b' h m rng key value cur par n' pos :
  search_ok b h m rng key cur par ->
  level (BTree.frames b cur) = 0 ->
  count (BTree.frames b cur) < kCapacity ->
  structure_ok b' h ->
  BTree.next_page_id b' = BTree.next_page_id b ->
  BTree.root b' = BTree.root b ->
  (forall q, BTree.frames b' q
             = if q =? cur then n' else BTree.frames b q) ->
  array_shape n' -> level n' = 0 ->
  count n' = count (BTree.frames b cur) + 1 ->
  first_not_less (BTree.frames b cur) key pos ->
  (forall k, 0 <= k < count (BTree.frames b cur) + 1 ->
     key_at n' k = (if k <? pos then key_at (BTree.frames b cur) k
                    else if k =? pos then key
                    else key_at (BTree.frames b cur) (k - 1)) /\
     payload_at n' k = (if k <? pos then payload_at (BTree.frames b cur) k
                        else if k =? pos then value
                        else payload_at (BTree.frames b cur) (k - 1))) ->
  tree_with_ranges b' h (bind_key m key value) rng.
Proof.
  intros (Htree & Hloop & Hkey & Hm & _) Hl Hroom Hst' Hnext Hroot Hfr
    Hs' Hl' Hc' Hfirst Hat.
  assert (Hnew := absent_from_leaf b h m rng key cur Htree
                    (proj1 (proj2 Hloop)) Hl Hm).
  destruct Htree as (Hst & Hrng & Hrr & Hdis & Hcont & Hsep).
  destruct Hloop as (_ & Hcur & _).
  assert (Hlev : forall q, level (BTree.frames b' q)
                           = level (BTree.frames b q)).
  { intros q. rewrite Hfr. destruct (Z.eqb_spec q cur) as [-> | _];
      [congruence | reflexivity]. }
  destruct Hst as ((_ & Hok & _) & _).
  destruct (Hok cur Hcur) as (Hs & _ & Hc & _).
  destruct (Hrng cur Hcur) as [Hleaf _]. specialize (Hleaf Hl).
  split; [exact Hst' |]. split; [| split; [| split; [| split]]].
  - intros p Hp. rewrite Hnext in Hp. rewrite Hlev.
    destruct (Hrng p Hp) as [Hpl Hpi]. split.
    + intros Hl0. rewrite Hfr. destruct (Z.eqb_spec p cur) as [-> | Hne].
      * apply (leaf_ranged_inserted (BTree.frames b cur) n' key pos);
          try assumption.
        intros k Hk. apply Hat. exact Hk.
      * apply Hpl. exact Hl0.
    + intros Hl0. unfold inner_ranged. rewrite Hfr.
      destruct (Z.eqb_spec p cur) as [-> | Hne]; [congruence |].
      apply Hpi. exact Hl0.
  - intros r Hr. apply Hrr. congruence.
  - intros p q k Hp Hq. rewrite Hnext in Hp, Hq. rewrite !Hlev.
    apply Hdis; assumption.
  - intros p Hp Hl0 k v Hk. rewrite Hnext in Hp. rewrite Hlev in Hl0.
    rewrite Hfr. unfold bind_key.
    destruct (Z.eqb_spec p cur) as [-> | Hne].
    + rewrite (leaf_entries_inserted (BTree.frames b cur) n' key value pos
                 Hs Hs' ltac:(lia) Hc' (proj1 Hfirst) Hat k v).
      rewrite <- (Hcont cur Hcur Hl k v Hk).
      destruct (Z.eqb_spec k key) as [-> | Hk'].
      * rewrite Hm. split.
        -- intros [= <-]. left. split; reflexivity.
        -- intros [[_ ->] | Habs]; [reflexivity | discriminate].
      * split; [intros H; right; exact H |].
        intros [[-> _] | H]; [contradiction | exact H].
    + destruct (Z.eqb_spec k key) as [-> | Hk'].
      * exfalso. apply Hne. apply (Hdis p cur key Hp Hcur); try assumption.
        congruence.
      * apply Hcont; assumption.
  - intros p Hp Hl0 i Hi. rewrite Hnext in Hp. rewrite Hlev in Hl0.
    rewrite Hfr in Hi |- *.
    destruct (Z.eqb_spec p cur) as [-> | Hne]; [congruence |].
    unfold bind_key.
    destruct (key_at (BTree.frames b p) i =? key); [discriminate |].
    apply Hsep; assumption.
Qed.

Section LeafStep.
Context {sl : Slack}.

Lemma step_leaf_room b h m rng key value cur par cd pd :
  search_ok b h m rng key cur par ->
  is_leaf (BTree.frames b cur) = true ->
  count (BTree.frames b cur) < kCapacity ->
  exists b',
    BTree.insert_iter b key value cur par cd pd = Done (inl b') /\
    tree_with_ranges b' h (bind_key m key value) rng /\
    BTree.next_page_id b' = BTree.next_page_id b.
Proof.
  intros Hsearch Hleaf Hroom.
  assert (Hs := Hsearch).
  destruct Hs as (Htree & Hloop & Hkey & Hm & _).
  assert (Hl : level (BTree.frames b cur) = 0)
    by (apply Z.eqb_eq; exact Hleaf).
  destruct (iter_leaf_room b h key value cur par cd pd Hloop Hleaf Hroom)
    as (b' & Hiter & Hst' & Hnext).
  assert (Hcur := proj1 (proj2 Hloop)).
  assert (Hnew := absent_from_leaf b h m rng key cur Htree Hcur Hl Hm).
  destruct Htree as (Hst & Hrng & _).
  destruct Hst as ((_ & Hok & _) & _).
  destruct (Hok cur Hcur) as (Hs & _ & Hc & _).
  destruct (Hrng cur Hcur) as [Hlr _]. destruct (Hlr Hl) as [Hord _].
  destruct (leaf_insert_new (BTree.frames b cur) key value Hs
              ltac:(lia) Hord Hnew)
    as (n' & pos & Hins & Hs' & Hl' & Hc' & Hfirst & Hat).
  exists b'. split; [exact Hiter |]. split; [| exact Hnext].
  unfold BTree.insert_iter in Hiter. cbv zeta in Hiter.
  rewrite Hleaf in Hiter.
  rewrite (proj2 (Z.ltb_lt _ 42)) in Hiter by (unfold kCapacity in *; lia).
  rewrite Hins in Hiter. cbn [bind] in Hiter.
  injection Hiter as <-.
  apply (leaf_insert_state_ranges b _ h m rng key value cur par n' pos);
    try assumption.
  - destruct par; reflexivity.
  - intros q. destruct par; reflexivity.
  - congruence.
Qed.

End LeafStep.

(** ** The iteration of [insert] that descends *)

(** The invariant reads the page store, the root and the next page
    identifier only. *)
Lemma tree_with_ranges_same_store b b' h m rng :
  BTree.frames b' = BTree.frames b -> BTree.root b' = BTree.root b ->
  BTree.next_page_id b' = BTree.next_page_id b ->
  tree_with_ranges b h m rng -> tree_with_ranges b' h m rng.
Proof.
  destruct b as [f r n e], b' as [f' r' n' e']. cbn.
  intros -> -> -> H. exact H.
Qed.

Section DescendStep.
Context {sl : Slack}.

Lemma step_descend b h m rng key value cur par cd pd :
  search_ok b h m rng key cur par ->
  is_leaf (BTree.frames b cur) = false ->
  count (BTree.frames b cur) <> kCapacity ->
  exists b' child,
    BTree.insert_iter b key value cur par cd pd
    = Done (inr (b', child, Some cur, cd, pd)) /\
    search_ok b' h m rng key child (Some cur) /\
    steps_needed (BTree.frames b' child)
    < steps_needed (BTree.frames b cur) /\
    BTree.next_page_id b' = BTree.next_page_id b.
Proof.
  intros (Htree & Hloop & Hkey & Hm & _) Hleaf Hroom.
  assert (Hl : level (BTree.frames b cur) <> 0)
    by (apply Z.eqb_neq; exact Hleaf).
  destruct (iter_descend b h key value cur par cd pd Hloop Hleaf Hroom)
    as (b' & child & Hiter & Hloop' & Hsteps & Hnext).
  assert (Hcur := proj1 (proj2 Hloop)).
  destruct (inner_search_correct b h m rng Htree cur key Hcur Hl Hkey)
    as (i & f & c & Hr & Hc & Hcov & Hrd & _ & Hin).
  exists b', child. split; [exact Hiter |].
  split; [| split; [exact Hsteps | exact Hnext]].
  unfold BTree.insert_iter in Hiter. cbv zeta in Hiter.
  rewrite Hleaf in Hiter.
  rewrite (proj2 (Z.eqb_neq _ 42)) in Hiter by exact Hroom.
  rewrite Hr in Hiter. cbn [bind] in Hiter.
  rewrite <- Hc, Hrd in Hiter. cbn [bind] in Hiter.
  injection Hiter as <- <-.
  split; [| split; [exact Hloop' | split; [exact Hin | split; [exact Hm |]]]].
  - apply (tree_with_ranges_same_store b); try exact Htree;
      destruct par; reflexivity.
  - exists c. split; [| destruct par; reflexivity].
    destruct par; exact (proj1 Hcov).
Qed.

End DescendStep.

(** ** The two halves of a split node, by positions *)

Lemma nth_skipn_prefix (a rest : list Z) (s i : nat) :
  (s + i < length a)%nat ->
  nth i (skipn s a ++ rest) 0 = nth (s + i) a 0.
Proof.
  intros H. rewrite app_nth1 by (rewrite length_skipn; lia).
  apply nth_skipn.
Qed.

Lemma leaf_split_halves j n :
  array_shape n -> count n = kCapacity -> level n = 0 ->
  exists l r,
    LeafNode.split (sl := page_slack j) n zero_page
    = Done (key_at n 21, l, r) /\
    halves n l r (key_at n 21) 22 /\ array_shape l /\ array_shape r.
Proof.
  intros Hs Hc Hl.
  rewrite (leaf_split_full j n zero_page Hs array_shape_zero_page Hc).
  destruct Hs as [Hlk Hlp]. unfold kCapacity in *.
  do 2 eexists. split; [reflexivity |]. split; [| split].
  - unfold halves. cbn [level count set_count zero_page].
    repeat match goal with |- _ /\ _ => split end;
      try reflexivity; try lia.
    + intros i Hi. split; reflexivity.
    + intros i Hi. unfold key_at, payload_at. cbn [keys payload].
      rewrite !nth_skipn_prefix by (rewrite ?Hlk, ?Hlp; simpl; lia).
      split; f_equal; lia.
  - split; cbn; assumption.
  - split; cbn [keys payload]; rewrite length_app, length_skipn;
      [rewrite Hlk | rewrite Hlp]; cbn; rewrite ?length_skipn, ?repeat_length;
      reflexivity.
Qed.

Lemma inner_split_halves {sl : Slack} n :
  array_shape n -> count n = kCapacity ->
  exists l r,
    InnerNode.split n zero_page = Done (key_at n 20, l, r) /\
    halves n l r (key_at n 20) 21 /\ array_shape l /\ array_shape r.
Proof.
  intros Hs Hc.
  rewrite (inner_split_full n zero_page Hs array_shape_zero_page Hc).
  destruct Hs as [Hlk Hlp]. unfold kCapacity in *.
  do 2 eexists. split; [reflexivity |]. split; [| split].
  - unfold halves. cbn [level count set_count].
    repeat match goal with |- _ /\ _ => split end;
      try reflexivity; try lia.
    + intros i Hi. split; reflexivity.
    + intros i Hi. unfold key_at, payload_at. cbn [keys payload].
      rewrite !nth_skipn_prefix by (rewrite ?Hlk, ?Hlp; simpl; lia).
      split; f_equal; lia.
  - split; cbn; assumption.
  - split; cbn [keys payload]; rewrite length_app, length_skipn;
      [rewrite Hlk | rewrite Hlp]; cbn; rewrite ?length_skipn, ?repeat_length;
      reflexivity.
Qed.

(** ** The search tree after a split *)

Section SplitState.
Variables (b b5 : BTree.t) (h h' : Z) (m : Z -> option Z).
Variables (rng rng' : Z -> bound * bound).
Variables (key cur : Z) (par : option Z).
Variables (PP : Z) (pn' l r : Node) (sep cl : Z).

Hypothesis Hsearch : search_ok b h m rng key cur par.
Hypothesis Hhalves : halves (BTree.frames b cur) l r sep cl.
Hypothesis Hst5 : structure_ok b5 h'.
Hypothesis HfPP : BTree.frames b5 PP = pn'.
Hypothesis Hfcur : BTree.frames b5 cur = l.
Hypothesis HfN : BTree.frames b5 (BTree.next_page_id b) = r.
Hypothesis Hfo : forall q, q <> PP -> q <> cur -> q <> (BTree.next_page_id b) ->
                           BTree.frames b5 q = BTree.frames b q.
Hypothesis Hrcur : rng' cur = (fst (rng cur), Some sep).
Hypothesis HrN : rng' (BTree.next_page_id b) = (Some sep, snd (rng cur)).
Hypothesis Hro : forall q, q <> cur -> q < BTree.next_page_id b ->
                           rng' q = rng q.
Hypothesis HPPcur : PP <> cur.
Hypothesis HPPN : PP <> (BTree.next_page_id b).
Hypothesis Hnext5 : forall q, 0 <= q < BTree.next_page_id b5 ->
  q < BTree.next_page_id b \/ q = BTree.next_page_id b \/ q = PP.
Hypothesis Hroot5 : forall r0, BTree.root b5 = Some r0 ->
                               rng' r0 = (None, None).
Hypothesis HPPinner : level pn' <> 0.
Hypothesis HPPranged : inner_ranged b5 rng' PP.
Hypothesis HPPknown : forall i, 0 <= i < count pn' - 1 ->
                                m (key_at pn' i) <> None.
Hypothesis HPPlevel :
  (PP < BTree.next_page_id b /\ level pn' = level (BTree.frames b PP) /\
   rng' PP = rng PP) \/
  (BTree.next_page_id b < PP /\
   forall q, 0 <= q < BTree.next_page_id b5 -> q <> PP ->
             level (BTree.frames b5 q) < level pn').
Hypothesis Huniq : forall q i,
  0 <= q < BTree.next_page_id b -> q <> PP -> level (BTree.frames b q) <> 0 ->
  0 <= i < count (BTree.frames b q) ->
  payload_at (BTree.frames b q) i <> cur.

Lemma split_cur_allocated : 0 <= cur < (BTree.next_page_id b).
Proof using Hsearch.
  clear - Hsearch. pose proof Hsearch as Hs0.
  destruct Hs0 as (_ & (_ & H & _) & _). exact H.
Qed.

Lemma split_cur_page :
  array_shape (BTree.frames b cur) /\
  0 <= count (BTree.frames b cur) <= kCapacity /\
  (level (BTree.frames b cur) = 0 ->
   leaf_ranged (BTree.frames b cur) (rng cur)) /\
  (level (BTree.frames b cur) <> 0 -> inner_ranged b rng cur).
Proof using Hsearch.
  clear - Hsearch.
  pose proof Hsearch as Hs0.
  destruct Hs0 as ((((_ & Hok & _) & _) & Hrng & _) & _).
  destruct (Hok cur split_cur_allocated) as (Hs & _ & Hc & _).
  destruct (Hrng cur split_cur_allocated) as [Hl Hi].
  split; [exact Hs | split; [exact Hc | split; assumption]].
Qed.

(** The separator is a key of the range of the split page, and of the
    map. *)
Lemma split_separator_in_range : in_range (rng cur) sep.
Proof using Hsearch Hhalves.
  clear - Hsearch Hhalves.
  destruct split_cur_page as (_ & _ & Hleaf & Hinner).
  pose proof Hhalves as Hh0.
  destruct Hh0 as (_ & _ & _ & _ & Hcl & Hcn & He & _).
  rewrite He.
  destruct (Z.eq_dec (level (BTree.frames b cur)) 0) as [Hl | Hl].
  - apply (proj2 (Hleaf Hl)). lia.
  - destruct (Hinner Hl) as (_ & _ & Hin & _). apply Hin. lia.
Qed.

Lemma split_separator_known : m sep <> None.
Proof using Hsearch Hhalves.
  clear - Hsearch Hhalves.
  pose proof Hsearch as Hs0. destruct Hs0 as (Htree & _).
  assert (Ht := Htree).
  destruct Ht as (_ & _ & _ & _ & Hcont & Hsep).
  destruct split_cur_page as (Hs & Hc & Hleaf & _).
  assert (Hin := split_separator_in_range).
  pose proof Hhalves as Hh0.
  destruct Hh0 as (_ & _ & _ & _ & Hcl & Hcn & He & _).
  destruct (Z.eq_dec (level (BTree.frames b cur)) 0) as [Hl | Hl].
  - assert (Hsome : m sep = Some (payload_at (BTree.frames b cur) (cl - 1))).
    { apply (Hcont cur split_cur_allocated Hl sep _ Hin).
      apply (proj2 (In_leaf_entries _ sep _ Hs Hc)). exists (cl - 1).
      split; [lia |]. split; [symmetry; exact He | reflexivity]. }
    congruence.
  - rewrite He. apply (Hsep cur split_cur_allocated Hl). lia.
Qed.

Lemma split_left_in_old k : in_range (rng' cur) k -> in_range (rng cur) k.
Proof using Hsearch Hhalves Hrcur.
  clear - Hsearch Hhalves Hrcur.
  rewrite Hrcur. intros [Ha Hu]. cbn [fst snd] in *.
  destruct split_separator_in_range as [_ Hsu].
  split; [exact Ha |]. cbn in Hu.
  destruct (snd (rng cur)); cbn in *; [lia | exact I].
Qed.

Lemma split_right_in_old k :
  in_range (rng' (BTree.next_page_id b)) k -> in_range (rng cur) k.
Proof using Hsearch Hhalves HrN.
  clear - Hsearch Hhalves HrN.
  rewrite HrN. intros [Ha Hu]. cbn [fst snd] in *.
  destruct split_separator_in_range as [Hsa _].
  split; [| exact Hu]. cbn in Ha.
  destruct (fst (rng cur)); cbn in *; [lia | exact I].
Qed.

Lemma split_halves_apart k :
  in_range (rng' cur) k -> in_range (rng' (BTree.next_page_id b)) k -> False.
Proof using Hrcur HrN.
  clear - Hrcur HrN.
  rewrite Hrcur, HrN. intros [_ Hu] [Ha _]. cbn in *. lia.
Qed.

(** The next page of the search. *)
Lemma split_next_in_range :
  in_range (rng' (if key >=? sep then (BTree.next_page_id b) else cur)) key.
Proof using Hsearch Hhalves Hrcur HrN.
  clear - Hsearch Hhalves Hrcur HrN.
  pose proof Hsearch as Hs0. destruct Hs0 as (_ & _ & [Ha Hu] & Hm & _).
  assert (Hne : key <> sep).
  { intros He. apply split_separator_known. rewrite <- He. exact Hm. }
  rewrite Z.geb_leb.
  destruct (Z.leb_spec sep key).
  - rewrite HrN. split; cbn; [lia | exact Hu].
  - rewrite Hrcur. split; cbn; [exact Ha | lia].
Qed.


(** The children of the pages that were there before the split keep
    their ranges, the split page being referenced by [PP] only. *)
Lemma split_child_range q i :
  0 <= q < BTree.next_page_id b -> level (BTree.frames b q) <> 0 ->
  (q = cur \/ q <> PP) ->
  0 <= i < count (BTree.frames b q) ->
  rng' (payload_at (BTree.frames b q) i)
  = rng (payload_at (BTree.frames b q) i).
Proof.
  intros Hq Hl Hcase Hi.
  pose proof Hsearch as Hs0.
  destruct Hs0 as ((((_ & Hok & _) & _) & _) & _).
  destruct (Hok q Hq) as (_ & _ & _ & Hch).
  destruct (Hch Hl) as [_ Hchild]. destruct (Hchild i Hi) as [Hca Hcl].
  apply Hro; [| lia].
  destruct (Z.eq_dec q cur) as [-> | Hne].
  - intros He. rewrite He in Hcl. lia.
  - apply Huniq; try assumption. destruct Hcase; [contradiction | assumption].
Qed.

Lemma split_left_leaf :
  level (BTree.frames b cur) = 0 -> leaf_ranged l (rng' cur).
Proof.
  intros Hl. destruct split_cur_page as (_ & _ & Hleaf & _).
  destruct (Hleaf Hl) as [Hord Hin].
  pose proof Hhalves as Hh0.
  destruct Hh0 as (_ & _ & Hcl & _ & H2 & Hcn & He & Hleft & _).
  split.
  - intros i j Hij Hj. rewrite Hcl in Hj.
    rewrite (proj1 (Hleft i ltac:(lia))), (proj1 (Hleft j ltac:(lia))).
    apply Hord; lia.
  - intros i Hi. rewrite Hcl in Hi. rewrite (proj1 (Hleft i Hi)), Hrcur.
    split; cbn [fst snd].
    + apply (Hin i). lia.
    + cbn. rewrite He.
      destruct (Z.eq_dec i (cl - 1)) as [-> | Hne]; [lia |].
      assert (key_at (BTree.frames b cur) i
              < key_at (BTree.frames b cur) (cl - 1)) by (apply Hord; lia).
      lia.
Qed.

Lemma split_right_leaf :
  level (BTree.frames b cur) = 0 ->
  leaf_ranged r (rng' (BTree.next_page_id b)).
Proof.
  intros Hl. destruct split_cur_page as (_ & _ & Hleaf & _).
  destruct (Hleaf Hl) as [Hord Hin].
  pose proof Hhalves as Hh0.
  destruct Hh0 as (_ & _ & _ & Hcr & H2 & Hcn & He & _ & Hright).
  split.
  - intros i j Hij Hj. rewrite Hcr in Hj.
    rewrite (proj1 (Hright i ltac:(lia))), (proj1 (Hright j ltac:(lia))).
    apply Hord; lia.
  - intros i Hi. rewrite Hcr in Hi. rewrite (proj1 (Hright i Hi)), HrN.
    split; cbn [fst snd].
    + cbn. rewrite He. apply Hord; lia.
    + apply (Hin (cl + i)). lia.
Qed.

Lemma split_left_inner :
  level (BTree.frames b cur) <> 0 -> inner_ranged b5 rng' cur.
Proof.
  intros Hl. destruct split_cur_page as (_ & _ & _ & Hinner).
  destruct (Hinner Hl) as (Hc2 & Hord & Hin & Hcr).
  pose proof Hhalves as Hh0.
  destruct Hh0 as (_ & _ & Hcl & _ & H2 & Hcn & He & Hleft & _).
  unfold inner_ranged. rewrite Hfcur, Hcl.
  split; [exact H2 |]. split; [| split].
  - intros i j Hij Hj.
    rewrite (proj1 (Hleft i ltac:(lia))), (proj1 (Hleft j ltac:(lia))).
    apply Hord; lia.
  - intros i Hi. rewrite (proj1 (Hleft i ltac:(lia))), Hrcur.
    split; cbn [fst snd].
    + apply (Hin i). lia.
    + cbn. rewrite He.
      assert (key_at (BTree.frames b cur) i
              < key_at (BTree.frames b cur) (cl - 1)) by (apply Hord; lia).
      lia.
  - intros i Hi. rewrite (proj2 (Hleft i Hi)).
    rewrite split_child_range;
      [| exact split_cur_allocated | exact Hl | left; reflexivity | lia].
    rewrite (Hcr i) by lia. rewrite Hrcur.
    unfold child_range. cbn [fst snd]. rewrite Hcl.
    rewrite (proj2 (Z.eqb_neq i (count (BTree.frames b cur) - 1))) by lia.
    f_equal.
    + destruct (Z.eqb_spec i 0); [reflexivity |].
      rewrite (proj1 (Hleft (i - 1) ltac:(lia))). reflexivity.
    + destruct (Z.eqb_spec i (cl - 1)) as [-> | Hne]; [congruence |].
      rewrite (proj1 (Hleft i Hi)). reflexivity.
Qed.

Lemma split_right_inner :
  level (BTree.frames b cur) <> 0 ->
  inner_ranged b5 rng' (BTree.next_page_id b).
Proof.
  intros Hl. destruct split_cur_page as (_ & _ & _ & Hinner).
  destruct (Hinner Hl) as (Hc2 & Hord & Hin & Hcr).
  pose proof Hhalves as Hh0.
  destruct Hh0 as (_ & _ & _ & Hcnt & H2 & Hcn & He & _ & Hright).
  unfold inner_ranged. rewrite HfN, Hcnt.
  split; [lia |]. split; [| split].
  - intros i j Hij Hj.
    rewrite (proj1 (Hright i ltac:(lia))), (proj1 (Hright j ltac:(lia))).
    apply Hord; lia.
  - intros i Hi. rewrite (proj1 (Hright i ltac:(lia))), HrN.
    split; cbn [fst snd].
    + cbn. rewrite He. apply Hord; lia.
    + apply (Hin (cl + i)). lia.
  - intros i Hi. rewrite (proj2 (Hright i Hi)).
    rewrite split_child_range;
      [| exact split_cur_allocated | exact Hl | left; reflexivity | lia].
    rewrite (Hcr (cl + i)) by lia. rewrite HrN.
    unfold child_range. cbn [fst snd]. rewrite Hcnt.
    rewrite (proj2 (Z.eqb_neq (cl + i) 0)) by lia.
    f_equal.
    + destruct (Z.eqb_spec i 0) as [-> | Hne].
      * rewrite He. do 2 f_equal. lia.
      * rewrite (proj1 (Hright (i - 1) ltac:(lia))). do 2 f_equal. lia.
    + destruct (Z.eqb_spec (cl + i) (count (BTree.frames b cur) - 1));
        destruct (Z.eqb_spec i (count (BTree.frames b cur) - cl - 1));
        try lia; [reflexivity |].
      rewrite (proj1 (Hright i Hi)). reflexivity.
Qed.


Lemma split_ranges_ok : ranges_ok b5 rng'.
Proof.
  intros p Hp.
  pose proof Hhalves as Hh0. destruct Hh0 as (Hll & Hlr & _).
  destruct (Z.eq_dec p PP) as [-> | HnPP].
  { rewrite HfPP. split; [intros H0; contradiction | intros _].
    exact HPPranged. }
  destruct (Z.eq_dec p cur) as [-> | Hncur].
  { rewrite Hfcur, Hll. split; [exact split_left_leaf |].
    exact split_left_inner. }
  destruct (Z.eq_dec p (BTree.next_page_id b)) as [-> | HnN].
  { rewrite HfN, Hlr. split; [exact split_right_leaf |].
    exact split_right_inner. }
  assert (Hp' : 0 <= p < BTree.next_page_id b)
    by (destruct (Hnext5 p Hp) as [H | [H | H]]; lia).
  pose proof Hsearch as Hs0. destruct Hs0 as ((_ & Hrng & _) & _).
  destruct (Hrng p Hp') as [Hleaf Hinner].
  rewrite (Hfo p HnPP Hncur HnN), (Hro p Hncur (proj2 Hp')).
  split; [exact Hleaf |]. intros Hl.
  destruct (Hinner Hl) as (Hc2 & Hord & Hin & Hcr).
  unfold inner_ranged.
  rewrite (Hfo p HnPP Hncur HnN), (Hro p Hncur (proj2 Hp')).
  split; [exact Hc2 |]. split; [exact Hord |]. split; [exact Hin |].
  intros i Hi. rewrite split_child_range; try assumption.
  - apply Hcr. exact Hi.
  - right. exact HnPP.
Qed.

(** Every page of the new store is either the new root, above all others,
    or lies within the range and on the level of an old page. *)
Lemma split_page_origin p :
  0 <= p < BTree.next_page_id b5 ->
  (p = PP /\ forall q, 0 <= q < BTree.next_page_id b5 -> q <> PP ->
                       level (BTree.frames b5 q) < level (BTree.frames b5 p))
  \/
  exists o, 0 <= o < BTree.next_page_id b /\
            level (BTree.frames b5 p) = level (BTree.frames b o) /\
            (forall k, in_range (rng' p) k -> in_range (rng o) k) /\
            (o = p \/ (p = BTree.next_page_id b /\ o = cur)).
Proof.
  intros Hp.
  pose proof Hhalves as Hh0. destruct Hh0 as (Hll & Hlr & _).
  destruct (Z.eq_dec p PP) as [-> | HnPP].
  { rewrite HfPP. destruct HPPlevel as [(Hold & Hlev & Hr) | (Hnew & Hlev)].
    - right. exists PP. split; [lia |]. split; [exact Hlev |].
      split; [| left; reflexivity]. intros k. rewrite Hr. trivial.
    - left. split; [reflexivity | exact Hlev]. }
  right.
  destruct (Z.eq_dec p cur) as [-> | Hncur].
  { exists cur. split; [exact split_cur_allocated |].
    rewrite Hfcur. split; [exact Hll |].
    split; [exact split_left_in_old | left; reflexivity]. }
  destruct (Z.eq_dec p (BTree.next_page_id b)) as [-> | HnN].
  { exists cur. split; [exact split_cur_allocated |].
    rewrite HfN. split; [exact Hlr |].
    split; [exact split_right_in_old | right; split; reflexivity]. }
  assert (Hp' : 0 <= p < BTree.next_page_id b)
    by (destruct (Hnext5 p Hp) as [H | [H | H]]; lia).
  exists p. split; [exact Hp' |].
  rewrite (Hfo p HnPP Hncur HnN), (Hro p Hncur (proj2 Hp')).
  split; [reflexivity |]. split; [trivial | left; reflexivity].
Qed.

Lemma split_levels_disjoint : levels_disjoint b5 rng'.
Proof.
  intros p q k Hp Hq Hlev Hkp Hkq.
  pose proof Hsearch as Hs0.
  destruct Hs0 as ((_ & _ & _ & Hdis & _) & _).
  destruct (split_page_origin p Hp) as [[-> Hp1] | (o & Ho & Hlo & Hro' & Hop)];
    destruct (split_page_origin q Hq)
      as [[-> Hq1] | (o' & Ho' & Hlo' & Hro'' & Hoq)].
  - reflexivity.
  - destruct (Z.eq_dec q PP) as [-> | Hne]; [reflexivity |].
    specialize (Hp1 q Hq Hne). lia.
  - destruct (Z.eq_dec p PP) as [-> | Hne]; [reflexivity |].
    specialize (Hq1 p Hp Hne). lia.
  - assert (Heq : o = o').
    { apply (Hdis o o' k Ho Ho'); [congruence | auto | auto]. }
    destruct Hop as [Hop | [Hop1 Hop2]]; destruct Hoq as [Hoq | [Hoq1 Hoq2]];
      try congruence.
    + exfalso. assert (Hpc : p = cur) by congruence.
      rewrite Hpc in Hkp. rewrite Hoq1 in Hkq.
      exact (split_halves_apart k Hkp Hkq).
    + exfalso. assert (Hqc : q = cur) by congruence.
      rewrite Hqc in Hkq. rewrite Hop1 in Hkp.
      exact (split_halves_apart k Hkq Hkp).
Qed.


Lemma split_new_page_ok p :
  0 <= p < BTree.next_page_id b5 ->
  array_shape (BTree.frames b5 p) /\
  0 <= count (BTree.frames b5 p) <= kCapacity.
Proof.
  intros Hp. destruct Hst5 as ((_ & Hok & _) & _).
  destruct (Hok p Hp) as (Hs & _ & Hc & _). split; assumption.
Qed.

Lemma split_content_ok : content_ok b5 rng' m.
Proof.
  intros p Hp Hl k v Hk.
  pose proof Hhalves as Hh0.
  destruct Hh0 as (Hll & Hlr & Hcl & Hcr & H2 & Hcn & He & Hleft & Hright).
  pose proof Hsearch as Hs0.
  destruct Hs0 as ((_ & _ & _ & _ & Hcont & _) & _).
  destruct (split_new_page_ok p Hp) as [Hsp Hcp].
  destruct split_cur_page as (Hs & Hc & Hleaf & _).
  assert (Hcur := split_cur_allocated).
  destruct (Z.eq_dec p PP) as [HPP | HnPP].
  { rewrite HPP, HfPP in Hl. contradiction. }
  destruct (Z.eq_dec p cur) as [Hpc | Hncur].
  { rewrite Hpc in *. rewrite Hfcur in *. rewrite Hll in Hl.
    destruct (Hleaf Hl) as [Hord _].
    rewrite (Hcont cur Hcur Hl k v (split_left_in_old k Hk)).
    rewrite (In_leaf_entries _ k v Hs Hc), (In_leaf_entries _ k v Hsp Hcp).
    rewrite Hrcur in Hk. destruct Hk as [_ Hu]. cbn in Hu.
    split; intros (i & Hi & Hki & Hvi).
    - assert (Hle : i < cl).
      { destruct (Z_lt_ge_dec i cl) as [Hlt | Hge]; [exact Hlt | exfalso].
        assert (key_at (BTree.frames b cur) (cl - 1)
                < key_at (BTree.frames b cur) i) by (apply Hord; lia).
        lia. }
      exists i. destruct (Hleft i ltac:(lia)) as [Hk1 Hv1].
      rewrite Hcl, Hk1, Hv1. repeat split; try lia; assumption.
    - rewrite Hcl in Hi. destruct (Hleft i Hi) as [Hk1 Hv1].
      exists i. rewrite <- Hk1, <- Hv1. repeat split; try lia; assumption. }
  destruct (Z.eq_dec p (BTree.next_page_id b)) as [HpN | HnN].
  { rewrite HpN in *. rewrite HfN in *. rewrite Hlr in Hl.
    destruct (Hleaf Hl) as [Hord _].
    rewrite (Hcont cur Hcur Hl k v (split_right_in_old k Hk)).
    rewrite (In_leaf_entries _ k v Hs Hc), (In_leaf_entries _ k v Hsp Hcp).
    rewrite HrN in Hk. destruct Hk as [Ha _]. cbn in Ha.
    split; intros (i & Hi & Hki & Hvi).
    - assert (Hge : cl <= i).
      { destruct (Z_lt_ge_dec i cl) as [Hlt | Hge]; [exfalso | lia].
        destruct (Z.eq_dec i (cl - 1)) as [Hi1 | Hi1].
        - rewrite Hi1 in Hki. lia.
        - assert (key_at (BTree.frames b cur) i
                  < key_at (BTree.frames b cur) (cl - 1))
            by (apply Hord; lia).
          lia. }
      exists (i - cl). destruct (Hright (i - cl) ltac:(lia)) as [Hk1 Hv1].
      replace (cl + (i - cl)) with i in Hk1, Hv1 by lia.
      rewrite Hcr, Hk1, Hv1. repeat split; try lia; assumption.
    - rewrite Hcr in Hi. destruct (Hright i Hi) as [Hk1 Hv1].
      exists (cl + i). rewrite <- Hk1, <- Hv1.
      repeat split; try lia; assumption. }
  assert (Hp' : 0 <= p < BTree.next_page_id b)
    by (destruct (Hnext5 p Hp) as [H | [H | H]]; lia).
  rewrite (Hfo p HnPP Hncur HnN) in *.
  rewrite (Hro p Hncur (proj2 Hp')) in Hk.
  apply Hcont; assumption.
Qed.

Lemma split_separators_known : separators_known b5 m.
Proof.
  intros p Hp Hl i Hi.
  pose proof Hhalves as Hh0.
  destruct Hh0 as (Hll & Hlr & Hcl & Hcr & H2 & Hcn & He & Hleft & Hright).
  pose proof Hsearch as Hs0.
  destruct Hs0 as ((_ & _ & _ & _ & _ & Hsep) & _).
  assert (Hcur := split_cur_allocated).
  destruct (Z.eq_dec p PP) as [HPP | HnPP].
  { rewrite HPP, HfPP in *. apply HPPknown. exact Hi. }
  destruct (Z.eq_dec p cur) as [Hpc | Hncur].
  { rewrite Hpc in *. rewrite Hfcur in *. rewrite Hll in Hl.
    rewrite Hcl in Hi. rewrite (proj1 (Hleft i ltac:(lia))).
    apply (Hsep cur Hcur Hl). lia. }
  destruct (Z.eq_dec p (BTree.next_page_id b)) as [HpN | HnN].
  { rewrite HpN in *. rewrite HfN in *. rewrite Hlr in Hl.
    rewrite Hcr in Hi. rewrite (proj1 (Hright i ltac:(lia))).
    apply (Hsep cur Hcur Hl). lia. }
  assert (Hp' : 0 <= p < BTree.next_page_id b)
    by (destruct (Hnext5 p Hp) as [H | [H | H]]; lia).
  rewrite (Hfo p HnPP Hncur HnN) in *.
  apply Hsep; assumption.
Qed.

(** The store after the split is a search tree for the same map. *)
Lemma split_tree_with_ranges : tree_with_ranges b5 h' m rng'.
Proof.
  split; [exact Hst5 |]. split; [exact split_ranges_ok |].
  split; [exact Hroot5 |]. split; [exact split_levels_disjoint |].
  split; [exact split_content_ok | exact split_separators_known].
Qed.


(** The split page held keys above the separator. *)
Lemma split_separator_strict :
  exists k', sep < k' /\ in_range (rng cur) k'.
Proof using Hsearch Hhalves.
  clear - Hsearch Hhalves.
  destruct split_cur_page as (_ & _ & Hleaf & Hinner).
  pose proof Hhalves as Hh0.
  destruct Hh0 as (_ & _ & _ & _ & Hcl & Hcn & He & _).
  exists (key_at (BTree.frames b cur) cl). rewrite He.
  destruct (Z.eq_dec (level (BTree.frames b cur)) 0) as [Hl | Hl].
  - destruct (Hleaf Hl) as [Hord Hin].
    split; [apply Hord; lia | apply Hin; lia].
  - destruct (Hinner Hl) as (_ & Hord & Hin & _).
    split; [apply Hord; lia | apply Hin; lia].
Qed.

End SplitState.

(** ** The iteration of [insert] that splits a page below its parent *)

(** The loop step on a full page [cur] with parent [P]: the page is split
    into itself and the fresh page [N = next_page_id], and the separator
    and [N] are inserted into [P].  Only these three pages change. *)
Lemma parent_split_step j b key value cur P cd pd sep l r pn' :
  array_shape (BTree.frames b cur) ->
  count (BTree.frames b cur) = kCapacity ->
  0 <= BTree.next_page_id b ->
  BTree.next_page_id b + 1 < 18446744073709551616 ->
  cur <> BTree.next_page_id b -> P <> BTree.next_page_id b -> P <> cur ->
  BTree.frames b (BTree.next_page_id b) = zero_page ->
  (if is_leaf (BTree.frames b cur)
   then LeafNode.split (sl := page_slack j) (BTree.frames b cur) zero_page
   else InnerNode.split (sl := page_slack j) (BTree.frames b cur) zero_page)
  = Done (sep, l, r) ->
  InnerNode.insert (sl := page_slack j) (BTree.frames b P) sep
    (BTree.next_page_id b) = Done pn' ->
  exists b' cd' pd',
    BTree.insert_iter (sl := page_slack j) b key value cur (Some P) cd pd
    = Done (inr (b', if key >=? sep then BTree.next_page_id b else cur,
                 Some P, cd', pd')) /\
    BTree.root b' = BTree.root b /\
    BTree.next_page_id b' = BTree.next_page_id b + 1 /\
    BTree.frames b' P = pn' /\ BTree.frames b' cur = l /\
    BTree.frames b' (BTree.next_page_id b) = r /\
    (forall q, q <> P -> q <> cur -> q <> BTree.next_page_id b ->
               BTree.frames b' q = BTree.frames b q).
Proof.
  intros Hs Hfull HN0 HN Hc1 Hp1 Hp2 Hz1 Hsplit Hins.
  assert (Hw1 : wrap64 (BTree.next_page_id b + 1) = BTree.next_page_id b + 1)
    by (apply wrap64_small; lia).
  unfold BTree.insert_iter. cbv zeta.
  change 42 with kCapacity. rewrite Hfull, Z.ltb_irrefl, Z.eqb_refl.
  destruct (is_leaf (BTree.frames b cur)) eqn:Hleaf;
    cbn [BTree.fresh_page_id BTree.fix_page BTree.log BTree.frames];
    rewrite Hz1, Hsplit; cbn [bind]; simpl_state;
    rewrite (proj2 (Z.eqb_neq P cur)) by exact Hp2;
    rewrite (proj2 (Z.eqb_neq P _)) by exact Hp1;
    rewrite Hins; cbn [bind]; simpl_state; rewrite ?Hw1;
    do 3 eexists; (split; [reflexivity |]); simpl_state;
    (split; [reflexivity |]); (split; [reflexivity |]);
    rewrite Z.eqb_refl; (split; [reflexivity |]);
    rewrite (proj2 (Z.eqb_neq cur P)) by (intros H; apply Hp2; auto);
    rewrite Z.eqb_refl; (split; [reflexivity |]);
    rewrite (proj2 (Z.eqb_neq _ P)) by (intros H; apply Hp1; auto);
    rewrite (proj2 (Z.eqb_neq _ cur)) by (intros H; apply Hc1; auto);
    rewrite Z.eqb_refl; (split; [reflexivity |]);
    intros q H1 H2 H3;
    rewrite (proj2 (Z.eqb_neq _ _) H1), (proj2 (Z.eqb_neq _ _) H2),
      (proj2 (Z.eqb_neq _ _) H3); reflexivity.
Qed.

(** ** The parent of a split page *)

Lemma above_trans lo a k : above lo a -> a <= k -> above lo k.
Proof. destruct lo; cbn; [lia | trivial]. Qed.

Lemma upto_trans hi a k : upto hi a -> k <= a -> upto hi k.
Proof. destruct hi; cbn; [lia | trivial]. Qed.

(** A key of the range of a child covers that child... *)
Lemma in_child_range_covering n r k c :
  keys_ordered n (count n - 1) -> 0 <= c < count n ->
  in_range (child_range r n c) k -> covering_child n k c.
Proof.
  intros Hord Hc [Ha Hu]. unfold child_range in *. cbn [fst snd] in *.
  split; [exact Hc |]. split.
  - intros j Hj. rewrite (proj2 (Z.eqb_neq c 0)) in Ha by lia. cbn in Ha.
    destruct (Z.eq_dec j (c - 1)) as [-> | Hne]; [exact Ha |].
    assert (key_at n j < key_at n (c - 1)) by (apply Hord; lia). lia.
  - intros Hlt. rewrite (proj2 (Z.eqb_neq c (count n - 1))) in Hu by lia.
    exact Hu.
Qed.

(** ... and is a key of the range of the parent. *)
Lemma child_range_in_parent n r k c :
  (forall i, 0 <= i < count n - 1 -> in_range r (key_at n i)) ->
  0 <= c < count n -> in_range (child_range r n c) k -> in_range r k.
Proof.
  intros Hin Hc [Ha Hu]. unfold child_range in *. cbn [fst snd] in *.
  split.
  - destruct (Z.eqb_spec c 0); [exact Ha |]. cbn in Ha.
    apply (above_trans _ (key_at n (c - 1))); [| lia].
    apply (Hin (c - 1)). lia.
  - destruct (Z.eqb_spec c (count n - 1)); [exact Hu |]. cbn in Hu.
    apply (upto_trans _ (key_at n c)); [| lia].
    apply (Hin c). lia.
Qed.

(** The page the search is at is referenced once: by the recorded parent,
    at one position. *)
Lemma unique_parent b h m rng key cur P q i :
  search_ok b h m rng key cur (Some P) ->
  0 <= q < BTree.next_page_id b -> level (BTree.frames b q) <> 0 ->
  0 <= i < count (BTree.frames b q) ->
  payload_at (BTree.frames b q) i = cur ->
  q = P /\ covering_child (BTree.frames b P) key i.
Proof.
  intros (Htree & Hloop & Hkey & _ & c & Hc & Hlink) Hq Hl Hi He.
  destruct Htree as (((_ & Hok & _) & _) & Hrng & _ & Hdis & _).
  destruct Hloop as (_ & Hcur & HP & HlP & _).
  destruct (Hok q Hq) as (_ & _ & _ & Hch).
  destruct (Hch Hl) as [_ Hchild]. destruct (Hchild i Hi) as [_ Hcl].
  rewrite He in Hcl.
  destruct (Hrng q Hq) as [_ Hinner].
  destruct (Hinner Hl) as (_ & Hord & Hin & Hcr).
  assert (Hkq : in_range (child_range (rng q) (BTree.frames b q) i) key)
    by (rewrite <- (Hcr i Hi), He; exact Hkey).
  assert (HlP' : level (BTree.frames b P) <> 0).
  { destruct (Hok cur Hcur) as (_ & Hlv & _). lia. }
  destruct (Hrng P HP) as [_ HinnerP].
  destruct (HinnerP HlP') as (_ & HordP & HinP & HcrP).
  assert (Heq : q = P).
  { apply (Hdis q P key Hq HP); [lia | |].
    - exact (child_range_in_parent _ _ _ _ Hin Hi Hkq).
    - apply (child_range_in_parent _ _ _ c HinP Hc).
      rewrite <- (HcrP c Hc), Hlink. exact Hkey. }
  split; [exact Heq |]. subst q.
  exact (in_child_range_covering _ _ _ _ Hord Hi Hkq).
Qed.

Section ParentSplit.
Variables (b b5 : BTree.t) (h : Z) (m : Z -> option Z).
Variables (rng rng' : Z -> bound * bound).
Variables (key cur P : Z) (pn' l r : Node) (sep cl c0 : Z).

Hypothesis Hsearch : search_ok b h m rng key cur (Some P).
Hypothesis Hhalves : halves (BTree.frames b cur) l r sep cl.
Hypothesis Hc0 : 0 <= c0 < count (BTree.frames b P).
Hypothesis Hlink : payload_at (BTree.frames b P) c0 = cur.
Hypothesis HfP : BTree.frames b5 P = pn'.
Hypothesis Hcnt : count pn' = count (BTree.frames b P) + 1.
Hypothesis Hkeys : forall k, 0 <= k < count (BTree.frames b P) ->
  key_at pn' k = (if k <? c0 then key_at (BTree.frames b P) k
                  else if k =? c0 then sep
                  else key_at (BTree.frames b P) (k - 1)).
Hypothesis Hpay : forall k, 0 <= k < count (BTree.frames b P) + 1 ->
  payload_at pn' k = (if k <? c0 + 1 then payload_at (BTree.frames b P) k
                      else if k =? c0 + 1 then BTree.next_page_id b
                      else payload_at (BTree.frames b P) (k - 1)).
Hypothesis Hrcur : rng' cur = (fst (rng cur), Some sep).
Hypothesis HrN : rng' (BTree.next_page_id b) = (Some sep, snd (rng cur)).
Hypothesis Hro : forall q, q <> cur -> q < BTree.next_page_id b ->
                           rng' q = rng q.

Lemma parent_is_inner :
  0 <= P < BTree.next_page_id b /\ level (BTree.frames b P) <> 0 /\
  P <> cur /\ inner_ranged b rng P.
Proof using Hsearch.
  clear - Hsearch.
  pose proof Hsearch as Hs0.
  destruct Hs0 as (Htree & Hloop & _).
  destruct Htree as (((_ & Hok & _) & _) & Hrng & _).
  destruct Hloop as (_ & Hcur & HP & HlP & _).
  destruct (Hok cur Hcur) as (_ & Hlv & _).
  assert (Hl : level (BTree.frames b P) <> 0) by lia.
  split; [exact HP |]. split; [exact Hl |]. split.
  - intros He. rewrite He in HlP. lia.
  - apply (proj2 (Hrng P HP)). exact Hl.
Qed.

Lemma parent_covers_separator :
  covering_child (BTree.frames b P) sep c0 /\
  (c0 < count (BTree.frames b P) - 1 -> sep < key_at (BTree.frames b P) c0)
  /\ in_range (rng P) sep.
Proof using Hsearch Hhalves Hc0 Hlink.
  clear - Hsearch Hhalves Hc0 Hlink.
  destruct parent_is_inner as (HP & Hl & Hne & Hc2 & Hord & Hin & Hcr).
  assert (Hrc := Hcr c0 Hc0). rewrite Hlink in Hrc.
  assert (Hsr : in_range (rng cur) sep)
    by (eapply split_separator_in_range; eassumption).
  assert (Hst : exists k', sep < k' /\ in_range (rng cur) k')
    by (eapply split_separator_strict; eassumption).
  destruct Hst as (k' & Hlt & Hk').
  rewrite Hrc in Hsr, Hk'.
  split; [exact (in_child_range_covering _ _ _ _ Hord Hc0 Hsr) |].
  split; [| exact (child_range_in_parent _ _ _ _ Hin Hc0 Hsr)].
  intros Hlast.
  destruct (in_child_range_covering _ _ _ _ Hord Hc0 Hk') as (_ & _ & Hhi).
  specialize (Hhi Hlast). lia.
Qed.

(** The other children of the parent keep their ranges. *)
Lemma parent_other_child k :
  0 <= k < count (BTree.frames b P) -> k <> c0 ->
  rng' (payload_at (BTree.frames b P) k)
  = rng (payload_at (BTree.frames b P) k).
Proof.
  intros Hk Hne.
  destruct parent_is_inner as (HP & Hl & _ & _ & Hord & _).
  pose proof Hsearch as Hs0.
  destruct Hs0 as ((((_ & Hok & _) & _) & _) & _).
  destruct (Hok P HP) as (_ & _ & _ & Hch).
  destruct (Hch Hl) as [_ Hchild]. destruct (Hchild k Hk) as [Hca _].
  apply Hro; [| lia]. intros He.
  destruct (unique_parent b h m rng key cur P P k Hsearch HP Hl Hk He)
    as [_ Hcov].
  destruct (unique_parent b h m rng key cur P P c0 Hsearch HP Hl Hc0 Hlink)
    as [_ Hcov0].
  exact (Hne (covering_child_unique _ _ _ _ Hord Hcov Hcov0)).
Qed.


Lemma parent_ranged_after_split : inner_ranged b5 rng' P.
Proof.
  destruct parent_is_inner as (HP & Hl & Hne & Hc2 & Hord & Hin & Hcr).
  destruct parent_covers_separator as ((_ & Hlo & Hhi) & Hstrict & HsepP).
  assert (HrP : rng' P = rng P) by (apply Hro; [exact Hne | lia]).
  assert (Hrc := Hcr c0 Hc0). rewrite Hlink in Hrc.
  assert (Hhigh : forall k, c0 <= k < count (BTree.frames b P) - 1 ->
                            sep < key_at (BTree.frames b P) k).
  { intros k Hk. specialize (Hstrict ltac:(lia)).
    destruct (Z.eq_dec k c0) as [-> | Hk']; [exact Hstrict |].
    assert (key_at (BTree.frames b P) c0 < key_at (BTree.frames b P) k)
      by (apply Hord; lia).
    lia. }
  unfold inner_ranged. rewrite HfP, Hcnt, HrP.
  replace (count (BTree.frames b P) + 1 - 1) with (count (BTree.frames b P))
    by lia.
  split; [lia |]. split; [| split].
  - intros i j Hij Hj. rewrite (Hkeys i), (Hkeys j) by lia.
    destruct (Z.ltb_spec i c0); destruct (Z.ltb_spec j c0); try lia.
    + apply Hord; lia.
    + destruct (Z.eqb_spec j c0).
      * apply Hlo; lia.
      * apply Hord; lia.
    + destruct (Z.eqb_spec i c0); destruct (Z.eqb_spec j c0); try lia.
      * apply Hhigh; lia.
      * apply Hord; lia.
  - intros i Hi. rewrite (Hkeys i) by lia.
    destruct (Z.ltb_spec i c0); [apply Hin; lia |].
    destruct (Z.eqb_spec i c0); [exact HsepP | apply Hin; lia].
  - intros k Hk. rewrite (Hpay k) by lia.
    unfold child_range. cbn [fst snd]. rewrite Hcnt.
    replace (count (BTree.frames b P) + 1 - 1)
      with (count (BTree.frames b P)) by lia.
    destruct (Z.ltb_spec k (c0 + 1)).
    + destruct (Z.eq_dec k c0) as [Hkc | Hkc].
      * rewrite Hkc, Hlink, Hrcur, Hrc. unfold child_range. cbn [fst snd].
        rewrite (proj2 (Z.eqb_neq c0 (count (BTree.frames b P)))) by lia.
        rewrite (Hkeys c0) by lia.
        rewrite Z.ltb_irrefl, Z.eqb_refl. f_equal.
        destruct (Z.eqb_spec c0 0); [reflexivity |].
        rewrite (Hkeys (c0 - 1)) by lia.
        rewrite (proj2 (Z.ltb_lt (c0 - 1) c0)) by lia. reflexivity.
      * rewrite parent_other_child by lia. rewrite (Hcr k) by lia.
        unfold child_range. cbn [fst snd].
        rewrite (proj2 (Z.eqb_neq k (count (BTree.frames b P) - 1))) by lia.
        rewrite (proj2 (Z.eqb_neq k (count (BTree.frames b P)))) by lia.
        rewrite (Hkeys k) by lia.
        rewrite (proj2 (Z.ltb_lt k c0)) by lia. f_equal.
        destruct (Z.eqb_spec k 0); [reflexivity |].
        rewrite (Hkeys (k - 1)) by lia.
        rewrite (proj2 (Z.ltb_lt (k - 1) c0)) by lia. reflexivity.
    + rewrite (proj2 (Z.eqb_neq k 0)) by lia.
      rewrite (Hkeys (k - 1)) by lia.
      rewrite (proj2 (Z.ltb_ge (k - 1) c0)) by lia.
      destruct (Z.eqb_spec k (c0 + 1)) as [Hkc | Hkc].
      * rewrite HrN, Hrc. unfold child_range. cbn [fst snd].
        rewrite (proj2 (Z.eqb_eq (k - 1) c0)) by lia. f_equal.
        destruct (Z.eqb_spec c0 (count (BTree.frames b P) - 1));
          destruct (Z.eqb_spec k (count (BTree.frames b P)));
          try lia; [reflexivity |].
        rewrite (Hkeys k) by lia.
        rewrite (proj2 (Z.ltb_ge k c0)) by lia.
        rewrite (proj2 (Z.eqb_neq k c0)) by lia.
        replace (k - 1) with c0 by lia. reflexivity.
      * rewrite parent_other_child by lia. rewrite (Hcr (k - 1)) by lia.
        unfold child_range. cbn [fst snd].
        rewrite (proj2 (Z.eqb_neq (k - 1) 0)) by lia.
        rewrite (proj2 (Z.eqb_neq (k - 1) c0)) by lia. f_equal.
        destruct (Z.eqb_spec (k - 1) (count (BTree.frames b P) - 1));
          destruct (Z.eqb_spec k (count (BTree.frames b P)));
          try lia; [reflexivity |].
        rewrite (Hkeys k) by lia.
        rewrite (proj2 (Z.ltb_ge k c0)) by lia.
        rewrite (proj2 (Z.eqb_neq k c0)) by lia. reflexivity.
Qed.

Lemma parent_separators_known :
  forall i, 0 <= i < count pn' - 1 -> m (key_at pn' i) <> None.
Proof.
  intros i Hi. rewrite Hcnt in Hi.
  destruct parent_is_inner as (HP & Hl & _).
  pose proof Hsearch as Hs0.
  destruct Hs0 as ((_ & _ & _ & _ & _ & Hsep) & _).
  rewrite (Hkeys i) by lia.
  destruct (Z.ltb_spec i c0); [apply (Hsep P HP Hl); lia |].
  destruct (Z.eqb_spec i c0).
  - eapply split_separator_known; eassumption.
  - apply (Hsep P HP Hl); lia.
Qed.

End ParentSplit.

(** ** The iterations of [insert] that split a page *)

Lemma split_ranges_cur rng cur N sep :
  split_ranges rng cur N sep cur = (fst (rng cur), Some sep).
Proof. unfold split_ranges. rewrite Z.eqb_refl. reflexivity. Qed.

Lemma split_ranges_new rng cur N sep :
  cur <> N -> split_ranges rng cur N sep N = (Some sep, snd (rng cur)).
Proof.
  intros H. unfold split_ranges.
  rewrite (proj2 (Z.eqb_neq N cur)) by auto. rewrite Z.eqb_refl. reflexivity.
Qed.

Lemma split_ranges_old rng cur N sep q :
  q <> cur -> q < N -> split_ranges rng cur N sep q = rng q.
Proof.
  intros H1 H2. unfold split_ranges.
  rewrite (proj2 (Z.eqb_neq q cur)) by auto.
  rewrite (proj2 (Z.eqb_neq q N)) by lia.
  rewrite (proj2 (Z.ltb_ge N q)) by lia. reflexivity.
Qed.

Lemma split_ranges_above rng cur N sep q :
  q <> cur -> N < q -> split_ranges rng cur N sep q = (None, None).
Proof.
  intros H1 H2. unfold split_ranges.
  rewrite (proj2 (Z.eqb_neq q cur)) by auto.
  rewrite (proj2 (Z.eqb_neq q N)) by lia.
  rewrite (proj2 (Z.ltb_lt N q)) by lia. reflexivity.
Qed.

Section SplitSteps.
Variable j : Z.

(** A full page of the tree splits into two halves. *)
Lemma full_page_split n :
  array_shape n -> count n = kCapacity ->
  exists sep l r cl,
    (if is_leaf n then LeafNode.split (sl := page_slack j) n zero_page
     else InnerNode.split (sl := page_slack j) n zero_page)
    = Done (sep, l, r) /\
    halves n l r sep cl.
Proof.
  intros Hs Hc. unfold is_leaf.
  destruct (Z.eqb_spec (level n) 0) as [Hl | Hl].
  - destruct (leaf_split_halves j n Hs Hc Hl) as (l & r & Hsp & Hh & _).
    exists (key_at n 21), l, r, 22. split; assumption.
  - destruct (inner_split_halves (sl := page_slack j) n Hs Hc)
      as (l & r & Hsp & Hh & _).
    exists (key_at n 20), l, r, 21. split; assumption.
Qed.

(** The shape of the loop state after a split iteration. *)
Lemma iter_split b h key value cur par cd pd :
  loop_ok b h cur par ->
  count (BTree.frames b cur) = kCapacity ->
  BTree.next_page_id b + 2 < 18446744073709551616 ->
  (par = None -> h + 1 < 65536) ->
  exists b' cur' par' cd' pd',
    BTree.insert_iter (sl := page_slack j) b key value cur par cd pd
    = Done (inr (b', cur', Some par', cd', pd')) /\
    loop_ok b' (match par with Some _ => h | None => h + 1 end) cur'
      (Some par') /\
    steps_needed (BTree.frames b' cur')
    < steps_needed (BTree.frames b cur) /\
    BTree.next_page_id b <= BTree.next_page_id b'
    <= BTree.next_page_id b + 2.
Proof.
  intros Hloop Hfull HN Hh.
  destruct (is_leaf (BTree.frames b cur)) eqn:Hleaf.
  - apply iter_leaf_split; assumption.
  - apply iter_inner_split; assumption.
Qed.


Lemma step_split_parent b h m rng key value cur P cd pd :
  search_ok b h m rng key cur (Some P) ->
  count (BTree.frames b cur) = kCapacity ->
  BTree.next_page_id b + 2 < 18446744073709551616 ->
  exists b' cur' cd' pd' rng',
    BTree.insert_iter (sl := page_slack j) b key value cur (Some P) cd pd
    = Done (inr (b', cur', Some P, cd', pd')) /\
    search_ok b' h m rng' key cur' (Some P) /\
    steps_needed (BTree.frames b' cur')
    < steps_needed (BTree.frames b cur) /\
    BTree.next_page_id b <= BTree.next_page_id b'
    <= BTree.next_page_id b + 2.
Proof.
  intros Hsearch Hfull HN.
  pose proof Hsearch as (Htree & Hloop & Hkey & Hm & c0 & Hc0 & Hlink).
  destruct (iter_split b h key value cur (Some P) cd pd Hloop Hfull HN)
    as (b' & cur' & par' & cd' & pd' & Hiter & Hloop' & Hsteps & Hnext);
    [discriminate |].
  pose proof Htree as (Hst & Hrng & Hrr & Hdis & Hcont & Hsep).
  destruct Hst as ((HN0 & Hok & Hzero) & (r0 & Hroot & Hr0 & Hlr0)).
  pose proof Hloop as (_ & Hcur & _ & HlP & Hroom).
  destruct (Hok cur Hcur) as (Hs & Hlvc & _).
  destruct (full_page_split _ Hs Hfull)
    as (sep & l & r & cl & Hsplit & Hhalves).
  destruct (parent_is_inner b h m rng key cur P Hsearch)
    as (HP & HlPne & HneP & Hc2 & Hord & Hin & Hcr).
  destruct (parent_covers_separator b h m rng key cur P l r sep cl c0
              Hsearch Hhalves Hc0 Hlink) as (Hcov & _).
  destruct (Hok P HP) as (HsP & HlvP & HcP & _).
  destruct (inner_insert_positions (sl := page_slack j) (BTree.frames b P)
              sep (BTree.next_page_id b) c0 HsP ltac:(lia) Hord Hcov)
    as (pn' & Hins & HsP' & HlP' & Hcnt & Hkeys & Hpay).
  destruct (parent_split_step j b key value cur P cd pd sep l r pn'
              Hs Hfull HN0 ltac:(lia) ltac:(lia) ltac:(lia) HneP
              (Hzero (BTree.next_page_id b) ltac:(lia)) Hsplit Hins)
    as (b'' & cd'' & pd'' & Hiter' & Hroot' & Hnext' & HfP & Hfcur & HfN
        & Hfo).
  rewrite Hiter' in Hiter. injection Hiter as <- <- <- <- <-.
  exists b'', (if key >=? sep then BTree.next_page_id b else cur), cd'', pd'',
    (split_ranges rng cur (BTree.next_page_id b) sep).
  split; [exact Hiter' |]. split; [| split; [exact Hsteps | exact Hnext]].
  assert (Hrcur := split_ranges_cur rng cur (BTree.next_page_id b) sep).
  assert (HrN := split_ranges_new rng cur (BTree.next_page_id b) sep
                   ltac:(lia)).
  assert (Hro := fun q => split_ranges_old rng cur (BTree.next_page_id b)
                            sep q).
  split; [| split; [exact Hloop' | split; [| split; [exact Hm |]]]].
  - apply (split_tree_with_ranges b b'' h h m rng _ key cur (Some P) P pn'
             l r sep cl); try assumption.
    + exact (proj1 Hloop').
    + lia.
    + intros q Hq. rewrite Hnext' in Hq. lia.
    + intros r1 Hr1. rewrite Hroot', Hroot in Hr1. injection Hr1 as <-.
      rewrite split_ranges_old; [apply Hrr; exact Hroot | | lia].
      intros He. rewrite He in Hlr0. lia.
    + rewrite HlP'. exact HlPne.
    + eapply parent_ranged_after_split; eassumption.
    + eapply parent_separators_known; eassumption.
    + left. split; [lia |]. split; [exact HlP' |].
      apply split_ranges_old; [exact HneP | lia].
    + intros q i Hq Hne Hl Hi He.
      destruct (unique_parent b h m rng key cur P q i Hsearch Hq Hl Hi He)
        as [Heq _].
      contradiction.
  - eapply split_next_in_range; eassumption.
  - unfold parent_link. rewrite HfP, Hcnt.
    destruct (key >=? sep).
    + exists (c0 + 1). split; [lia |]. rewrite Hpay by lia.
      rewrite Z.ltb_irrefl, Z.eqb_refl. reflexivity.
    + exists c0. split; [lia |]. rewrite Hpay by lia.
      rewrite (proj2 (Z.ltb_lt c0 (c0 + 1))) by lia. exact Hlink.
Qed.


Lemma step_split_root b h m rng key value cur cd pd :
  search_ok b h m rng key cur None ->
  count (BTree.frames b cur) = kCapacity ->
  BTree.next_page_id b + 2 < 18446744073709551616 ->
  h + 1 < 65536 ->
  exists b' cur' par' cd' pd' rng',
    BTree.insert_iter (sl := page_slack j) b key value cur None cd pd
    = Done (inr (b', cur', Some par', cd', pd')) /\
    search_ok b' (h + 1) m rng' key cur' (Some par') /\
    steps_needed (BTree.frames b' cur')
    < steps_needed (BTree.frames b cur) /\
    BTree.next_page_id b <= BTree.next_page_id b'
    <= BTree.next_page_id b + 2.
Proof.
  intros Hsearch Hfull HN Hh.
  pose proof Hsearch as (Htree & Hloop & Hkey & Hm & _).
  destruct (iter_split b h key value cur None cd pd Hloop Hfull HN)
    as (b' & cur' & par' & cd' & pd' & Hiter & Hloop' & Hsteps & Hnext);
    [intros _; exact Hh |].
  pose proof Htree as (Hst & Hrng & Hrr & Hdis & Hcont & Hsep).
  destruct Hst as ((HN0 & Hok & Hzero) & (r0 & Hroot0 & Hr0 & Hlr0)).
  pose proof Hloop as (_ & Hcur & Hroot).
  assert (Hr0c : r0 = cur) by congruence. subst r0.
  destruct (Hok cur Hcur) as (Hs & Hlvc & _).
  destruct (full_page_split _ Hs Hfull)
    as (sep & l & r & cl & Hsplit & Hhalves).
  destruct (root_split_step j b key value cur cd pd Hroot Hs Hfull
              ltac:(lia) HN0 HN ltac:(lia) ltac:(lia)
              (Hzero (BTree.next_page_id b) ltac:(lia))
              (Hzero (BTree.next_page_id b + 1) ltac:(lia)))
    as (b'' & cur'' & cd'' & pd'' & sep' & l' & r' & Hiter' & Hsplit'
        & Hroot' & Hnext' & HfPP & Hfcur & HfN & Hfo & Hcur').
  rewrite Hsplit in Hsplit'. injection Hsplit' as <- <- <-.
  rewrite Hiter' in Hiter. injection Hiter as <- <- <- <- <-.
  exists b'', cur'', (BTree.next_page_id b + 1), cd'', pd'',
    (split_ranges rng cur (BTree.next_page_id b) sep).
  split; [exact Hiter' |]. split; [| split; [exact Hsteps | exact Hnext]].
  assert (Hrcur := split_ranges_cur rng cur (BTree.next_page_id b) sep).
  assert (HrN := split_ranges_new rng cur (BTree.next_page_id b) sep
                   ltac:(lia)).
  assert (Hro := fun q => split_ranges_old rng cur (BTree.next_page_id b)
                            sep q).
  assert (HrPP := split_ranges_above rng cur (BTree.next_page_id b) sep
                    (BTree.next_page_id b + 1) ltac:(lia) ltac:(lia)).
  assert (Hrc : rng cur = (None, None)) by (apply Hrr; exact Hroot).
  pose proof Hhalves as (Hll & Hlr & _).
  split; [| split; [exact Hloop' | split; [| split; [exact Hm |]]]].
  - apply (split_tree_with_ranges b b'' h (h + 1) m rng _ key cur None
             (BTree.next_page_id b + 1)
             (mkNode (level (BTree.frames b cur) + 1) 2 (pad [sep])
                (pad [cur; BTree.next_page_id b]))
             l r sep cl); try assumption.
    + exact (proj1 Hloop').
    + intros q H1 H2 H3. apply Hfo; assumption.
    + lia.
    + lia.
    + intros q Hq. rewrite Hnext' in Hq. lia.
    + intros r1 Hr1. rewrite Hroot' in Hr1. injection Hr1 as <-. exact HrPP.
    + cbn [level]. lia.
    + unfold inner_ranged. rewrite HfPP, HrPP. cbn [count].
      split; [lia |]. split; [intros i i' Hi Hi'; lia |].
      split; [intros i Hi; split; exact I |].
      intros i Hi. assert (Hi' : i = 0 \/ i = 1) by lia.
      destruct Hi' as [-> | ->].
      * change (payload_at _ 0) with cur. rewrite Hrcur, Hrc. reflexivity.
      * change (payload_at _ 1) with (BTree.next_page_id b).
        rewrite HrN, Hrc. reflexivity.
    + cbn [count]. intros i Hi. assert (Hi' : i = 0) by lia. subst i.
      change (key_at _ 0) with sep.
      eapply split_separator_known; eassumption.
    + right. split; [lia |]. intros q Hq Hne. cbn [level].
      rewrite Hnext' in Hq.
      destruct (Z.eq_dec q cur) as [-> | Hqc]; [rewrite Hfcur, Hll; lia |].
      destruct (Z.eq_dec q (BTree.next_page_id b)) as [-> | HqN];
        [rewrite HfN, Hlr; lia |].
      rewrite Hfo by assumption.
      destruct (Hok q ltac:(lia)) as (_ & Hlq & _). lia.
    + intros q i Hq Hne Hl Hi He.
      destruct (Hok q Hq) as (_ & Hlq & _ & Hch).
      destruct (Hch Hl) as [_ Hchild]. destruct (Hchild i Hi) as [_ Hcl].
      rewrite He in Hcl. lia.
  - rewrite Hcur'. eapply split_next_in_range; eassumption.
  - unfold parent_link. rewrite HfPP, Hcur'. cbn [count].
    destruct (key >=? sep).
    + exists 1. split; [lia | reflexivity].
    + exists 0. split; [lia | reflexivity].
Qed.

End SplitSteps.

(** ** [insert] of a new key into a search tree *)

Section InsertCorrect.
Variable j : Z.

(** The loop of [insert], started on a page whose range contains the new
    key, ends with a search tree for the extended map. *)
Lemma insert_loop_correct key value : forall fuel b h m rng cur par cd pd,
  search_ok b h m rng key cur par ->
  steps_needed (BTree.frames b cur) <= Z.of_nat fuel ->
  BTree.next_page_id b + 2 * steps_needed (BTree.frames b cur)
  < 18446744073709551616 ->
  (par = None -> h + 1 < 65536) ->
  exists b' rng',
    BTree.insert_loop (sl := page_slack j) fuel b key value cur par cd pd
    = Done b' /\
    tree_with_ranges b'
      (if promotes (BTree.frames b cur) par then h + 1 else h)
      (bind_key m key value) rng' /\
    BTree.next_page_id b <= BTree.next_page_id b'
    <= BTree.next_page_id b + 2 * steps_needed (BTree.frames b cur).
Proof.
  induction fuel as [| fuel IH];
    intros b h m rng cur par cd pd Hsearch Hfuel Hnext Hh;
    pose proof Hsearch as (_ & Hloop & _);
    pose proof Hloop as (((_ & Hok & _) & _) & Hcur & _);
    destruct (Hok cur Hcur) as (_ & Hlv & Hc & _).
  - unfold steps_needed in Hfuel.
    destruct (count (BTree.frames b cur) <? kCapacity); lia.
  - cbn [BTree.insert_loop].
    destruct (Z.eq_dec (count (BTree.frames b cur)) kCapacity)
      as [Hfull | Hroom].
    + assert (HN : BTree.next_page_id b + 2 < 18446744073709551616).
      { unfold steps_needed in Hnext.
        rewrite Hfull, Z.ltb_irrefl in Hnext. lia. }
      assert (Hst : steps_needed (BTree.frames b cur)
                    = 2 * level (BTree.frames b cur) + 2).
      { unfold steps_needed. rewrite Hfull, Z.ltb_irrefl. reflexivity. }
      destruct par as [P |].
      * destruct (step_split_parent j b h m rng key value cur P cd pd
                    Hsearch Hfull HN)
          as (b1 & cur1 & cd1 & pd1 & rng1 & Hit & Hs1 & Hsteps & Hn1).
        rewrite Hit. cbn [bind].
        destruct (IH b1 h m rng1 cur1 (Some P) cd1 pd1 Hs1)
          as (b' & rng' & Hr & Ht & Hn'); [lia | lia | discriminate |].
        exists b', rng'. split; [exact Hr |].
        split; [exact Ht | lia].
      * destruct (step_split_root j b h m rng key value cur cd pd
                    Hsearch Hfull HN (Hh eq_refl))
          as (b1 & cur1 & par1 & cd1 & pd1 & rng1 & Hit & Hs1 & Hsteps
              & Hn1).
        rewrite Hit. cbn [bind].
        destruct (IH b1 (h + 1) m rng1 cur1 (Some par1) cd1 pd1 Hs1)
          as (b' & rng' & Hr & Ht & Hn'); [lia | lia | discriminate |].
        exists b', rng'. split; [exact Hr |].
        cbn [promotes] in Ht |- *. rewrite Hfull, Z.ltb_irrefl.
        split; [exact Ht | lia].
    + assert (Hlt : count (BTree.frames b cur) < kCapacity) by lia.
      assert (Hnp : promotes (BTree.frames b cur) par = false).
      { unfold promotes. rewrite (proj2 (Z.ltb_lt _ _) Hlt).
        destruct par; reflexivity. }
      rewrite Hnp.
      destruct (is_leaf (BTree.frames b cur)) eqn:Hleaf.
      * destruct (step_leaf_room (sl := page_slack j) b h m rng key value
                    cur par cd pd Hsearch Hleaf Hlt)
          as (b' & Hit & Ht & Hn').
        rewrite Hit. cbn [bind]. exists b', rng.
        split; [reflexivity |]. split; [exact Ht |].
        unfold steps_needed. rewrite (proj2 (Z.ltb_lt _ _) Hlt). lia.
      * destruct (step_descend (sl := page_slack j) b h m rng key value
                    cur par cd pd Hsearch Hleaf Hroom)
          as (b1 & child & Hit & Hs1 & Hsteps & Hn1).
        rewrite Hit. cbn [bind].
        destruct (IH b1 h m rng child (Some cur) cd pd Hs1)
          as (b' & rng' & Hr & Ht & Hn'); [lia | lia | discriminate |].
        exists b', rng'. split; [exact Hr |].
        cbn [promotes] in Ht. split; [exact Ht | lia].
Qed.


(** [insert] of a key the map does not hold. *)
Lemma insert_new_key b h m key value fuel :
  tree_ok b h m -> m key = None ->
  2 * h + 2 <= Z.of_nat fuel ->
  BTree.next_page_id b + 4 * h + 4 < 18446744073709551616 ->
  h + 1 < 65536 ->
  exists b' h',
    BTree.insert (sl := page_slack j) fuel b key value = Done b' /\
    tree_ok b' h' (bind_key m key value) /\ h <= h' <= h + 1 /\
    BTree.next_page_id b <= BTree.next_page_id b'
    <= BTree.next_page_id b + 4 * h + 4.
Proof.
  intros [rng Htree] Hm Hfuel Hnext Hh.
  pose proof Htree as (Hst & _ & Hrr & _).
  pose proof Hst as (Hpages & r & Hroot & Hr & Hrl).
  unfold BTree.insert. rewrite Hroot. cbn [BTree.root]. rewrite Hroot.
  assert (Hsearch : search_ok (BTree.fix_page b r true) h m rng key r None).
  { split; [| split; [| split; [| split; [exact Hm | exact I]]]].
    - apply (tree_with_ranges_same_store b); [reflexivity .. | exact Htree].
    - split; [exact Hst |]. split; [exact Hr | exact Hroot].
    - rewrite (Hrr r Hroot). split; exact I. }
  assert (Hsteps : steps_needed (BTree.frames b r) <= 2 * h + 2).
  { unfold steps_needed. rewrite Hrl.
    destruct (count (BTree.frames b r) <? kCapacity); lia. }
  destruct (insert_loop_correct key value fuel (BTree.fix_page b r true) h m
              rng r None false false Hsearch)
    as (b' & rng' & Hrun & Ht' & Hn'); simpl_state; try lia.
  exists b'. eexists. split; [exact Hrun |].
  split; [exists rng'; exact Ht' |].
  split; [destruct (promotes (BTree.frames b r) None); lia | lia].
Qed.

(** A sequence of inserts of pairwise distinct new keys. *)
Lemma insert_all_correct fuel : forall kvs b h m,
  tree_ok b h m -> NoDup (map fst kvs) ->
  (forall k, In k (map fst kvs) -> m k = None) ->
  h + Z.of_nat (length kvs) < 65536 ->
  2 * (h + Z.of_nat (length kvs)) + 2 <= Z.of_nat fuel ->
  BTree.next_page_id b + Z.of_nat (length kvs) * pages_per_insert
  < 18446744073709551616 ->
  exists b' h',
    insert_all (sl := page_slack j) fuel b kvs = Done b' /\
    tree_ok b' h' (extend m kvs) /\ h' <= h + Z.of_nat (length kvs).
Proof.
  unfold insert_all, pages_per_insert, extend.
  induction kvs as [| [k v] kvs IH]; intros b h m Ht Hnd Hnew Hh Hfuel Hnext.
  - exists b, h. split; [reflexivity |]. split; [exact Ht | cbn; lia].
  - cbn [length fold_left bind fst snd map] in *.
    inversion Hnd as [| ? ? Hnotin Hnd']; subst.
    destruct (insert_new_key b h m k v fuel Ht)
      as (b1 & h1 & Hrun & Ht1 & Hh1 & Hn1); try lia.
    { apply Hnew. left. reflexivity. }
    rewrite Hrun.
    destruct (IH b1 h1 (bind_key m k v) Ht1 Hnd')
      as (b' & h' & Hrun' & Ht' & Hh'); try lia.
    { intros k' Hk'. unfold bind_key.
      destruct (Z.eqb_spec k' k) as [-> | Hne]; [contradiction |].
      apply Hnew. right. exact Hk'. }
    exists b', h'. split; [exact Hrun' |]. split; [exact Ht' | lia].
Qed.

End InsertCorrect.

(** ** Round trip: inserts of pairwise distinct keys, then lookups *)

Lemma empty_root_tree : tree_ok empty_root 0 (fun _ => None).
Proof.
  exists (fun _ => (None, None)).
  assert (H0 : forall p, BTree.frames empty_root p = zero_page)
    by reflexivity.
  split; [| split; [| split; [| split; [| split]]]].
  - split.
    + split; [cbn; lia |]. split; [| intros p _; reflexivity].
      intros p Hp. unfold page_ok. rewrite H0. cbn [level count zero_page].
      split; [exact array_shape_zero_page |]. unfold kCapacity.
      split; [lia |]. split; [lia |]. intros H. contradiction.
    + exists 0. split; [reflexivity |]. split; [cbn; lia | reflexivity].
  - intros p Hp. rewrite H0. split.
    + intros _. split.
      * intros i i' Hi Hi'. cbn [count zero_page] in Hi'. lia.
      * intros i Hi. cbn [count zero_page] in Hi. lia.
    + intros H. contradiction.
  - intros r _. reflexivity.
  - intros p q k Hp Hq _ _ _. cbn in Hp, Hq. lia.
  - intros p Hp _ k v _. rewrite H0. cbn. split; [discriminate | tauto].
  - intros p Hp Hl. rewrite H0 in Hl. contradiction.
Qed.

Lemma extend_other : forall kvs m k,
  ~ In k (map fst kvs) -> extend m kvs k = m k.
Proof.
  unfold extend.
  induction kvs as [| [k0 v0] kvs IH]; intros m k Hk; [reflexivity |].
  cbn [fold_left fst snd map In] in *. rewrite IH by tauto.
  unfold bind_key.
  rewrite (proj2 (Z.eqb_neq k k0)) by (intros He; apply Hk; left; auto).
  reflexivity.
Qed.

Lemma extend_inserted : forall kvs m k v,
  NoDup (map fst kvs) -> In (k, v) kvs -> extend m kvs k = Some v.
Proof.
  induction kvs as [| [k0 v0] kvs IH]; intros m k v Hnd Hin; [contradiction |].
  cbn [map fst] in Hnd. inversion Hnd as [| ? ? Hnotin Hnd']; subst.
  destruct Hin as [[= -> ->] | Hin].
  - change (extend m ((k, v) :: kvs)) with (extend (bind_key m k v) kvs).
    rewrite extend_other by exact Hnotin.
    unfold bind_key. rewrite Z.eqb_refl. reflexivity.
  - change (extend m ((k0, v0) :: kvs)) with (extend (bind_key m k0 v0) kvs).
    apply IH; assumption.
Qed.

Section RoundTrip.
Variable j : Z.

(** After the inserts of pairwise distinct keys into a fresh tree, every
    lookup returns what the inserted map holds. *)
Lemma round_trip kvs fuel :
  distinct (map fst kvs) = true ->
  Z.of_nat (length kvs) < 65536 ->
  2 * Z.of_nat (length kvs) + 2 <= Z.of_nat fuel ->
  exists b,
    insert_all (sl := page_slack j) fuel BTree.create kvs = Done b /\
    (forall k, lookup_value (sl := page_slack j) fuel b k
               = Done (map_of kvs k)) /\
    (forall k v, In (k, v) kvs ->
                 lookup_value (sl := page_slack j) fuel b k = Done (Some v)).
Proof.
  intros Hd Hlen Hfuel. apply distinct_NoDup in Hd.
  assert (Hrun : exists b,
             insert_all (sl := page_slack j) fuel BTree.create kvs = Done b /\
             forall k, lookup_value (sl := page_slack j) fuel b k
                       = Done (map_of kvs k)).
  { destruct kvs as [| kv kvs].
    - exists BTree.create. split; reflexivity.
    - assert (Hsame : insert_all (sl := page_slack j) fuel BTree.create
                        (kv :: kvs)
                      = insert_all (sl := page_slack j) fuel empty_root
                          (kv :: kvs))
        by (rewrite !insert_all_cons; reflexivity).
      rewrite Hsame.
      destruct (insert_all_correct j fuel (kv :: kvs) empty_root 0
                  (fun _ => None) empty_root_tree Hd)
        as (b & h & Hins & [rng Ht] & Hh).
      + intros; reflexivity.
      + lia.
      + lia.
      + unfold pages_per_insert. cbn [BTree.next_page_id empty_root]. lia.
      + exists b. split; [exact Hins |]. intros k.
        apply (lookup_on_tree b h _ rng Ht). lia. }
  destruct Hrun as (b & Hins & Hlook).
  exists b. split; [exact Hins |]. split; [exact Hlook |].
  intros k v Hin. rewrite Hlook. f_equal.
  apply extend_inserted; assumption.
Qed.

End RoundTrip.

(** ** [LeafNode::erase], by positions *)

Section ShiftLeft.
Context {sl : Slack}.

(** Reading up to the slot just past an array, where the page allows it. *)
Lemma read_range_past a n from :
  0 <= from ->
  from + Z.of_nat n <= Z.of_nat (length a) \/
  (from + Z.of_nat n <= Z.of_nat (length a) + 1 /\ past_end <> None) ->
  exists x, read_range a from n
            = Done (firstn n (skipn (Z.to_nat from) (a ++ [x]))).
Proof.
  intros Hfrom [Hin | [Hin Hsl]].
  - exists 0. rewrite read_range_in by lia. f_equal.
    rewrite skipn_app, firstn_app.
    replace (n - length (skipn (Z.to_nat from) a))%nat with 0%nat
      by (rewrite length_skipn; lia).
    cbn. rewrite app_nil_r. reflexivity.
  - unfold past_end in Hsl. destruct sl as [j |]; [| contradiction].
    exists j. apply (read_range_slack j); lia.
Qed.

(** [memmove(a + i, a + i + 1, (c - i) * sizeof(elem))]: the elements
    behind position [i] move one slot to the left. *)
Lemma memmove_shift_left a i c :
  0 <= i < c -> c <= Z.of_nat (length a) ->
  c < Z.of_nat (length a) \/ past_end <> None ->
  exists a',
    memmove a i (i + 1) (c - i) = Done a' /\ length a' = length a /\
    forall k, 0 <= k < c - 1 ->
              nth (Z.to_nat k) a' 0
              = if k <? i then nth (Z.to_nat k) a 0
                else nth (Z.to_nat (k + 1)) a 0.
Proof.
  intros Hi Hc Hroom. unfold memmove.
  destruct (read_range_past a (Z.to_nat (c - i)) (i + 1)) as [x Hrd];
    [lia | destruct Hroom; [left | right; split; [| assumption]]; lia |].
  rewrite Hrd. cbn [bind].
  set (vs := firstn (Z.to_nat (c - i)) (skipn (Z.to_nat (i + 1)) (a ++ [x]))).
  assert (Hlen : length vs = Z.to_nat (c - i)).
  { unfold vs. rewrite length_firstn, length_skipn, length_app. cbn. lia. }
  rewrite write_range_in by lia.
  eexists. split; [reflexivity |]. split.
  - rewrite !length_app, length_firstn, length_skipn. lia.
  - intros k Hk. destruct (Z.ltb_spec k i) as [Hlt | Hge].
    + rewrite app_nth1 by (rewrite length_firstn; lia).
      rewrite nth_firstn.
      destruct (Nat.ltb_spec (Z.to_nat k) (Z.to_nat i)); [reflexivity | lia].
    + rewrite app_nth2 by (rewrite length_firstn; lia).
      rewrite length_firstn.
      replace (Nat.min (Z.to_nat i) (length a)) with (Z.to_nat i) by lia.
      rewrite app_nth1 by lia. unfold vs.
      rewrite nth_firstn.
      destruct (Nat.ltb_spec (Z.to_nat k - Z.to_nat i) (Z.to_nat (c - i)));
        [| lia].
      rewrite nth_skipn, app_nth1 by lia. f_equal. lia.
Qed.

End ShiftLeft.

(** Where the slot past the node is readable, so is the slot past its
    keys. *)
Lemma after_keys_readable {sl : Slack} (n : Node) :
  past_end <> None -> past_end (Slack := after_keys n) <> None.
Proof.
  unfold after_keys, past_end. destruct sl; [discriminate | auto].
Qed.

Section LeafErase.
Context {sl : Slack}.

(** [LeafNode::erase] on a leaf with strictly increasing keys: a key that
    is there is cut out, with its value; otherwise the leaf is left as it
    is.  A full leaf needs the slot past its arrays to be readable. *)
Lemma leaf_erase_closed n key :
  array_shape n -> 0 <= count n <= kCapacity ->
  count n < kCapacity \/ past_end <> None ->
  keys_ordered n (count n) ->
  exists pos,
    first_not_less n key pos /\
    if (pos <? count n) && (key_at n pos =? key) then
      exists n',
        LeafNode.erase n key = Done (n', true) /\
        array_shape n' /\ level n' = level n /\ count n' = count n - 1 /\
        forall k, 0 <= k < count n - 1 ->
          key_at n' k = (if k <? pos then key_at n k else key_at n (k + 1)) /\
          payload_at n' k = (if k <? pos then payload_at n k
                             else payload_at n (k + 1))
    else LeafNode.erase n key = Done (n, false).
Proof.
  intros Hs Hc Hroom Hord. pose proof Hs as [Hlk Hlp].
  unfold kCapacity in *.
  destruct (lower_bound_search_sorted n key) as (pos & Hr & Hfirst);
    [rewrite Hlk; simpl; lia | lia | exact Hord |].
  exists pos. split; [exact Hfirst |].
  destruct Hfirst as (Hp0 & _).
  unfold LeafNode.erase, LeafNode.locateKeyPosition, LeafNode.lower_bound.
  rewrite Hr. cbn [bind].
  destruct (Z.ltb_spec pos (count n)) as [Hlt | Hge]; cbn [andb];
    [| reflexivity].
  rewrite rd_in by (rewrite Hlk; simpl; lia). cbn [bind].
  fold (key_at n pos).
  destruct (key_at n pos =? key); [| reflexivity].
  unfold LeafNode.moveDataToLeftFrom.
  rewrite (wrap32_small (count n - pos)) by lia.
  destruct (memmove_shift_left (sl := after_keys n) (keys n) pos (count n))
    as (ks & Hmk & Hlks & Hks);
    [lia | rewrite Hlk; simpl; lia
     | destruct Hroom;
       [left; rewrite Hlk; simpl; lia
       | right; apply after_keys_readable; assumption] |].
  destruct (memmove_shift_left (values n) pos (count n))
    as (vs & Hmv & Hlvs & Hvs);
    [lia | unfold values; rewrite Hlp; simpl; lia
     | destruct Hroom;
       [left; unfold values; rewrite Hlp; simpl; lia | right; assumption] |].
  rewrite Hmk, Hmv. cbn [bind].
  rewrite (wrap16_small (count n - 1)) by lia.
  eexists. split; [reflexivity |].
  split; [split; cbn; [rewrite Hlks; exact Hlk | rewrite Hlvs; exact Hlp] |].
  split; [reflexivity |]. split; [reflexivity |].
  intros k Hk. unfold key_at, payload_at, values in *.
  cbn [keys payload set_count set_payload set_keys].
  rewrite (Hks k Hk), (Hvs k Hk). split; reflexivity.
Qed.

End LeafErase.

(** What a leaf holds after an entry was cut out at [pos]. *)
Lemma leaf_entries_erased n n' pos :
  array_shape n -> array_shape n' -> 0 <= count n <= kCapacity ->
  keys_ordered n (count n) ->
  count n' = count n - 1 -> 0 <= pos < count n ->
  (forall k, 0 <= k < count n - 1 ->
     key_at n' k = (if k <? pos then key_at n k else key_at n (k + 1)) /\
     payload_at n' k = (if k <? pos then payload_at n k
                        else payload_at n (k + 1))) ->
  forall k v, In (k, v) (leaf_entries n') <->
              k <> key_at n pos /\ In (k, v) (leaf_entries n).
Proof.
  intros Hs Hs' Hc Hord Hc' Hpos Hat k v. unfold kCapacity in *.
  rewrite (In_leaf_entries n' k v Hs') by (unfold kCapacity; lia).
  rewrite (In_leaf_entries n k v Hs) by (unfold kCapacity; lia).
  split.
  - intros (i & Hi & Hk & Hv). rewrite Hc' in Hi.
    destruct (Hat i Hi) as [Hka Hpa]. rewrite Hka in Hk. rewrite Hpa in Hv.
    destruct (Z.ltb_spec i pos).
    + split.
      * assert (key_at n i < key_at n pos) by (apply Hord; lia). lia.
      * exists i. repeat split; try lia; assumption.
    + split.
      * assert (key_at n pos < key_at n (i + 1)) by (apply Hord; lia). lia.
      * exists (i + 1). repeat split; try lia; assumption.
  - intros (Hne & i & Hi & Hk & Hv).
    destruct (Z.lt_trichotomy i pos) as [Hlt | [Heq | Hgt]].
    + exists i. destruct (Hat i ltac:(lia)) as [Hka Hpa].
      rewrite (proj2 (Z.ltb_lt i pos) Hlt) in Hka, Hpa.
      repeat split; try lia; congruence.
    + exfalso. apply Hne. rewrite <- Hk, Heq. reflexivity.
    + exists (i - 1). destruct (Hat (i - 1) ltac:(lia)) as [Hka Hpa].
      rewrite (proj2 (Z.ltb_ge (i - 1) pos)) in Hka, Hpa by lia.
      replace (i - 1 + 1) with i in Hka, Hpa by lia.
      repeat split; try lia; congruence.
Qed.

(** The keys of the leaf stay ordered and within the range. *)
Lemma leaf_ranged_erased n n' pos r :
  leaf_ranged n r -> count n' = count n - 1 -> 0 <= pos < count n ->
  (forall k, 0 <= k < count n - 1 ->
     key_at n' k = (if k <? pos then key_at n k else key_at n (k + 1))) ->
  leaf_ranged n' r.
Proof.
  intros [Hord Hin] Hc' Hpos Hat. split.
  - intros i i' Hi Hi'. rewrite Hc' in Hi'.
    rewrite (Hat i), (Hat i') by lia.
    destruct (Z.ltb_spec i pos); destruct (Z.ltb_spec i' pos);
      apply Hord; lia.
  - intros i Hi. rewrite Hc' in Hi. rewrite (Hat i) by lia.
    destruct (Z.ltb_spec i pos); apply Hin; lia.
Qed.

Section LeafEraseAny.
Context {sl : Slack}.

(** [LeafNode::erase] on a leaf with strictly increasing keys removes the
    entry of the key, if there is one, and nothing else. *)
Lemma leaf_erase_any n key :
  array_shape n -> 0 <= count n <= kCapacity ->
  count n < kCapacity \/ past_end <> None ->
  keys_ordered n (count n) ->
  exists n' written,
    LeafNode.erase n key = Done (n', written) /\
    array_shape n' /\ level n' = level n /\
    Z.max 0 (count n - 1) <= count n' <= count n /\
    (forall r, leaf_ranged n r -> leaf_ranged n' r) /\
    (forall k v, In (k, v) (leaf_entries n') <->
                 k <> key /\ In (k, v) (leaf_entries n)) /\
    (written = false -> n' = n) /\
    (count n' = count n <->
     forall i, 0 <= i < count n -> key_at n i <> key).
Proof.
  intros Hs Hc Hroom Hord.
  destruct (leaf_erase_closed n key Hs Hc Hroom Hord)
    as (pos & (Hp0 & Hlo & Hhi) & Hres).
  destruct (Z.ltb_spec pos (count n)) as [Hlt | Hge]; cbn [andb] in Hres;
    [destruct (Z.eqb_spec (key_at n pos) key) as [Heq | Hne] |].
  - destruct Hres as (n' & Hrun & Hs' & Hl' & Hc' & Hat).
    exists n', true. split; [exact Hrun |]. split; [exact Hs' |].
    split; [exact Hl' |]. split; [lia |]. split; [| split; [| split]].
    + intros r Hr. apply (leaf_ranged_erased n n' pos r); try assumption;
        [lia |].
      intros k Hk. apply Hat. exact Hk.
    + intros k v.
      rewrite (leaf_entries_erased n n' pos Hs Hs' Hc Hord Hc'
                 ltac:(lia) Hat k v).
      rewrite Heq. reflexivity.
    + discriminate.
    + split; [lia |]. intros Hno. exfalso. apply (Hno pos); [lia | exact Heq].
  - assert (Hnew : forall i, 0 <= i < count n -> key_at n i <> key).
    { intros i Hi He. specialize (Hhi Hlt).
      destruct (Z.lt_trichotomy i pos) as [H | [H | H]].
      - specialize (Hlo i ltac:(lia)). lia.
      - subst i. contradiction.
      - assert (key_at n pos < key_at n i) by (apply Hord; lia). lia. }
    exists n, false. split; [exact Hres |]. split; [exact Hs |].
    split; [reflexivity |]. split; [lia |]. split; [trivial |].
    split; [| split; [reflexivity | split; [intros _; exact Hnew | reflexivity]]].
    intros k v. split; [| tauto]. intros H. split; [| exact H].
    intros ->. apply (In_leaf_entries n key v Hs Hc) in H.
    destruct H as (i & Hi & Hki & _). exact (Hnew i Hi Hki).
  - assert (Hnew : forall i, 0 <= i < count n -> key_at n i <> key).
    { intros i Hi He. specialize (Hlo i ltac:(lia)). lia. }
    exists n, false. split; [exact Hres |]. split; [exact Hs |].
    split; [reflexivity |]. split; [lia |]. split; [trivial |].
    split; [| split; [reflexivity | split; [intros _; exact Hnew | reflexivity]]].
    intros k v. split; [| tauto]. intros H. split; [| exact H].
    intros ->. apply (In_leaf_entries n key v Hs Hc) in H.
    destruct H as (i & Hi & Hki & _). exact (Hnew i Hi Hki).
Qed.

End LeafEraseAny.

(** ** [lookup] on a search tree, whatever the separators *)

Lemma tree_is_search_tree b h m rng :
  tree_with_ranges b h m rng -> search_tree b h m rng.
Proof.
  intros (H1 & H2 & H3 & H4 & H5 & _).
  split; [exact H1 |]. split; [exact H2 |]. split; [exact H3 |].
  split; [exact H4 | exact H5].
Qed.

Lemma search_tree_same_store b b' h m rng :
  BTree.frames b' = BTree.frames b -> BTree.root b' = BTree.root b ->
  BTree.next_page_id b' = BTree.next_page_id b ->
  search_tree b h m rng -> search_tree b' h m rng.
Proof.
  destruct b as [f r n e], b' as [f' r' n' e']. cbn.
  intros -> -> -> H. exact H.
Qed.

Section SearchTreeLookup.
Context {sl : Slack}.
Variables (b : BTree.t) (h : Z) (m : Z -> option Z)
  (rng : Z -> bound * bound).
Hypothesis Htree : search_tree b h m rng.

(** What the search in a leaf of the tree finds. *)
Lemma leaf_search_found p k :
  0 <= p < BTree.next_page_id b -> level (BTree.frames b p) = 0 ->
  in_range (rng p) k ->
  exists i, LeafNode.lower_bound (BTree.frames b p) k
            = Done (i, i <? count (BTree.frames b p)) /\
            0 <= i <= count (BTree.frames b p) /\
            (forall j, 0 <= j < i -> key_at (BTree.frames b p) j < k) /\
            (i < count (BTree.frames b p) ->
             k <= key_at (BTree.frames b p) i) /\
            (m k = if (i <? count (BTree.frames b p))
                      && (key_at (BTree.frames b p) i =? k)
                   then Some (payload_at (BTree.frames b p) i)
                   else None).
Proof.
  intros Hp Hl Hk.
  destruct Htree as (((_ & Hok & _) & _) & Hrng & _ & _ & Hcont).
  destruct (Hok p Hp) as (Hs & _ & Hc & _).
  destruct (Hrng p Hp) as [Hleaf _]. destruct (Hleaf Hl) as [Hord Hin].
  set (n := BTree.frames b p) in *.
  destruct (lower_bound_search_sorted n k) as (i & Hr & Hi0 & Hlo & Hhi).
  { destruct Hs as [Hlen _]. rewrite Hlen. unfold kCapacity in *.
    simpl. lia. }
  { unfold kCapacity in *. lia. }
  { exact Hord. }
  exists i. split; [exact Hr |]. split; [exact Hi0 |].
  split; [exact Hlo |]. split; [exact Hhi |].
  assert (Hnone : (forall i', 0 <= i' < count n -> key_at n i' <> k) ->
                  m k = None).
  { intros Hno. destruct (m k) as [v |] eqn:Hm; [| reflexivity].
    apply (Hcont p Hp Hl k v Hk) in Hm.
    apply (proj1 (In_leaf_entries n k v Hs Hc)) in Hm.
    destruct Hm as (i' & Hi' & Hke & _). exfalso. exact (Hno i' Hi' Hke). }
  destruct (Z.ltb_spec i (count n)) as [Hlt | Hge]; cbn [andb].
  - destruct (Z.eqb_spec (key_at n i) k) as [He | Hne].
    + apply (Hcont p Hp Hl k _ Hk).
      apply (proj2 (In_leaf_entries n k _ Hs Hc)). exists i.
      split; [lia | split; [exact He | reflexivity]].
    + apply Hnone. intros i' Hi' He.
      specialize (Hhi Hlt).
      destruct (Z_lt_ge_dec i' i) as [l | g].
      * specialize (Hlo i' ltac:(lia)). lia.
      * destruct (Z.eq_dec i' i) as [-> | ne]; [contradiction |].
        assert (key_at n i < key_at n i') by (apply Hord; lia). lia.
  - apply Hnone. intros i' Hi' He. specialize (Hlo i' ltac:(lia)). lia.
Qed.


(** The child an inner page of the tree selects for [k] is an allocated
    page one level below whose range contains [k]. *)
Lemma inner_search_child p k :
  0 <= p < BTree.next_page_id b -> level (BTree.frames b p) <> 0 ->
  in_range (rng p) k ->
  exists i f c,
    InnerNode.lower_bound (BTree.frames b p) k = Done (i, f) /\
    c = (if f then i else count (BTree.frames b p) - 1) /\
    covering_child (BTree.frames b p) k c /\
    rd (children (BTree.frames b p)) c
    = Done (payload_at (BTree.frames b p) c) /\
    child_ok b (level (BTree.frames b p)) (payload_at (BTree.frames b p) c) /\
    in_range (rng (payload_at (BTree.frames b p) c)) k.
Proof.
  intros Hp Hl Hk.
  destruct Htree as (((_ & Hok & _) & _) & Hrng & _).
  destruct (Hok p Hp) as (Hs & _ & Hc & Hch).
  destruct (Hch Hl) as [_ Hchild].
  destruct (Hrng p Hp) as [_ Hinner].
  destruct (Hinner Hl) as (H2 & Hord & Hsep & Hcr).
  set (n := BTree.frames b p) in *.
  destruct Hs as [Hlk Hlp]. unfold kCapacity in *.
  destruct (inner_search_covering_child n k) as (i & f & Hr & Hcov).
  { rewrite Hlk. simpl. lia. }
  { lia. }
  { exact Hord. }
  exists i, f, (if f then i else count n - 1).
  split; [exact Hr |]. split; [reflexivity |].
  set (c := if f then i else count n - 1) in *.
  split; [exact Hcov |].
  destruct Hcov as (Hc0 & Hlo & Hhi).
  split.
  { unfold children, payload_at. apply rd_in. rewrite Hlp. simpl. lia. }
  split; [apply Hchild; exact Hc0 |].
  rewrite (Hcr c Hc0). unfold child_range, in_range. cbn [fst snd].
  destruct Hk as [Ha Hu]. split.
  - destruct (Z.eqb_spec c 0); [exact Ha |]. cbn. apply Hlo. lia.
  - destruct (Z.eqb_spec c (count n - 1)); [exact Hu |]. cbn. apply Hhi. lia.
Qed.

(** [lookup] below a page whose range contains the key returns what the
    map holds for it. *)
Lemma lookup_loop_found k : forall fuel s p,
  BTree.frames s = BTree.frames b ->
  0 <= p < BTree.next_page_id b -> in_range (rng p) k ->
  level (BTree.frames b p) < Z.of_nat fuel ->
  exists s', BTree.lookup_loop fuel s p k = Done (m k, s').
Proof.
  induction fuel as [| fuel IH]; intros s p Hfr Hp Hk Hfuel.
  - destruct Htree as (((_ & Hok & _) & _) & _).
    destruct (Hok p Hp) as (_ & Hlv & _). simpl in Hfuel. lia.
  - cbn [BTree.lookup_loop]. rewrite Hfr.
    unfold is_leaf.
    destruct (Z.eqb_spec (level (BTree.frames b p)) 0) as [Hl | Hl];
      cbn [negb].
    + destruct (leaf_search_found p k Hp Hl Hk)
        as (i & Hr & Hi & _ & _ & Hm).
      rewrite Hr. cbn [bind].
      destruct Htree as (((_ & Hok & _) & _) & _).
      destruct (Hok p Hp) as ([Hlk Hlp] & _ & Hc & _).
      unfold kCapacity in *.
      destruct (Z.ltb_spec i (count (BTree.frames b p))) as [Hlt | Hge].
      * rewrite rd_in by (rewrite Hlk; simpl; lia). cbn [bind].
        cbn [andb] in Hm. fold (key_at (BTree.frames b p) i).
        destruct (key_at (BTree.frames b p) i =? k).
        -- unfold values. rewrite rd_in by (rewrite Hlp; simpl; lia).
           cbn [bind]. fold (payload_at (BTree.frames b p) i).
           rewrite Hm. eexists; reflexivity.
        -- rewrite Hm. eexists; reflexivity.
      * cbn [andb] in Hm. rewrite Hm. eexists; reflexivity.
    + destruct (inner_search_child p k Hp Hl Hk)
        as (i & f & c & Hr & Hc & Hcov & Hrd & [Hca Hcl] & Hin).
      rewrite Hr. cbn [bind].
      destruct Htree as (((_ & Hok & _) & _) & _).
      destruct (Hok p Hp) as (_ & Hlv & Hcnt & _). unfold kCapacity in *.
      destruct Hcov as (Hc0 & _).
      rewrite wrap32_small by lia. rewrite <- Hc, Hrd. cbn [bind].
      apply IH; [exact Hfr | exact Hca | exact Hin | lia].
Qed.

(** [lookup] on a search tree returns what the map holds. *)
Lemma lookup_on_search_tree k fuel :
  h < Z.of_nat fuel -> lookup_value fuel b k = Done (m k).
Proof.
  intros Hfuel. unfold lookup_value, BTree.lookup.
  destruct Htree as ((_ & r & Hroot & Hr & Hlv) & _ & Hrr & _).
  rewrite Hroot.
  destruct (lookup_loop_found k fuel (BTree.fix_page b r false) r)
    as [s' Hs'].
  - reflexivity.
  - exact Hr.
  - rewrite (Hrr r Hroot). split; exact I.
  - lia.
  - rewrite Hs'. reflexivity.
Qed.

End SearchTreeLookup.

(** ** [LeafNode::insert], whether or not the key is there *)

Lemma nth_upd (a : list Z) : forall (i k : nat) (x : Z),
  (i < length a)%nat ->
  nth k (upd a i x) 0 = if (k =? i)%nat then x else nth k a 0.
Proof.
  induction a as [| y a IH]; intros i k x Hi; [simpl in Hi; lia |].
  destruct i as [| i]; destruct k as [| k]; cbn; try reflexivity.
  apply IH. simpl in Hi. lia.
Qed.

Section LeafUpsert.
Context {sl : Slack}.

(** On a leaf with room and strictly increasing keys, [insert] replaces
    the value of a key that is there and adds an entry, in order, for one
    that is not. *)
Lemma leaf_insert_any n key value :
  array_shape n -> 0 <= count n < kCapacity ->
  keys_ordered n (count n) ->
  exists n',
    LeafNode.insert n key value = Done n' /\
    array_shape n' /\ level n' = level n /\
    count n <= count n' <= count n + 1 /\
    keys_ordered n' (count n') /\
    (forall r, (forall i, 0 <= i < count n -> in_range r (key_at n i)) ->
               in_range r key ->
               forall i, 0 <= i < count n' -> in_range r (key_at n' i)) /\
    (forall k v, In (k, v) (leaf_entries n') <->
                 (k = key /\ v = value) \/
                 (k <> key /\ In (k, v) (leaf_entries n))) /\
    (count n' = count n <-> exists i, 0 <= i < count n /\ key_at n i = key).
Proof.
  intros Hs Hc Hord.
  assert (Hs' := Hs). destruct Hs' as [Hlk Hlp]. unfold kCapacity in *.
  destruct (lower_bound_search_sorted n key) as (pos & Hr & Hfirst);
    [rewrite Hlk; simpl; lia | lia | exact Hord |].
  assert (Hf := Hfirst). destruct Hf as (Hp0 & Hlo & Hhi).
  destruct (Z.ltb_spec pos (count n)) as [Hlt | Hge];
    [destruct (Z.eq_dec (key_at n pos) key) as [Heq | Hne] |].
  - (* the key is at [pos] *)
    destruct (leaf_insert_closed n key value pos true Hs
                ltac:(unfold kCapacity; lia) Hr)
      as (n' & Hins & Hs1 & Hl1 & Hres).
    { left. split; [reflexivity |]. split; [lia | apply Hhi; exact Hlt]. }
    cbn [andb] in Hres.
    rewrite (proj2 (Z.geb_le key (key_at n pos))) in Hres by lia.
    destruct Hres as (Hc1 & Hk1 & Hv1).
    assert (Hka : forall k, 0 <= k < count n -> key_at n' k = key_at n k).
    { intros k Hk. rewrite <- (key_at_leaf_keys n' k) by lia.
      rewrite Hk1. apply key_at_leaf_keys. exact Hk. }
    assert (Hpa : forall k, 0 <= k < count n ->
                  payload_at n' k
                  = if k =? pos then value else payload_at n k).
    { intros k Hk. rewrite <- (payload_at_leaf_values n' k) by lia.
      rewrite Hv1, nth_upd
        by (unfold leaf_values, values; rewrite length_firstn; lia).
      destruct (Z.eqb_spec k pos) as [-> | Hkp].
      - rewrite Nat.eqb_refl. reflexivity.
      - rewrite (proj2 (Nat.eqb_neq _ _)) by lia.
        apply payload_at_leaf_values. exact Hk. }
    exists n'. split; [exact Hins |]. split; [exact Hs1 |].
    split; [exact Hl1 |]. split; [lia |].
    split; [| split; [| split]].
    + intros i i' Hi Hi'. rewrite Hc1 in Hi'.
      rewrite !Hka by lia. apply Hord; lia.
    + intros r Hin _ i Hi. rewrite Hc1 in Hi. rewrite Hka by lia.
      apply Hin. exact Hi.
    + intros k v.
      rewrite (In_leaf_entries n' k v Hs1) by (unfold kCapacity; lia).
      rewrite (In_leaf_entries n k v Hs) by (unfold kCapacity; lia).
      rewrite Hc1. split.
      * intros (i & Hi & Hki & Hvi). rewrite Hka in Hki by lia.
        rewrite Hpa in Hvi by lia.
        destruct (Z.eqb_spec i pos) as [-> | Hip].
        -- left. split; congruence.
        -- right. split.
           ++ intros Hk. apply Hip.
              destruct (Z.lt_trichotomy i pos) as [H | [H | H]];
                [| exact H |].
              ** assert (key_at n i < key_at n pos) by (apply Hord; lia). lia.
              ** assert (key_at n pos < key_at n i) by (apply Hord; lia). lia.
           ++ exists i. repeat split; try lia; assumption.
      * intros [[-> ->] | (Hk & i & Hi & Hki & Hvi)].
        -- exists pos. rewrite Hka, Hpa, Z.eqb_refl by lia.
           repeat split; try lia; assumption.
        -- exists i. rewrite Hka, Hpa by lia.
           rewrite (proj2 (Z.eqb_neq i pos)) by congruence.
           repeat split; try lia; assumption.
    + split; [intros _; exists pos; split; [lia | exact Heq] | intros _; exact Hc1].
  - (* the key is new, in front of [pos] *)
    assert (Hnew : forall i, 0 <= i < count n -> key_at n i <> key).
    { intros i Hi He. specialize (Hhi Hlt).
      destruct (Z.lt_trichotomy i pos) as [H | [H | H]].
      - specialize (Hlo i ltac:(lia)). lia.
      - subst i. contradiction.
      - assert (key_at n pos < key_at n i) by (apply Hord; lia). lia. }
    destruct (leaf_insert_new n key value Hs ltac:(unfold kCapacity; lia)
                Hord Hnew)
      as (n' & pos' & Hins & Hs1 & Hl1 & Hc1 & Hfirst' & Hat).
    exists n'. split; [exact Hins |]. split; [exact Hs1 |].
    split; [exact Hl1 |]. split; [lia |].
    assert (Hlr : forall r,
               (forall i, 0 <= i < count n -> in_range r (key_at n i)) ->
               in_range r key -> leaf_ranged n' r).
    { intros r Hin Hk.
      apply (leaf_ranged_inserted n n' key pos' r); try assumption.
      - split; assumption.
      - intros k Hk'. apply Hat. exact Hk'. }
    split; [| split; [| split]].
    + apply (Hlr (None, None)); [intros; split; exact I | split; exact I].
    + intros r Hin Hk. apply (Hlr r Hin Hk).
    + intros k v.
      rewrite (leaf_entries_inserted n n' key value pos' Hs Hs1
                 ltac:(unfold kCapacity; lia) Hc1 (proj1 Hfirst') Hat k v).
      split; [| tauto].
      intros [H | H]; [left; exact H | right; split; [| exact H]].
      intros ->. apply (In_leaf_entries n key v Hs) in H;
        [| unfold kCapacity; lia].
      destruct H as (i & Hi & Hki & _). exact (Hnew i Hi Hki).
    + split; [lia | intros (i & Hi & Hki); exfalso; exact (Hnew i Hi Hki)].
  - (* the key is new, behind all others *)
    assert (Hnew : forall i, 0 <= i < count n -> key_at n i <> key).
    { intros i Hi He. specialize (Hlo i ltac:(lia)). lia. }
    destruct (leaf_insert_new n key value Hs ltac:(unfold kCapacity; lia)
                Hord Hnew)
      as (n' & pos' & Hins & Hs1 & Hl1 & Hc1 & Hfirst' & Hat).
    exists n'. split; [exact Hins |]. split; [exact Hs1 |].
    split; [exact Hl1 |]. split; [lia |].
    assert (Hlr : forall r,
               (forall i, 0 <= i < count n -> in_range r (key_at n i)) ->
               in_range r key -> leaf_ranged n' r).
    { intros r Hin Hk.
      apply (leaf_ranged_inserted n n' key pos' r); try assumption.
      - split; assumption.
      - intros k Hk'. apply Hat. exact Hk'. }
    split; [| split; [| split]].
    + apply (Hlr (None, None)); [intros; split; exact I | split; exact I].
    + intros r Hin Hk. apply (Hlr r Hin Hk).
    + intros k v.
      rewrite (leaf_entries_inserted n n' key value pos' Hs Hs1
                 ltac:(unfold kCapacity; lia) Hc1 (proj1 Hfirst') Hat k v).
      split; [| tauto].
      intros [H | H]; [left; exact H | right; split; [| exact H]].
      intros ->. apply (In_leaf_entries n key v Hs) in H;
        [| unfold kCapacity; lia].
      destruct H as (i & Hi & Hki & _). exact (Hnew i Hi Hki).
    + split; [lia | intros (i & Hi & Hki); exfalso; exact (Hnew i Hi Hki)].
Qed.

End LeafUpsert.

(** ** Writing a leaf of a search tree *)

(** Replacing the leaf [cur] by a leaf within the same range keeps the
    search tree; the map changes inside the range of [cur] only. *)
Lemma leaf_write_state b b' h m m' rng cur n' :
  search_tree b h m rng ->
  0 <= cur < BTree.next_page_id b -> level (BTree.frames b cur) = 0 ->
  structure_ok b' h ->
  BTree.next_page_id b' = BTree.next_page_id b ->
  BTree.root b' = BTree.root b ->
  (forall q, BTree.frames b' q
             = if q =? cur then n' else BTree.frames b q) ->
  level n' = 0 -> leaf_ranged n' (rng cur) ->
  (forall k v, in_range (rng cur) k ->
               (m' k = Some v <-> In (k, v) (leaf_entries n'))) ->
  (forall k, ~ in_range (rng cur) k -> m' k = m k) ->
  search_tree b' h m' rng.
Proof.
  intros (Hst & Hrng & Hrr & Hdis & Hcont) Hcur Hl Hst' Hnext Hroot Hfr
    Hl' Hlr Hin Hout.
  assert (Hlev : forall q, level (BTree.frames b' q)
                           = level (BTree.frames b q)).
  { intros q. rewrite Hfr. destruct (Z.eqb_spec q cur) as [-> | _];
      [congruence | reflexivity]. }
  split; [exact Hst' |]. split; [| split; [| split]].
  - intros p Hp. rewrite Hnext in Hp. rewrite Hlev.
    destruct (Hrng p Hp) as [Hpl Hpi]. split.
    + intros Hl0. rewrite Hfr. destruct (Z.eqb_spec p cur) as [-> | Hne];
        [exact Hlr | apply Hpl; exact Hl0].
    + intros Hl0. unfold inner_ranged. rewrite Hfr.
      destruct (Z.eqb_spec p cur) as [-> | Hne]; [congruence |].
      apply Hpi. exact Hl0.
  - intros r Hr. apply Hrr. congruence.
  - intros p q k Hp Hq. rewrite Hnext in Hp, Hq. rewrite !Hlev.
    apply Hdis; assumption.
  - intros p Hp Hl0 k v Hk. rewrite Hnext in Hp. rewrite Hlev in Hl0.
    rewrite Hfr. destruct (Z.eqb_spec p cur) as [-> | Hne].
    + apply Hin. exact Hk.
    + rewrite Hout.
      * apply Hcont; assumption.
      * intros Hk'. apply Hne.
        apply (Hdis p cur k Hp Hcur); [congruence | assumption | assumption].
Qed.

(** The content of the leaf the search is at. *)
Lemma on_path_leaf b h m rng key cur par :
  on_path b h m rng key cur par -> level (BTree.frames b cur) = 0 ->
  0 <= cur < BTree.next_page_id b /\
  array_shape (BTree.frames b cur) /\
  0 <= count (BTree.frames b cur) <= kCapacity /\
  leaf_ranged (BTree.frames b cur) (rng cur) /\
  forall k v, in_range (rng cur) k ->
              (m k = Some v <-> In (k, v) (leaf_entries (BTree.frames b cur))).
Proof.
  intros ((Hst & Hrng & _ & _ & Hcont) & (_ & Hcur & _) & _) Hl.
  destruct Hst as ((_ & Hok & _) & _).
  destruct (Hok cur Hcur) as (Hs & _ & Hc & _).
  split; [exact Hcur |]. split; [exact Hs |]. split; [exact Hc |].
  split; [apply (proj1 (Hrng cur Hcur)); exact Hl |].
  intros k v Hk. apply Hcont; assumption.
Qed.

Section PathSteps.
Context {sl : Slack}.

(** The iteration of [insert] on a leaf with room: an upsert. *)
Lemma step_leaf_upsert b h m rng key value cur par cd pd :
  on_path b h m rng key cur par ->
  is_leaf (BTree.frames b cur) = true ->
  count (BTree.frames b cur) < kCapacity ->
  exists b' n',
    BTree.insert_iter b key value cur par cd pd = Done (inl b') /\
    search_tree b' h (bind_key m key value) rng /\
    BTree.next_page_id b' = BTree.next_page_id b /\
    BTree.root b' = BTree.root b /\
    (forall q, BTree.frames b' q
               = if q =? cur then n' else BTree.frames b q) /\
    level n' = 0 /\
    count (BTree.frames b cur) <= count n' <= count (BTree.frames b cur) + 1 /\
    (count n' = count (BTree.frames b cur) <-> m key <> None).
Proof.
  intros Hpath Hleaf Hroom.
  assert (Hl : level (BTree.frames b cur) = 0)
    by (apply Z.eqb_eq; exact Hleaf).
  destruct (on_path_leaf b h m rng key cur par Hpath Hl)
    as (Hcur & Hs & Hc & [Hord Hin] & Hcont).
  destruct Hpath as (Htree & Hloop & Hkey & _).
  destruct (iter_leaf_room b h key value cur par cd pd Hloop Hleaf Hroom)
    as (b' & Hiter & Hst' & Hnext).
  destruct (leaf_insert_any (BTree.frames b cur) key value Hs ltac:(lia) Hord)
    as (n' & Hins & Hs' & Hl' & Hc' & Hord' & Hin' & Hent & Hsame).
  exists b', n'. split; [exact Hiter |].
  unfold BTree.insert_iter in Hiter. cbv zeta in Hiter.
  rewrite Hleaf in Hiter.
  rewrite (proj2 (Z.ltb_lt _ 42)) in Hiter by (unfold kCapacity in *; lia).
  rewrite Hins in Hiter. cbn [bind] in Hiter.
  injection Hiter as <-.
  assert (Hfr : forall q,
             BTree.frames
               (match par with
                | Some p =>
                    BTree.unfix_page
                      (BTree.unfix_page
                         (BTree.store b cur n') cur true) p pd
                | None => BTree.unfix_page (BTree.store b cur n') cur true
                end) q
             = if q =? cur then n' else BTree.frames b q)
    by (intros q; destruct par; reflexivity).
  split; [| split; [exact Hnext |
            split; [destruct par; reflexivity |
            split; [exact Hfr |
            split; [congruence | split; [exact Hc' |]]]]]].
  - apply (leaf_write_state b _ h m (bind_key m key value) rng cur n');
      try assumption.
    + destruct par; reflexivity.
    + congruence.
    + split; [exact Hord' | apply (Hin' (rng cur) Hin Hkey)].
    + intros k v Hk. rewrite Hent, <- (Hcont k v Hk). unfold bind_key.
      destruct (Z.eqb_spec k key) as [-> | Hne].
      * split; [intros [= <-]; left; split; reflexivity |].
        intros [[_ ->] | [Habs _]]; [reflexivity | contradiction].
      * split; [intros H; right; split; assumption |].
        intros [[-> _] | [_ H]]; [contradiction | exact H].
    + intros k Hk. unfold bind_key.
      destruct (Z.eqb_spec k key) as [-> | Hne];
        [contradiction | reflexivity].
  - rewrite Hsame. split.
    + intros (i & Hi & Hki) Hnone.
      assert (Hsome : m key = Some (payload_at (BTree.frames b cur) i)).
      { apply (Hcont key _ Hkey).
        apply (proj2 (In_leaf_entries _ key _ Hs Hc)). exists i.
        split; [exact Hi |]. split; [exact Hki | reflexivity]. }
      congruence.
    + intros Hne. destruct (m key) as [v |] eqn:Hm; [| contradiction].
      apply (Hcont key v Hkey) in Hm.
      apply (proj1 (In_leaf_entries _ key v Hs Hc)) in Hm.
      destruct Hm as (i & Hi & Hki & _). exists i. split; assumption.
Qed.


Lemma room_on_path_same_store key : forall fuel b b' p,
  BTree.frames b' = BTree.frames b ->
  room_on_path fuel b' p key = room_on_path fuel b p key.
Proof.
  induction fuel as [| fuel IH]; intros b b' p Hfr; [reflexivity |].
  cbn [room_on_path]. rewrite Hfr.
  destruct (count (BTree.frames b p) <? kCapacity); [| reflexivity].
  destruct (is_leaf (BTree.frames b p)); [reflexivity |].
  destruct (InnerNode.lower_bound (BTree.frames b p) key)
    as [[i f] | |]; cbn [bind]; try reflexivity.
  destruct (rd (children (BTree.frames b p))
              (if f then i else count (BTree.frames b p) - 1));
    cbn [bind]; try reflexivity.
  apply IH. exact Hfr.
Qed.

(** The iteration of [insert] on an inner page with room: the descent. *)
Lemma step_descend_path b h m rng key value cur par cd pd :
  on_path b h m rng key cur par ->
  is_leaf (BTree.frames b cur) = false ->
  count (BTree.frames b cur) <> kCapacity ->
  exists b' child i f,
    BTree.insert_iter b key value cur par cd pd
    = Done (inr (b', child, Some cur, cd, pd)) /\
    on_path b' h m rng key child (Some cur) /\
    BTree.frames b' = BTree.frames b /\
    BTree.root b' = BTree.root b /\
    BTree.next_page_id b' = BTree.next_page_id b /\
    InnerNode.lower_bound (BTree.frames b cur) key = Done (i, f) /\
    rd (children (BTree.frames b cur))
      (if f then i else count (BTree.frames b cur) - 1) = Done child.
Proof.
  intros (Htree & Hloop & Hkey & _) Hleaf Hroom.
  assert (Hl : level (BTree.frames b cur) <> 0)
    by (apply Z.eqb_neq; exact Hleaf).
  destruct (iter_descend b h key value cur par cd pd Hloop Hleaf Hroom)
    as (b' & child & Hiter & Hloop' & _ & Hnext).
  assert (Hcur := proj1 (proj2 Hloop)).
  destruct (inner_search_child b h m rng Htree cur key Hcur Hl Hkey)
    as (i & f & c & Hr & Hc & Hcov & Hrd & _ & Hin).
  exists b', child, i, f. split; [exact Hiter |].
  unfold BTree.insert_iter in Hiter. cbv zeta in Hiter.
  rewrite Hleaf in Hiter.
  rewrite (proj2 (Z.eqb_neq _ 42)) in Hiter by exact Hroom.
  rewrite Hr in Hiter. cbn [bind] in Hiter.
  rewrite <- Hc, Hrd in Hiter. cbn [bind] in Hiter.
  injection Hiter as <- <-.
  split; [| split; [destruct par; reflexivity |
            split; [destruct par; reflexivity |
            split; [exact Hnext |
            split; [exact Hr | rewrite <- Hc; exact Hrd]]]]].
  split; [| split; [exact Hloop' | split; [exact Hin |]]].
  - apply (search_tree_same_store b); try exact Htree;
      destruct par; reflexivity.
  - exists c. split; [| destruct par; reflexivity].
    destruct par; exact (proj1 Hcov).
Qed.

(** The loop of [insert] when no page on the search path is full: an
    upsert into the leaf that covers the key; no page is allocated. *)
Lemma insert_loop_upsert key value : forall fuel b h m rng cur par cd pd,
  on_path b h m rng key cur par ->
  room_on_path fuel b cur key = Done true ->
  exists b',
    BTree.insert_loop fuel b key value cur par cd pd = Done b' /\
    search_tree b' h (bind_key m key value) rng /\
    BTree.next_page_id b' = BTree.next_page_id b /\
    BTree.root b' = BTree.root b /\
    (forall p, level (BTree.frames b' p) = level (BTree.frames b p) /\
               count (BTree.frames b p) <= count (BTree.frames b' p)).
Proof.
  induction fuel as [| fuel IH];
    intros b h m rng cur par cd pd Hpath Hroom; [discriminate |].
  cbn [room_on_path] in Hroom. cbn [BTree.insert_loop].
  destruct (Z.ltb_spec (count (BTree.frames b cur)) kCapacity)
    as [Hlt | Hge]; [| discriminate].
  destruct (is_leaf (BTree.frames b cur)) eqn:Hleaf.
  - destruct (step_leaf_upsert b h m rng key value cur par cd pd
                Hpath Hleaf Hlt)
      as (b' & n' & Hit & Ht & Hn & Hr & Hfr & Hl' & Hc' & _).
    rewrite Hit. cbn [bind]. exists b'.
    split; [reflexivity |]. split; [exact Ht |].
    split; [exact Hn |]. split; [exact Hr |].
    intros p. rewrite Hfr. destruct (Z.eqb_spec p cur) as [-> | _].
    + apply Z.eqb_eq in Hleaf. split; [congruence | lia].
    + split; [reflexivity | lia].
  - destruct (step_descend_path b h m rng key value cur par cd pd
                Hpath Hleaf ltac:(lia))
      as (b1 & child & i & f & Hit & Hp1 & Hfr & Hr1 & Hn1 & Hlb & Hrd).
    rewrite Hit. cbn [bind].
    rewrite Hlb in Hroom. cbn [bind] in Hroom.
    rewrite Hrd in Hroom. cbn [bind] in Hroom.
    rewrite <- (room_on_path_same_store key fuel b b1 child Hfr) in Hroom.
    destruct (IH b1 h m rng child (Some cur) cd pd Hp1 Hroom)
      as (b' & Hrun & Ht & Hn & Hr & Hcnt).
    exists b'. split; [exact Hrun |]. split; [exact Ht |].
    split; [congruence |]. split; [congruence |].
    intros p. rewrite <- Hfr. apply Hcnt.
Qed.

(** [insert] into a search tree when no page on the search path is
    full. *)
Lemma insert_with_room b h m rng r key value fuel :
  search_tree b h m rng -> BTree.root b = Some r ->
  room_on_path fuel b r key = Done true ->
  exists b',
    BTree.insert fuel b key value = Done b' /\
    search_tree b' h (bind_key m key value) rng /\
    BTree.next_page_id b' = BTree.next_page_id b /\
    BTree.root b' = BTree.root b /\
    (forall p, level (BTree.frames b' p) = level (BTree.frames b p) /\
               count (BTree.frames b p) <= count (BTree.frames b' p)).
Proof.
  intros Htree Hroot Hroom.
  pose proof Htree as (Hst & _ & Hrr & _).
  pose proof Hst as (_ & r' & Hroot' & Hr & _).
  assert (r' = r) by congruence. subst r'.
  unfold BTree.insert. rewrite Hroot. cbn [BTree.root]. rewrite Hroot.
  assert (Hpath : on_path (BTree.fix_page b r true) h m rng key r None).
  { split; [| split; [| split; [| exact I]]].
    - apply (search_tree_same_store b); [reflexivity .. | exact Htree].
    - split; [exact Hst |]. split; [exact Hr | exact Hroot].
    - rewrite (Hrr r Hroot). split; exact I. }
  destruct (insert_loop_upsert key value fuel (BTree.fix_page b r true) h m
              rng r None false false Hpath)
    as (b' & Hrun & Ht & Hn & Hr' & Hcnt).
  { rewrite (room_on_path_same_store key fuel b _ r); [exact Hroom |].
    reflexivity. }
  exists b'. split; [exact Hrun |]. split; [exact Ht |].
  split; [exact Hn |]. split; [| exact Hcnt].
  simpl_state. congruence.
Qed.

End PathSteps.

(** ** [erase] on a search tree *)

(** Replacing a leaf by a leaf keeps the shape of the tree. *)
Lemma structure_ok_leaf_write b b' h cur n' :
  structure_ok b h ->
  0 <= cur < BTree.next_page_id b -> level (BTree.frames b cur) = 0 ->
  BTree.next_page_id b' = BTree.next_page_id b ->
  BTree.root b' = BTree.root b ->
  (forall q, BTree.frames b' q
             = if q =? cur then n' else BTree.frames b q) ->
  array_shape n' -> level n' = 0 -> 0 <= count n' <= kCapacity ->
  structure_ok b' h.
Proof.
  intros (Hpages & r & Hroot & Hr & Hrl) Hcur Hl Hnext Hroot' Hfr
    Hs' Hl' Hc'.
  pose proof Hpages as (Hn0 & Hok & Hzero).
  destruct (Hok cur Hcur) as (_ & Hlv & _).
  assert (Hlev : forall q, level (BTree.frames b' q)
                           = level (BTree.frames b q)).
  { intros q. rewrite Hfr. destruct (Z.eqb_spec q cur) as [-> | _];
      [congruence | reflexivity]. }
  split.
  - apply (pages_ok_after b h b' h [cur]); try assumption; try lia.
    + intros q Hq. rewrite Hfr.
      destruct (Z.eqb_spec q cur) as [-> | ne];
        [exfalso; apply Hq; left; reflexivity | reflexivity].
    + intros q [<- | []]. split; [lia |].
      unfold page_ok. rewrite Hfr, Z.eqb_refl.
      split; [exact Hs' |]. split; [lia |]. split; [exact Hc' |].
      intros Hne. contradiction.
    + intros q _. apply Hlev.
  - exists r. split; [congruence |]. split; [lia |].
    rewrite Hlev. exact Hrl.
Qed.

Section EraseOnTree.
Context {sl : Slack}.
Variables (b : BTree.t) (h : Z) (m : Z -> option Z)
  (rng : Z -> bound * bound).
Hypothesis Htree : search_tree b h m rng.

(** The loop of [erase] ends at the leaf whose range contains the key;
    it records no parent only if that leaf is the root. *)
Lemma erase_descend_found key : forall fuel s cur par,
  BTree.frames s = BTree.frames b ->
  0 <= cur < BTree.next_page_id b -> in_range (rng cur) key ->
  level (BTree.frames b cur) < Z.of_nat fuel ->
  (par = None -> BTree.root b = Some cur) ->
  exists leaf par' s',
    BTree.erase_descend fuel s cur par key = Done (leaf, par', s') /\
    BTree.frames s' = BTree.frames b /\ BTree.root s' = BTree.root s /\
    BTree.next_page_id s' = BTree.next_page_id s /\
    0 <= leaf < BTree.next_page_id b /\
    level (BTree.frames b leaf) = 0 /\ in_range (rng leaf) key /\
    (par' = None -> BTree.root b = Some leaf) /\
    (par' = par \/ 0 < h).
Proof.
  induction fuel as [| fuel IH]; intros s cur par Hfr Hcur Hk Hfuel Hpar.
  - destruct Htree as (((_ & Hok & _) & _) & _).
    destruct (Hok cur Hcur) as (_ & Hlv & _). simpl in Hfuel. lia.
  - cbn [BTree.erase_descend]. rewrite Hfr. unfold is_leaf.
    destruct (Z.eqb_spec (level (BTree.frames b cur)) 0) as [Hl | Hl];
      cbn [negb].
    + exists cur, par, s. split; [reflexivity |]. split; [exact Hfr |].
      split; [reflexivity |]. split; [reflexivity |]. split; [exact Hcur |].
      split; [exact Hl |]. split; [exact Hk |].
      split; [exact Hpar | left; reflexivity].
    + destruct (inner_search_child b h m rng Htree cur key Hcur Hl Hk)
        as (i & f & c & Hr & Hc & Hcov & Hrd & [Hca Hcl] & Hin).
      unfold BTree.navigate_to_child. rewrite Hfr, Hr. cbn [bind].
      destruct Htree as (((_ & Hok & _) & _) & _).
      destruct (Hok cur Hcur) as (_ & Hlv & Hcnt & _). unfold kCapacity in *.
      destruct Hcov as (Hc0 & _).
      rewrite wrap32_small by lia. rewrite <- Hc, Hrd. cbn [bind].
      unfold BTree.get_initial_node.
      destruct (IH (BTree.fix_page
                      (BTree.unfix_page s cur false)
                      (payload_at (BTree.frames b cur) c) false)
                  (payload_at (BTree.frames b cur) c) (Some cur))
        as (leaf & par' & s' & Hrun & Hfr' & Hroot' & Hnext' & Hleaf & Hll
            & Hkl & Hnone & _);
        [exact Hfr | exact Hca | exact Hin | lia | discriminate |].
      exists leaf, par', s'. split; [exact Hrun |].
      split; [exact Hfr' |]. split; [exact Hroot' |].
      split; [exact Hnext' |]. split; [exact Hleaf |].
      split; [exact Hll |]. split; [exact Hkl |].
      split; [exact Hnone | right; lia].
Qed.


(** [erase] on a search tree in which no leaf other than the root would
    become empty: the key leaves the map, nothing else changes.  A full
    leaf needs the slot past its arrays to be readable. *)
Lemma erase_on_search_tree key fuel :
  h < Z.of_nat fuel -> min_fill b 2 ->
  past_end <> None \/
  (forall p, 0 <= p < BTree.next_page_id b ->
             count (BTree.frames b p) < kCapacity) ->
  exists b',
    BTree.erase fuel b key = Done b' /\
    search_tree b' h (unbind_key m key) rng /\
    BTree.next_page_id b' = BTree.next_page_id b /\
    BTree.root b' = BTree.root b /\
    (forall p, level (BTree.frames b' p) = level (BTree.frames b p) /\
               count (BTree.frames b p) - 1 <= count (BTree.frames b' p)
               <= count (BTree.frames b p)).
Proof.
  intros Hfuel Hfill Hroom.
  pose proof Htree as (Hst & Hrng & Hrr & Hdis & Hcont).
  pose proof Hst as ((_ & Hok & _) & r & Hroot & Hr & Hrl).
  unfold BTree.erase. rewrite Hroot. cbv zeta.
  unfold BTree.get_initial_node.
  destruct (erase_descend_found key fuel (BTree.fix_page b r false) r None)
    as (leaf & par' & s' & Hrun & Hfr' & Hroot' & Hnext' & Hleaf & Hll
        & Hkl & Hnone & Hpar');
    [reflexivity | exact Hr | rewrite (Hrr r Hroot); split; exact I | lia
     | trivial |].
  rewrite Hrun. cbn [bind]. rewrite Hfr'.
  destruct (Hok leaf Hleaf) as (Hs & _ & Hc & _).
  destruct (Hrng leaf Hleaf) as [Hlr _]. specialize (Hlr Hll).
  destruct (leaf_erase_any (BTree.frames b leaf) key Hs Hc)
    as (n' & w & Hers & Hs' & Hl' & Hc' & Hlr' & Hent & Hw & _).
  { destruct Hroom as [H | H]; [right; exact H | left; apply H; exact Hleaf]. }
  { exact (proj1 Hlr). }
  rewrite Hers. cbn [bind].
  set (b2 := if w then BTree.store s' leaf n' else s').
  assert (Hfr2 : forall q, BTree.frames b2 q
                           = if q =? leaf then n' else BTree.frames b q).
  { intros q. unfold b2. destruct w; simpl_state; rewrite Hfr'.
    - reflexivity.
    - destruct (Z.eqb_spec q leaf) as [-> | _];
        [rewrite (Hw eq_refl) |]; reflexivity. }
  assert (Hroot2 : BTree.root b2 = BTree.root b)
    by (unfold b2; destruct w; simpl_state; exact Hroot').
  assert (Hnext2 : BTree.next_page_id b2 = BTree.next_page_id b)
    by (unfold b2; destruct w; simpl_state; exact Hnext').
  assert (Hstay :
            match par' with
            | Some p =>
                if count (BTree.frames b2 leaf) <=? 0
                then BTree.remove_from_parent b2 key p
                else Done b2
            | None => Done b2
            end = Done b2).
  { destruct par' as [p |]; [| reflexivity].
    rewrite Hfr2, Z.eqb_refl.
    destruct Hpar' as [Habs | Hh]; [discriminate |].
    destruct (Hfill leaf Hleaf Hll) as [Hisroot | Hcnt].
    - rewrite Hroot in Hisroot. injection Hisroot as ->. lia.
    - rewrite (proj2 (Z.leb_gt _ _)) by lia. reflexivity. }
  rewrite Hstay. cbn [bind].
  eexists. split; [reflexivity |]. simpl_state.
  split; [| split; [exact Hnext2 | split; [congruence |]]].
  - apply (leaf_write_state b _ h m (unbind_key m key) rng leaf n');
      simpl_state; try assumption.
    + apply (structure_ok_leaf_write b _ h leaf n'); simpl_state;
        try assumption; [congruence | lia].
    + congruence.
    + apply Hlr'. exact Hlr.
    + intros k v Hk. rewrite Hent, <- (Hcont leaf Hleaf Hll k v Hk).
      unfold unbind_key. destruct (Z.eqb_spec k key) as [-> | Hne].
      * split; [discriminate | intros [Habs _]; contradiction].
      * split; [intros H; split; assumption | intros [_ H]; exact H].
    + intros k Hk. unfold unbind_key.
      destruct (Z.eqb_spec k key) as [-> | Hne];
        [contradiction | reflexivity].
  - intros p. rewrite Hfr2.
    destruct (Z.eqb_spec p leaf) as [-> | _]; [split; [congruence | lia] |].
    split; [reflexivity | lia].
Qed.

End EraseOnTree.

(** ** Trees that fit into one leaf *)

Lemma increasing_NoDup (l : list Z) : increasing l = true -> NoDup l.
Proof.
  intros H. apply (proj2 (NoDup_nth l 0)). intros i i' Hi Hi' He.
  destruct (Nat.lt_trichotomy i i') as [Hlt | [Heq | Hgt]]; [| exact Heq |].
  - pose proof (increasing_nth l H i i' ltac:(lia)). lia.
  - pose proof (increasing_nth l H i' i ltac:(lia)). lia.
Qed.

(** A leaf with strictly increasing keys, all from [l], holds no more
    entries than [l] has distinct elements. *)
Lemma leaf_count_bound n (l : list Z) :
  array_shape n -> 0 <= count n <= kCapacity ->
  keys_ordered n (count n) ->
  (forall i, 0 <= i < count n -> In (key_at n i) l) ->
  count n <= Z.of_nat (length (nodup Z.eq_dec l)).
Proof.
  intros [Hlk _] Hc Hord Hin. unfold kCapacity in *.
  assert (Hlen : length (leaf_keys n) = Z.to_nat (count n))
    by (unfold leaf_keys; rewrite length_firstn; lia).
  assert (Hnd : NoDup (leaf_keys n)).
  { apply increasing_NoDup. apply keys_ordered_increasing; [| exact Hord].
    rewrite Hlk. simpl. lia. }
  assert (Hincl : incl (leaf_keys n) (nodup Z.eq_dec l)).
  { intros k Hk. apply nodup_In.
    apply (In_nth _ _ 0) in Hk. destruct Hk as (i & Hi & <-).
    rewrite Hlen in Hi.
    replace i with (Z.to_nat (Z.of_nat i)) by lia.
    rewrite key_at_leaf_keys by lia. apply Hin. lia. }
  pose proof (NoDup_incl_length Hnd Hincl). lia.
Qed.

Lemma small_tree_fresh : small_tree BTree.create (fun _ => None).
Proof. left. split; [reflexivity |]. split; reflexivity. Qed.

Section SmallTree.
Context {sl : Slack}.

(** [lookup] on a small tree returns what the map holds. *)
Lemma small_tree_lookup b m k fuel :
  small_tree b m -> (0 < fuel)%nat -> lookup_value fuel b k = Done (m k).
Proof.
  intros [(Hroot & _ & Hm) | (Hroot & Hnext & rng & Ht)] Hfuel.
  - unfold lookup_value, BTree.lookup. rewrite Hroot, Hm. reflexivity.
  - apply (lookup_on_search_tree b 0 m rng Ht). lia.
Qed.

(** The root leaf of a small tree holds the keys of the map. *)
Lemma small_tree_root b m rng :
  search_tree b 0 m rng -> BTree.root b = Some 0 ->
  BTree.next_page_id b = 1 ->
  level (BTree.frames b 0) = 0 /\
  forall K, (forall k, m k <> None -> In k K) ->
            count (BTree.frames b 0) <= Z.of_nat (length (nodup Z.eq_dec K)).
Proof.
  intros (Hst & Hrng & Hrr & _ & Hcont) Hroot Hnext.
  destruct Hst as ((_ & Hok & _) & r & Hroot' & Hr & Hrl).
  assert (r = 0) by congruence. subst r.
  split; [exact Hrl |]. intros K HK.
  destruct (Hok 0 Hr) as (Hs & _ & Hc & _).
  destruct (Hrng 0 Hr) as [Hleaf _]. destruct (Hleaf Hrl) as [Hord _].
  apply leaf_count_bound; try assumption.
  intros i Hi. apply HK.
  assert (Hsome : m (key_at (BTree.frames b 0) i)
                  = Some (payload_at (BTree.frames b 0) i)).
  { apply (Hcont 0 Hr Hrl).
    - rewrite (Hrr 0 Hroot). split; exact I.
    - apply (proj2 (In_leaf_entries _ _ _ Hs Hc)). exists i.
      split; [exact Hi | split; reflexivity]. }
  congruence.
Qed.

(** One call on a small tree over fewer than 42 keys. *)
Lemma small_tree_step (K : list Z) b m op fuel :
  small_tree b m -> (0 < fuel)%nat ->
  Z.of_nat (length (nodup Z.eq_dec K)) < kCapacity ->
  (forall k, m k <> None -> In k K) ->
  (forall k, In k (inserted_keys [op]) -> In k K) ->
  exists b',
    run_op fuel b op = Done b' /\ small_tree b' (apply_op m op) /\
    (forall k, apply_op m op k <> None -> In k K).
Proof.
  intros Hsmall Hfuel HK Hdom Hop.
  assert (Hstart : exists b0 rng,
             search_tree b0 0 m rng /\ BTree.root b0 = Some 0 /\
             BTree.next_page_id b0 = 1 /\
             (forall k v, BTree.insert fuel b k v = BTree.insert fuel b0 k v) /\
             (BTree.root b = None \/ b0 = b)).
  { destruct Hsmall as [(Hroot & Hfr & Hm) | (Hroot & Hnext & rng & Ht)].
    - exists (BTree.mk (BTree.frames b) (Some 0) 1 (BTree.events b)).
      destruct empty_root_tree as [rng Ht]. exists rng.
      split; [| split; [reflexivity | split; [reflexivity | split]]].
      + apply tree_is_search_tree in Ht.
        destruct Ht as (H1 & H2 & H3 & H4 & H5).
        apply (search_tree_same_store empty_root);
          [exact Hfr | reflexivity | reflexivity |].
        split; [exact H1 |]. split; [exact H2 |]. split; [exact H3 |].
        split; [exact H4 |].
        intros p Hp Hl k v Hk. rewrite Hm. apply (H5 p Hp Hl k v Hk).
      + intros k v. unfold BTree.insert. rewrite Hroot. reflexivity.
      + left. exact Hroot.
    - exists b, rng. split; [exact Ht |]. split; [exact Hroot |].
      split; [exact Hnext |]. split; [reflexivity | right; reflexivity]. }
  destruct Hstart as (b0 & rng & Ht & Hroot0 & Hnext0 & Hins & Hb0).
  destruct (small_tree_root b0 m rng Ht Hroot0 Hnext0) as [Hl0 Hcnt].
  specialize (Hcnt K Hdom).
  destruct op as [k v | k]; cbn [run_op apply_op].
  - rewrite Hins.
    destruct (insert_with_room b0 0 m rng 0 k v fuel Ht Hroot0)
      as (b' & Hrun & Ht' & Hn' & Hr' & _).
    { destruct fuel as [| fuel]; [lia |]. cbn [room_on_path].
      rewrite (proj2 (Z.ltb_lt _ _)) by lia.
      unfold is_leaf. rewrite Hl0. reflexivity. }
    exists b'. split; [exact Hrun |]. split.
    + right. split; [congruence |]. split; [congruence |].
      exists rng. exact Ht'.
    + intros k'. unfold bind_key.
      destruct (Z.eqb_spec k' k) as [-> | Hne]; [| apply Hdom].
      intros _. apply Hop. left. reflexivity.
  - assert (Hdom' : forall k', unbind_key m k k' <> None -> In k' K).
    { intros k'. unfold unbind_key.
      destruct (k' =? k); [congruence | apply Hdom]. }
    destruct Hb0 as [Hnone | ->].
    + exists b. split; [unfold BTree.erase; rewrite Hnone; reflexivity |].
      split; [| exact Hdom'].
      left. destruct Hsmall as [(_ & Hfr & Hm) | (Hroot & _)];
        [| congruence].
      split; [exact Hnone |]. split; [exact Hfr |].
      intros k'. unfold unbind_key. destruct (k' =? k); [reflexivity | apply Hm].
    + destruct (erase_on_search_tree b 0 m rng Ht k fuel)
        as (b' & Hrun & Ht' & Hn' & Hr' & _).
      * lia.
      * intros p Hp _. left. rewrite Hroot0. f_equal. lia.
      * right. intros p Hp. replace p with 0 by lia. lia.
      * exists b'. split; [exact Hrun |]. split; [| exact Hdom'].
        right. split; [congruence |]. split; [congruence |].
        exists rng. exact Ht'.
Qed.

(** A sequence of calls on a small tree over fewer than 42 keys. *)
Lemma small_tree_run (K : list Z) fuel :
  (0 < fuel)%nat -> Z.of_nat (length (nodup Z.eq_dec K)) < kCapacity ->
  forall ops b m,
    small_tree b m -> (forall k, m k <> None -> In k K) ->
    (forall k, In k (inserted_keys ops) -> In k K) ->
    exists b', run_ops fuel b ops = Done b' /\
               small_tree b' (fold_left apply_op ops m).
Proof.
  intros Hfuel HK. unfold run_ops.
  induction ops as [| op ops IH]; intros b m Hsmall Hdom Hops.
  - exists b. split; [reflexivity | exact Hsmall].
  - cbn [fold_left bind].
    destruct (small_tree_step K b m op fuel Hsmall Hfuel HK Hdom)
      as (b1 & Hrun & Hsmall1 & Hdom1).
    { intros k Hk. apply Hops. cbn [inserted_keys flat_map] in *.
      rewrite app_nil_r in Hk. apply in_or_app. left. exact Hk. }
    rewrite Hrun.
    apply (IH b1 (apply_op m op) Hsmall1 Hdom1).
    intros k Hk. apply Hops. cbn [inserted_keys flat_map].
    apply in_or_app. right. exact Hk.
Qed.

End SmallTree.

(** ** Leaves stay at least half full under [insert] *)

Section MinFill.
Variable j : Z.

(** The pages a split iteration of [insert] writes: the two halves and
    the parent, which is the new root when there was none. *)
Lemma split_iter_frames b h key value cur par cd pd :
  loop_ok b h cur par ->
  count (BTree.frames b cur) = kCapacity ->
  BTree.next_page_id b + 2 < 18446744073709551616 ->
  (par = None -> h + 1 < 65536) ->
  exists b' cur' PP cd' pd' sep l r,
    BTree.insert_iter (sl := page_slack j) b key value cur par cd pd
    = Done (inr (b', cur', Some PP, cd', pd')) /\
    (if is_leaf (BTree.frames b cur)
     then LeafNode.split (sl := page_slack j) (BTree.frames b cur) zero_page
     else InnerNode.split (sl := page_slack j) (BTree.frames b cur) zero_page)
    = Done (sep, l, r) /\
    level (BTree.frames b' PP) <> 0 /\
    BTree.frames b' cur = l /\
    BTree.frames b' (BTree.next_page_id b) = r /\
    (forall q, q <> PP -> q <> cur -> q <> BTree.next_page_id b ->
               BTree.frames b' q = BTree.frames b q) /\
    PP <> cur /\ PP <> BTree.next_page_id b /\
    BTree.root b' = match par with
                    | None => Some PP
                    | Some _ => BTree.root b
                    end /\
    (forall q, 0 <= q < BTree.next_page_id b' ->
               q < BTree.next_page_id b \/ q = BTree.next_page_id b \/
               q = PP).
Proof.
  intros Hloop Hfull HN Hh.
  pose proof Hloop as (Hst & Hcur & Hpar).
  pose proof Hst as ((HN0 & Hok & Hzero) & r0 & Hroot0 & Hr0 & Hlr0).
  destruct (Hok cur Hcur) as (Hs & Hlvc & _).
  destruct par as [P |].
  - destruct Hpar as (HP & HlP & Hroom).
    destruct (Hok P HP) as (HsP & HlvP & HcP & _).
    destruct (full_page_split j _ Hs Hfull)
      as (sep & l & r & cl & Hsplit & _).
    destruct (inner_insert_children (sl := page_slack j) (BTree.frames b P)
                sep (BTree.next_page_id b) HsP ltac:(lia))
      as (pn' & Hins & _ & HlP' & _).
    assert (HneP : P <> cur) by (intros ->; lia).
    destruct (parent_split_step j b key value cur P cd pd sep l r pn'
                Hs Hfull HN0 ltac:(lia) ltac:(lia) ltac:(lia) HneP
                (Hzero (BTree.next_page_id b) ltac:(lia)) Hsplit Hins)
      as (b' & cd' & pd' & Hiter & Hroot' & Hnext' & HfP & Hfcur & HfN & Hfo).
    exists b', (if key >=? sep then BTree.next_page_id b else cur), P,
      cd', pd', sep, l, r.
    split; [exact Hiter |]. split; [exact Hsplit |].
    split; [rewrite HfP, HlP'; lia |].
    split; [exact Hfcur |]. split; [exact HfN |]. split; [exact Hfo |].
    split; [exact HneP |]. split; [lia |]. split; [exact Hroot' |].
    intros q Hq. rewrite Hnext' in Hq. lia.
  - assert (Hr0c : r0 = cur) by congruence. subst r0.
    destruct (root_split_step j b key value cur cd pd Hpar Hs Hfull
                ltac:(specialize (Hh eq_refl); lia) HN0 HN
                ltac:(lia) ltac:(lia)
                (Hzero (BTree.next_page_id b) ltac:(lia))
                (Hzero (BTree.next_page_id b + 1) ltac:(lia)))
      as (b' & cur' & cd' & pd' & sep & l & r & Hiter & Hsplit
          & Hroot' & Hnext' & HfPP & Hfcur & HfN & Hfo & _).
    exists b', cur', (BTree.next_page_id b + 1), cd', pd', sep, l, r.
    split; [exact Hiter |]. split; [exact Hsplit |].
    split; [rewrite HfPP; cbn [level]; lia |].
    split; [exact Hfcur |]. split; [exact HfN |].
    split; [intros q H1 H2 H3; apply Hfo; assumption |].
    split; [lia |]. split; [lia |]. split; [exact Hroot' |].
    intros q Hq. rewrite Hnext' in Hq. lia.
Qed.

(** A split iteration leaves every leaf other than the root with at least
    20 entries, if that was so before. *)
Lemma split_iter_min_fill b h key value cur par cd pd c r :
  loop_ok b h cur par ->
  count (BTree.frames b cur) = kCapacity ->
  BTree.next_page_id b + 2 < 18446744073709551616 ->
  (par = None -> h + 1 < 65536) ->
  c <= 20 -> min_fill b c ->
  BTree.insert_iter (sl := page_slack j) b key value cur par cd pd
  = Done (inr r) ->
  min_fill (fst (fst (fst (fst r)))) c.
Proof.
  intros Hloop Hfull HN Hh Hc Hfill Hrun.
  destruct (split_iter_frames b h key value cur par cd pd Hloop Hfull HN Hh)
    as (b' & cur' & PP & cd' & pd' & sep & l & r' & Hiter & Hsplit & HlPP
        & Hfcur & HfN & Hfo & HneP & HneN & Hroot' & Hnext').
  rewrite Hiter in Hrun. injection Hrun as <-. cbn [fst].
  pose proof Hloop as (Hst & Hcur & Hpar).
  pose proof Hst as ((HN0 & Hok & Hzero) & r0 & Hroot0 & Hr0 & Hlr0).
  destruct (Hok cur Hcur) as (Hs & Hlvc & _).
  assert (Hhalf : level (BTree.frames b cur) = 0 ->
                  20 <= count l /\ 20 <= count r').
  { intros Hl0. unfold is_leaf in Hsplit.
    rewrite (proj2 (Z.eqb_eq _ 0) Hl0) in Hsplit.
    rewrite (leaf_split_full j _ zero_page Hs array_shape_zero_page Hfull)
      in Hsplit.
    injection Hsplit as _ <- <-. cbn [count set_count]. lia. }
  assert (Hlevels : level l = level (BTree.frames b cur) /\
                    level r' = level (BTree.frames b cur)).
  { destruct (full_page_split j _ Hs Hfull)
      as (sep0 & l0 & r0' & cl & Hsplit0 & Hl1 & Hl2 & _).
    rewrite Hsplit in Hsplit0. injection Hsplit0 as _ <- <-.
    split; assumption. }
  intros p Hp Hl.
  destruct (Z.eq_dec p PP) as [-> | HpP]; [contradiction |].
  destruct (Z.eq_dec p cur) as [-> | Hpc].
  { right. rewrite Hfcur in *. destruct Hlevels as [Hl1 _].
    destruct (Hhalf ltac:(congruence)). lia. }
  destruct (Z.eq_dec p (BTree.next_page_id b)) as [-> | HpN].
  { right. rewrite HfN in *. destruct Hlevels as [_ Hl2].
    destruct (Hhalf ltac:(congruence)). lia. }
  rewrite (Hfo p HpP Hpc HpN) in *.
  assert (Hlt : p < BTree.next_page_id b)
    by (destruct (Hnext' p Hp) as [H | [H | H]]; [exact H | | ]; contradiction).
  destruct (Hfill p ltac:(lia) Hl) as [Hisroot | Hcnt];
    [| right; exact Hcnt].
  left. rewrite Hroot'. destruct par as [P |]; [exact Hisroot |].
  rewrite Hpar in Hisroot. congruence.
Qed.


Lemma search_ok_on_path b h m rng key cur par :
  search_ok b h m rng key cur par -> on_path b h m rng key cur par.
Proof.
  intros (Ht & Hloop & Hk & _ & Hlink).
  split; [apply tree_is_search_tree; exact Ht |].
  split; [exact Hloop |]. split; [exact Hk | exact Hlink].
Qed.

Lemma min_fill_same_store b b' c :
  BTree.frames b' = BTree.frames b -> BTree.root b' = BTree.root b ->
  BTree.next_page_id b' = BTree.next_page_id b ->
  min_fill b c -> min_fill b' c.
Proof.
  intros Hf Hr Hn H p Hp Hl. rewrite Hf in *. rewrite Hr. rewrite Hn in Hp.
  apply H; assumption.
Qed.

(** The loop of [insert] of a new key keeps the leaves filled. *)
Lemma insert_loop_min_fill key value c :
  c <= 20 ->
  forall fuel b h m rng cur par cd pd b',
    search_ok b h m rng key cur par ->
    BTree.next_page_id b + 2 * steps_needed (BTree.frames b cur)
    < 18446744073709551616 ->
    (par = None -> h + 1 < 65536) ->
    min_fill b c ->
    BTree.insert_loop (sl := page_slack j) fuel b key value cur par cd pd
    = Done b' ->
    min_fill b' c.
Proof.
  intros Hc.
  induction fuel as [| fuel IH];
    intros b h m rng cur par cd pd b' Hsearch Hnext Hh Hfill Hrun;
    [discriminate |].
  pose proof Hsearch as (_ & Hloop & _).
  pose proof Hloop as (((_ & Hok & _) & _) & Hcur & _).
  destruct (Hok cur Hcur) as (_ & Hlv & Hcnt & _).
  cbn [BTree.insert_loop] in Hrun.
  destruct (Z.eq_dec (count (BTree.frames b cur)) kCapacity)
    as [Hfull | Hroom].
  - assert (HN : BTree.next_page_id b + 2 < 18446744073709551616).
    { unfold steps_needed in Hnext.
      rewrite Hfull, Z.ltb_irrefl in Hnext. lia. }
    assert (Hst : steps_needed (BTree.frames b cur)
                  = 2 * level (BTree.frames b cur) + 2).
    { unfold steps_needed. rewrite Hfull, Z.ltb_irrefl. reflexivity. }
    assert (Hnextstate : exists b1 cur1 par1 cd1 pd1 h1 rng1,
               BTree.insert_iter (sl := page_slack j) b key value cur par
                 cd pd = Done (inr (b1, cur1, Some par1, cd1, pd1)) /\
               search_ok b1 h1 m rng1 key cur1 (Some par1) /\
               steps_needed (BTree.frames b1 cur1)
               < steps_needed (BTree.frames b cur) /\
               BTree.next_page_id b <= BTree.next_page_id b1
               <= BTree.next_page_id b + 2).
    { destruct par as [P |].
      - destruct (step_split_parent j b h m rng key value cur P cd pd
                    Hsearch Hfull HN)
          as (b1 & cur1 & cd1 & pd1 & rng1 & Hit & Hs1 & Hsteps & Hn1).
        exists b1, cur1, P, cd1, pd1, h, rng1.
        split; [exact Hit | split; [exact Hs1 | split; assumption]].
      - destruct (step_split_root j b h m rng key value cur cd pd
                    Hsearch Hfull HN (Hh eq_refl))
          as (b1 & cur1 & par1 & cd1 & pd1 & rng1 & Hit & Hs1 & Hsteps
              & Hn1).
        exists b1, cur1, par1, cd1, pd1, (h + 1), rng1.
        split; [exact Hit | split; [exact Hs1 | split; assumption]]. }
    destruct Hnextstate
      as (b1 & cur1 & par1 & cd1 & pd1 & h1 & rng1 & Hit & Hs1 & Hsteps
          & Hn1).
    assert (Hfill1 := split_iter_min_fill b h key value cur par cd pd c _
                        Hloop Hfull HN Hh Hc Hfill Hit).
    cbn [fst] in Hfill1.
    rewrite Hit in Hrun. cbn [bind] in Hrun.
    apply (IH b1 h1 m rng1 cur1 (Some par1) cd1 pd1 b' Hs1);
      [lia | discriminate | exact Hfill1 | exact Hrun].
  - assert (Hlt : count (BTree.frames b cur) < kCapacity) by lia.
    apply search_ok_on_path in Hsearch as Hpath.
    destruct (is_leaf (BTree.frames b cur)) eqn:Hleaf.
    + destruct (step_leaf_upsert (sl := page_slack j) b h m rng key value
                  cur par cd pd Hpath Hleaf Hlt)
        as (b1 & n' & Hit & _ & Hn1 & Hr1 & Hfr & Hl' & Hc' & _).
      rewrite Hit in Hrun. cbn [bind] in Hrun. injection Hrun as <-.
      intros p Hp Hl. rewrite Hn1 in Hp. rewrite Hr1.
      rewrite Hfr in *. destruct (Z.eqb_spec p cur) as [-> | Hne].
      * apply Z.eqb_eq in Hleaf.
        destruct (Hfill cur Hp Hleaf) as [H | H]; [left; exact H | right; lia].
      * apply Hfill; assumption.
    + destruct (step_descend (sl := page_slack j) b h m rng key value
                  cur par cd pd Hsearch Hleaf Hroom)
        as (b1 & child & Hit & Hs1 & Hsteps & Hn1).
      destruct (step_descend_path (sl := page_slack j) b h m rng key value
                  cur par cd pd Hpath Hleaf Hroom)
        as (b2 & child2 & i & f & Hit2 & _ & Hfr & Hr2 & _).
      rewrite Hit in Hit2. injection Hit2 as <- <-.
      rewrite Hit in Hrun. cbn [bind] in Hrun.
      apply (IH b1 h m rng child (Some cur) cd pd b' Hs1);
        [lia | discriminate | | exact Hrun].
      apply (min_fill_same_store b); assumption.
Qed.

(** [insert] of a new key keeps the leaves filled. *)
Lemma insert_new_key_filled b h m key value fuel c :
  tree_ok b h m -> m key = None -> c <= 20 -> min_fill b c ->
  2 * h + 2 <= Z.of_nat fuel ->
  BTree.next_page_id b + 4 * h + 4 < 18446744073709551616 ->
  h + 1 < 65536 ->
  exists b' h',
    BTree.insert (sl := page_slack j) fuel b key value = Done b' /\
    tree_ok b' h' (bind_key m key value) /\ h <= h' <= h + 1 /\
    BTree.next_page_id b <= BTree.next_page_id b'
    <= BTree.next_page_id b + 4 * h + 4 /\
    min_fill b' c.
Proof.
  intros Ht Hm Hc Hfill Hfuel Hnext Hh.
  destruct (insert_new_key j b h m key value fuel Ht Hm Hfuel Hnext Hh)
    as (b' & h' & Hrun & Ht' & Hh' & Hn').
  exists b', h'. split; [exact Hrun |]. split; [exact Ht' |].
  split; [exact Hh' |]. split; [exact Hn' |].
  destruct Ht as [rng Htree].
  pose proof Htree as (Hst & _ & Hrr & _).
  pose proof Hst as (Hpages & r & Hroot & Hr & Hrl).
  unfold BTree.insert in Hrun. rewrite Hroot in Hrun.
  cbn [BTree.root] in Hrun. rewrite Hroot in Hrun.
  assert (Hsearch : search_ok (BTree.fix_page b r true) h m rng key r None).
  { split; [| split; [| split; [| split; [exact Hm | exact I]]]].
    - apply (tree_with_ranges_same_store b); [reflexivity .. | exact Htree].
    - split; [exact Hst |]. split; [exact Hr | exact Hroot].
    - rewrite (Hrr r Hroot). split; exact I. }
  apply (insert_loop_min_fill key value c Hc fuel _ h m rng r None false
           false b' Hsearch); try assumption.
  - simpl_state. unfold steps_needed. rewrite Hrl.
    destruct (count (BTree.frames b r) <? kCapacity); lia.
  - intros _. exact Hh.
Qed.

(** A sequence of inserts of pairwise distinct new keys keeps the leaves
    filled. *)
Lemma insert_all_filled fuel c : c <= 20 -> forall kvs b h m,
  tree_ok b h m -> min_fill b c -> NoDup (map fst kvs) ->
  (forall k, In k (map fst kvs) -> m k = None) ->
  h + Z.of_nat (length kvs) < 65536 ->
  2 * (h + Z.of_nat (length kvs)) + 2 <= Z.of_nat fuel ->
  BTree.next_page_id b + Z.of_nat (length kvs) * pages_per_insert
  < 18446744073709551616 ->
  exists b' h',
    insert_all (sl := page_slack j) fuel b kvs = Done b' /\
    tree_ok b' h' (extend m kvs) /\ h' <= h + Z.of_nat (length kvs) /\
    min_fill b' c.
Proof.
  intros Hc. unfold insert_all, pages_per_insert, extend.
  induction kvs as [| [k v] kvs IH];
    intros b h m Ht Hfill Hnd Hnew Hh Hfuel Hnext.
  - exists b, h. split; [reflexivity |]. split; [exact Ht |].
    split; [cbn; lia | exact Hfill].
  - cbn [length fold_left bind fst snd map] in *.
    inversion Hnd as [| ? ? Hnotin Hnd']; subst.
    destruct (insert_new_key_filled b h m k v fuel c Ht)
      as (b1 & h1 & Hrun & Ht1 & Hh1 & Hn1 & Hfill1); try lia;
      try assumption.
    { apply Hnew. left. reflexivity. }
    rewrite Hrun.
    destruct (IH b1 h1 (bind_key m k v) Ht1 Hfill1 Hnd')
      as (b' & h' & Hrun' & Ht' & Hh' & Hfill'); try lia.
    { intros k' Hk'. unfold bind_key.
      destruct (Z.eqb_spec k' k) as [-> | Hne]; [contradiction |].
      apply Hnew. right. exact Hk'. }
    exists b', h'. split; [exact Hrun' |]. split; [exact Ht' |].
    split; [lia | exact Hfill'].
Qed.

End MinFill.

(** ** Erasing from a tree built by inserts *)

Lemma min_fill_weaken b c c' : c' <= c -> min_fill b c -> min_fill b c'.
Proof.
  intros Hc H p Hp Hl. destruct (H p Hp Hl) as [Hr | Hcnt];
    [left; exact Hr | right; lia].
Qed.

Lemma unbind_all ks : forall m k,
  fold_left unbind_key ks m k
  = if existsb (Z.eqb k) ks then None else m k.
Proof.
  induction ks as [| k0 ks IH]; intros m k; [reflexivity |].
  cbn [fold_left existsb]. rewrite IH. unfold unbind_key.
  destruct (existsb (Z.eqb k) ks); [rewrite orb_true_r; reflexivity |].
  rewrite orb_false_r. reflexivity.
Qed.

Section EraseAfterInserts.
Variable j : Z.

(** A sequence of erases, fewer than the entries every leaf other than the
    root holds. *)
Lemma erase_all_correct h rng fuel : forall ks b m c,
  search_tree b h m rng -> min_fill b c ->
  Z.of_nat (length ks) < c -> h < Z.of_nat fuel ->
  exists b',
    erase_all (sl := page_slack j) fuel b ks = Done b' /\
    search_tree b' h (fold_left unbind_key ks m) rng /\
    min_fill b' (c - Z.of_nat (length ks)).
Proof.
  unfold erase_all.
  induction ks as [| k ks IH]; intros b m c Ht Hfill Hlen Hfuel.
  - exists b. split; [reflexivity |]. split; [exact Ht |].
    cbn [length]. replace (c - Z.of_nat 0) with c by lia. exact Hfill.
  - cbn [length fold_left bind] in *.
    destruct (erase_on_search_tree (sl := page_slack j) b h m rng Ht k fuel
                Hfuel)
      as (b1 & Hrun & Ht1 & Hn1 & Hr1 & Hcnt).
    { apply (min_fill_weaken b c); [lia | exact Hfill]. }
    { left. discriminate. }
    rewrite Hrun.
    assert (Hfill1 : min_fill b1 (c - 1)).
    { intros p Hp Hl. rewrite Hn1 in Hp. rewrite Hr1.
      destruct (Hcnt p) as [Hlp Hcp]. rewrite Hlp in Hl.
      destruct (Hfill p Hp Hl) as [H | H]; [left; exact H | right; lia]. }
    destruct (IH b1 (unbind_key m k) (c - 1) Ht1 Hfill1)
      as (b' & Hrun' & Ht' & Hfill'); try lia.
    exists b'. split; [exact Hrun' |]. split; [exact Ht' |].
    replace (c - Z.of_nat (S (length ks)))
      with (c - 1 - Z.of_nat (length ks)) by lia.
    exact Hfill'.
Qed.

Lemma erase_all_without_root fuel : forall ks b,
  BTree.root b = None -> erase_all (sl := page_slack j) fuel b ks = Done b.
Proof.
  unfold erase_all.
  induction ks as [| k ks IH]; intros b Hroot; [reflexivity |].
  cbn [fold_left bind]. unfold BTree.erase at 2. rewrite Hroot.
  apply IH. exact Hroot.
Qed.

(** The tree built by inserts of pairwise distinct keys into a fresh tree:
    a search tree for the map of the pairs whose leaves, the root apart,
    hold at least 20 entries. *)
Lemma built_tree kv kvs fuel :
  distinct (map fst (kv :: kvs)) = true ->
  Z.of_nat (length (kv :: kvs)) < 65536 ->
  2 * Z.of_nat (length (kv :: kvs)) + 2 <= Z.of_nat fuel ->
  exists b h rng,
    insert_all (sl := page_slack j) fuel BTree.create (kv :: kvs) = Done b /\
    tree_with_ranges b h (map_of (kv :: kvs)) rng /\
    h <= Z.of_nat (length (kv :: kvs)) /\ min_fill b 20.
Proof.
  intros Hd Hlen Hfuel. apply distinct_NoDup in Hd.
  assert (Hsame : insert_all (sl := page_slack j) fuel BTree.create
                    (kv :: kvs)
                  = insert_all (sl := page_slack j) fuel empty_root
                      (kv :: kvs))
    by (rewrite !insert_all_cons; reflexivity).
  rewrite Hsame.
  destruct (insert_all_filled j fuel 20 ltac:(lia) (kv :: kvs) empty_root 0
              (fun _ => None) empty_root_tree)
    as (b1 & h & Hins & [rng Ht] & Hh & Hfill).
  - intros p Hp _. left. cbn in Hp. cbn. f_equal. lia.
  - exact Hd.
  - intros; reflexivity.
  - lia.
  - lia.
  - unfold pages_per_insert. cbn [BTree.next_page_id empty_root]. lia.
  - exists b1, h, rng. split; [exact Hins |]. split; [exact Ht |].
    split; [lia | exact Hfill].
Qed.

End EraseAfterInserts.
(** ** The pin discipline of the three operations *)

Lemma pins_after_app P h1 h2 P1 :
  pins_after P h1 = Some P1 -> pins_after P (h1 ++ h2) = pins_after P1 h2.
Proof.
  revert P. induction h1 as [| e h1 IH]; intros P H; cbn in *.
  - injection H as <-. reflexivity.
  - destruct (pin_step P e) as [P' |]; [| discriminate].
    apply IH. exact H.
Qed.

Lemma peak_pins_app P h1 h2 P1 n :
  pins_after P h1 = Some P1 -> (peak_pins P h1 <= n)%nat ->
  (peak_pins P1 h2 <= n)%nat -> (peak_pins P (h1 ++ h2) <= n)%nat.
Proof.
  revert P. induction h1 as [| e h1 IH]; intros P H H1 H2; cbn in *.
  - injection H as <-. exact H2.
  - destruct (pin_step P e) as [P' |]; [| discriminate].
    apply Nat.max_lub; [lia |]. apply IH; [exact H | lia | exact H2].
Qed.

Lemma pin_step_unpin P p d P' :
  pin_step P (UnfixPage p d) = Some P' -> P' = unpin p P.
Proof.
  cbn. destruct (existsb (Z.eqb p) P); [| discriminate].
  intros H. injection H as <-. reflexivity.
Qed.

Lemma writes_while_pinned_app P h1 h2 P1 :
  pins_after P h1 = Some P1 -> writes_while_pinned P h1 = true ->
  writes_while_pinned P1 h2 = true ->
  writes_while_pinned P (h1 ++ h2) = true.
Proof.
  revert P. induction h1 as [| e h1 IH]; intros P H H1 H2; cbn in *.
  - injection H as <-. exact H2.
  - destruct e as [p x | p d | p]; cbn in H.
    + apply IH; assumption.
    + destruct (existsb (Z.eqb p) P); [| discriminate].
      apply IH; assumption.
    + apply andb_true_iff in H1. destruct H1 as [Hp H1].
      rewrite Hp. cbn. apply IH; assumption.
Qed.

Lemma pinned_run_nil mode n P :
  (length P <= n)%nat -> pinned_run mode n P [] P.
Proof.
  intros H. split; [reflexivity |]. split; [exact H |].
  split; reflexivity.
Qed.

Lemma pinned_run_app mode n P h1 P1 h2 P2 :
  pinned_run mode n P h1 P1 -> pinned_run mode n P1 h2 P2 ->
  pinned_run mode n P (h1 ++ h2) P2.
Proof.
  intros (Ha & Hb & Hc & Hd) (Ha' & Hb' & Hc' & Hd').
  split; [rewrite (pins_after_app _ _ _ _ Ha); exact Ha' |].
  split; [apply (peak_pins_app _ _ _ P1); assumption |].
  split; [apply (writes_while_pinned_app _ _ _ P1); assumption |].
  unfold fixes_with in *. rewrite forallb_app, Hd, Hd'. reflexivity.
Qed.

Lemma adds_refl b : adds b b [].
Proof. reflexivity. Qed.

Lemma adds_trans b1 b2 b3 h1 h2 :
  adds b1 b2 h1 -> adds b2 b3 h2 -> adds b1 b3 (h1 ++ h2).
Proof.
  unfold adds. intros H1 H2. rewrite H2, H1, rev_app_distr, app_assoc.
  reflexivity.
Qed.

Lemma adds_log b0 b h e :
  adds b0 b h -> adds b0 (BTree.log e b) (h ++ [e]).
Proof.
  unfold adds. intros H. cbn [BTree.log BTree.events].
  rewrite H, rev_app_distr. reflexivity.
Qed.

Lemma unpin_head p P : unpin p (p :: P) = P.
Proof. cbn. rewrite Z.eqb_refl. reflexivity. Qed.

Lemma unpin_second c p : unpin p [c; p] = [c].
Proof.
  cbn. destruct (Z.eqb_spec c p) as [-> | _]; [reflexivity |].
  rewrite Z.eqb_refl. reflexivity.
Qed.

Section PinsOfLookup.
Context {sl : Slack}.

(** The loop of [lookup], entered with the current page fixed. *)
Lemma lookup_loop_pins key : forall fuel b cur v b',
  BTree.lookup_loop fuel b cur key = Done (v, b') ->
  exists new,
    adds b b' new /\ read_only new = true /\
    pinned_run false 2 [cur] new [].
Proof.
  induction fuel as [| f IH]; intros b cur v b' H; [discriminate |].
  cbn [BTree.lookup_loop] in H.
  destruct (negb (is_leaf (BTree.frames b cur))).
  - destruct (InnerNode.lower_bound (BTree.frames b cur) key)
      as [[i e] | |]; cbn [bind] in H; try discriminate.
    destruct (rd _ _) as [c | |]; cbn [bind] in H; try discriminate.
    apply IH in H. destruct H as (new & Hadd & Hro & Hrun).
    exists ([FixPage c false; UnfixPage cur false] ++ new).
    split; [| split].
    + eapply adds_trans; [| exact Hadd]. reflexivity.
    + unfold read_only in *. rewrite forallb_app, Hro. reflexivity.
    + apply (pinned_run_app _ _ _ _ [c]); [| exact Hrun].
      unfold pinned_run. cbn [pins_after pin_step peak_pins existsb].
      rewrite Z.eqb_refl, orb_true_r, unpin_second.
      cbn. split; [reflexivity |]. split; [lia |]. split; reflexivity.
  - destruct (LeafNode.lower_bound (BTree.frames b cur) key)
      as [[i e] | |]; cbn [bind] in H; try discriminate.
    assert (Hb' : b' = BTree.unfix_page b cur false).
    { destruct e; [| injection H as _ <-; reflexivity].
      destruct (rd _ _) as [k | |]; cbn [bind] in H; try discriminate.
      destruct (k =? key); [| injection H as _ <-; reflexivity].
      destruct (rd _ _) as [x | |]; cbn [bind] in H; try discriminate.
      injection H as _ <-. reflexivity. }
    subst b'. exists [UnfixPage cur false].
    split; [reflexivity |]. split; [reflexivity |].
    unfold pinned_run. cbn [pins_after pin_step peak_pins existsb].
    rewrite Z.eqb_refl. cbn. rewrite Z.eqb_refl.
    split; [reflexivity |]. split; [cbn; lia |]. split; reflexivity.
Qed.

End PinsOfLookup.

(** Evaluation of the pin functions on an explicit history, by case
    analysis on the page identifiers it compares. *)
Ltac run_pins :=
  unfold pinned_run;
  repeat (cbn [pins_after pin_step peak_pins writes_while_pinned fixes_with
               forallb existsb unpin app orb andb];
          first
            [ rewrite Z.eqb_refl
            | match goal with
              | |- context [?a =? ?b] =>
                  destruct (Z.eqb_spec a b); try subst; try contradiction;
                  try (exfalso; congruence)
              end ]);
  cbn; repeat split; try reflexivity; try lia; auto.

(** The events of a split iteration of [insert]: the new sibling [N] is
    fixed and written, the current page and the parent (a new root [r]
    when there was none) are written, and the half that does not take the
    key is released. *)
Lemma split_pins (N cur r : Z) (par : option Z) (left : bool) P :
  pins_of P cur par ->
  exists P',
    pinned_run true 3 P
      ([FixPage N true; WritePage N; WritePage cur]
       ++ match par with
          | None => [FixPage r true; WritePage r]
          | Some p => [WritePage p]
          end
       ++ [UnfixPage (if left then N else cur) true]) P' /\
    pins_of P' (if left then cur else N)
      (Some match par with None => r | Some p => p end).
Proof.
  intros HP. destruct par as [p |]; cbn [pins_of] in HP.
  - destruct HP as [-> | ->]; destruct left.
    + exists [cur; p]. split; [run_pins | left; reflexivity].
    + exists [N; p]. split; [run_pins | left; reflexivity].
    + exists [p; cur]. split; [run_pins | right; reflexivity].
    + destruct (Z.eq_dec N cur) as [-> | Hne].
      * exists [p; cur]. split; [run_pins | right; reflexivity].
      * exists [N; p]. split; [run_pins | left; reflexivity].
  - subst P. destruct left.
    + exists [r; cur]. split; [run_pins | right; reflexivity].
    + destruct (Z.eq_dec r cur) as [-> | Hne].
      * exists [N; cur]. split; [run_pins | left; reflexivity].
      * exists [r; N]. split; [run_pins | right; reflexivity].
Qed.

Section PinsOfInsert.
Context {sl : Slack}.

(** One iteration of the loop of [insert]: it starts with the current page
    and its parent fixed and either releases both and ends, or goes on
    with the next current page and its parent fixed. *)
Lemma insert_iter_pins b key value cur par cd pd r P :
  BTree.insert_iter b key value cur par cd pd = Done r ->
  pins_of P cur par ->
  match r with
  | inl b' => exists new, adds b b' new /\ pinned_run true 3 P new []
  | inr (b', c', p', _, _) =>
      exists new P', adds b b' new /\ pinned_run true 3 P new P' /\
                     pins_of P' c' p'
  end.
Proof.
  intros H HP. unfold BTree.insert_iter in H.
  destruct (is_leaf (BTree.frames b cur)).
  - destruct (count (BTree.frames b cur) <? 42).
    + destruct (LeafNode.insert _ key value) as [n | |];
        cbn [bind] in H; try discriminate.
      injection H as <-.
      destruct par as [p |]; cbn [pins_of] in HP.
      * exists [WritePage cur; UnfixPage cur true; UnfixPage p pd].
        split; [reflexivity |].
        destruct HP as [-> | ->]; run_pins.
      * exists [WritePage cur; UnfixPage cur true].
        split; [reflexivity |]. subst P. run_pins.
    + unfold BTree.fresh_page_id in H.
      cbn [BTree.frames BTree.fix_page BTree.log BTree.next_page_id] in H.
      destruct (LeafNode.split _ _) as [[[sk l] nl] | |];
        cbn [bind] in H; try discriminate.
      rewrite Z.geb_leb, Z.leb_antisym in H.
      destruct (split_pins (BTree.next_page_id b) cur
                  (wrap64 (BTree.next_page_id b + 1)) par (key <? sk) P HP)
        as (P' & Hrun & Hof).
      destruct par as [p |].
      * destruct (InnerNode.insert _ sk _) as [pn | |];
          cbn [bind] in H; try discriminate.
        injection H as <-. eexists. exists P'.
        split; [| split; [exact Hrun |]]; [reflexivity |].
        destruct (key <? sk); exact Hof.
      * unfold BTree.promote_root, BTree.fresh_page_id in H.
        cbn [BTree.root BTree.store BTree.fix_page BTree.log
             BTree.next_page_id BTree.set_root] in H.
        destruct (BTree.root b) as [old |];
          cbn [bind] in H; try discriminate.
        destruct (InnerNode.insert _ sk old) as [n1 | |];
          cbn [bind] in H; try discriminate.
        destruct (InnerNode.insert n1 sk _) as [n2 | |];
          cbn [bind] in H; try discriminate.
        injection H as <-. eexists. exists P'.
        split; [| split; [exact Hrun |]]; [reflexivity |].
        destruct (key <? sk); exact Hof.
  - destruct (count (BTree.frames b cur) =? 42).
    + unfold BTree.fresh_page_id in H.
      cbn [BTree.frames BTree.fix_page BTree.log BTree.next_page_id] in H.
      destruct (InnerNode.split _ _) as [[[sk l] nl] | |];
        cbn [bind] in H; try discriminate.
      rewrite Z.geb_leb, Z.leb_antisym in H.
      destruct (split_pins (BTree.next_page_id b) cur
                  (wrap64 (BTree.next_page_id b + 1)) par (key <? sk) P HP)
        as (P' & Hrun & Hof).
      destruct par as [p |].
      * destruct (InnerNode.insert _ sk _) as [pn | |];
          cbn [bind] in H; try discriminate.
        injection H as <-. eexists. exists P'.
        split; [| split; [exact Hrun |]]; [reflexivity |].
        destruct (key <? sk); exact Hof.
      * unfold BTree.promote_root, BTree.fresh_page_id in H.
        cbn [BTree.root BTree.store BTree.fix_page BTree.log
             BTree.next_page_id BTree.set_root] in H.
        destruct (BTree.root b) as [old |];
          cbn [bind] in H; try discriminate.
        destruct (InnerNode.insert _ sk old) as [n1 | |];
          cbn [bind] in H; try discriminate.
        destruct (InnerNode.insert n1 sk _) as [n2 | |];
          cbn [bind] in H; try discriminate.
        injection H as <-. eexists. exists P'.
        split; [| split; [exact Hrun |]]; [reflexivity |].
        destruct (key <? sk); exact Hof.
    + destruct (InnerNode.lower_bound _ key) as [[i f] | |];
        cbn [bind] in H; try discriminate.
      destruct (rd _ _) as [c | |]; cbn [bind] in H; try discriminate.
      injection H as <-.
      destruct par as [p |]; cbn [pins_of] in HP.
      * exists [UnfixPage p pd; FixPage c true], [c; cur].
        split; [reflexivity |].
        split; [| left; reflexivity].
        destruct HP as [-> | ->]; run_pins.
      * exists [FixPage c true], [c; cur].
        split; [reflexivity |].
        split; [| left; reflexivity].
        subst P. run_pins.
Qed.

(** The loop of [insert]. *)
Lemma insert_loop_pins key value : forall fuel b cur par cd pd b' P,
  BTree.insert_loop fuel b key value cur par cd pd = Done b' ->
  pins_of P cur par ->
  exists new, adds b b' new /\ pinned_run true 3 P new [].
Proof.
  induction fuel as [| f IH]; intros b cur par cd pd b' P H HP;
    [discriminate |].
  cbn [BTree.insert_loop] in H.
  destruct (BTree.insert_iter b key value cur par cd pd) as [r | |] eqn:Hit;
    cbn [bind] in H; try discriminate.
  pose proof (insert_iter_pins _ _ _ _ _ _ _ _ P Hit HP) as Hstep.
  destruct r as [b1 | [[[[b1 c1] p1] cd1] pd1]].
  - injection H as <-. exact Hstep.
  - destruct Hstep as (new1 & P1 & Hadd1 & Hrun1 & HP1).
    destruct (IH _ _ _ _ _ _ P1 H HP1) as (new2 & Hadd2 & Hrun2).
    exists (new1 ++ new2).
    split; [apply (adds_trans _ b1); assumption |].
    apply (pinned_run_app _ _ _ _ P1); assumption.
Qed.

(** [insert]: entered with no page fixed. *)
Lemma insert_pins fuel b key value b' :
  BTree.insert fuel b key value = Done b' ->
  exists new, adds b b' new /\ pinned_run true 3 [] new [].
Proof.
  unfold BTree.insert. intros H.
  destruct (BTree.root b) as [r |] eqn:Hroot.
  - rewrite Hroot in H.
    destruct (insert_loop_pins _ _ _ _ _ _ _ _ _ [r] H eq_refl)
      as (new & Hadd & Hrun).
    exists ([FixPage r true] ++ new).
    split; [eapply adds_trans; [| exact Hadd]; reflexivity |].
    apply (pinned_run_app _ _ _ _ [r]); [run_pins | exact Hrun].
  - cbn [BTree.root] in H.
    destruct (insert_loop_pins _ _ _ _ _ _ _ _ _ [0] H eq_refl)
      as (new & Hadd & Hrun).
    exists ([FixPage 0 true] ++ new).
    split; [eapply adds_trans; [| exact Hadd]; reflexivity |].
    apply (pinned_run_app _ _ _ _ [0]); [run_pins | exact Hrun].
Qed.

End PinsOfInsert.

Section PinsOfErase.
Context {sl : Slack}.

(** The descent of [erase]: entered with the current page fixed, it ends
    with the leaf fixed, having released each node before it fixed the
    next. *)
Lemma erase_descend_pins key : forall fuel b cur par c' p' b',
  BTree.erase_descend fuel b cur par key = Done (c', p', b') ->
  exists new,
    adds b b' new /\ read_only new = true /\
    pinned_run false 1 [cur] new [c'] /\
    BTree.root b' = BTree.root b /\
    BTree.next_page_id b' = BTree.next_page_id b.
Proof.
  induction fuel as [| f IH]; intros b cur par c' p' b' H; [discriminate |].
  cbn [BTree.erase_descend] in H.
  destruct (negb (is_leaf (BTree.frames b cur))).
  - unfold BTree.navigate_to_child, BTree.get_initial_node in H.
    destruct (InnerNode.lower_bound _ key) as [[i f0] | |];
      cbn [bind] in H; try discriminate.
    destruct (rd _ _) as [c | |]; cbn [bind] in H; try discriminate.
    apply IH in H. destruct H as (new & Hadd & Hro & Hrun & Hroot & Hnext).
    exists ([UnfixPage cur false; FixPage c false] ++ new).
    split; [eapply adds_trans; [| exact Hadd]; reflexivity |].
    split; [unfold read_only in *; rewrite forallb_app, Hro; reflexivity |].
    split; [| split; [exact Hroot | exact Hnext]].
    apply (pinned_run_app _ _ _ _ [c]); [run_pins | exact Hrun].
  - injection H as <- _ <-. exists [].
    split; [reflexivity |]. split; [reflexivity |].
    split; [| split; reflexivity].
    apply pinned_run_nil. cbn. lia.
Qed.

(** [remove_from_parent] writes the parent once or not at all. *)
Lemma remove_from_parent_writes b key p b' :
  BTree.remove_from_parent b key p = Done b' ->
  b' = b \/ exists n, b' = BTree.store b p n.
Proof.
  unfold BTree.remove_from_parent. intros H.
  destruct (InnerNode.lower_bound _ key) as [[i f] | |];
    cbn [bind] in H; try discriminate.
  assert (Hm : forall m : bool,
             (if m
              then
                ks <- memmove (sl := after_keys (BTree.frames b p))
                        (keys (BTree.frames b p)) i (i + 1)
                        (wrap32 (count (BTree.frames b p) - i)) ;;
                cs <- memmove (children (BTree.frames b p)) i (i + 1)
                        (wrap32 (count (BTree.frames b p) - i)) ;;
                Done (BTree.store b p
                        (set_count
                           (set_payload (set_keys (BTree.frames b p) ks) cs)
                           (wrap16 (count (BTree.frames b p) - 1))))
              else Done b) = Done b' ->
             b' = b \/ exists n, b' = BTree.store b p n).
  { intros [|] Hr; [| injection Hr as <-; left; reflexivity].
    destruct (memmove (keys _) _ _ _) as [ks | |];
      cbn [bind] in Hr; try discriminate.
    destruct (memmove (children _) _ _ _) as [cs | |];
      cbn [bind] in Hr; try discriminate.
    injection Hr as <-. right. eexists. reflexivity. }
  destruct f.
  - destruct (rd _ _) as [k | |]; cbn [bind] in H; try discriminate.
    apply (Hm _ H).
  - cbn [bind] in H. apply (Hm false H).
Qed.

(** The end of [erase]: at most two writes, then the leaf is released. *)
Lemma erase_tail_pins (c : Z) (ws : list Event) :
  ws = [] \/ (exists p, ws = [WritePage p]) \/
  (exists p q, ws = [WritePage p; WritePage q]) ->
  pins_after [c] (ws ++ [UnfixPage c true]) = Some [] /\
  (peak_pins [c] (ws ++ [UnfixPage c true]) <= 1)%nat /\
  fixes_with false (ws ++ [UnfixPage c true]) = true /\
  written_pages (ws ++ [UnfixPage c true]) = written_pages ws /\
  (length (written_pages ws) <= 2)%nat.
Proof.
  intros [-> | [(p & ->) | (p & q & ->)]];
    cbn [app pins_after pin_step peak_pins existsb unpin fixes_with forallb
         written_pages flat_map];
    rewrite Z.eqb_refl; cbn; repeat split; lia.
Qed.

End PinsOfErase.

(** ** The vectors the nodes hand out *)

Section Vectors.
Context {sl : Slack}.

Lemma leaf_vectors n :
  array_shape n -> 0 <= count n <= kCapacity ->
  LeafNode.get_key_vector n = Done (leaf_keys n) /\
  LeafNode.get_value_vector n = Done (leaf_values n).
Proof.
  intros [Hk Hp] Hc. unfold kCapacity in *.
  unfold LeafNode.get_key_vector, LeafNode.get_value_vector, leaf_keys,
    leaf_values, values.
  split; apply read_prefix; lia.
Qed.

Lemma inner_vectors n :
  array_shape n -> 1 <= count n <= kCapacity ->
  InnerNode.get_key_vector n = Done (inner_keys n) /\
  InnerNode.get_child_vector n = Done (inner_children n).
Proof.
  intros [Hk Hp] Hc. unfold kCapacity in *.
  unfold InnerNode.get_key_vector, InnerNode.get_child_vector, inner_keys,
    inner_children, children.
  rewrite (proj2 (Z.ltb_lt 0 (count n))) by lia.
  rewrite wrap16_small by lia.
  split; apply read_prefix; lia.
Qed.

End Vectors.
(** ** Inserts of arbitrary keys, and lookups on a well-formed tree *)

Lemma fix_count_app h1 h2 :
  fix_count (h1 ++ h2) = (fix_count h1 + fix_count h2)%nat.
Proof. unfold fix_count. rewrite filter_app, length_app. reflexivity. Qed.

Section LookupOnShape.
Context {sl : Slack}.

(** On a well-formed tree, sorted or not, the loop of [lookup] goes down
    one level per iteration and ends in a leaf. *)
Lemma lookup_loop_levels b0 h key : structure_ok b0 h ->
  forall fuel b cur,
    BTree.frames b = BTree.frames b0 ->
    0 <= cur < BTree.next_page_id b0 ->
    level (BTree.frames b0 cur) < Z.of_nat fuel ->
    exists v b' new,
      BTree.lookup_loop fuel b cur key = Done (v, b') /\
      adds b b' new /\
      Z.of_nat (fix_count new) = level (BTree.frames b0 cur).
Proof.
  intros ((_ & Hok & _) & _).
  induction fuel as [| f IH]; intros b cur Hfr Hcur Hfuel.
  - destruct (Hok cur Hcur) as (_ & Hl & _). lia.
  - destruct (Hok cur Hcur) as (Hs & Hl & Hc & Hch).
    pose proof Hs as [Hlk Hlp]. unfold kCapacity in *.
    cbn [BTree.lookup_loop]. rewrite Hfr.
    destruct (search_any (BTree.frames b0 cur) key Hs
                ltac:(unfold kCapacity; lia)) as (i & e & Hr & Hres).
    unfold InnerNode.lower_bound, LeafNode.lower_bound. rewrite Hr.
    cbn [bind]. unfold is_leaf.
    destruct (Z.eqb_spec (level (BTree.frames b0 cur)) 0) as [Hz | Hnz];
      cbn [negb].
    + assert (Hend : forall v : option Z,
                exists (v' : option Z) b' new,
                  Done (v, BTree.unfix_page b cur false) = Done (v', b') /\
                  adds b b' new /\
                  Z.of_nat (fix_count new) = level (BTree.frames b0 cur)).
      { intros v. exists v, (BTree.unfix_page b cur false),
          [UnfixPage cur false].
        split; [reflexivity |]. split; [reflexivity |]. rewrite Hz.
        reflexivity. }
      destruct Hres as [(-> & Hi & _) | (-> & _)]; [| apply Hend].
      rewrite rd_in by (rewrite Hlk; lia). cbn [bind].
      destruct (_ =? key); [| apply Hend].
      unfold values. rewrite rd_in by (rewrite Hlp; lia). cbn [bind].
      apply Hend.
    + destruct (Hch Hnz) as (Hc1 & Hchild).
      set (idx := if e then i
                  else wrap32 (count (BTree.frames b0 cur) - 1)).
      assert (Hidx : 0 <= idx < count (BTree.frames b0 cur)).
      { unfold idx. destruct Hres as [(-> & Hi & _) | (-> & _)]; [lia |].
        rewrite wrap32_small by lia. lia. }
      unfold children. rewrite rd_in by (rewrite Hlp; lia). cbn [bind].
      destruct (Hchild idx Hidx) as (Hcp & Hcl).
      fold (payload_at (BTree.frames b0 cur) idx).
      destruct (IH (BTree.unfix_page
                      (BTree.fix_page b
                         (payload_at (BTree.frames b0 cur) idx) false)
                      cur false)
                  (payload_at (BTree.frames b0 cur) idx) Hfr Hcp
                  ltac:(lia))
        as (v & b' & new & Hrun & Hadd & Hcount).
      exists v, b',
        ([FixPage (payload_at (BTree.frames b0 cur) idx) false;
          UnfixPage cur false] ++ new).
      split; [exact Hrun |]. split.
      * eapply adds_trans; [| exact Hadd]. reflexivity.
      * rewrite fix_count_app. change (fix_count [FixPage _ false;
                                                   UnfixPage cur false])
          with 1%nat.
        lia.
Qed.

(** [lookup] on a well-formed tree of height [h + 1]. *)
Lemma lookup_on_shape b h key fuel :
  structure_ok b h -> h < Z.of_nat fuel ->
  exists v b' new,
    BTree.lookup fuel b key = Done (v, b') /\ adds b b' new /\
    Z.of_nat (fix_count new) = h + 1.
Proof.
  intros Hst Hfuel. pose proof Hst as (_ & r & Hroot & Hr & Hrl).
  unfold BTree.lookup. rewrite Hroot.
  destruct (lookup_loop_levels b h key Hst fuel (BTree.fix_page b r false)
              r eq_refl Hr ltac:(lia))
    as (v & b' & new & Hrun & Hadd & Hcount).
  exists v, b', ([FixPage r false] ++ new).
  split; [exact Hrun |]. split.
  - eapply adds_trans; [| exact Hadd]. reflexivity.
  - rewrite fix_count_app. change (fix_count [FixPage r false]) with 1%nat.
    lia.
Qed.

End LookupOnShape.

(** A sequence of inserts of arbitrary keys keeps the tree well formed;
    the height grows by at most one per insert. *)
Lemma insert_all_any_keys j fuel : forall kvs b h,
  structure_ok b h ->
  h + Z.of_nat (length kvs) < 65536 ->
  2 * (h + Z.of_nat (length kvs)) + 2 <= Z.of_nat fuel ->
  BTree.next_page_id b + Z.of_nat (length kvs) * pages_per_insert
  < 18446744073709551616 ->
  exists b' h',
    insert_all (sl := page_slack j) fuel b kvs = Done b' /\
    structure_ok b' h' /\ h <= h' <= h + Z.of_nat (length kvs).
Proof.
  unfold insert_all, pages_per_insert.
  induction kvs as [| [k v] kvs IH]; intros b h Hst Hh Hfuel Hnext.
  - exists b, h. split; [reflexivity |]. split; [exact Hst | cbn; lia].
  - cbn [length fold_left bind fst snd] in *.
    destruct (insert_keeps_structure j b h k v fuel Hst)
      as (b1 & h1 & Hrun & Hst1 & Hh1 & Hn1 & _); try lia.
    rewrite Hrun.
    destruct (IH b1 h1 Hst1) as (b' & h' & Hrun' & Hst' & Hh'); try lia.
    exists b', h'. split; [exact Hrun' |]. split; [exact Hst' | lia].
Qed.

(** ** [erase] on a well-formed tree *)

Section EraseOnShape.
Context {sl : Slack}.
Hypothesis Hslack : past_end <> None.

(** [LeafNode::erase] returns on every leaf, sorted or not. *)
Lemma leaf_erase_returns n key :
  array_shape n -> 0 <= count n <= kCapacity ->
  exists n' w, LeafNode.erase n key = Done (n', w).
Proof using Hslack.
  intros Hs Hc. pose proof Hs as [Hlk Hlp]. unfold kCapacity in *.
  destruct (search_any n key Hs ltac:(unfold kCapacity; lia))
    as (i & e & Hr & Hres).
  unfold LeafNode.erase, LeafNode.locateKeyPosition, LeafNode.lower_bound.
  rewrite Hr. cbn [bind].
  destruct Hres as [(-> & Hi & _) | (-> & _)];
    [| cbn [bind]; eexists; eexists; reflexivity].
  rewrite rd_in by (rewrite Hlk; lia). cbn [bind].
  destruct (_ =? key); [| eexists; eexists; reflexivity].
  unfold LeafNode.moveDataToLeftFrom.
  rewrite wrap32_small by lia.
  destruct (memmove_shift_left (sl := after_keys n) (keys n) i (count n))
    as (ks & Hks & _);
    [lia | rewrite Hlk; lia
     | right; apply after_keys_readable; exact Hslack |].
  destruct (memmove_shift_left (values n) i (count n))
    as (vs & Hvs & _);
    [lia | unfold values; rewrite Hlp; lia | right; exact Hslack |].
  rewrite Hks. cbn [bind]. rewrite Hvs. cbn [bind].
  eexists. eexists. reflexivity.
Qed.

(** [remove_from_parent] returns on every inner node. *)
Lemma remove_from_parent_returns b key p :
  array_shape (BTree.frames b p) ->
  0 <= count (BTree.frames b p) <= kCapacity ->
  exists b', BTree.remove_from_parent b key p = Done b'.
Proof using Hslack.
  intros Hs Hc. pose proof Hs as [Hlk Hlp]. unfold kCapacity in *.
  destruct (search_any (BTree.frames b p) key Hs
              ltac:(unfold kCapacity; lia)) as (i & e & Hr & Hres).
  unfold BTree.remove_from_parent, InnerNode.lower_bound.
  rewrite Hr. cbn [bind].
  destruct Hres as [(-> & Hi & _) | (-> & _)];
    [| cbn [bind]; eexists; reflexivity].
  rewrite rd_in by (rewrite Hlk; lia). cbn [bind].
  destruct (_ =? key); [| eexists; reflexivity].
  rewrite wrap32_small by lia.
  destruct (memmove_shift_left (sl := after_keys (BTree.frames b p))
              (keys (BTree.frames b p)) i (count (BTree.frames b p)))
    as (ks & Hks & _);
    [lia | rewrite Hlk; lia
     | right; apply after_keys_readable; exact Hslack |].
  destruct (memmove_shift_left (children (BTree.frames b p)) i
              (count (BTree.frames b p)))
    as (cs & Hcs & _);
    [lia | unfold children; rewrite Hlp; lia | right; exact Hslack |].
  rewrite Hks. cbn [bind]. rewrite Hcs. cbn [bind].
  eexists. reflexivity.
Qed.

(** The descent of [erase] on a well-formed tree ends in a leaf, the
    recorded parent being an inner node. *)
Lemma erase_descend_levels b0 h key : structure_ok b0 h ->
  forall fuel b cur par,
    BTree.frames b = BTree.frames b0 ->
    0 <= cur < BTree.next_page_id b0 ->
    level (BTree.frames b0 cur) < Z.of_nat fuel ->
    match par with
    | Some p => 0 <= p < BTree.next_page_id b0 /\
                level (BTree.frames b0 p) <> 0
    | None => True
    end ->
    exists c p' b',
      BTree.erase_descend fuel b cur par key = Done (c, p', b') /\
      BTree.frames b' = BTree.frames b0 /\
      0 <= c < BTree.next_page_id b0 /\
      level (BTree.frames b0 c) = 0 /\
      match p' with
      | Some p => 0 <= p < BTree.next_page_id b0 /\
                  level (BTree.frames b0 p) <> 0
      | None => True
      end.
Proof using.
  clear Hslack.
  intros ((_ & Hok & _) & _).
  induction fuel as [| f IH]; intros b cur par Hfr Hcur Hfuel Hpar.
  - destruct (Hok cur Hcur) as (_ & Hl & _). lia.
  - destruct (Hok cur Hcur) as (Hs & Hl & Hc & Hch).
    pose proof Hs as [Hlk Hlp]. unfold kCapacity in *.
    cbn [BTree.erase_descend]. rewrite Hfr. unfold is_leaf.
    destruct (Z.eqb_spec (level (BTree.frames b0 cur)) 0) as [Hz | Hnz];
      cbn [negb].
    + exists cur, par, b. split; [reflexivity |]. split; [exact Hfr |].
      split; [exact Hcur |]. split; [exact Hz | exact Hpar].
    + destruct (Hch Hnz) as (Hc1 & Hchild).
      destruct (search_any (BTree.frames b0 cur) key Hs
                  ltac:(unfold kCapacity; lia)) as (i & e & Hr & Hres).
      unfold BTree.navigate_to_child, BTree.get_initial_node,
        InnerNode.lower_bound.
      rewrite Hfr, Hr. cbn [bind].
      set (idx := if e then i
                  else wrap32 (count (BTree.frames b0 cur) - 1)).
      assert (Hidx : 0 <= idx < count (BTree.frames b0 cur)).
      { unfold idx. destruct Hres as [(-> & Hi & _) | (-> & _)]; [lia |].
        rewrite wrap32_small by lia. lia. }
      unfold children. rewrite rd_in by (rewrite Hlp; lia). cbn [bind].
      destruct (Hchild idx Hidx) as (Hcp & Hcl).
      fold (payload_at (BTree.frames b0 cur) idx).
      apply IH; [exact Hfr | exact Hcp | lia |].
      split; [exact Hcur | exact Hnz].
Qed.

(** [erase] returns on every well-formed tree. *)
Lemma erase_on_shape b h key fuel :
  structure_ok b h -> h < Z.of_nat fuel ->
  exists b', BTree.erase fuel b key = Done b'.
Proof using Hslack.
  intros Hst Hfuel.
  pose proof Hst as ((_ & Hok & _) & r & Hroot & Hr & Hrl).
  unfold BTree.erase, BTree.get_initial_node. rewrite Hroot.
  destruct (erase_descend_levels b h key Hst fuel
              (BTree.fix_page b r false) r None eq_refl Hr ltac:(lia) I)
    as (c & p' & b1 & Hrun & Hfr & Hc & Hlc & Hp').
  rewrite Hrun. cbn [bind]. rewrite Hfr.
  destruct (Hok c Hc) as (Hs & _ & Hcc & _).
  destruct (leaf_erase_returns (BTree.frames b c) key Hs Hcc)
    as (n' & w & Hers).
  rewrite Hers. cbn [bind].
  set (b2 := if w then BTree.store b1 c n' else b1).
  destruct p' as [p |]; [| cbn [bind]; eexists; reflexivity].
  destruct (count (BTree.frames b2 c) <=? 0);
    [| cbn [bind]; eexists; reflexivity].
  destruct Hp' as (Hp & Hlp).
  assert (Hsame : BTree.frames b2 p = BTree.frames b p).
  { unfold b2. destruct w; [| rewrite Hfr; reflexivity].
    cbn [BTree.frames BTree.store].
    destruct (Z.eqb_spec p c) as [-> | _]; [contradiction |].
    rewrite Hfr. reflexivity. }
  destruct (Hok p Hp) as (Hsp & _ & Hcp & _).
  destruct (remove_from_parent_returns b2 key p) as (b3 & Hrm);
    [rewrite Hsame; exact Hsp | rewrite Hsame; exact Hcp |].
  rewrite Hrm. cbn [bind]. eexists. reflexivity.
Qed.

End EraseOnShape.

(** * The claims *)

(** Closed statements about scenarios are settled by running the model. *)
Ltac evaluate_all :=
  repeat match goal with |- _ /\ _ => split end;
  vm_compute; reflexivity.

(** ** C1: round trip *)

(** C1 holds for sequences of pairwise distinct keys and fails, on the
    code, for a sequence that inserts a key twice.

    First part: after [insert] of the pairs [kvs], whose keys are pairwise
    distinct, in this order into a fresh tree, [lookup(k)] returns the
    value inserted for [k], for every inserted [k], and is empty for every
    other key: every lookup returns what the finite map [map_of kvs] holds.
    The inserts and the lookups return, whatever the order of the keys and
    however many leaves and inner nodes are split.  (Proved for fewer than
    [2^16] pairs and a loop budget of [2 * length kvs + 2]; the leaf split
    reads [values[42]], see C9, and the result holds for every value read
    there.)

    Second part: after inserting 0 .. 41 (each with itself as value) and
    then [(21, 100)], [lookup(21)] returns 21, not the value 100 inserted
    last for 21: the full leaf is split, the separator returned is its key
    21, and [insert] continues in the new right leaf because
    [key >= splitKey], while [lookup] descends left for
    [key == separator]. *)
Theorem round_trip_needs_distinct_keys (j : Z) :
  (forall kvs fuel,
      distinct (map fst kvs) = true ->
      Z.of_nat (length kvs) < 65536 ->
      2 * Z.of_nat (length kvs) + 2 <= Z.of_nat fuel ->
      exists b,
        insert_all (sl := page_slack j) fuel BTree.create kvs = Done b /\
        (forall k, lookup_value (sl := page_slack j) fuel b k
                   = Done (map_of kvs k)) /\
        (forall k v, In (k, v) kvs ->
                     lookup_value (sl := page_slack j) fuel b k
                     = Done (Some v))) /\
  reinsert_scenario (sl := page_slack j) = Done (Some 21).
Proof.
  split.
  - intros kvs fuel. apply round_trip.
  - vm_compute. reflexivity.
Qed.

Lemma round_trip_needs_distinct_keys_witness :
  (distinct (map fst [(5, 50); (3, 30); (9, 90)]) = true /\
   Z.of_nat (length [(5, 50); (3, 30); (9, 90)]) < 65536 /\
   2 * Z.of_nat (length [(5, 50); (3, 30); (9, 90)]) + 2 <= Z.of_nat 8) /\
  (exists b,
      insert_all (sl := page_slack 0) 8 BTree.create
        [(5, 50); (3, 30); (9, 90)] = Done b /\
      (forall k, lookup_value (sl := page_slack 0) 8 b k
                 = Done (map_of [(5, 50); (3, 30); (9, 90)] k)) /\
      (forall k v, In (k, v) [(5, 50); (3, 30); (9, 90)] ->
                   lookup_value (sl := page_slack 0) 8 b k
                   = Done (Some v))) /\
  reinsert_scenario (sl := page_slack 0) = Done (Some 21).
Proof.
  split; [split; [reflexivity | split; simpl; lia] |].
  split.
  - apply (proj1 (round_trip_needs_distinct_keys 0)
             [(5, 50); (3, 30); (9, 90)] 8%nat);
      [reflexivity | simpl; lia | simpl; lia].
  - apply (proj2 (round_trip_needs_distinct_keys 0)).
Defined.

(** For comparison, the ascending scenario of the specification (keys
    0 .. 99, pairwise distinct) does round-trip, and [lookup(100)] is
    empty. *)
Lemma ascending_inserts_round_trip (j : Z) :
  ascending_scenario (sl := page_slack j) = Done (true, None).
Proof. vm_compute. reflexivity. Qed.

(** ** C2: upsert *)

(** C2 fails on the code.  With the 41 keys 0 .. 20, 22 .. 41 in the root
    leaf, [insert(21, 1)] fills it with 21 at position 21; [insert(21, 2)]
    then splits the leaf and stores a second entry for 21 in the right leaf:
    [lookup(21)] returns 1, and the number of entries grows from 42 to 43. *)
Theorem upsert_into_full_leaf_adds_entry (j : Z) :
  upsert_scenario (sl := page_slack j)
  = Done (Some 1, 42%nat, 43%nat, [(21, 1); (21, 2)]).
Proof. vm_compute. reflexivity. Qed.

(** ** C5: the contract of [lower_bound] *)

(** C5, as stated, does not hold: on the leaf holding the single key 10,
    [lower_bound(5)] returns position 0 with the flag set although the key at
    position 0 is not 5. *)
Lemma lower_bound_flag_without_exact_match :
  LeafNode.lower_bound (sl := strict) one_key_leaf 5 = Done (0, true) /\
  key_at one_key_leaf 0 <> 5 /\
  ~ lower_bound_as_stated one_key_leaf 5
      (LeafNode.lower_bound (sl := strict) one_key_leaf 5).
Proof.
  split; [reflexivity |]. split; [discriminate |].
  intros (i & b & Hr & _ & Hb).
  vm_compute in Hr. inversion Hr; subst i b.
  destruct Hb as [Hb _]. destruct (Hb eq_refl) as [_ Hk].
  vm_compute in Hk. discriminate.
Qed.

(** C5, amended: on a node whose [keys[0 .. count - 1)] are strictly
    increasing, whatever its slot [keys[count - 1]] holds, [lower_bound(k)]
    of a leaf and of an inner node returns the first index in [[0, count)]
    whose key is [>= k], or [count] when [k] is larger than all of them;
    the flag is set exactly when that index is below [count], that is when
    some key in [keys[0 .. count)] is [>= k], whether or not it equals [k].
    The hypothesis is what an inner node keeps sorted, its [count - 1]
    separators, and less than a leaf keeps sorted, all its [count] keys. *)
Theorem lower_bound_first_not_less {sl : Slack} (n : Node) (key : Z) :
  array_shape n -> 0 <= count n <= kCapacity ->
  keys_increasing n (count n - 1) ->
  lower_bound_contract n key (LeafNode.lower_bound n key) /\
  lower_bound_contract n key (InnerNode.lower_bound n key).
Proof.
  intros [Hk _] Hc Hinc.
  assert (Hlen : count n <= Z.of_nat (length (keys n)))
    by (rewrite Hk; unfold kCapacity in *; lia).
  assert (Hres : lower_bound_contract n key (lower_bound_search n key)).
  { destruct (lower_bound_search_separators n key) as (i & Hr & Hi).
    - lia.
    - unfold kCapacity in Hc; lia.
    - apply keys_increasing_ordered; [lia | assumption].
    - exists i, (i <? count n). split; [exact Hr |]. split; [exact Hi |].
      apply Z.ltb_lt. }
  split; exact Hres.
Qed.

Lemma lower_bound_first_not_less_witness :
  (array_shape three_key_leaf /\
   0 <= count three_key_leaf <= kCapacity /\
   keys_increasing three_key_leaf (count three_key_leaf - 1) /\
   lower_bound_contract three_key_leaf 15
     (LeafNode.lower_bound (sl := strict) three_key_leaf 15)) /\
  (array_shape (inner_of 1 [10; 30] [1; 2; 3]) /\
   0 <= count (inner_of 1 [10; 30] [1; 2; 3]) <= kCapacity /\
   keys_increasing (inner_of 1 [10; 30] [1; 2; 3])
     (count (inner_of 1 [10; 30] [1; 2; 3]) - 1) /\
   firstn 3 (keys (inner_of 1 [10; 30] [1; 2; 3])) = [10; 30; 0] /\
   lower_bound_contract (inner_of 1 [10; 30] [1; 2; 3]) 40
     (InnerNode.lower_bound (sl := strict) (inner_of 1 [10; 30] [1; 2; 3])
        40)).
Proof.
  assert (Hs : array_shape three_key_leaf) by (split; reflexivity).
  assert (Hc : 0 <= count three_key_leaf <= kCapacity)
    by (simpl; unfold kCapacity; lia).
  assert (Hi : keys_increasing three_key_leaf (count three_key_leaf - 1))
    by reflexivity.
  assert (Hs' : array_shape (inner_of 1 [10; 30] [1; 2; 3]))
    by (split; reflexivity).
  assert (Hc' : 0 <= count (inner_of 1 [10; 30] [1; 2; 3]) <= kCapacity)
    by (simpl; unfold kCapacity; lia).
  assert (Hi' : keys_increasing (inner_of 1 [10; 30] [1; 2; 3])
                  (count (inner_of 1 [10; 30] [1; 2; 3]) - 1))
    by reflexivity.
  split.
  - split; [exact Hs |]. split; [exact Hc |]. split; [exact Hi |].
    exact (proj1 (@lower_bound_first_not_less strict three_key_leaf 15
                    Hs Hc Hi)).
  - split; [exact Hs' |]. split; [exact Hc' |]. split; [exact Hi' |].
    split; [reflexivity |].
    exact (proj2 (@lower_bound_first_not_less strict
                    (inner_of 1 [10; 30] [1; 2; 3]) 40 Hs' Hc' Hi')).
Defined.

(** ** C10: the first insert *)

(** C10: on a tree without root whose page 0 is zero-filled, [insert(k, v)]
    returns, sets [root] to page 0 and [next_page_id] to 1, and leaves page 0
    a leaf (level 0) with count 1 holding exactly the pair [(k, v)]; no other
    page changes.  The header of page 0 is taken as found, never
    initialised: on a page 0 that still holds three keys the same call yields
    count 4. *)
Theorem insert_into_empty_tree {sl : Slack} (b : BTree.t)
  (key value : Z) (fuel : nat) :
  BTree.root b = None -> BTree.frames b 0 = zero_page ->
  (exists b',
     BTree.insert (S fuel) b key value = Done b' /\
     BTree.root b' = Some 0 /\ BTree.next_page_id b' = 1 /\
     level (BTree.frames b' 0) = 0 /\ count (BTree.frames b' 0) = 1 /\
     LeafNode.get_key_vector (BTree.frames b' 0) = Done [key] /\
     LeafNode.get_value_vector (BTree.frames b' 0) = Done [value] /\
     forall p, p <> 0 -> BTree.frames b' p = BTree.frames b p) /\
  (exists b',
     BTree.insert (S fuel) stale_page_tree 40 1 = Done b' /\
     count (BTree.frames b' 0) = 4).
Proof.
  intros Hroot Hzero. split.
  - unfold BTree.insert. rewrite Hroot. cbn [BTree.root BTree.insert_loop].
    unfold BTree.insert_iter.
    cbn [BTree.frames BTree.fix_page BTree.log]. rewrite Hzero.
    eexists. split; [reflexivity |].
    cbn [BTree.root BTree.next_page_id BTree.frames BTree.unfix_page
         BTree.log BTree.store].
    rewrite Z.eqb_refl.
    repeat split; try reflexivity.
    intros p Hp. apply Z.eqb_neq in Hp. rewrite Hp. reflexivity.
  - eexists. split; reflexivity.
Qed.

Lemma insert_into_empty_tree_witness :
  BTree.root BTree.create = None /\
  BTree.frames BTree.create 0 = zero_page /\
  exists b',
    BTree.insert (sl := strict) 1 BTree.create 7 70 = Done b' /\
    BTree.root b' = Some 0 /\ BTree.next_page_id b' = 1 /\
    level (BTree.frames b' 0) = 0 /\ count (BTree.frames b' 0) = 1 /\
    LeafNode.get_key_vector (sl := strict) (BTree.frames b' 0) = Done [7] /\
    LeafNode.get_value_vector (sl := strict) (BTree.frames b' 0)
    = Done [70] /\
    forall p, p <> 0 -> BTree.frames b' p = BTree.frames BTree.create p.
Proof.
  split; [reflexivity |]. split; [reflexivity |].
  apply (@insert_into_empty_tree strict BTree.create 7 70 0);
    reflexivity.
Defined.

(** ** C3: splitting a full node *)

(** C3, as stated, does not hold.  Splitting the full leaf with keys
    0 .. 41 leaves 22 entries in the left half, not
    [floor((42 - 1) / 2) = 20], and returns the separator 21, which is a key
    of the left half and so not greater than every key there.  Splitting
    the full inner node with separators 10, 20, .., 410 returns the separator
    210, which afterwards is a separator of neither half. *)
Lemma full_node_split_not_as_stated :
  ~ leaf_split_as_stated full_leaf
      (LeafNode.split (sl := page_slack 0) full_leaf zero_page) /\
  ~ inner_split_as_stated full_inner
      (InnerNode.split (sl := strict) full_inner zero_page).
Proof.
  split.
  - intros (sep & l & r & Hr & _ & _ & _ & Hcount & _).
    vm_compute in Hr. inversion Hr; subst sep l r.
    vm_compute in Hcount. discriminate.
  - intros (sep & l & r & Hr & Hone & _).
    vm_compute in Hr. inversion Hr; subst sep l r.
    assert (Hin : In 210 (inner_keys full_inner)).
    { apply (nth_In (inner_keys full_inner) 0 (n := 20)).
      vm_compute. lia. }
    destruct (Hone 210 Hin) as [[Hl _] | [_ Hrt]].
    + revert Hl. apply not_In_by_test. reflexivity.
    + revert Hrt. apply not_In_by_test. reflexivity.
Qed.

(** C3, amended: when a full node ([count = 42]) with strictly increasing
    keys is split, both halves have [count >= 1].  For a leaf, the new right
    page receives [floor((count - 1) / 2) = 20] entries and the left half
    retains the other 22; every key (with its value) formerly in the leaf is
    in exactly one of the two halves; the returned separator is the largest
    key of the left half, so every key of the left half is [<=] the
    separator, which is [<] every key of the right half.  For an inner node,
    each half gets 21 children in order and keeps the level; the returned
    separator is removed from the node, the separators below it stay in the
    left half and are [<] it, those above go to the right half and are [>]
    it. *)
Theorem split_of_full_node (j : Z) (n buffer : Node) :
  array_shape n -> array_shape buffer -> count n = kCapacity ->
  (keys_increasing n (count n) ->
   leaf_split_contract n (LeafNode.split (sl := page_slack j) n buffer)) /\
  (keys_increasing n (count n - 1) ->
   inner_split_contract n (InnerNode.split (sl := page_slack j) n buffer) /\
   inner_split_contract n (InnerNode.split (sl := strict) n buffer)).
Proof.
  intros Hs Hb Hc. split.
  - intros Hinc. apply leaf_split_contract_full; assumption.
  - intros Hinc. split; apply inner_split_contract_full; assumption.
Qed.

Lemma split_of_full_node_witness :
  leaf_split_contract full_leaf
    (LeafNode.split (sl := page_slack 0) full_leaf zero_page) /\
  inner_split_contract full_inner
    (InnerNode.split (sl := strict) full_inner zero_page).
Proof.
  split.
  - apply (split_of_full_node 0 full_leaf zero_page);
      [split; reflexivity | split; reflexivity | reflexivity | reflexivity].
  - apply (split_of_full_node 0 full_inner zero_page);
      [split; reflexivity | split; reflexivity | reflexivity | reflexivity].
Defined.

(** ** C9: the accesses of the mutation helpers *)

(** C9 fails on the code.  With checked indexing, on nodes with
    [count = kCapacity = 42]: the data transfer of [LeafNode::split] reads
    [values[42]], the left shift of [LeafNode::erase] reads [keys[42]], and
    the separator removal of [remove_from_parent] reads [keys[42]]; index 42
    is outside the 42-element arrays.  With the slot past the end readable,
    the same calls return. *)
Theorem helpers_read_index_42_of_full_nodes :
  count full_leaf = kCapacity /\ count full_inner = kCapacity /\
  in_bounds (values full_leaf) 42 = false /\
  LeafNode.split (sl := strict) full_leaf zero_page = Fault /\
  LeafNode.transferDataToNewLeaf (sl := strict)
    (fst (LeafNode.createAndInitializeLeaf full_leaf zero_page 20)) 20
    (snd (LeafNode.createAndInitializeLeaf full_leaf zero_page 20)) = Fault /\
  LeafNode.moveDataToLeftFrom (sl := strict) full_leaf 5 = Fault /\
  LeafNode.erase (sl := strict) full_leaf 5 = Fault /\
  BTree.remove_from_parent (sl := strict) full_root_tree 20 2 = Fault /\
  (exists r, LeafNode.split (sl := page_slack 0) full_leaf zero_page = Done r) /\
  (exists r, LeafNode.erase (sl := page_slack 0) full_leaf 5 = Done r) /\
  (exists r, BTree.remove_from_parent (sl := page_slack 0) full_root_tree 20 2
             = Done r) /\
  LeafNode.erase (sl := strict) (set_count full_leaf 41) 5
  = LeafNode.erase (sl := page_slack 0) (set_count full_leaf 41) 5.
Proof.
  repeat split; try reflexivity; eexists; vm_compute; reflexivity.
Qed.

(** ** C4: erase *)

(** C4 fails on the code.  After inserting 1 .. 43 and erasing them in
    increasing order, [lookup(5)] returns empty.  [erase(0)], of a key never
    inserted, reaches the empty right leaf, and because that leaf has
    [count == 0] the parent is searched for 0: its only key slot holds 0
    (left there by the earlier separator removal), so the root's last child
    is removed and its count becomes 0.  [lookup(5)] then indexes
    [children[count - 1]] with [count = 0] and leaves the array.  The second
    scenario shows the effect of the duplicate left by the split path of
    [insert]: after [erase(21)] empties the left leaf, [lookup(21)] finds
    the copy in the right leaf. *)
Theorem erase_of_absent_key_breaks_lookup (j : Z) :
  erase_absent_before (sl := page_slack j) = Done None /\
  erase_absent_after (sl := page_slack j) = Fault /\
  erase_absent_root (sl := page_slack j) = Done (1, 0) /\
  erase_duplicate_scenario (sl := page_slack j) = Done (Some 100).
Proof. evaluate_all. Qed.

(** ** C7: the node invariants *)

(** C7 fails on the code.  The root leaf with keys 0 .. 41 satisfies the
    invariants; after [insert(21, 100)] each leaf is still increasing and
    within capacity, but key 21 is in both leaves. *)
Theorem insert_duplicates_separator_key (j : Z) :
  invariant_scenario (sl := page_slack j)
  = Done (true, true, true, (true, true, false),
          zrange 0 22, zrange 21 21).
Proof. vm_compute. reflexivity. Qed.

(** ** C8: dirty flags and pins *)

(** C8 fails on the code.  [lookup] is read-only (first part; in general
    by [lookup_only_reads]).  In [erase], the parent is unfixed, clean, by
    [navigate_to_child] before [remove_from_parent] writes it: the write to
    page 2 comes after its release and is never followed by a dirty release.
    In [insert], the branch that splits an inner root does not set
    [parentIsDirty]: the new root, page 44, is written and released clean,
    and so is the new inner node, page 43, once it has become the parent.
    The branch that splits a leaf root sets the flag and releases all it
    wrote as dirty. *)
Theorem writes_released_clean_or_unpinned (j : Z) :
  (h <- lookup_history (sl := page_slack j) ;; Done (read_only h))
  = Done true /\
  erase_history (sl := page_slack j)
  = Done [FixPage 2 false; UnfixPage 2 false; FixPage 0 false;
          WritePage 0; WritePage 2; UnfixPage 0 true] /\
  (h <- erase_history (sl := page_slack j) ;;
   Done (writes_while_pinned [] h, writes_released_dirty h))
  = Done (false, false) /\
  inner_root_split_history (sl := page_slack j)
  = Done (1, 42,
          [FixPage 2 true; FixPage 43 true; WritePage 43; WritePage 2;
           FixPage 44 true; WritePage 44; UnfixPage 2 true;
           UnfixPage 44 false; FixPage 42 true; WritePage 42;
           UnfixPage 42 true; UnfixPage 43 false]) /\
  ('(_, _, h) <- inner_root_split_history (sl := page_slack j) ;;
   Done (writes_while_pinned [] h, writes_released_dirty h))
  = Done (true, false) /\
  (h <- leaf_root_split_history (sl := page_slack j) ;;
   Done (writes_while_pinned [] h, writes_released_dirty h))
  = Done (true, true).
Proof. evaluate_all. Qed.

(** ** C6: a split without parent creates a new root *)




(** * Further properties of the code *)

(** ** The binary search on arbitrary contents *)

(** X1.  [lower_bound] of either node kind returns on every page whose
    [count] is within the capacity, whatever the keys are (sorted or not),
    with checked indexing: it never reads outside the key array and its
    loop ends.  The result is either a position inside the node whose key
    is [>= key], with the flag set, or [count] with the flag clear. *)
Theorem lower_bound_stays_in_bounds (n : Node) (key : Z) :
  array_shape n -> 0 <= count n <= kCapacity ->
  exists i f,
    LeafNode.lower_bound (sl := strict) n key = Done (i, f) /\
    InnerNode.lower_bound (sl := strict) n key = Done (i, f) /\
    ((f = true /\ 0 <= i < count n /\ key <= key_at n i) \/
     (f = false /\ i = count n)).
Proof.
  intros Hs Hc.
  destruct (search_any (sl := strict) n key Hs Hc) as (i & f & Hr & Hres).
  exists i, f. split; [exact Hr |]. split; [exact Hr | exact Hres].
Qed.

Lemma lower_bound_stays_in_bounds_witness :
  array_shape (leaf_of [(30, 1); (10, 2); (20, 3)]) /\
  0 <= count (leaf_of [(30, 1); (10, 2); (20, 3)]) <= kCapacity /\
  exists i f,
    LeafNode.lower_bound (sl := strict)
      (leaf_of [(30, 1); (10, 2); (20, 3)]) 25 = Done (i, f) /\
    InnerNode.lower_bound (sl := strict)
      (leaf_of [(30, 1); (10, 2); (20, 3)]) 25 = Done (i, f) /\
    ((f = true /\ 0 <= i < count (leaf_of [(30, 1); (10, 2); (20, 3)]) /\
      25 <= key_at (leaf_of [(30, 1); (10, 2); (20, 3)]) i) \/
     (f = false /\ i = count (leaf_of [(30, 1); (10, 2); (20, 3)]))).
Proof.
  assert (Hs : array_shape (leaf_of [(30, 1); (10, 2); (20, 3)]))
    by (split; reflexivity).
  assert (Hc : 0 <= count (leaf_of [(30, 1); (10, 2); (20, 3)]) <= kCapacity)
    by (simpl; unfold kCapacity; lia).
  split; [exact Hs |]. split; [exact Hc |].
  exact (lower_bound_stays_in_bounds (leaf_of [(30, 1); (10, 2); (20, 3)])
           25 Hs Hc).
Defined.

(** ** The leaf operations as operations on the entries *)

(** X2.  [LeafNode::insert] on a leaf with room whose keys are strictly
    increasing is an upsert: it returns a leaf, still strictly increasing,
    whose entries are those of the old leaf with [key] bound to [value];
    the count grows by one exactly when the key was not there.  The
    entries are what [get_key_vector] and [get_value_vector] return. *)
Theorem leaf_insert_is_upsert {sl : Slack} (n : Node) (key value : Z) :
  array_shape n -> 0 <= count n < kCapacity ->
  keys_increasing n (count n) ->
  exists n',
    LeafNode.insert n key value = Done n' /\
    array_shape n' /\ level n' = level n /\
    keys_increasing n' (count n') /\
    (forall k v, In (k, v) (leaf_entries n') <->
                 (k = key /\ v = value) \/
                 (k <> key /\ In (k, v) (leaf_entries n))) /\
    count n' = count n + (if existsb (Z.eqb key) (leaf_keys n) then 0 else 1)
    /\ LeafNode.get_key_vector n' = Done (leaf_keys n') /\
    LeafNode.get_value_vector n' = Done (leaf_values n').
Proof.
  intros Hs Hc Hinc. pose proof Hs as [Hlk _]. unfold kCapacity in *.
  assert (Hord : keys_ordered n (count n))
    by (apply keys_increasing_ordered; [rewrite Hlk; simpl; lia | exact Hinc]).
  destruct (leaf_insert_any n key value Hs ltac:(unfold kCapacity; lia) Hord)
    as (n' & Hins & Hs' & Hl' & Hc' & Hord' & _ & Hent & Hsame).
  exists n'. split; [exact Hins |]. split; [exact Hs' |].
  split; [exact Hl' |].
  split; [| split; [exact Hent | split;
    [| apply leaf_vectors; [exact Hs' | unfold kCapacity; lia]]]].
  - apply keys_ordered_increasing; [| exact Hord'].
    destruct Hs' as [Hlk' _]. rewrite Hlk'. simpl. lia.
  - destruct (existsb (Z.eqb key) (leaf_keys n)) eqn:He.
    + apply existsb_exists in He. destruct He as (k & Hin & Hk).
      apply Z.eqb_eq in Hk. subst k.
      apply (In_nth _ _ 0) in Hin. destruct Hin as (i & Hi & Hnth).
      unfold leaf_keys in Hi. rewrite length_firstn in Hi.
      assert (Hex : exists i, 0 <= i < count n /\ key_at n i = key).
      { exists (Z.of_nat i). split; [lia |].
        rewrite <- key_at_leaf_keys by lia. rewrite Nat2Z.id. exact Hnth. }
      apply (proj2 Hsame) in Hex. lia.
    + assert (Hno : count n' <> count n).
      { intros Heq. destruct (proj1 Hsame Heq) as (i & Hi & Hki).
        assert (Hin : In key (leaf_keys n)).
        { rewrite <- Hki, <- key_at_leaf_keys by lia. apply nth_In.
          unfold leaf_keys. rewrite length_firstn. lia. }
        assert (Ht : existsb (Z.eqb key) (leaf_keys n) = true).
        { apply existsb_exists. exists key. split; [exact Hin |].
          apply Z.eqb_refl. }
        congruence. }
      lia.
Qed.

Lemma leaf_insert_is_upsert_witness :
  array_shape three_key_leaf /\
  0 <= count three_key_leaf < kCapacity /\
  keys_increasing three_key_leaf (count three_key_leaf) /\
  exists n',
    LeafNode.insert (sl := strict) three_key_leaf 20 5 = Done n' /\
    array_shape n' /\ level n' = level three_key_leaf /\
    keys_increasing n' (count n') /\
    (forall k v, In (k, v) (leaf_entries n') <->
                 (k = 20 /\ v = 5) \/
                 (k <> 20 /\ In (k, v) (leaf_entries three_key_leaf))) /\
    count n'
    = count three_key_leaf
      + (if existsb (Z.eqb 20) (leaf_keys three_key_leaf) then 0 else 1)
    /\ LeafNode.get_key_vector (sl := strict) n' = Done (leaf_keys n') /\
    LeafNode.get_value_vector (sl := strict) n' = Done (leaf_values n').
Proof.
  assert (Hs : array_shape three_key_leaf) by (split; reflexivity).
  assert (Hc : 0 <= count three_key_leaf < kCapacity)
    by (simpl; unfold kCapacity; lia).
  assert (Hi : keys_increasing three_key_leaf (count three_key_leaf))
    by reflexivity.
  split; [exact Hs |]. split; [exact Hc |]. split; [exact Hi |].
  exact (@leaf_insert_is_upsert strict three_key_leaf 20 5 Hs Hc Hi).
Defined.

(** X3.  [LeafNode::erase] on a leaf whose keys are strictly increasing
    removes the entry of [key] and nothing else: the entries of the result
    are those of the old leaf except the one with that key, and the keys
    stay strictly increasing.  The leaf is written exactly when it holds
    the key; a leaf that does not hold it is returned as it is.  A full
    leaf needs the slot past its arrays to be readable (the shift reads
    [keys[count]] and [values[count]]). *)
Theorem leaf_erase_removes_key {sl : Slack} (n : Node) (key : Z) :
  array_shape n -> 0 <= count n <= kCapacity ->
  count n < kCapacity \/ past_end <> None ->
  keys_increasing n (count n) ->
  exists n' written,
    LeafNode.erase n key = Done (n', written) /\
    array_shape n' /\ level n' = level n /\
    keys_increasing n' (count n') /\
    (forall k v, In (k, v) (leaf_entries n') <->
                 k <> key /\ In (k, v) (leaf_entries n)) /\
    count n' = count n - (if existsb (Z.eqb key) (leaf_keys n) then 1 else 0)
    /\ written = existsb (Z.eqb key) (leaf_keys n)
    /\ (written = false -> n' = n).
Proof.
  intros Hs Hc Hroom Hinc. pose proof Hs as [Hlk _]. unfold kCapacity in *.
  assert (Hord : keys_ordered n (count n))
    by (apply keys_increasing_ordered; [rewrite Hlk; simpl; lia | exact Hinc]).
  destruct (leaf_erase_any n key Hs ltac:(unfold kCapacity; lia) Hroom Hord)
    as (n' & w & Hers & Hs' & Hl' & Hc' & Hlr & Hent & Hw & Hsame).
  assert (Hwritten : w = true -> count n' = count n - 1).
  { intros ->.
    destruct (leaf_erase_closed n key Hs ltac:(unfold kCapacity; lia) Hroom
                Hord) as (pos & _ & Hif).
    destruct ((pos <? count n) && (key_at n pos =? key)).
    - destruct Hif as (n2 & Hers2 & _ & _ & Hc2 & _).
      rewrite Hers in Hers2. injection Hers2 as <-. exact Hc2.
    - rewrite Hers in Hif. discriminate Hif. }
  assert (Hcount : count n' = count n
                   - (if existsb (Z.eqb key) (leaf_keys n) then 1 else 0)).
  { destruct (existsb (Z.eqb key) (leaf_keys n)) eqn:He.
    - apply existsb_exists in He. destruct He as (k & Hin & Hk).
      apply Z.eqb_eq in Hk. subst k.
      apply (In_nth _ _ 0) in Hin. destruct Hin as (i & Hi & Hnth).
      unfold leaf_keys in Hi. rewrite length_firstn in Hi.
      assert (Hno : count n' <> count n).
      { intros Heq. apply (proj1 Hsame Heq (Z.of_nat i)); [lia |].
        rewrite <- key_at_leaf_keys by lia. rewrite Nat2Z.id. exact Hnth. }
      lia.
    - assert (Heq : count n' = count n).
      { apply (proj2 Hsame). intros i Hi Hki.
        assert (Hin : In key (leaf_keys n)).
        { rewrite <- Hki, <- key_at_leaf_keys by lia. apply nth_In.
          unfold leaf_keys. rewrite length_firstn. lia. }
        assert (Ht : existsb (Z.eqb key) (leaf_keys n) = true).
        { apply existsb_exists. exists key. split; [exact Hin |].
          apply Z.eqb_refl. }
        congruence. }
      lia. }
  exists n', w. split; [exact Hers |]. split; [exact Hs' |].
  split; [exact Hl' |].
  split; [| split; [exact Hent | split; [exact Hcount |
    split; [| exact Hw]]]].
  - apply keys_ordered_increasing.
    + destruct Hs' as [Hlk' _]. rewrite Hlk'. simpl. lia.
    + apply (Hlr (None, None)). split; [exact Hord |].
      intros; split; exact I.
  - destruct w.
    + specialize (Hwritten eq_refl).
      destruct (existsb (Z.eqb key) (leaf_keys n)); [reflexivity | lia].
    + rewrite (Hw eq_refl) in Hcount.
      destruct (existsb (Z.eqb key) (leaf_keys n)); [lia | reflexivity].
Qed.

Lemma leaf_erase_removes_key_witness :
  array_shape three_key_leaf /\
  0 <= count three_key_leaf <= kCapacity /\
  (count three_key_leaf < kCapacity \/ past_end (Slack := strict) <> None) /\
  keys_increasing three_key_leaf (count three_key_leaf) /\
  exists n' written,
    LeafNode.erase (sl := strict) three_key_leaf 20 = Done (n', written) /\
    array_shape n' /\ level n' = level three_key_leaf /\
    keys_increasing n' (count n') /\
    (forall k v, In (k, v) (leaf_entries n') <->
                 k <> 20 /\ In (k, v) (leaf_entries three_key_leaf)) /\
    count n'
    = count three_key_leaf
      - (if existsb (Z.eqb 20) (leaf_keys three_key_leaf) then 1 else 0)
    /\ written = existsb (Z.eqb 20) (leaf_keys three_key_leaf)
    /\ (written = false -> n' = three_key_leaf).
Proof.
  assert (Hs : array_shape three_key_leaf) by (split; reflexivity).
  assert (Hc : 0 <= count three_key_leaf <= kCapacity)
    by (simpl; unfold kCapacity; lia).
  assert (Hr : count three_key_leaf < kCapacity \/
               past_end (Slack := strict) <> None)
    by (left; simpl; unfold kCapacity; lia).
  assert (Hi : keys_increasing three_key_leaf (count three_key_leaf))
    by reflexivity.
  split; [exact Hs |]. split; [exact Hc |]. split; [exact Hr |].
  split; [exact Hi |].
  exact (@leaf_erase_removes_key strict three_key_leaf 20 Hs Hc Hr Hi).
Defined.

(** ** The inner node insert, on the separator and child vectors *)

(** X4.  [InnerNode::insert] on an inner node with at least two children,
    room, and strictly increasing separators puts [sep] before the first
    separator that is [>= sep] (at the end when there is none) and [page]
    right after the child at that position; the other separators and
    children keep their order.  When [sep] is not yet a separator the
    separators stay strictly increasing.  The separators and children are
    what [get_key_vector] and [get_child_vector] return. *)
Theorem inner_insert_keeps_order {sl : Slack} (n : Node) (sep page : Z) :
  array_shape n -> 2 <= count n < kCapacity ->
  keys_increasing n (count n - 1) ->
  exists n' c,
    InnerNode.insert n sep page = Done n' /\
    level n' = level n /\ count n' = count n + 1 /\
    covering_child n sep c /\
    inner_keys n' = list_insert_at c sep (inner_keys n) /\
    inner_children n' = list_insert_at (c + 1) page (inner_children n) /\
    (existsb (Z.eqb sep) (inner_keys n) = false ->
     keys_increasing n' (count n' - 1)) /\
    InnerNode.get_key_vector n' = Done (inner_keys n') /\
    InnerNode.get_child_vector n' = Done (inner_children n').
Proof.
  intros Hs Hc Hinc. pose proof Hs as [Hlk Hlp]. unfold kCapacity in *.
  assert (Hord : keys_ordered n (count n - 1))
    by (apply keys_increasing_ordered; [rewrite Hlk; simpl; lia | exact Hinc]).
  destruct (inner_search_covering_child n sep) as (i & f & _ & Hcov);
    [rewrite Hlk; simpl; lia | lia | exact Hord |].
  set (c := if f then i else count n - 1) in *.
  destruct (inner_insert_positions n sep page c Hs
              ltac:(unfold kCapacity; lia) Hord Hcov)
    as (n' & Hins & Hs' & Hl' & Hc' & Hkeys & Hch).
  pose proof Hcov as (Hcr & Hbelow & Habove).
  pose proof Hs' as [Hlk' Hlp']. unfold kCapacity in Hlk', Hlp'.
  assert (Hlen : length (inner_keys n) = Z.to_nat (count n - 1))
    by (unfold inner_keys; rewrite length_firstn; lia).
  assert (Hlen' : length (inner_keys n') = Z.to_nat (count n))
    by (unfold inner_keys; rewrite length_firstn; lia).
  assert (Hlch : length (inner_children n) = Z.to_nat (count n))
    by (unfold inner_children, children; rewrite length_firstn; lia).
  assert (Hlch' : length (inner_children n') = Z.to_nat (count n + 1))
    by (unfold inner_children, children; rewrite length_firstn; lia).
  exists n', c. split; [exact Hins |]. split; [exact Hl' |].
  split; [exact Hc' |]. split; [exact Hcov |].
  split; [| split; [| split;
    [| apply inner_vectors; [exact Hs' | unfold kCapacity; lia]]]].
  - apply (nth_ext _ _ 0 0).
    + unfold list_insert_at. rewrite Hlen', length_app. simpl.
      rewrite length_firstn, length_skipn, Hlen. lia.
    + intros k Hk. rewrite Hlen' in Hk.
      replace k with (Z.to_nat (Z.of_nat k)) by lia.
      rewrite key_at_inner_keys by lia.
      rewrite nth_list_insert_at by lia.
      rewrite (Hkeys (Z.of_nat k)) by lia.
      destruct (Z.ltb_spec (Z.of_nat k) c).
      * rewrite key_at_inner_keys by lia. reflexivity.
      * destruct (Z.eqb_spec (Z.of_nat k) c); [reflexivity |].
        rewrite key_at_inner_keys by lia. reflexivity.
  - apply (nth_ext _ _ 0 0).
    + unfold list_insert_at. rewrite Hlch', length_app. simpl.
      rewrite length_firstn, length_skipn, Hlch. lia.
    + intros k Hk. rewrite Hlch' in Hk.
      replace k with (Z.to_nat (Z.of_nat k)) by lia.
      rewrite payload_at_inner_children by lia.
      rewrite nth_list_insert_at by lia.
      rewrite (Hch (Z.of_nat k)) by lia.
      destruct (Z.ltb_spec (Z.of_nat k) (c + 1)).
      * rewrite payload_at_inner_children by lia. reflexivity.
      * destruct (Z.eqb_spec (Z.of_nat k) (c + 1)); [reflexivity |].
        rewrite payload_at_inner_children by lia. reflexivity.
  - intros Hnew.
    assert (Hne : forall k, 0 <= k < count n - 1 -> key_at n k <> sep).
    { intros k Hk He.
      assert (Ht : existsb (Z.eqb sep) (inner_keys n) = true).
      { apply existsb_exists. exists sep. split; [| apply Z.eqb_refl].
        rewrite <- He, <- key_at_inner_keys by lia. apply nth_In. lia. }
      congruence. }
    apply keys_ordered_increasing; [rewrite Hlk'; simpl; lia |].
    rewrite Hc'. replace (count n + 1 - 1) with (count n) by lia.
    intros a d Ha Hd.
    rewrite (Hkeys a), (Hkeys d) by lia.
    destruct (Z.ltb_spec a c), (Z.ltb_spec d c); try lia.
    + apply Hord; lia.
    + destruct (Z.eqb_spec d c).
      * apply Hbelow; lia.
      * pose proof (Hbelow a ltac:(lia)).
        pose proof (Habove ltac:(lia)).
        destruct (Z.eq_dec (d - 1) c) as [He | He].
        -- rewrite He. lia.
        -- pose proof (Hord c (d - 1) ltac:(lia) ltac:(lia)). lia.
    + destruct (Z.eqb_spec a c).
      * destruct (Z.eqb_spec d c); [lia |].
        pose proof (Habove ltac:(lia)).
        pose proof (Hne c ltac:(lia)).
        destruct (Z.eq_dec (d - 1) c) as [He | He].
        -- rewrite He. lia.
        -- pose proof (Hord c (d - 1) ltac:(lia) ltac:(lia)). lia.
      * destruct (Z.eqb_spec d c); [lia |].
        apply Hord; lia.
Qed.

Lemma inner_insert_keeps_order_witness :
  array_shape (inner_of 1 [10; 30] [1; 2; 3]) /\
  2 <= count (inner_of 1 [10; 30] [1; 2; 3]) < kCapacity /\
  keys_increasing (inner_of 1 [10; 30] [1; 2; 3])
    (count (inner_of 1 [10; 30] [1; 2; 3]) - 1) /\
  exists n' c,
    InnerNode.insert (sl := strict) (inner_of 1 [10; 30] [1; 2; 3]) 20 4
    = Done n' /\
    level n' = level (inner_of 1 [10; 30] [1; 2; 3]) /\
    count n' = count (inner_of 1 [10; 30] [1; 2; 3]) + 1 /\
    covering_child (inner_of 1 [10; 30] [1; 2; 3]) 20 c /\
    inner_keys n'
    = list_insert_at c 20 (inner_keys (inner_of 1 [10; 30] [1; 2; 3])) /\
    inner_children n'
    = list_insert_at (c + 1) 4
        (inner_children (inner_of 1 [10; 30] [1; 2; 3])) /\
    (existsb (Z.eqb 20) (inner_keys (inner_of 1 [10; 30] [1; 2; 3])) = false
     -> keys_increasing n' (count n' - 1)) /\
    InnerNode.get_key_vector (sl := strict) n' = Done (inner_keys n') /\
    InnerNode.get_child_vector (sl := strict) n' = Done (inner_children n').
Proof.
  assert (Hs : array_shape (inner_of 1 [10; 30] [1; 2; 3]))
    by (split; reflexivity).
  assert (Hc : 2 <= count (inner_of 1 [10; 30] [1; 2; 3]) < kCapacity)
    by (simpl; unfold kCapacity; lia).
  assert (Hi : keys_increasing (inner_of 1 [10; 30] [1; 2; 3])
                 (count (inner_of 1 [10; 30] [1; 2; 3]) - 1))
    by reflexivity.
  split; [exact Hs |]. split; [exact Hc |]. split; [exact Hi |].
  exact (@inner_insert_keeps_order strict (inner_of 1 [10; 30] [1; 2; 3])
           20 4 Hs Hc Hi).
Defined.

(** ** The tree as a finite map *)

(** X5.  While fewer than 42 different keys are inserted, the tree behaves
    as a finite map under every sequence of [insert] and [erase] calls,
    with checked indexing and one iteration of fuel: starting from a fresh
    tree every call returns, and afterwards [lookup(k)] returns the value of
    the last [insert] of [k] that no [erase] of [k] followed, and nothing
    for every other key.  Inserting a key again replaces its value; erasing
    an absent key changes nothing. *)
Theorem small_tree_is_a_map {sl : Slack} (ops : list Op) (fuel : nat) :
  (0 < fuel)%nat ->
  Z.of_nat (length (nodup Z.eq_dec (inserted_keys ops))) < kCapacity ->
  exists b,
    run_ops fuel BTree.create ops = Done b /\
    forall k, lookup_value fuel b k = Done (map_after ops k).
Proof.
  intros Hfuel Hkeys.
  destruct (small_tree_run (inserted_keys ops) fuel Hfuel Hkeys ops
              BTree.create (fun _ => None) small_tree_fresh)
    as (b & Hrun & Hsmall).
  - intros k Hk. exfalso. apply Hk. reflexivity.
  - intros k Hk. exact Hk.
  - exists b. split; [exact Hrun |]. intros k.
    apply (small_tree_lookup b _ k fuel Hsmall Hfuel).
Qed.

Lemma small_tree_is_a_map_witness :
  (0 < 1)%nat /\
  Z.of_nat (length (nodup Z.eq_dec
     (inserted_keys [Insert 5 50; Insert 3 30; Erase 5; Insert 3 31;
                     Erase 9; Insert 7 70]))) < kCapacity /\
  exists b,
    run_ops (sl := strict) 1 BTree.create
      [Insert 5 50; Insert 3 30; Erase 5; Insert 3 31; Erase 9; Insert 7 70]
    = Done b /\
    forall k, lookup_value (sl := strict) 1 b k
              = Done (map_after
                        [Insert 5 50; Insert 3 30; Erase 5; Insert 3 31;
                         Erase 9; Insert 7 70] k).
Proof.
  assert (H1 : (0 < 1)%nat) by lia.
  assert (H2 : Z.of_nat (length (nodup Z.eq_dec
                 (inserted_keys [Insert 5 50; Insert 3 30; Erase 5;
                                 Insert 3 31; Erase 9; Insert 7 70])))
               < kCapacity) by (vm_compute; reflexivity).
  split; [exact H1 |]. split; [exact H2 |].
  exact (@small_tree_is_a_map strict
           [Insert 5 50; Insert 3 30; Erase 5; Insert 3 31; Erase 9;
            Insert 7 70] 1%nat H1 H2).
Defined.

(** X6.  After inserting [n < 65536] pairwise distinct keys into a fresh
    tree and then erasing up to 19 keys (present or not, repeated or not),
    with a loop budget of [2 * n + 2] iterations, every call has returned
    and [lookup] returns nothing for the erased keys and the inserted value
    for every other inserted key.  Every leaf other than the root holds at
    least 20 entries after the inserts, so none of these erases empties a
    leaf. *)
Theorem inserts_then_erases (j : Z) (kvs : list (Z * Z)) (ks : list Z)
  (fuel : nat) :
  distinct (map fst kvs) = true ->
  Z.of_nat (length kvs) < 65536 ->
  2 * Z.of_nat (length kvs) + 2 <= Z.of_nat fuel ->
  (length ks <= 19)%nat ->
  exists b,
    (b1 <- insert_all (sl := page_slack j) fuel BTree.create kvs ;;
     erase_all (sl := page_slack j) fuel b1 ks) = Done b /\
    forall k, lookup_value (sl := page_slack j) fuel b k
              = Done (if existsb (Z.eqb k) ks then None else map_of kvs k).
Proof.
  intros Hd Hlen Hfuel Hks.
  destruct kvs as [| kv kvs].
  - exists BTree.create. cbn [insert_all fold_left bind].
    split; [apply erase_all_without_root; reflexivity |].
    intros k. destruct (existsb (Z.eqb k) ks); reflexivity.
  - destruct (built_tree j kv kvs fuel Hd Hlen Hfuel)
      as (b1 & h & rng & Hins & Ht & Hh & Hfill).
    rewrite Hins. cbn [bind].
    destruct (erase_all_correct j h rng fuel ks b1 _ 20
                (tree_is_search_tree _ _ _ _ Ht) Hfill)
      as (b & Hrun & Ht' & _); [lia | lia |].
    exists b. split; [exact Hrun |]. intros k.
    rewrite (lookup_on_search_tree b h _ rng Ht') by lia.
    rewrite unbind_all. reflexivity.
Qed.

Lemma inserts_then_erases_witness :
  distinct (map fst (identity_pairs 0 50)) = true /\
  Z.of_nat (length (identity_pairs 0 50)) < 65536 /\
  2 * Z.of_nat (length (identity_pairs 0 50)) + 2 <= Z.of_nat 102 /\
  (length [7; 30; 7; 99] <= 19)%nat /\
  exists b,
    (b1 <- insert_all (sl := page_slack 0) 102 BTree.create
             (identity_pairs 0 50) ;;
     erase_all (sl := page_slack 0) 102 b1 [7; 30; 7; 99]) = Done b /\
    forall k, lookup_value (sl := page_slack 0) 102 b k
              = Done (if existsb (Z.eqb k) [7; 30; 7; 99] then None
                      else map_of (identity_pairs 0 50) k).
Proof.
  assert (H1 : distinct (map fst (identity_pairs 0 50)) = true)
    by (vm_compute; reflexivity).
  assert (H2 : Z.of_nat (length (identity_pairs 0 50)) < 65536)
    by (vm_compute; reflexivity).
  assert (H3 : 2 * Z.of_nat (length (identity_pairs 0 50)) + 2
               <= Z.of_nat 102)
    by (simpl; lia).
  assert (H4 : (length [7; 30; 7; 99] <= 19)%nat) by (simpl; lia).
  split; [exact H1 |]. split; [exact H2 |]. split; [exact H3 |].
  split; [exact H4 |].
  exact (inserts_then_erases 0 (identity_pairs 0 50) [7; 30; 7; 99] 102%nat
           H1 H2 H3 H4).
Defined.

(** X7.  In a tree built by inserts of [n < 65536] pairwise distinct keys
    into a fresh tree, with a loop budget of [2 * n + 2] iterations,
    [insert] of any key whose search path holds no full node returns
    without allocating a page; afterwards [lookup] returns the new value
    for that key, whether it was present or not, and the old values for all
    other keys. *)
Theorem insert_with_room_binds_key (j : Z) (kvs : list (Z * Z))
  (key value : Z) (fuel : nat) :
  distinct (map fst kvs) = true ->
  Z.of_nat (length kvs) < 65536 ->
  2 * Z.of_nat (length kvs) + 2 <= Z.of_nat fuel ->
  (b <- insert_all (sl := page_slack j) fuel BTree.create kvs ;;
   has_room (sl := page_slack j) fuel b key) = Done true ->
  exists b b',
    insert_all (sl := page_slack j) fuel BTree.create kvs = Done b /\
    BTree.insert (sl := page_slack j) fuel b key value = Done b' /\
    BTree.next_page_id b' = BTree.next_page_id b /\
    forall k, lookup_value (sl := page_slack j) fuel b' k
              = Done (if k =? key then Some value else map_of kvs k).
Proof.
  intros Hd Hlen Hfuel Hroom.
  destruct kvs as [| kv kvs].
  - exists BTree.create.
    destruct (small_tree_run (sl := page_slack j) [key] fuel ltac:(lia)
                ltac:(cbn; unfold kCapacity; lia) [Insert key value]
                BTree.create (fun _ => None) small_tree_fresh)
      as (b' & Hrun & Hsmall).
    + intros k Hk. exfalso. apply Hk. reflexivity.
    + intros k Hk. exact Hk.
    + exists b'. split; [reflexivity |]. split; [exact Hrun |].
      split.
      * destruct Hsmall as [(Hroot & _) | (_ & Hnext & _)];
          [| rewrite Hnext; reflexivity].
        cbn [run_ops run_op fold_left bind] in Hrun.
        unfold BTree.insert in Hrun. cbn [BTree.root BTree.create] in Hrun.
        exfalso. revert Hrun Hroot. clear.
        destruct fuel as [| f]; [discriminate |].
        cbn [BTree.insert_loop]. unfold BTree.insert_iter.
        cbn [BTree.frames BTree.fix_page BTree.log zero_page is_leaf level
             count].
        cbn [Z.eqb Z.ltb Z.compare].
        destruct (LeafNode.insert _ key value) as [n | |];
          cbn [bind]; try discriminate.
        intros Hrun Hroot. injection Hrun as <-. discriminate Hroot.
      * intros k.
        apply (small_tree_lookup (sl := page_slack j) b' _ k fuel Hsmall).
        lia.
  - destruct (built_tree j kv kvs fuel Hd Hlen Hfuel)
      as (b & h & rng & Hins & Ht & Hh & _).
    rewrite Hins in Hroom. cbn [bind] in Hroom. unfold has_room in Hroom.
    pose proof Ht as ((_ & r & Hroot & _) & _).
    rewrite Hroot in Hroom.
    destruct (insert_with_room (sl := page_slack j) b h _ rng r key value
                fuel (tree_is_search_tree _ _ _ _ Ht) Hroot Hroom)
      as (b' & Hrun & Ht' & Hnext & _).
    exists b, b'. split; [exact Hins |]. split; [exact Hrun |].
    split; [exact Hnext |]. intros k.
    rewrite (lookup_on_search_tree b' h _ rng Ht') by lia.
    reflexivity.
Qed.

Lemma insert_with_room_binds_key_witness :
  distinct (map fst (identity_pairs 0 43)) = true /\
  Z.of_nat (length (identity_pairs 0 43)) < 65536 /\
  2 * Z.of_nat (length (identity_pairs 0 43)) + 2 <= Z.of_nat 88 /\
  (b <- insert_all (sl := page_slack 0) 88 BTree.create
          (identity_pairs 0 43) ;;
   has_room (sl := page_slack 0) 88 b 5) = Done true /\
  exists b b',
    insert_all (sl := page_slack 0) 88 BTree.create (identity_pairs 0 43)
    = Done b /\
    BTree.insert (sl := page_slack 0) 88 b 5 500 = Done b' /\
    BTree.next_page_id b' = BTree.next_page_id b /\
    forall k, lookup_value (sl := page_slack 0) 88 b' k
              = Done (if k =? 5 then Some 500
                      else map_of (identity_pairs 0 43) k).
Proof.
  assert (H1 : distinct (map fst (identity_pairs 0 43)) = true)
    by (vm_compute; reflexivity).
  assert (H2 : Z.of_nat (length (identity_pairs 0 43)) < 65536)
    by (vm_compute; reflexivity).
  assert (H3 : 2 * Z.of_nat (length (identity_pairs 0 43)) + 2
               <= Z.of_nat 88)
    by (simpl; lia).
  assert (H4 : (b <- insert_all (sl := page_slack 0) 88 BTree.create
                       (identity_pairs 0 43) ;;
                has_room (sl := page_slack 0) 88 b 5) = Done true)
    by (vm_compute; reflexivity).
  split; [exact H1 |]. split; [exact H2 |]. split; [exact H3 |].
  split; [exact H4 |].
  exact (insert_with_room_binds_key 0 (identity_pairs 0 43) 5 500 88%nat
           H1 H2 H3 H4).
Defined.

(** ** The shape of the tree the inserts build *)

(** X8.  Inserting [n] pairwise distinct keys, [0 < n < 65536], into a
    fresh tree, with a loop budget of [2 * n + 2] iterations, builds a
    balanced, sorted tree: every allocated page is a node whose children
    are allocated pages exactly one level below it, the root is at the top
    level, which is at most [n], every leaf has strictly increasing keys,
    every inner node has at least two children and strictly increasing
    separators, and every leaf other than the root holds at least 20
    entries. *)
Theorem inserts_build_balanced_tree (j : Z) (kvs : list (Z * Z))
  (fuel : nat) :
  distinct (map fst kvs) = true ->
  0 < Z.of_nat (length kvs) < 65536 ->
  2 * Z.of_nat (length kvs) + 2 <= Z.of_nat fuel ->
  exists b h,
    insert_all (sl := page_slack j) fuel BTree.create kvs = Done b /\
    structure_ok b h /\ h <= Z.of_nat (length kvs) /\ min_fill b 20 /\
    forall p, 0 <= p < BTree.next_page_id b ->
      (level (BTree.frames b p) = 0 ->
       keys_increasing (BTree.frames b p) (count (BTree.frames b p))) /\
      (level (BTree.frames b p) <> 0 ->
       2 <= count (BTree.frames b p) /\
       keys_increasing (BTree.frames b p) (count (BTree.frames b p) - 1)).
Proof.
  intros Hd Hlen Hfuel.
  destruct kvs as [| kv kvs]; [cbn in Hlen; lia |].
  destruct (built_tree j kv kvs fuel Hd ltac:(lia) Hfuel)
    as (b & h & rng & Hins & Ht & Hh & Hfill).
  exists b, h. split; [exact Hins |].
  pose proof Ht as (Hst & Hrng & _).
  split; [exact Hst |]. split; [exact Hh |]. split; [exact Hfill |].
  intros p Hp.
  pose proof Hst as ((_ & Hok & _) & _).
  destruct (Hok p Hp) as ((Hlk & _) & _ & Hc & _).
  destruct (Hrng p Hp) as (Hleaf & Hinner).
  unfold kCapacity in *. split.
  - intros Hl. destruct (Hleaf Hl) as (Hord & _).
    apply keys_ordered_increasing; [rewrite Hlk; simpl; lia | exact Hord].
  - intros Hl. destruct (Hinner Hl) as (H2 & Hord & _).
    split; [exact H2 |].
    apply keys_ordered_increasing; [rewrite Hlk; simpl; lia | exact Hord].
Qed.

Lemma inserts_build_balanced_tree_witness :
  distinct (map fst (identity_pairs 0 50)) = true /\
  0 < Z.of_nat (length (identity_pairs 0 50)) < 65536 /\
  2 * Z.of_nat (length (identity_pairs 0 50)) + 2 <= Z.of_nat 102 /\
  exists b h,
    insert_all (sl := page_slack 0) 102 BTree.create (identity_pairs 0 50)
    = Done b /\
    structure_ok b h /\ h <= Z.of_nat (length (identity_pairs 0 50)) /\
    min_fill b 20 /\
    forall p, 0 <= p < BTree.next_page_id b ->
      (level (BTree.frames b p) = 0 ->
       keys_increasing (BTree.frames b p) (count (BTree.frames b p))) /\
      (level (BTree.frames b p) <> 0 ->
       2 <= count (BTree.frames b p) /\
       keys_increasing (BTree.frames b p) (count (BTree.frames b p) - 1)).
Proof.
  assert (H1 : distinct (map fst (identity_pairs 0 50)) = true)
    by (vm_compute; reflexivity).
  assert (H2 : 0 < Z.of_nat (length (identity_pairs 0 50)) < 65536)
    by (simpl; lia).
  assert (H3 : 2 * Z.of_nat (length (identity_pairs 0 50)) + 2
               <= Z.of_nat 102)
    by (simpl; lia).
  split; [exact H1 |]. split; [exact H2 |]. split; [exact H3 |].
  exact (inserts_build_balanced_tree 0 (identity_pairs 0 50) 102%nat
           H1 H2 H3).
Defined.

(** ** The calls to the buffer manager *)

(** X9.  Whenever [lookup] returns, it has changed nothing but the
    history of buffer-manager calls: it wrote no page and released none as
    dirty, fixed every page in shared mode, released every page it fixed
    and no other, and held at most two pages at a time (a node and the
    child it moves to). *)
Theorem lookup_releases_its_pages {sl : Slack} (fuel : nat) (b : BTree.t)
  (key : Z) (v : option Z) (b' : BTree.t) :
  BTree.lookup fuel b key = Done (v, b') ->
  BTree.frames b' = BTree.frames b /\ BTree.root b' = BTree.root b /\
  BTree.next_page_id b' = BTree.next_page_id b /\
  exists new,
    adds b b' new /\ read_only new = true /\ fixes_with false new = true /\
    pins_after [] new = Some [] /\ (peak_pins [] new <= 2)%nat.
Proof.
  intros H.
  destruct (lookup_only_reads _ _ _ _ _ H) as (Hf & Hr & Hn & _).
  split; [exact Hf |]. split; [exact Hr |]. split; [exact Hn |].
  unfold BTree.lookup in H. destruct (BTree.root b) as [r |].
  - apply lookup_loop_pins in H.
    destruct H as (new & Hadd & Hro & Hrun).
    assert (Hall : pinned_run false 2 [] ([FixPage r false] ++ new) []).
    { apply (pinned_run_app _ _ _ _ [r]); [| exact Hrun].
      split; [reflexivity |]. split; [cbn; lia |]. split; reflexivity. }
    destruct Hall as (Ha & Hb & _ & Hd).
    exists ([FixPage r false] ++ new).
    split; [| split; [| split; [exact Hd | split; [exact Ha | exact Hb]]]].
    + apply (adds_trans b (BTree.fix_page b r false) _ [FixPage r false]);
        [reflexivity | exact Hadd].
    + unfold read_only in *. rewrite forallb_app, Hro. reflexivity.
  - injection H as _ <-. exists [].
    split; [reflexivity |]. split; [reflexivity |].
    split; [reflexivity |]. split; [reflexivity | cbn; lia].
Qed.

Lemma lookup_releases_its_pages_witness :
  exists v b',
    BTree.lookup (sl := strict) 1 full_leaf_tree 5 = Done (v, b') /\
    BTree.frames b' = BTree.frames full_leaf_tree /\
    BTree.root b' = BTree.root full_leaf_tree /\
    BTree.next_page_id b' = BTree.next_page_id full_leaf_tree /\
    exists new,
      adds full_leaf_tree b' new /\ read_only new = true /\
      fixes_with false new = true /\
      pins_after [] new = Some [] /\ (peak_pins [] new <= 2)%nat.
Proof.
  eexists. eexists.
  split; [vm_compute; reflexivity |].
  apply (@lookup_releases_its_pages strict 1%nat full_leaf_tree 5 (Some 5)).
  vm_compute. reflexivity.
Defined.

(** X10.  Whenever [insert] returns, it has released every page it fixed
    and no other; it fixed every page in exclusive mode, wrote only pages
    that were fixed at that moment, and held at most three pages at a time
    (a node, its parent and the new sibling or the new root). *)
Theorem insert_releases_its_pages {sl : Slack} (fuel : nat) (b : BTree.t)
  (key value : Z) (b' : BTree.t) :
  BTree.insert fuel b key value = Done b' ->
  exists new,
    adds b b' new /\ fixes_with true new = true /\
    pins_after [] new = Some [] /\ (peak_pins [] new <= 3)%nat /\
    writes_while_pinned [] new = true.
Proof.
  intros H. apply insert_pins in H.
  destruct H as (new & Hadd & Ha & Hb & Hc & Hd).
  exists new. split; [exact Hadd |]. split; [exact Hd |].
  split; [exact Ha |]. split; [exact Hb | exact Hc].
Qed.

Lemma insert_releases_its_pages_witness :
  exists b',
    BTree.insert (sl := page_slack 0) 3 full_leaf_tree 50 50 = Done b' /\
    exists new,
      adds full_leaf_tree b' new /\ fixes_with true new = true /\
      pins_after [] new = Some [] /\ (peak_pins [] new <= 3)%nat /\
      writes_while_pinned [] new = true.
Proof.
  eexists.
  split; [vm_compute; reflexivity |].
  apply (@insert_releases_its_pages (page_slack 0) 3%nat full_leaf_tree
           50 50).
  vm_compute. reflexivity.
Defined.

(** X11.  Whenever [erase] returns, it has released every page it fixed
    and no other; it held one page at a time, each node being released
    before its child is fixed; it fixed every page in shared mode, also the
    leaf it writes; it wrote at most two pages, and it changed neither
    [root] nor [next_page_id], so no page is ever given back. *)
Theorem erase_releases_its_pages {sl : Slack} (fuel : nat) (b : BTree.t)
  (key : Z) (b' : BTree.t) :
  BTree.erase fuel b key = Done b' ->
  BTree.root b' = BTree.root b /\
  BTree.next_page_id b' = BTree.next_page_id b /\
  exists new,
    adds b b' new /\ fixes_with false new = true /\
    pins_after [] new = Some [] /\ (peak_pins [] new <= 1)%nat /\
    (length (written_pages new) <= 2)%nat.
Proof.
  unfold BTree.erase. intros H.
  destruct (BTree.root b) as [r |] eqn:Hroot.
  - unfold BTree.get_initial_node in H.
    destruct (BTree.erase_descend fuel _ r None key)
      as [[[c p] b1] | |] eqn:Hd; cbn [bind] in H; try discriminate.
    apply erase_descend_pins in Hd.
    destruct Hd as (new & Hadd & Hro & (Hp1 & Hp2 & _ & Hp4) & Hr1 & Hn1).
    cbn [BTree.root BTree.next_page_id BTree.fix_page BTree.log] in Hr1, Hn1.
    destruct (LeafNode.erase _ key) as [[leaf' w] | |];
      cbn [bind] in H; try discriminate.
    set (b2 := if w then BTree.store b1 c leaf' else b1) in H.
    assert (H2 : exists ws2, adds b1 b2 ws2 /\
                   (ws2 = [] \/ ws2 = [WritePage c]) /\
                   BTree.root b2 = BTree.root b1 /\
                   BTree.next_page_id b2 = BTree.next_page_id b1).
    { unfold b2. destruct w.
      - exists [WritePage c]. split; [reflexivity |].
        split; [right; reflexivity | split; reflexivity].
      - exists []. split; [reflexivity |].
        split; [left; reflexivity | split; reflexivity]. }
    clearbody b2. destruct H2 as (ws2 & Hadd2 & Hws2 & Hr2 & Hn2).
    assert (H3 : exists b3 ws3,
                   b' = BTree.unfix_page b3 c true /\ adds b2 b3 ws3 /\
                   (ws3 = [] \/ exists q, ws3 = [WritePage q]) /\
                   BTree.root b3 = BTree.root b2 /\
                   BTree.next_page_id b3 = BTree.next_page_id b2).
    { assert (Hsame : forall b3, Done b3 = Done b2 ->
                exists b3' ws3,
                  BTree.unfix_page b3 c true = BTree.unfix_page b3' c true /\
                  adds b2 b3' ws3 /\
                  (ws3 = [] \/ exists q, ws3 = [WritePage q]) /\
                  BTree.root b3' = BTree.root b2 /\
                  BTree.next_page_id b3' = BTree.next_page_id b2).
      { intros b3 He. injection He as ->. exists b2, [].
        split; [reflexivity |]. split; [reflexivity |].
        split; [left; reflexivity | split; reflexivity]. }
      destruct p as [pp |].
      - destruct (count (BTree.frames b2 c) <=? 0).
        + destruct (BTree.remove_from_parent b2 key pp) as [b3 | |] eqn:Hrm;
            cbn [bind] in H; try discriminate.
          injection H as <-.
          apply remove_from_parent_writes in Hrm.
          destruct Hrm as [-> | (n & ->)].
          * exists b2, []. split; [reflexivity |]. split; [reflexivity |].
            split; [left; reflexivity | split; reflexivity].
          * eexists. exists [WritePage pp].
            split; [reflexivity |]. split; [reflexivity |].
            split; [right; exists pp; reflexivity | split; reflexivity].
        + cbn [bind] in H. injection H as <-. exists b2, [].
          split; [reflexivity |]. split; [reflexivity |].
          split; [left; reflexivity | split; reflexivity].
      - cbn [bind] in H. injection H as <-. exists b2, [].
        split; [reflexivity |]. split; [reflexivity |].
        split; [left; reflexivity | split; reflexivity]. }
    destruct H3 as (b3 & ws3 & -> & Hadd3 & Hws3 & Hr3 & Hn3).
    cbn [BTree.root BTree.next_page_id BTree.unfix_page BTree.log].
    split; [congruence |]. split; [congruence |].
    assert (Hws : ws2 ++ ws3 = [] \/
                  (exists p0, ws2 ++ ws3 = [WritePage p0]) \/
                  (exists p0 q, ws2 ++ ws3 = [WritePage p0; WritePage q])).
    { destruct Hws2 as [-> | ->]; destruct Hws3 as [-> | (q & ->)]; cbn.
      - left. reflexivity.
      - right. left. exists q. reflexivity.
      - right. left. exists c. reflexivity.
      - right. right. exists c, q. reflexivity. }
    destruct (erase_tail_pins c (ws2 ++ ws3) Hws)
      as (Ht1 & Ht2 & Ht3 & Ht4 & Ht5).
    assert (Hnow : written_pages new = []).
    { revert Hro. clear. induction new as [| e new IH]; [reflexivity |].
      cbn [read_only forallb]. intros H. apply andb_true_iff in H.
      destruct H as [He H]. cbn [written_pages flat_map].
      destruct e as [? ? | ? ? | ?]; try discriminate;
        cbn [app]; apply IH; exact H. }
    exists ([FixPage r false] ++ new ++ (ws2 ++ ws3) ++ [UnfixPage c true]).
    split; [| split; [| split; [| split]]].
    + apply (adds_trans b (BTree.fix_page b r false) _ [FixPage r false]);
        [reflexivity |].
      apply (adds_trans _ b1 _ new); [exact Hadd |].
      apply (adds_trans _ b3 _ (ws2 ++ ws3) [UnfixPage c true]);
        [| reflexivity].
      apply (adds_trans _ b2); assumption.
    + unfold fixes_with in *. cbn [app forallb Bool.eqb].
      rewrite forallb_app, Hp4, Ht3. reflexivity.
    + cbn [app pins_after pin_step].
      rewrite (pins_after_app _ _ _ _ Hp1). exact Ht1.
    + cbn [app peak_pins pin_step]. apply Nat.max_lub; [cbn; lia |].
      apply (peak_pins_app _ _ _ [c]); assumption.
    + unfold written_pages in *. cbn [app flat_map].
      rewrite flat_map_app, Hnow, Ht4. cbn [app]. exact Ht5.
  - injection H as <-. split; [exact Hroot |]. split; [reflexivity |].
    exists []. split; [reflexivity |]. split; [reflexivity |].
    split; [reflexivity |]. split; cbn; lia.
Qed.

Lemma erase_releases_its_pages_witness :
  exists b',
    BTree.erase (sl := page_slack 0) 1 full_leaf_tree 5 = Done b' /\
    BTree.root b' = BTree.root full_leaf_tree /\
    BTree.next_page_id b' = BTree.next_page_id full_leaf_tree /\
    exists new,
      adds full_leaf_tree b' new /\ fixes_with false new = true /\
      pins_after [] new = Some [] /\ (peak_pins [] new <= 1)%nat /\
      (length (written_pages new) <= 2)%nat.
Proof.
  eexists.
  split; [vm_compute; reflexivity |].
  apply (@erase_releases_its_pages (page_slack 0) 1%nat full_leaf_tree 5).
  vm_compute. reflexivity.
Defined.

(** ** Arbitrary keys *)

(** X12.  Inserts of [n] arbitrary keys, repeated or not, [0 < n < 65536],
    into a fresh tree, with a loop budget of [2 * n + 2] iterations, all
    return and leave a well-formed, balanced tree whose root is at a level
    of at most [n]; only the slot past the end of a full node's arrays has
    to be readable.  On that tree every [lookup] returns, with checked
    indexing, after fixing exactly one page per level, whatever the key,
    and every [erase] returns. *)
Theorem inserts_of_any_keys_keep_shape (j : Z) (kvs : list (Z * Z))
  (fuel : nat) :
  0 < Z.of_nat (length kvs) < 65536 ->
  2 * Z.of_nat (length kvs) + 2 <= Z.of_nat fuel ->
  exists b h,
    insert_all (sl := page_slack j) fuel BTree.create kvs = Done b /\
    structure_ok b h /\ h <= Z.of_nat (length kvs) /\
    (forall key,
     exists v b' new,
       BTree.lookup (sl := strict) fuel b key = Done (v, b') /\
       adds b b' new /\ Z.of_nat (fix_count new) = h + 1) /\
    (forall key,
     exists b', BTree.erase (sl := page_slack j) fuel b key = Done b').
Proof.
  intros Hlen Hfuel.
  destruct kvs as [| kv kvs]; [cbn in Hlen; lia |].
  assert (Hsame : insert_all (sl := page_slack j) fuel BTree.create
                    (kv :: kvs)
                  = insert_all (sl := page_slack j) fuel empty_root
                      (kv :: kvs))
    by (rewrite !insert_all_cons; reflexivity).
  rewrite Hsame.
  destruct empty_root_tree as (rng & Hst & _).
  destruct (insert_all_any_keys j fuel (kv :: kvs) empty_root 0 Hst)
    as (b & h & Hins & Hst' & Hh).
  - lia.
  - lia.
  - unfold pages_per_insert. cbn [BTree.next_page_id empty_root]. lia.
  - exists b, h. split; [exact Hins |]. split; [exact Hst' |].
    split; [lia |]. split; intros key.
    + apply (lookup_on_shape (sl := strict) b h key fuel Hst'). lia.
    + apply (erase_on_shape (sl := page_slack j) ltac:(discriminate)
               b h key fuel Hst').
      lia.
Qed.

Lemma inserts_of_any_keys_keep_shape_witness :
  0 < Z.of_nat (length (identity_pairs 0 43 ++ identity_pairs 20 5))
  < 65536 /\
  2 * Z.of_nat (length (identity_pairs 0 43 ++ identity_pairs 20 5)) + 2
  <= Z.of_nat 98 /\
  exists b h,
    insert_all (sl := page_slack 0) 98 BTree.create
      (identity_pairs 0 43 ++ identity_pairs 20 5) = Done b /\
    structure_ok b h /\
    h <= Z.of_nat (length (identity_pairs 0 43 ++ identity_pairs 20 5)) /\
    (forall key,
     exists v b' new,
       BTree.lookup (sl := strict) 98 b key = Done (v, b') /\
       adds b b' new /\ Z.of_nat (fix_count new) = h + 1) /\
    (forall key,
     exists b', BTree.erase (sl := page_slack 0) 98 b key = Done b').
Proof.
  assert (H1 : 0 < Z.of_nat (length (identity_pairs 0 43
                                       ++ identity_pairs 20 5)) < 65536)
    by (simpl; lia).
  assert (H2 : 2 * Z.of_nat (length (identity_pairs 0 43
                                       ++ identity_pairs 20 5)) + 2
               <= Z.of_nat 98)
    by (simpl; lia).
  split; [exact H1 |]. split; [exact H2 |].
  exact (inserts_of_any_keys_keep_shape 0
           (identity_pairs 0 43 ++ identity_pairs 20 5) 98%nat H1 H2).
Defined.

(** X13.  However many keys are inserted into a fresh tree, repeated or
    not: either every [insert] returns and the tree is well formed and
    balanced at the end, or the state before one of the inserts had reached
    a limit of the counters: the root at level 65535, the 64-bit page
    counter within [4 * height + 4] of wrapping, or a loop budget below
    [2 * height + 2] iterations. *)
Theorem inserts_return_up_to_the_limits (j : Z) (kvs : list (Z * Z))
  (fuel : nat) :
  (0 < length kvs)%nat ->
  (exists b h,
      insert_all (sl := page_slack j) fuel BTree.create kvs = Done b /\
      structure_ok b h) \/
  (exists i b,
      (i < length kvs)%nat /\
      insert_all (sl := page_slack j) fuel BTree.create (firstn i kvs)
      = Done b /\
      at_limit fuel b).
Proof.
  intros Hlen. destruct kvs as [| kv kvs]; [cbn in Hlen; lia |].
  assert (Hsame : forall l,
             insert_all (sl := page_slack j) fuel BTree.create (kv :: l)
             = insert_all (sl := page_slack j) fuel empty_root (kv :: l))
    by (intros l; rewrite !insert_all_cons; reflexivity).
  destruct empty_root_tree as (rng & Hst & _).
  destruct (insert_all_or_limit j fuel (kv :: kvs) empty_root 0 Hst)
    as [(b & h & Hrun & Hst' & _) | (i & b & Hi & Hrun & Hlim)].
  - left. exists b, h. rewrite Hsame. split; [exact Hrun | exact Hst'].
  - right. destruct i as [| i].
    + exists 0%nat, BTree.create. split; [exact Hi |].
      split; [reflexivity |].
      cbn [firstn] in Hrun. injection Hrun as <-. exact Hlim.
    + exists (S i), b. split; [exact Hi |]. cbn [firstn] in *.
      rewrite Hsame. split; [exact Hrun | exact Hlim].
Qed.

Lemma inserts_return_up_to_the_limits_witness :
  (0 < length (identity_pairs 0 50 ++ identity_pairs 0 50))%nat /\
  ((exists b h,
       insert_all (sl := page_slack 0) 4 BTree.create
         (identity_pairs 0 50 ++ identity_pairs 0 50) = Done b /\
       structure_ok b h) \/
   (exists i b,
       (i < length (identity_pairs 0 50 ++ identity_pairs 0 50))%nat /\
       insert_all (sl := page_slack 0) 4 BTree.create
         (firstn i (identity_pairs 0 50 ++ identity_pairs 0 50)) = Done b /\
       at_limit 4 b)).
Proof.
  assert (H1 : (0 < length (identity_pairs 0 50 ++ identity_pairs 0 50))%nat)
    by (simpl; lia).
  split; [exact H1 |].
  exact (inserts_return_up_to_the_limits 0
           (identity_pairs 0 50 ++ identity_pairs 0 50) 4%nat H1).
Defined.
